(* ===== verification/_CoqProject ===== *)
-Q . S2P
Prelude.v
Hex.v
Utf8.v
Signature.v
CertId.v
Hash.v
Keys.v
Certificate.v
Csr.v
TrustStore.v
Verifier.v
VerifyChain.v
ConnectionId.v
Codec.v
Mpsc.v
Dispatch.v
Runtime.v
Fsm.v
Actor.v
Ffi.v
FfiTasks.v
World.v
Entrypoint.v
Ctx.v
LogSink.v
System.v
Shutdown.v
Symbolic.v
Delivery.v
Harness.v
Integration.v
TestIssuer.v
TestChains.v
DelegateTests.v
TrustTests.v
Schedules.v
ClientTests.v
FuzzFfi.v
FuzzRuns.v
FfiTests.v
ActorTests.v
