(* ===== verification/Prelude.v ===== *)
(** * Verification of libdd-rc

    libdd-rc is the client library of a remote-configuration service.  A host
    application embeds it through a C interface, opens connections on its behalf,
    and hands it the messages of the server; the library runs the protocol,
    decides which requests may reach the host, and answers the server.  This
    library of Rocq files is a shallow embedding of its Rust crates (under
    src/lib/) and the theorems that make them correct.

    ** The program and where it is modelled

    The crates, from the bottom up, and the files that model them:

    - rc-crypto: [Hex] (hex.rs, cached_string_repr.rs), [Signature]
      (signature.rs), [CertId] (certificate/id/), [Hash] (hash/, fingerprint.rs,
      keys/key_id.rs, keys/public.rs), [Keys] (keys/private.rs, signer.rs,
      [PublicKey::verify]), [Certificate] (certificate.rs, serial_number.rs,
      validity.rs, and the untrusted wrappers and roots built on them:
      rc-x509-trust/src/cert/untrusted.rs, rc-x509-roots), [Csr]
      (certificate/csr.rs, issuer.rs), [ConnectionId] (connection_id/);
    - rc-x509-trust: [TrustStore] (trust_store/, chain/build_unverified.rs,
      chain/unverified.rs), [VerifyChain] (chain/verify_chain.rs,
      endpoint_hostname.rs);
    - rc-x509-client: [Codec] (codec/ and the values it carries), [Dispatch]
      (dispatch.rs), [Runtime] (handler/delegate/retry.rs, handler/hello.rs,
      metrics.rs, host_runtime/api.rs), [Verifier] (handler/verifier.rs), [Fsm]
      (handler/delegate/), [Actor] (handler/actor.rs), [Entrypoint]
      (entrypoint.rs);
    - rc-x509-ffi: [Ffi] (connection.rs: the exported functions and
      [FFIConnection]; io_handle.rs), [FfiTasks] (connection.rs: [io_task] and
      [dispatch_task]), [World] (the environment of a connection as this layer
      provides it, with the runtime of ctx.rs), [Ctx] (ctx.rs, and
      shutdown_signal.rs and abort_on_drop.rs of the client crate), [LogSink]
      (log_sink.rs);
    - rc-x509-test-client-harness: [Harness] (client.rs, io.rs, and [encode] and
      [decode] of rc-x509-proto), [Integration] (tests/);
    - the tests and fuzz targets that drive whole parts of the library:
      [TestIssuer] (rc-x509-trust/src/test_issuer/ and chain/mod.rs: certificates,
      chains and their mutations) with its theorems in [TestChains];
      [DelegateTests] (the unit tests of message_delegate.rs, with
      fsm/test_helpers.rs, mocks/io.rs and mock_verifier.rs), [ActorTests] (those
      of actor.rs and retry.rs), [ClientTests] (those of dispatch.rs and
      shutdown_signal.rs), [TrustTests] (those of cache.rs, store.rs and
      build_unverified.rs), [FfiTests] (those of the FFI crate's connection.rs);
      [Delivery] (the fuzz target of the client crate); [FuzzFfi] (those of the
      FFI crate, and a unit test of connection.rs) with its theorems in
      [FuzzRuns].

    [System] composes the actor, the FFI connection, its two tasks and the host
    of one connection, [Shutdown] the worker of a context with the actors of its
    connections.  [Utf8] holds what the sources use of Rust's strings,
    [Mpsc] is the interface to the channels everything is connected by,
    [Symbolic] the rules by which whole tests are run on unknown values,
    [Schedules] the argument by which threads under a fair schedule come to an
    end, and this file the shared prelude.

    A message of the server enters by [Ffi.rc_conn_recv], is decoded by
    [Codec.ServerToClient_try_from], queued, taken by [Actor.actor_loop] and
    processed by [Fsm.MessageDelegate_process].  Replies go by
    [Runtime.retry_send] and [Ffi.IOHandle_send] to [FfiTasks.io_task], which
    calls the host.  Dispatch requests go by
    [Dispatch.DispatchPublisher_dispatch] to [FfiTasks.dispatch_task], and the
    host's answers come back by [Ffi.rc_conn_dispatch_result] and
    [Actor.dispatch_response].  [Entrypoint.handle_connection_events] starts and
    stops the actors as the host's connections come and go.

    ** How the code is modelled

    - Structs are records and enums inductive types with the source's fields and
      constructors; bytes are [Byte.byte], buffers lists of them; integers keep
      their width where it matters ([wrap], [FfiTasks.len_u32],
      [TrustStore.weight_estimator]).
    - Fallible functions return [result]; a function that can panic returns an
      [option] ([panics]), whose [None] is the panic.
    - Code with effects is a [prog]: a function from the state it shares with the
      rest of the program to an [exec], which is [Done], [Panic] or [Blocked],
      each with the state left behind.
    - Async code is sequential between suspensions; where it waits, a parameter
      [yield] is whatever the rest of the program does meanwhile.  Theorems
      quantify over it, with the restrictions they state.
    - Code that is not in the repository is a class of operations ([AwsDigest],
      [X509Lib], [AwsEcdsa], [Rcgen], [RcgenIssue], [UuidLib], [Prost], [Moka],
      [Webpki], [Mpsc], [TokenLib], [TracingLib]) with its documented behaviour as
      laws; every theorem that assumes laws is instantiated at an implementation
      that satisfies them.  The laws of [Moka] let the cache forget at any call;
      [TrustTests.MokaRoomy] adds that it does not while everything fits.
    - Components meet at interfaces: chain building is proved against
      [TrustStore.CertCacheContract], which the in-memory cache satisfies; the
      state machine and the retries against [Runtime.ConnEnv], which
      [World.world_laws] and [World.world_sched] discharge for the FFI layer.
      The actor and the main task add the operations they need of the async
      runtime: [Actor.ActorEnv], which [System.sys_actor_env] discharges with the
      tasks and the host interleaved by any schedule and [Harness.harness_actor]
      with the test server, and [Entrypoint.EntryEnv], which [Ctx.ctx_laws] and
      [Ctx.ctx_sched] discharge with the event stream of a context.  How the
      actors that the main task joins end is a parameter of [Ctx], which
      [Shutdown.actor_result] gives by running them.
    - Threads interleave at explicit points: a schedule of steps in [System],
      [Ctx], [FuzzFfi], [FfiTests] and [ClientTests], a step relation in
      [LogSink].
    - A test is a program over the world it drives, or a script whose next step
      runs when the client waits; a failed assertion, or a wait for what cannot
      come, keeps it from completing.  A generator of inputs is the predicate of
      what it can draw.
    - Logging is left out.

    ** Loops and fuel

    [TrustStore.build_loop] gets [MAX_INTERMEDIATES + 1] iterations, which the
    source's own bound makes enough ([build_chain_complete] shows it always
    returns).  Loops that wait ([retry_send], the sends on bounded channels, the
    actor, the tasks, the event loop) run for as long as the environment makes
    them, so they take a number of polls and are [Blocked] when it is used up.
    Safety theorems hold for every number of polls and every way the run ends;
    termination is stated separately, with the number that suffices:
    [retry_send_spec], [session_complete], [main_task_returns],
    [ctx_free_returns] (one poll of an actor more than its schedule has batches,
    [Shutdown.actor_run]), [one_log_sink]; the harness needs nine polls of the actor
    and three or five events ([harness_dispatch_roundtrip], [replay_rejected],
    [handshake_passes], [connection_metrics_passes]); the delivery target more
    polls than twice its messages ([delivery_completes]); the FFI targets and the
    FFI unit tests thirty rounds of any fair schedule ([dispatch_target_passes],
    [ffi_io_passes], [connection_tests_pass]), the tests of the shutdown signal
    thirteen ([signal_tests_pass]); the tests of the actor four polls
    ([actor_tests_pass]).

    ** What the theorems show

    - Identifiers and containers: hex rendering, signatures and certificates
      round-trip; equality and hashing of identifiers agree; conversions accept
      exactly the lengths they document ([colon_string_roundtrip],
      [signature_roundtrip], [signature_eq_spec], [cert_id_try_from_spec],
      [dangerous_eq_hash_coherent], [cert_ids_of_x509], [key_id_spec],
      [certificate_from_der_spec], [certificate_roundtrip]).
    - Signing requests: both constructors refuse exactly the names they document
      and otherwise ask for exactly their profile, signed by the key to certify
      ([new_leaf_spec], [new_intermediate_spec], [csr_well_formed]).
    - Trust: chain building returns exactly the linked chain to a root, within
      its bound; validation accepts exactly when one exists; the cache never
      returns a certificate that was not inserted; a certificate is trusted only
      if the three webpki checks pass, so if it is signed through to the root with
      trusted algorithms by certificates for code signing ([build_chain_sound],
      [build_chain_complete], [validate_spec], [memory_cache_history],
      [weight_estimator_bounds], [verify_chain_spec]); the verifier built on it does not check
      signatures ([trust_store_does_not_attest]).
    - Protocol: connection identifiers bind both nonces; the state machine
      refines a reaction table; over whole sessions, replies have the documented
      shape and only admissible requests of authenticated connections are
      forwarded; the actor answers each dispatch result once
      ([connection_id_verify_spec], [connection_id_binding],
      [server_to_client_spec], [client_to_server_injective],
      [process_refines_table], [session_sent_shape],
      [session_dispatch_authentic], [session_complete], [actor_run_trace],
      [retry_send_spec], [dispatch_spec], [dispatch_error_codes]).
    - Host interface: connections follow their documented life cycle under any
      sequence of calls, invalid calls have no effect, release builds do not
      panic, and the tasks call the host with what was queued, in order
      ([ffi_lifecycle], [ffi_invalid_calls_inert], [ffi_release_never_panics],
      [ffi_dispatch_result_spec], [io_task_spec], [dispatch_task_spec]).
    - Main task: connections are started, superseded and stopped in a strict
      discipline, and shutdown terminates ([main_task_disciplined],
      [main_task_returns]); a cancelled actor ends, and freeing a context returns
      whatever the host did, unless an actor is in the deadlock of
      [dispatch_can_deadlock] ([cancelled_actor_ends], [ctx_free_returns]).
    - Composition: what the host's callbacks receive on one connection is
      explained by what the host put in, over every interleaving
      ([connection_end_to_end]); a request of the test server reaches the
      application and its response the server ([harness_dispatch_roundtrip]);
      concurrent calls install one log sink ([one_log_sink]).
    - Tests, for all inputs: the harness's tests and the unit tests of the
      delegate, the actor, the retries and the interconnect pass whatever is drawn,
      given a generator that works, a replayed connection identifier being rejected
      ([ping_pong_passes], [handshake_passes], [replay_rejected],
      [connection_metrics_passes], [delegate_tests_pass], [actor_tests_pass],
      [retry_tests_pass], [dispatch_tests_pass]); those of the FFI connection and of
      the shutdown signal under every fair interleaving of their threads
      ([connection_tests_pass], [state_tests_pass], [signal_tests_pass]); the
      certificate cache equals a map on every sequence of operations that fits it,
      and the tests of the store and of chain building pass on top of it
      ([cache_matches_map], [store_tests_pass], [building_tests_pass]); the fuzz targets
      complete on every input, those of the FFI under every fair interleaving of
      five threads and over any channels ([delivery_completes],
      [dispatch_target_passes], [ffi_io_passes], [threads_over_queues]); chain
      building finds every chain the issuer makes, accepts every forgery that
      only signatures show, and detects the other two mutations
      ([valid_chain_builds], [spuriously_built], [detected_while_building]).
    - Defects: the runtime has no timer, so a full outgoing queue panics the
      connection ([retry_send_needs_timer], [full_queue_panics]); publishing can
      wait for ever ([dispatch_can_deadlock]), and freeing the context with it
      ([ctx_free_returns]); the response queue can be full
      although every request is answered once ([reply_queue_can_fill]); parsing
      panics on some serial numbers ([certificate_from_der_spec]).

    ** Not modelled

    The rendering of log events and the [Valuable] implementations for them; the
    parts that only call other code: the protobuf types, generated at build
    time, and the build scripts; the timeout that the runtime grants to leftover
    tasks after the main task has ended.  [System] is one connection: two
    connections of a context share only the event stream, which is in [Ctx].
    The fuzzing build's shortcut around the connection-identifier check is left
    out: [Delivery] runs the check.  Of the tests of rc-x509-trust, two are not
    about this code but about what it calls: prop_eviction (which entries
    mini_moka evicts) and those of verify_chain.rs (which chains webpki accepts);
    two that make a long chain and a forged leaf by hand repeat cases of
    [valid_chain_builds] and [spuriously_built].  The unit tests of rc-crypto and of
    the codec call functions whose behaviour is proved here for all inputs.
    Timeouts in tests are bounds on polls or rounds.  Helpers for log assertions
    and the benches are left out. *)

From stdpp Require Import base option list strings numbers countable.
From Stdlib Require Import Strings.Byte NArith ZArith Lia.

(** ** Scope and results *)

Declare Scope rc_scope.
Delimit Scope rc_scope with rc.

(** Rust's [Result<A, E>]. *)
Inductive result (A E : Type) : Type :=
| Ok (a : A)
| Err (e : E).
Arguments Ok {A E} a.
Arguments Err {A E} e.

(** [Result::map] and [Result::map_err]. *)
Definition result_map {A B E} (f : A -> B) (r : result A E) : result B E :=
  match r with Ok a => Ok (f a) | Err e => Err e end.

Definition map_err {A E F} (f : E -> F) (r : result A E) : result A F :=
  match r with Ok a => Ok a | Err e => Err (f e) end.

(** [Option::ok_or]. *)
Definition ok_or {A E} (o : option A) (e : E) : result A E :=
  match o with Some a => Ok a | None => Err e end.

Definition is_ok {A E} (r : result A E) : bool :=
  match r with Ok _ => true | Err _ => false end.

(** The [?] operator: continue on [Ok], return early on [Err]. *)
Notation "'let?' x := e 'in' k" :=
  (match e with Ok x => k | Err err => Err err end)
  (at level 10, x name, e at level 100, k at level 200) : rc_scope.

(** A computation that may panic: [None] is an unwinding panic (a failed
    [assert!], [expect], [unwrap], slice index or [unreachable!]). *)
Abbreviation panics A := (option A) (only parsing).

(** ** Bytes and machine integers *)

Abbreviation u8 := Byte.byte.

#[export] Instance u8_eq_dec : EqDecision u8 := Byte.byte_eq_dec.

#[export] Instance u8_countable : Countable u8 :=
  inj_countable Byte.to_N Byte.of_N Byte.of_to_N.

(** The low [w] bits of [z]: what an [as] cast to an unsigned [w]-bit type and
    release-mode arithmetic at that width keep. *)
Definition wrap (w z : Z) : Z := (z mod 2 ^ w)%Z.

Definition u32_max : Z := (2 ^ 32 - 1)%Z.

Lemma wrap_small w z : (0 <= z < 2 ^ w)%Z -> wrap w z = z.
Proof. intros H. unfold wrap. by apply Z.mod_small. Qed.

Lemma wrap_range w z : (0 <= w)%Z -> (0 <= wrap w z < 2 ^ w)%Z.
Proof. intros H. apply Z.mod_pos_bound. lia. Qed.

Lemma Byte_to_N_inj b1 b2 : Byte.to_N b1 = Byte.to_N b2 -> b1 = b2.
Proof.
  intros H. pose proof (Byte.of_to_N b1) as E1. pose proof (Byte.of_to_N b2) as E2.
  rewrite H in E1. congruence.
Qed.

Lemma Byte_to_N_lt b : (Byte.to_N b < 256)%N.
Proof. pose proof (Byte.to_N_bounded b). lia. Qed.

(** ** Programs of one asynchronous task

    A task is a state transformer over the part of the system it shares with
    the other tasks and threads.  It completes with a value ([Done]), unwinds
    ([Panic]), or is still suspended at an [.await] when the poll budget of the
    model runs out ([Blocked]). *)
Inductive exec (S A : Type) : Type :=
| Done (a : A) (s : S)
| Panic (s : S)
| Blocked (s : S).
Arguments Done {S A} a s.
Arguments Panic {S A} s.
Arguments Blocked {S A} s.

Definition prog (S A : Type) : Type := S -> exec S A.

#[export] Instance prog_ret {S} : MRet (prog S) := fun A a s => Done a s.
#[export] Instance prog_bind {S} : MBind (prog S) := fun A B k m s =>
  match m s with
  | Done a s' => k a s'
  | Panic s' => Panic s'
  | Blocked s' => Blocked s'
  end.

(** Read and update the shared state. *)
Definition gets {S A} (f : S -> A) : prog S A := fun s => Done (f s) s.
Definition modify {S} (f : S -> S) : prog S () := fun s => Done tt (f s).
Definition panic {S A} : prog S A := fun s => Panic s.

(** [assert!]. *)
Definition assert {S} (b : bool) : prog S () := if b then mret tt else panic.

(** A computation that may panic, as a step of a task. *)
Definition of_panics {W A} (p : panics A) : prog W A := fun w =>
  match p with Some a => Done a w | None => Panic w end.

(** A [for] loop over a collection. *)
Fixpoint for_each {S A} (f : A -> prog S ()) (l : list A) : prog S () :=
  match l with
  | [] => mret tt
  | a :: l => f a ;; for_each f l
  end.

(** The state a run ends in, whichever way it ends. *)
Definition final {S A} (e : exec S A) : S :=
  match e with Done _ s => s | Panic s => s | Blocked s => s end.

Definition completed {S A} (e : exec S A) : bool :=
  match e with Done _ _ => true | _ => false end.

Lemma prog_bind_done {S A B} (m : prog S A) (k : A -> prog S B) s a s' :
  m s = Done a s' -> (m ≫= k) s = k a s'.
Proof. intros H. unfold mbind, prog_bind. by rewrite H. Qed.

Lemma prog_bind_inv {S A B} (m : prog S A) (k : A -> prog S B) s b s' :
  (m ≫= k) s = Done b s' ->
  exists a s1, m s = Done a s1 /\ k a s1 = Done b s'.
Proof. unfold mbind, prog_bind. destruct (m s) eqn:E; intros H; naive_solver. Qed.

(** A loop whose body completes wherever [I] holds, and keeps it. *)
Lemma for_each_ok {S A} (I : S -> Prop) (f : A -> prog S ()) l s :
  (forall a s, a ∈ l -> I s -> exists s', f a s = Done tt s' /\ I s') -> I s ->
  exists s', for_each f l s = Done tt s' /\ I s'.
Proof.
  revert s. induction l as [|a l IH]; intros s F Hs; simpl; [by exists s|].
  destruct (F a s ltac:(left) Hs) as (s1 & E1 & H1).
  destruct (IH s1) as (s2 & E2 & H2); [intros; apply F; [by right | done] | done|].
  exists s2. by rewrite (prog_bind_done _ _ _ _ _ E1).
Qed.

(** ** Proof automation *)

Create HintDb rc discriminated.
Create Rewrite HintDb rc_norm.
#[export] Hint Constants Transparent : rc.
#[export] Hint Rewrite @length_app @length_fmap @length_take @length_drop
  @length_replicate : rc_norm.

(** Case analysis on every scrutinee of the goal, then of the hypotheses, with
    the equations kept and simplified. *)
Ltac split_goal := repeat (case_match; simplify_eq/=).
Ltac split_all :=
  repeat match goal with
         | H : context [match ?x with _ => _ end] |- _ =>
             destruct x eqn:?; simplify_eq/=
         | |- context [match ?x with _ => _ end] => destruct x eqn:?; simplify_eq/=
         end.

(** ** Lists *)

(** [fixed_prefix n d l]: [l] copied to the front of an array of [n] copies of
    [d] (what [dst.clone_from_slice(src)] does on [&mut data[..src.len()]]). *)
Definition fixed_prefix {A} (n : nat) (d : A) (l : list A) : list A :=
  l ++ replicate (n - length l) d.

Lemma fixed_prefix_length {A} n (d : A) l :
  length l <= n -> length (fixed_prefix n d l) = n.
Proof. intros H. unfold fixed_prefix. autorewrite with rc_norm. lia. Qed.

Lemma fixed_prefix_take {A} n (d : A) l : take (length l) (fixed_prefix n d l) = l.
Proof. unfold fixed_prefix. by rewrite take_app_length. Qed.

Lemma suffix_app_inj {A} (l1 l2 k1 k2 : list A) :
  length k1 = length k2 -> l1 ++ k1 = l2 ++ k2 -> l1 = l2 /\ k1 = k2.
Proof. intros Hl H. apply app_inj_2 in H; [naive_solver | done]. Qed.

(** [find_map] of Rust iterators. *)
Fixpoint find_map {A B} (f : A -> option B) (l : list A) : option B :=
  match l with
  | [] => None
  | x :: l' => match f x with Some b => Some b | None => find_map f l' end
  end.

Lemma find_map_Some {A B} (f : A -> option B) l b :
  find_map f l = Some b -> exists l1 x l2, l = l1 ++ x :: l2 /\ f x = Some b /\
    Forall (fun y => f y = None) l1.
Proof.
  induction l as [|y l IH]; simpl; [done|]. destruct (f y) eqn:E.
  - intros [= <-]. by exists [], y, l.
  - intros H. destruct (IH H) as (l1 & x & l2 & -> & Hx & Hl).
    exists (y :: l1), x, l2. auto.
Qed.

Lemma find_map_None {A B} (f : A -> option B) l :
  find_map f l = None <-> Forall (fun y => f y = None) l.
Proof.
  induction l as [|y l IH]; simpl; [by split|]. rewrite Forall_cons_iff, <- IH.
  destruct (f y); split; [done | by intros [? _] | done | by intros [_ ?]].
Qed.

(** [Iterator::find]. *)
Fixpoint find_first {A} (p : A -> bool) (l : list A) : option A :=
  match l with
  | [] => None
  | x :: l' => if p x then Some x else find_first p l'
  end.

Lemma find_first_Some {A} (p : A -> bool) l x :
  find_first p l = Some x -> x ∈ l /\ p x = true.
Proof.
  induction l as [|y l IH]; simpl; [done|]. destruct (p y) eqn:E; intros H.
  - simplify_eq. split; [left | done].
  - destruct (IH H). split; [by right | done].
Qed.

Lemma find_first_None {A} (p : A -> bool) l :
  find_first p l = None <-> forall x, x ∈ l -> p x = false.
Proof.
  induction l as [|y l IH]; simpl.
  - split; [intros _ x Hx; by apply not_elem_of_nil in Hx | done].
  - destruct (p y) eqn:E; split.
    + done.
    + intros H. specialize (H y). rewrite E in H. discriminate H. left.
    + intros H x Hx. apply elem_of_cons in Hx as [->|Hx]; [done|]. by apply IH.
    + intros H. apply IH. intros x Hx. apply H. by right.
Qed.

(** ** Strings *)

Lemma append_empty_r (s : string) : (s +:+ "")%string = s.
Proof. induction s as [|a s IH]; [done|]. unfold String.append in *. simpl. by rewrite IH. Qed.

Lemma append_assoc (s1 s2 s3 : string) : (s1 +:+ s2) +:+ s3 = s1 +:+ (s2 +:+ s3).
Proof. induction s1 as [|a s IH]; [done|]. unfold String.append in *. simpl. by rewrite IH. Qed.

Lemma length_append (s1 s2 : string) :
  String.length (s1 +:+ s2) = String.length s1 + String.length s2.
Proof. induction s1 as [|a s IH]; [done|]. unfold String.append in *. simpl. by rewrite IH. Qed.

Lemma append_cons a (s1 s2 : string) : String a s1 +:+ s2 = String a (s1 +:+ s2).
Proof. done. Qed.

Lemma append_nil_l (s : string) : "" +:+ s = s.
Proof. done. Qed.

(** ** Slices *)

(** [&l[..n]]: the first [n] elements, a panic when [n] is out of range. *)
Definition slice_to {A} (n : nat) (l : list A) : panics (list A) :=
  if decide (n <= length l) then Some (take n l) else None.

Lemma slice_to_prefix {A} n (d : A) l :
  length l <= n -> slice_to (length l) (fixed_prefix n d l) = Some l.
Proof.
  intros H. unfold slice_to. rewrite decide_True.
  - by rewrite fixed_prefix_take.
  - by rewrite fixed_prefix_length.
Qed.

(** [u8::try_from(n).expect(..)] on a length. *)
Definition u8_try_from (n : nat) : panics nat :=
  if decide (n <= 255) then Some n else None.
