(* ===== verification/Hex.v ===== *)
(** * Hex rendering and the cached string representation

    Models [rc-crypto/src/hex.rs] (the colon-delimited OpenSSL rendering every
    identifier is displayed with) and [rc-crypto/src/cached_string_repr.rs] (the
    lazily initialised rendering that identifiers carry, which must be invisible
    to their equality, ordering and hash).  The theorems show that the rendering
    loses nothing (it can be parsed back), when it panics, and that a cached
    rendering never goes stale. *)

From stdpp Require Import base option list strings.
From Stdlib Require Import Strings.Byte Ascii NArith Lia.
From S2P Require Import Prelude.

Local Open Scope string_scope.

(** ** The two-digit rendering of a byte: [{:02x}] *)

Definition hex_char (n : N) : ascii :=
  ascii_of_N (if (n <? 10)%N then 48 + n else 87 + n)%N.

Definition hex_byte (b : u8) : string :=
  String (hex_char (Byte.to_N b / 16)) (String (hex_char (Byte.to_N b mod 16)) "").

(** [usize] subtraction of lengths: [None] where it underflows.  (A debug build
    panics at the subtraction; a release build wraps and then panics at the
    slice bound it was computed for.) *)
Definition checked_sub (a b : nat) : panics nat :=
  if decide (b <= a) then Some (a - b) else None.

(** [hex::colon_string]: every byte but the last is written followed by a
    colon, the last one without. *)
Definition colon_string (bytes : list u8) : panics string :=
  n ← checked_sub (length bytes) 1;
  let s := foldl (fun s v => s +:+ hex_byte v +:+ ":") "" (take n bytes) in
  v ← last bytes;
  Some (s +:+ hex_byte v).

(** ** [CachedStringRepr]: a [OnceLock<Arc<str>>] *)

(** What a value feeds to a [std::hash::Hasher]: length prefixes, byte slices
    and single bytes, in order. *)
Inductive hash_write : Type :=
| WLen (n : nat)
| WBytes (bs : list u8)
| WU8 (n : N).

Record CachedStringRepr : Type := mk_cached { cached_cell : option string }.

(** [Default]: not yet rendered. *)
Definition CachedStringRepr_default : CachedStringRepr := mk_cached None.

(** [get_or_init]: the stored string when there is one, else [f ()] is stored
    and returned; a panic of [f] leaves the cell empty. *)
Definition CachedStringRepr_get_or_init (c : CachedStringRepr) (f : unit -> panics string) :
  panics (CachedStringRepr * string) :=
  match cached_cell c with
  | Some s => Some (c, s)
  | None => s ← f tt; Some (mk_cached (Some s), s)
  end.

(** The trait impls, all insensitive to the cell. *)
Definition CachedStringRepr_eq (_ _ : CachedStringRepr) : bool := true.
Definition CachedStringRepr_hash (_ : CachedStringRepr) : list hash_write := [WU8 42].
Definition CachedStringRepr_cmp (_ _ : CachedStringRepr) : comparison := Eq.
Definition CachedStringRepr_partial_cmp (a b : CachedStringRepr) : option comparison :=
  Some (CachedStringRepr_cmp a b).

(** A type that carries a rendering of [bytes] is coherent when its cell is
    empty or holds exactly that rendering. *)
Definition render_coherent (bytes : list u8) (c : CachedStringRepr) : Prop :=
  match cached_cell c with
  | None => True
  | Some s => colon_string bytes = Some s
  end.

(** ** Reference: parsing a colon-delimited hex string *)

Definition unhex_char (a : ascii) : option N :=
  let n := N_of_ascii a in
  if (48 <=? n)%N && (n <? 58)%N then Some (n - 48)%N
  else if (97 <=? n)%N && (n <? 103)%N then Some (n - 87)%N
  else None.

Fixpoint parse_colon (s : string) : option (list u8) :=
  match s with
  | String h (String l rest) =>
      hi ← unhex_char h; lo ← unhex_char l;
      b ← Byte.of_N (16 * hi + lo)%N;
      match rest with
      | "" => Some [b]
      | String c rest' =>
          if decide (c = ":"%char) then bs ← parse_colon rest'; Some (b :: bs) else None
      end
  | _ => None
  end.

(** ** Lemmas *)

Lemma unhex_hex_char n : (n < 16)%N -> unhex_char (hex_char n) = Some n.
Proof.
  intros H. assert (Hn : n ∈ (N.of_nat <$> seq 0 16)).
  { apply list_elem_of_fmap. exists (N.to_nat n). rewrite elem_of_seq. lia. }
  revert Hn. clear H. simpl. intros H.
  repeat (apply elem_of_cons in H as [->|H]; [reflexivity|]).
  by apply not_elem_of_nil in H.
Qed.

Lemma nibbles (b : u8) : (Byte.to_N b / 16 < 16 /\ Byte.to_N b mod 16 < 16)%N.
Proof.
  pose proof (Byte_to_N_lt b). split.
  - apply N.Div0.div_lt_upper_bound; lia.
  - apply N.mod_lt. lia.
Qed.

Lemma nibbles_combine (b : u8) :
  (16 * (Byte.to_N b / 16) + Byte.to_N b mod 16)%N = Byte.to_N b.
Proof. symmetry. apply N.Div0.div_mod. Qed.

Lemma foldl_colon_acc (l : list u8) (acc : string) :
  foldl (fun s v => s +:+ hex_byte v +:+ ":") acc l
  = acc +:+ foldl (fun s v => s +:+ hex_byte v +:+ ":") "" l.
Proof.
  revert acc. induction l as [|b l IH]; intros acc; cbn [foldl].
  - by rewrite append_empty_r.
  - rewrite IH, (IH ("" +:+ _)). by rewrite append_nil_l, !append_assoc.
Qed.

(** The loop of [colon_string] in recursive form. *)
Lemma colon_string_nil : colon_string [] = None.
Proof. reflexivity. Qed.

Lemma colon_string_one b : colon_string [b] = Some (hex_byte b).
Proof. reflexivity. Qed.

Lemma colon_string_cons b b' bs s :
  colon_string (b' :: bs) = Some s ->
  colon_string (b :: b' :: bs) = Some (hex_byte b +:+ String ":" s).
Proof.
  unfold colon_string, checked_sub. rewrite !decide_True by (simpl; lia).
  replace (length (b :: b' :: bs) - 1) with (S (length (b' :: bs) - 1)) by (simpl; lia).
  change (last (b :: b' :: bs)) with (last (b' :: bs)). cbn [mbind option_bind].
  intros H. destruct (last (b' :: bs)) as [v|]; [|done]. cbn [mbind option_bind] in *.
  simplify_eq. cbn [take foldl]. rewrite foldl_colon_acc.
  by rewrite append_nil_l, !append_assoc.
Qed.

Lemma colon_string_total b bs : exists s, colon_string (b :: bs) = Some s.
Proof.
  revert b. induction bs as [|b' bs IH]; intros b; [by eexists|].
  destruct (IH b') as [s Hs]. eexists. by apply colon_string_cons.
Qed.

Lemma colon_string_length bs s :
  colon_string bs = Some s -> S (String.length s) = 3 * length bs.
Proof.
  revert s. induction bs as [|b [|b' bs] IH]; intros s H; [done| |].
  { rewrite colon_string_one in H. by simplify_eq. }
  destruct (colon_string_total b' bs) as [s' Hs'].
  rewrite (colon_string_cons b b' bs s' Hs') in H. simplify_eq.
  rewrite length_append. specialize (IH _ Hs'). simpl in *. lia.
Qed.

Lemma colon_string_parses bs s : colon_string bs = Some s -> parse_colon s = Some bs.
Proof.
  revert s. induction bs as [|b [|b' bs] IH]; intros s H; [done| |].
  - rewrite colon_string_one in H. simplify_eq. destruct (nibbles b) as [Hh Hl].
    cbn [hex_byte parse_colon]. rewrite !unhex_hex_char by done. cbn [mbind option_bind].
    by rewrite nibbles_combine, Byte.of_to_N.
  - destruct (colon_string_total b' bs) as [s' Hs'].
    rewrite (colon_string_cons b b' bs s' Hs') in H. simplify_eq.
    destruct (nibbles b) as [Hh Hl]. unfold hex_byte. rewrite !append_cons, append_nil_l.
    cbn [parse_colon]. rewrite !unhex_hex_char by done. cbn [mbind option_bind].
    rewrite nibbles_combine, Byte.of_to_N. cbn [mbind option_bind].
    rewrite decide_True by done. by rewrite (IH _ Hs').
Qed.

#[export] Hint Resolve colon_string_parses colon_string_length : rc.

(** Reading through a coherent cell gives the rendering and keeps the cell
    coherent. *)
Lemma get_or_init_coherent bytes c :
  render_coherent bytes c ->
  CachedStringRepr_get_or_init c (fun _ => colon_string bytes)
  = s ← colon_string bytes; Some (mk_cached (Some s), s).
Proof.
  unfold render_coherent, CachedStringRepr_get_or_init.
  destruct c as [[s|]]; simpl; [|done]. by intros ->.
Qed.

Lemma default_coherent bytes : render_coherent bytes CachedStringRepr_default.
Proof. done. Qed.

Lemma rendered_coherent bytes s :
  colon_string bytes = Some s -> render_coherent bytes (mk_cached (Some s)).
Proof. done. Qed.

#[export] Hint Resolve default_coherent rendered_coherent : rc.

(** ** Properties *)

(** The colon-delimited rendering of a non-empty identifier always exists,
    is exactly [3n - 1] characters for [n] bytes, and can be parsed back to the
    very same bytes, so no two identifiers share a rendering. *)
Lemma colon_string_roundtrip (bs : list u8) :
  match colon_string bs with
  | None => bs = []
  | Some s => bs <> [] /\ S (String.length s) = 3 * length bs /\ parse_colon s = Some bs
  end.
Proof.
  destruct bs as [|b bs]; [done|]. destruct (colon_string_total b bs) as [s Hs].
  rewrite Hs. eauto with rc.
Qed.
