(* ===== verification/Utf8.v ===== *)
(** * Strings

    What the code uses of Rust's [str]: [str::from_utf8] (the hostname of a
    connection), [str::chars], [str::trim] and [str::is_ascii] (the names in a
    signing request).  A [str] is a [string] of bytes.  The validity check is
    shown to accept exactly the encodings of sequences of Unicode scalar values,
    and decoding to be the inverse of encoding. *)

From stdpp Require Import base option list strings.
From Stdlib Require Import Strings.Byte NArith ZArith Lia.
From S2P Require Import Prelude.

(** ** [str::from_utf8] *)

Definition in_range (lo hi : N) (b : u8) : bool :=
  ((lo <=? Byte.to_N b) && (Byte.to_N b <=? hi))%N.

(** Well-formed UTF-8 (Unicode table 3-7): no overlong forms, no surrogates,
    nothing above U+10FFFF. *)
Fixpoint utf8_valid (bs : list u8) : bool :=
  match bs with
  | [] => true
  | a :: r0 =>
      if in_range 0x00 0x7f a then utf8_valid r0
      else match r0 with
      | b :: r1 =>
          if in_range 0xc2 0xdf a then in_range 0x80 0xbf b && utf8_valid r1
          else match r1 with
          | c :: r2 =>
              if in_range 0xe0 0xef a then
                in_range (if in_range 0xe0 0xe0 a then 0xa0 else 0x80)
                         (if in_range 0xed 0xed a then 0x9f else 0xbf) b
                && in_range 0x80 0xbf c && utf8_valid r2
              else match r2 with
              | d :: r3 =>
                  in_range 0xf0 0xf4 a
                  && in_range (if in_range 0xf0 0xf0 a then 0x90 else 0x80)
                              (if in_range 0xf4 0xf4 a then 0x8f else 0xbf) b
                  && in_range 0x80 0xbf c && in_range 0x80 0xbf d && utf8_valid r3
              | [] => false
              end
          | [] => false
          end
      | [] => false
      end
  end.

Definition from_utf8 (bs : list u8) : option string :=
  if utf8_valid bs then Some (String.string_of_list_byte bs) else None.

(** ** [str::chars] *)

Definition char : Type := N.
Definition scalar (c : char) : Prop := (c < 0xd800 \/ 0xe000 <= c <= 0x10ffff)%N.

(** [(ch << 6) | (byte & 0x3f)]. *)
Definition acc_cont (ch : N) (b : u8) : N := (ch * 64 + Byte.to_N b mod 64)%N.

(** The decoder; what it gives on ill-formed input is never used. *)
Fixpoint decode_utf8 (bs : list u8) : list char :=
  match bs with
  | [] => []
  | a :: r0 =>
      if in_range 0x00 0x7f a then Byte.to_N a :: decode_utf8 r0
      else match r0 with
      | b :: r1 =>
          if in_range 0xc2 0xdf a then acc_cont (Byte.to_N a mod 32) b :: decode_utf8 r1
          else match r1 with
          | c :: r2 =>
              if in_range 0xe0 0xef a then
                acc_cont (acc_cont (Byte.to_N a mod 16) b) c :: decode_utf8 r2
              else match r2 with
              | d :: r3 => acc_cont (acc_cont (acc_cont (Byte.to_N a mod 8) b) c) d :: decode_utf8 r3
              | [] => []
              end
          | [] => []
          end
      | [] => []
      end
  end.

Definition str_chars (s : string) : list char := decode_utf8 (String.list_byte_of_string s).

(** [char::encode_utf8]. *)
Definition byte_of (n : N) : u8 := default x00 (Byte.of_N n).

Definition encode_char (c : char) : list u8 :=
  if decide (c < 0x80)%N then [byte_of c]
  else if decide (c < 0x800)%N then [byte_of (0xc0 + c / 64); byte_of (0x80 + c mod 64)]
  else if decide (c < 0x10000)%N then
    [byte_of (0xe0 + c / 4096); byte_of (0x80 + c / 64 mod 64); byte_of (0x80 + c mod 64)]
  else [byte_of (0xf0 + c / 262144); byte_of (0x80 + c / 4096 mod 64);
        byte_of (0x80 + c / 64 mod 64); byte_of (0x80 + c mod 64)].

Definition encode_utf8 (cs : list char) : list u8 := cs ≫= encode_char.

(** A [String] of these characters. *)
Definition str_of (cs : list char) : string := String.string_of_list_byte (encode_utf8 cs).

(** ** [str::trim], [str::is_ascii] *)

(** [char::is_whitespace]: the property White_Space. *)
Definition is_whitespace (c : char) : bool :=
  ((9 <=? c) && (c <=? 13) || (c =? 0x20) || (c =? 0x85) || (c =? 0xa0) || (c =? 0x1680) ||
   (0x2000 <=? c) && (c <=? 0x200a) || (c =? 0x2028) || (c =? 0x2029) || (c =? 0x202f) ||
   (c =? 0x205f) || (c =? 0x3000))%N.

Fixpoint trim_start (cs : list char) : list char :=
  match cs with
  | [] => []
  | c :: cs' => if is_whitespace c then trim_start cs' else cs
  end.

Definition str_trim (s : string) : list char :=
  reverse (trim_start (reverse (trim_start (str_chars s)))).

Definition str_is_ascii (s : string) : bool :=
  forallb (in_range 0x00 0x7f) (String.list_byte_of_string s).

(** ** Lemmas *)

Lemma byte_of_to_N n : (n < 256)%N -> Byte.to_N (byte_of n) = n.
Proof.
  intros Hn. unfold byte_of. destruct (Byte.of_N n) as [b|] eqn:E; simpl.
  - by apply Byte.to_of_N.
  - apply Byte.of_N_None_iff in E. lia.
Qed.

Lemma byte_of_of_N b n : n = Byte.to_N b -> byte_of n = b.
Proof. intros ->. unfold byte_of. by rewrite Byte.of_to_N. Qed.

Lemma in_range_true lo hi b : in_range lo hi b = true <-> (lo <= Byte.to_N b <= hi)%N.
Proof. unfold in_range. rewrite andb_true_iff, !N.leb_le. done. Qed.

Lemma in_range_false lo hi b : in_range lo hi b = false <-> (Byte.to_N b < lo \/ hi < Byte.to_N b)%N.
Proof. unfold in_range. rewrite andb_false_iff, !N.leb_gt. done. Qed.

Lemma in_range_dec lo hi b :
  (in_range lo hi b = true /\ (lo <= Byte.to_N b <= hi)%N) \/
  (in_range lo hi b = false /\ (Byte.to_N b < lo \/ hi < Byte.to_N b)%N).
Proof.
  destruct (in_range lo hi b) eqn:E; [left|right]; split; try done;
    [by apply in_range_true | by apply in_range_false].
Qed.

(** Division by constants, and the tests on a byte of a known value. *)
Ltac byte_lia := unfold acc_cont, scalar in *; zify; Z.to_euclidean_division_equations; lia.

Ltac test_byte :=
  match goal with
  | |- context [in_range ?lo ?hi (byte_of ?n)] =>
      lazymatch constr:((lo, hi)) with context [in_range] => fail | _ => idtac end;
      let H := fresh in
      destruct (in_range_dec lo hi (byte_of n)) as [[-> H]|[-> H]];
      rewrite byte_of_to_N in H by byte_lia; try (exfalso; byte_lia)
  end.

Ltac encoded_char :=
  match goal with |- context [encode_char ?c] => unfold encode_char end;
  repeat case_decide; cbn [app decode_utf8 utf8_valid]; repeat test_byte; cbn [andb].

Lemma utf8_valid_char c r : scalar c -> utf8_valid (encode_char c ++ r) = utf8_valid r.
Proof. intros S. encoded_char; done. Qed.

Lemma decode_char c r : scalar c -> decode_utf8 (encode_char c ++ r) = c :: decode_utf8 r.
Proof.
  intros S. encoded_char; f_equal; unfold acc_cont; rewrite !byte_of_to_N by byte_lia; byte_lia.
Qed.

(** One case per length of the first character. *)
Lemma encode_two a b : in_range 0xc2 0xdf a = true -> in_range 0x80 0xbf b = true ->
  let c := acc_cont (Byte.to_N a mod 32) b in scalar c /\ encode_char c = [a; b].
Proof.
  rewrite !in_range_true. intros A B. split; [byte_lia|]. unfold encode_char.
  rewrite decide_False, decide_True by byte_lia. by f_equal; [|f_equal]; apply byte_of_of_N; byte_lia.
Qed.

Lemma encode_three a b c : in_range 0xe0 0xef a = true ->
  in_range (if in_range 0xe0 0xe0 a then 0xa0 else 0x80) (if in_range 0xed 0xed a then 0x9f else 0xbf) b = true ->
  in_range 0x80 0xbf c = true ->
  let ch := acc_cont (acc_cont (Byte.to_N a mod 16) b) c in scalar ch /\ encode_char ch = [a; b; c].
Proof.
  intros A B C. rewrite in_range_true in A, B, C.
  destruct (in_range_dec 0xe0 0xe0 a) as [[E1 R1]|[E1 R1]], (in_range_dec 0xed 0xed a) as [[E2 R2]|[E2 R2]];
    rewrite E1, E2 in B; clear E1 E2; try lia; (split; [byte_lia|]; unfold encode_char;
    rewrite decide_False, decide_False, decide_True by byte_lia;
    by f_equal; [|f_equal; [|f_equal]]; apply byte_of_of_N; byte_lia).
Qed.

Lemma encode_four a b c d : in_range 0xf0 0xf4 a = true ->
  in_range (if in_range 0xf0 0xf0 a then 0x90 else 0x80) (if in_range 0xf4 0xf4 a then 0x8f else 0xbf) b = true ->
  in_range 0x80 0xbf c = true -> in_range 0x80 0xbf d = true ->
  let ch := acc_cont (acc_cont (acc_cont (Byte.to_N a mod 8) b) c) d in
  scalar ch /\ encode_char ch = [a; b; c; d].
Proof.
  intros A B C D. rewrite in_range_true in A, B, C, D.
  destruct (in_range_dec 0xf0 0xf0 a) as [[E1 R1]|[E1 R1]], (in_range_dec 0xf4 0xf4 a) as [[E2 R2]|[E2 R2]];
    rewrite E1, E2 in B; clear E1 E2; try lia; (split; [byte_lia|]; unfold encode_char;
    rewrite decide_False, decide_False, decide_False by byte_lia;
    by f_equal; [|f_equal; [|f_equal; [|f_equal]]]; apply byte_of_of_N; byte_lia).
Qed.

Lemma encode_one a : in_range 0x00 0x7f a = true -> scalar (Byte.to_N a) /\ encode_char (Byte.to_N a) = [a].
Proof.
  rewrite in_range_true. intros A. split; [unfold scalar; lia|]. unfold encode_char.
  rewrite decide_True by lia. f_equal. by apply byte_of_of_N.
Qed.

Lemma utf8_valid_step bs : utf8_valid bs = true ->
  bs = [] \/ exists c r, scalar c /\ bs = encode_char c ++ r /\ utf8_valid r = true.
Proof.
  destruct bs as [|a r0]; [by left|]. intros V. right. cbn [utf8_valid] in V.
  destruct (in_range 0x00 0x7f a) eqn:E1.
  { destruct (encode_one a E1) as [S E]. exists (Byte.to_N a), r0. by rewrite E. }
  destruct r0 as [|b r1]; [done|]. destruct (in_range 0xc2 0xdf a) eqn:E2.
  { apply andb_true_iff in V as [B V]. destruct (encode_two a b E2 B) as [S E].
    eexists _, r1. split; [exact S|]. by rewrite E. }
  destruct r1 as [|c r2]; [done|]. destruct (in_range 0xe0 0xef a) eqn:E3.
  { apply andb_true_iff in V as [[B C]%andb_true_iff V]. destruct (encode_three a b c E3 B C) as [S E].
    eexists _, r2. split; [exact S|]. by rewrite E. }
  destruct r2 as [|d r3]; [done|].
  apply andb_true_iff in V as [[[[A B]%andb_true_iff C]%andb_true_iff D]%andb_true_iff V].
  destruct (encode_four a b c d A B C D) as [S E]. eexists _, r3. split; [exact S|]. by rewrite E.
Qed.

Lemma encode_char_nonempty c : encode_char c <> [].
Proof. unfold encode_char. by repeat case_decide. Qed.

(** The check accepts exactly the encodings of sequences of scalar values. *)
Lemma utf8_valid_iff bs :
  utf8_valid bs = true <-> exists cs, Forall scalar cs /\ bs = encode_utf8 cs.
Proof.
  split.
  - induction bs as [bs IH] using (well_founded_ind (Wf_nat.well_founded_ltof _ length)). intros V.
    destruct (utf8_valid_step bs V) as [->|(c & r & S & -> & V')]; [by exists []|].
    destruct (IH r) as (cs & F & ->); [|done|].
    + unfold Wf_nat.ltof. rewrite length_app. pose proof (encode_char_nonempty c).
      destruct (encode_char c); [done | simpl; lia].
    + exists (c :: cs). by split; [constructor|].
  - intros (cs & F & ->). induction F as [|c cs S F IH]; [done|]. simpl. by rewrite utf8_valid_char.
Qed.

Lemma decode_encode_utf8 cs : Forall scalar cs -> decode_utf8 (encode_utf8 cs) = cs.
Proof. induction 1 as [|c cs S F IH]; [done|]. simpl. rewrite decode_char by done. by f_equal. Qed.

Lemma str_chars_of cs : Forall scalar cs -> str_chars (str_of cs) = cs.
Proof.
  intros F. unfold str_chars, str_of. rewrite String.list_byte_of_string_of_list_byte.
  by apply decode_encode_utf8.
Qed.

(** Trimming leaves nothing of white space only. *)
Lemma trim_start_nil cs : trim_start cs = [] <-> Forall (fun c => is_whitespace c = true) cs.
Proof.
  induction cs as [|c cs IH]; simpl; [done|]. rewrite Forall_cons.
  destruct (is_whitespace c); [rewrite IH; by split; [|intros [_ ?]] | by split; [|intros [? _]]].
Qed.

Lemma trim_start_keeps cs c r : trim_start cs = c :: r -> is_whitespace c = false.
Proof. induction cs as [|x cs IH]; simpl; [done|]. destruct (is_whitespace x) eqn:E; naive_solver. Qed.

Lemma str_trim_nil s : str_trim s = [] <-> Forall (fun c => is_whitespace c = true) (str_chars s).
Proof.
  unfold str_trim. rewrite <- trim_start_nil. destruct (trim_start (str_chars s)) as [|c r] eqn:E; [done|].
  split; [|done]. intros R. apply (f_equal reverse) in R. rewrite reverse_involutive in R.
  apply trim_start_nil in R. rewrite Forall_reverse, Forall_cons in R. destruct R as [R _].
  rewrite (trim_start_keeps _ _ _ E) in R. done.
Qed.

Lemma encode_char_ascii c : scalar c ->
  forallb (in_range 0x00 0x7f) (encode_char c) = true <-> (c < 0x80)%N.
Proof.
  intros S. unfold encode_char. repeat case_decide; cbn [forallb]; rewrite ?andb_true_iff, !in_range_true,
    !byte_of_to_N by byte_lia; byte_lia.
Qed.

Lemma str_is_ascii_of cs : Forall scalar cs ->
  str_is_ascii (str_of cs) = true <-> Forall (fun c => c < 0x80)%N cs.
Proof.
  intros F. unfold str_is_ascii, str_of. rewrite String.list_byte_of_string_of_list_byte.
  induction F as [|c cs S F IH]; [done|]. simpl.
  rewrite forallb_app, andb_true_iff, encode_char_ascii, IH, Forall_cons by done. done.
Qed.
