(* ===== verification/Signature.v ===== *)
(** * Signatures

    Models [rc-crypto/src/signature.rs]: a variable-length ASN.1 signature kept
    inline in a fixed 120-byte array with a [u8] length.  The theorems show that
    the conversion from a slice never panics, accepts exactly the slices that
    fit, gives the slice back, and that the derived equality on the padded
    representation is equality of the signature bytes. *)

From stdpp Require Import base option list strings.
From Stdlib Require Import Strings.Byte NArith Lia.
From S2P Require Import Prelude Hex.

Local Open Scope string_scope.

(** ** Model *)

Definition MAX_LEN : nat := 120.

(** [data: [u8; MAX_LEN]] and [len: u8]. *)
Record Signature : Type := mk_signature { sig_data : list u8; sig_len : nat }.

(** [TryFrom<&[u8]>]: reject what does not fit, else copy into a zeroed array. *)
Definition Signature_try_from (value : list u8) : panics (result Signature string) :=
  if decide (MAX_LEN < length value) then Some (Err "invalid signature: too long")
  else
    let data := fixed_prefix MAX_LEN x00 value in
    len ← u8_try_from (length value);
    Some (Ok (mk_signature data len)).

(** [From<aws_lc_rs::signature::Signature>]: [try_from(sig).unwrap()]. *)
Definition Signature_from (sig : list u8) : panics Signature :=
  r ← Signature_try_from sig;
  match r with Ok s => Some s | Err _ => None end.

(** [AsRef<[u8]>]. *)
Definition Signature_as_ref (s : Signature) : panics (list u8) :=
  slice_to (sig_len s) (sig_data s).

(** [as_hex_str], writing to a [String] (whose [fmt::Write] never fails). *)
Definition Signature_as_hex_str (s : Signature) (buf : string) : panics string :=
  bs ← Signature_as_ref s;
  Some (foldl (fun buf b => buf +:+ hex_byte b) buf bs).

(** [Display] and [Debug]. *)
Definition Signature_display (s : Signature) : panics string := Signature_as_hex_str s "".
Definition Signature_debug (s : Signature) : panics string :=
  buf ← Signature_as_hex_str s "Signature(";
  Some (buf +:+ ")").

(** The derived [PartialEq]: both fields. *)
Definition Signature_eq (a b : Signature) : bool :=
  bool_decide (sig_data a = sig_data b) && bool_decide (sig_len a = sig_len b).

(** ** Lemmas *)

(** The type invariant: a full array, and a length within it. *)
Definition signature_wf (s : Signature) : Prop :=
  length (sig_data s) = MAX_LEN /\ sig_len s <= MAX_LEN.

Lemma signature_try_from_ok value :
  length value <= MAX_LEN ->
  Signature_try_from value
  = Some (Ok (mk_signature (fixed_prefix MAX_LEN x00 value) (length value))).
Proof.
  intros H. unfold Signature_try_from, u8_try_from, MAX_LEN in *.
  rewrite decide_False by lia. by rewrite decide_True by lia.
Qed.

Lemma signature_try_from_err value :
  MAX_LEN < length value ->
  Signature_try_from value = Some (Err "invalid signature: too long").
Proof. intros H. unfold Signature_try_from. by rewrite decide_True. Qed.

Lemma signature_try_from_inv value s :
  Signature_try_from value = Some (Ok s) ->
  length value <= MAX_LEN /\ signature_wf s /\ Signature_as_ref s = Some value.
Proof.
  destruct (decide (MAX_LEN < length value)) as [H|H%not_lt].
  - by rewrite signature_try_from_err.
  - rewrite signature_try_from_ok by done. intros [= <-]. split; [done|]. split.
    + split; simpl; [by apply fixed_prefix_length | done].
    + by apply slice_to_prefix.
Qed.

Lemma hex_foldl_length bs buf :
  String.length (foldl (fun buf b => buf +:+ hex_byte b) buf bs)
  = String.length buf + 2 * length bs.
Proof.
  revert buf. induction bs as [|b bs IH]; intros buf; simpl; [lia|].
  rewrite IH, length_append. simpl. lia.
Qed.

(** ** Properties *)

(** Converting a byte slice to a [Signature] never panics; it succeeds
    exactly when the slice has at most 120 bytes, and then the signature reads
    back as exactly that slice, satisfies the type invariant, and displays as two
    hex characters per byte. *)
Lemma signature_roundtrip (value : list u8) :
  match Signature_try_from value with
  | Some (Ok s) =>
      length value <= 120 /\ signature_wf s /\ Signature_as_ref s = Some value /\
      (exists str, Signature_display s = Some str /\ String.length str = 2 * length value)
  | Some (Err _) => 120 < length value
  | None => False
  end.
Proof.
  destruct (decide (MAX_LEN < length value)) as [H|H%not_lt].
  - by rewrite signature_try_from_err.
  - pose proof (signature_try_from_ok value H) as E. rewrite E.
    destruct (signature_try_from_inv _ _ E) as (Hl & Hw & Hr). split_and!; try done.
    unfold Signature_display, Signature_as_hex_str. rewrite Hr. eexists. split; [done|].
    apply hex_foldl_length.
Qed.

(** The derived equality of two constructed signatures (padded arrays and
    lengths) holds exactly when the signature bytes are equal, trailing zero
    bytes included. *)
Lemma signature_eq_spec (v1 v2 : list u8) (s1 s2 : Signature) :
  Signature_try_from v1 = Some (Ok s1) -> Signature_try_from v2 = Some (Ok s2) ->
  Signature_eq s1 s2 = true <-> v1 = v2.
Proof.
  intros H1 H2.
  assert (E : Signature_eq s1 s2 = true <-> s1 = s2).
  { unfold Signature_eq. rewrite andb_true_iff, !bool_decide_eq_true.
    destruct s1, s2; simpl. split; [by intros [-> ->] | by intros [= -> ->]]. }
  rewrite E. apply signature_try_from_inv in H1 as HA, H2 as HB. split.
  - intros ->. destruct HA as (_ & _ & HA), HB as (_ & _ & HB). congruence.
  - intros ->. congruence.
Qed.

Lemma signature_eq_spec_witness :
  exists s1 s2, Signature_try_from [x30] = Some (Ok s1) /\
    Signature_try_from [x30; x00] = Some (Ok s2) /\ Signature_eq s1 s2 = false.
Proof.
  eexists _, _. split; [reflexivity|]. split; [reflexivity|].
  apply not_true_is_false. rewrite (signature_eq_spec [x30] [x30; x00]) by reflexivity.
  discriminate.
Defined.
