(* ===== verification/CertId.v ===== *)
(** * Certificate identifiers

    Models [rc-crypto/src/certificate/id/]: [CertId] (the Subject Key Identifier
    of a certificate), [IssuerCertId] (its Authority Key Identifier) and
    [DangerousComparableId], the wrapper that makes them comparable and hashable
    so that they can key the certificate cache.  The theorems show which byte
    strings are identifiers, that comparing and hashing agree whatever mixture of
    owned, borrowed, rendered and unrendered values is compared, and how the
    identifiers are read out of a parsed certificate. *)

From stdpp Require Import base option list strings.
From Stdlib Require Import Strings.Byte NArith Lia.
From S2P Require Import Prelude Hex.

(** ** The parsed certificate

    What [x509_parser]'s [X509Certificate] gives this library: the accessor
    values the code reads.  The parser itself is a parameter of the functions
    that call it. *)

Inductive ParsedExtension : Type :=
| SubjectKeyIdentifier (ski : list u8)
| AuthorityKeyIdentifier (key_identifier : option (list u8))
| OtherExtension.

Record X509Certificate : Type := mk_x509 {
  x_raw : list u8;                   (* as_raw *)
  x_raw_serial : list u8;            (* raw_serial *)
  x_not_before : Z;                  (* validity().not_before.timestamp() *)
  x_not_after : Z;                   (* validity().not_after.timestamp() *)
  x_extensions : list ParsedExtension; (* iter_extensions().parsed_extension() *)
  x_is_ca : bool;                    (* is_ca *)
  x_public_key : list u8;            (* public_key().subject_public_key.data *)
  x_subject : string                 (* subject().to_string() *)
}.

(** ** Identifiers *)

(** [InvalidLength], with the length that was refused. *)
Record InvalidLength : Type := mk_invalid_length { actual_len : nat }.

Definition InvalidLength_got_len (e : InvalidLength) : nat := actual_len e.

Inductive InvalidCertId : Type :=
| InvalidCertId_NoSKI
| InvalidCertId_InvalidLength (e : InvalidLength).

Inductive InvalidIssuerCertId : Type :=
| InvalidIssuerCertId_NoAKI
| InvalidIssuerCertId_InvalidLength (e : InvalidLength).

Definition MIN_LENGTH : nat := 16.
Definition MAX_LENGTH : nat := 64.

Record CertId : Type := mk_cert_id { cid_bytes : list u8; cid_rendered : CachedStringRepr }.

(** [struct IssuerCertId(CertId)]. *)
Record IssuerCertId : Type := mk_issuer_cert_id { icid : CertId }.

(** [as_bytes], for both kinds of identifier. *)
Class IdBytes (T : Type) : Type := id_bytes : T -> list u8.
#[export] Instance CertId_as_bytes : IdBytes CertId := cid_bytes.
#[export] Instance IssuerCertId_as_bytes : IdBytes IssuerCertId := fun i => id_bytes (icid i).

(** [IssuerCertId::as_cert_id]. *)
Definition IssuerCertId_as_cert_id (i : IssuerCertId) : CertId := icid i.

(** [as_hex_str]: reads through the cached rendering, filling it.  (A shared
    reference with interior mutability: the updated identifier is returned.) *)
Definition CertId_as_hex_str (c : CertId) : panics (CertId * string) :=
  '(r, s) ← CachedStringRepr_get_or_init (cid_rendered c) (fun _ => colon_string (cid_bytes c));
  Some (mk_cert_id (cid_bytes c) r, s).

Definition IssuerCertId_as_hex_str (i : IssuerCertId) : panics (IssuerCertId * string) :=
  '(c, s) ← CertId_as_hex_str (icid i);
  Some (mk_issuer_cert_id c, s).

(** [TryFrom<&[u8]>] and [TryFrom<Vec<u8>>] (which differ only in how the
    bytes are stored). *)
Definition CertId_try_from (value : list u8) : result CertId InvalidLength :=
  if decide (length value < MIN_LENGTH \/ MAX_LENGTH < length value) then
    Err (mk_invalid_length (length value))
  else Ok (mk_cert_id value CachedStringRepr_default).

Definition IssuerCertId_try_from (value : list u8) : result IssuerCertId InvalidLength :=
  result_map mk_issuer_cert_id (CertId_try_from value).

(** [From<CertId> for Vec<u8>]. *)
Definition CertId_into_vec (c : CertId) : list u8 := cid_bytes c.

(** [TryFrom<&X509Certificate>]: the first Subject Key Identifier extension. *)
Definition CertId_try_from_x509 (cert : X509Certificate) : result CertId InvalidCertId :=
  (let? bytes := ok_or (find_map (fun v => match v with
                                           | SubjectKeyIdentifier ski => Some ski
                                           | _ => None
                                           end) (x_extensions cert))
                       InvalidCertId_NoSKI in
   map_err InvalidCertId_InvalidLength (CertId_try_from bytes))%rc.

(** [TryFrom<&X509Certificate>]: the first Authority Key Identifier extension
    that carries a key identifier. *)
Definition IssuerCertId_try_from_x509 (cert : X509Certificate) :
  result IssuerCertId InvalidIssuerCertId :=
  (let? bytes := ok_or (find_map (fun v => match v with
                                           | AuthorityKeyIdentifier kid => kid
                                           | _ => None
                                           end) (x_extensions cert))
                       InvalidIssuerCertId_NoAKI in
   result_map mk_issuer_cert_id
     (map_err InvalidIssuerCertId_InvalidLength (CertId_try_from bytes)))%rc.

(** ** [DangerousComparableId]: a [Cow] of an identifier *)

Inductive Cow (T : Type) : Type :=
| Borrowed (v : T)
| Owned (v : T).
Arguments Borrowed {T} v.
Arguments Owned {T} v.

Definition Cow_as_ref {T} (c : Cow T) : T := match c with Borrowed v => v | Owned v => v end.

Record DangerousComparableId (T : Type) : Type := mk_dangerous { dangerous_cow : Cow T }.
Arguments mk_dangerous {T} dangerous_cow.
Arguments dangerous_cow {T} d.

(** [From<&T>], [From<T>] and [into_owned]. *)
Definition as_dangerous_comparable {T} (v : T) : DangerousComparableId T :=
  mk_dangerous (Borrowed v).
Definition Dangerous_from {T} (v : T) : DangerousComparableId T := mk_dangerous (Owned v).
Definition Dangerous_into_owned {T} (d : DangerousComparableId T) : DangerousComparableId T :=
  mk_dangerous (Owned (Cow_as_ref (dangerous_cow d))).

Definition Dangerous_as_bytes {T} `{IdBytes T} (d : DangerousComparableId T) : list u8 :=
  id_bytes (Cow_as_ref (dangerous_cow d)).

(** The [PartialEq] impls between two wrappers (of either identifier kind on
    either side), between a wrapper and an identifier, and [Equivalent]. *)
Definition Dangerous_eq {T U} `{IdBytes T} `{IdBytes U}
  (a : DangerousComparableId T) (b : DangerousComparableId U) : bool :=
  bool_decide (Dangerous_as_bytes a = Dangerous_as_bytes b).

Definition Dangerous_eq_id {T U} `{IdBytes T} `{IdBytes U}
  (a : DangerousComparableId T) (b : U) : bool :=
  bool_decide (Dangerous_as_bytes a = id_bytes b).

Definition CertId_equivalent {T} `{IdBytes T} (self : T) (key : DangerousComparableId T) : bool :=
  Dangerous_eq_id key self.

(** The derived [Hash] impls: a byte slice feeds its length and its bytes, a
    struct its fields in order, a [Cow] its content. *)
Definition slice_hash (bs : list u8) : list hash_write := [WLen (length bs); WBytes bs].

Class IdHash (T : Type) : Type := id_hash : T -> list hash_write.
#[export] Instance CertId_hash : IdHash CertId := fun c =>
  slice_hash (cid_bytes c) ++ CachedStringRepr_hash (cid_rendered c).
#[export] Instance IssuerCertId_hash : IdHash IssuerCertId := fun i => id_hash (icid i).

Definition Dangerous_hash {T} `{IdHash T} (d : DangerousComparableId T) : list hash_write :=
  id_hash (Cow_as_ref (dangerous_cow d)).

(** ** Lemmas *)

(** Two identifiers are the same identifier when their bytes are: the cached
    rendering is not part of the value. *)
Definition id_equiv {T U} `{IdBytes T} `{IdBytes U} (a : T) (b : U) : Prop :=
  id_bytes a = id_bytes b.

#[export] Instance id_equiv_equivalence {T} `{IdBytes T} : Equivalence (@id_equiv T T _ _).
Proof. unfold id_equiv. split; [done | by intros ?? -> | by intros ??? -> ->]. Qed.

#[export] Instance CertId_hash_proper : Proper (id_equiv ==> eq) CertId_hash.
Proof. intros a b E. unfold id_equiv, id_bytes, CertId_as_bytes in E. unfold CertId_hash. by rewrite E. Qed.

#[export] Instance IssuerCertId_as_cert_id_proper :
  Proper (id_equiv ==> id_equiv) IssuerCertId_as_cert_id.
Proof. by intros [a] [b] E. Qed.

Lemma Dangerous_eq_true {T U} `{IdBytes T} `{IdBytes U}
  (a : DangerousComparableId T) (b : DangerousComparableId U) :
  Dangerous_eq a b = true <->
  id_equiv (Cow_as_ref (dangerous_cow a)) (Cow_as_ref (dangerous_cow b)).
Proof. apply bool_decide_eq_true. Qed.

Lemma as_dangerous_eq_true {T U} `{IdBytes T} `{IdBytes U} (a : T) (b : U) :
  Dangerous_eq (as_dangerous_comparable a) (as_dangerous_comparable b) = true <->
  id_equiv a b.
Proof. apply bool_decide_eq_true. Qed.

(** An identifier built by this library: in-range bytes and an honest cache. *)
Definition cert_id_wf (c : CertId) : Prop :=
  MIN_LENGTH <= length (cid_bytes c) <= MAX_LENGTH /\
  render_coherent (cid_bytes c) (cid_rendered c).

Lemma CertId_try_from_ok value :
  MIN_LENGTH <= length value <= MAX_LENGTH ->
  CertId_try_from value = Ok (mk_cert_id value CachedStringRepr_default).
Proof. intros H. unfold CertId_try_from. by rewrite decide_False by lia. Qed.

Lemma CertId_try_from_inv value c :
  CertId_try_from value = Ok c ->
  c = mk_cert_id value CachedStringRepr_default /\ cert_id_wf c.
Proof.
  unfold CertId_try_from. case_decide as D; [done|]. intros [= <-].
  split; [done|]. split; simpl; [lia | auto with rc].
Qed.

Lemma CertId_as_hex_str_wf c :
  cert_id_wf c ->
  exists s, colon_string (cid_bytes c) = Some s /\
    CertId_as_hex_str c = Some (mk_cert_id (cid_bytes c) (mk_cached (Some s)), s).
Proof.
  intros [Hl Hc]. unfold CertId_as_hex_str. rewrite (get_or_init_coherent _ _ Hc).
  destruct (cid_bytes c) as [|b bs] eqn:E; [unfold MIN_LENGTH in Hl; simpl in Hl; lia|].
  destruct (colon_string_total b bs) as [s Hs]. rewrite Hs. eauto.
Qed.

(** The extraction of either identifier, over the extension selector [sel]. *)
Lemma extract_cases {A} (sel : ParsedExtension -> option (list u8)) exts
  (no_ext : A) (inv : InvalidLength -> A) :
  match (let? bytes := ok_or (find_map sel exts) no_ext in
         map_err inv (CertId_try_from bytes))%rc with
  | Ok c => exists l1 x l2, exts = l1 ++ x :: l2 /\ sel x = Some (cid_bytes c) /\
      Forall (fun y => sel y = None) l1 /\ cert_id_wf c
  | Err e =>
      (e = no_ext /\ Forall (fun y => sel y = None) exts) \/
      (exists l1 x l2 bs, exts = l1 ++ x :: l2 /\ sel x = Some bs /\
        Forall (fun y => sel y = None) l1 /\ e = inv (mk_invalid_length (length bs)) /\
        ~ (MIN_LENGTH <= length bs <= MAX_LENGTH))
  end.
Proof.
  destruct (find_map sel exts) as [bs|] eqn:E; simpl.
  - destruct (find_map_Some _ _ _ E) as (l1 & x & l2 & ? & ? & ?).
    destruct (CertId_try_from bs) as [c|e] eqn:T; simpl.
    + apply CertId_try_from_inv in T as [-> Hwf]. eauto 7.
    + right. exists l1, x, l2, bs. unfold CertId_try_from in T.
      case_decide; simplify_eq. split_and!; try done. lia.
  - left. split; [done|]. by apply find_map_None.
Qed.

(** The two selectors of the code. *)
Definition sel_ski (v : ParsedExtension) : option (list u8) :=
  match v with SubjectKeyIdentifier ski => Some ski | _ => None end.
Definition sel_aki (v : ParsedExtension) : option (list u8) :=
  match v with AuthorityKeyIdentifier kid => kid | _ => None end.

(** ** Properties *)

(** Bytes are accepted as a certificate identifier exactly when there are
    16 to 64 of them; the identifier then holds exactly those bytes and
    satisfies the type invariant, and a refusal reports the length it saw. *)
Lemma cert_id_try_from_spec (value : list u8) :
  match CertId_try_from value with
  | Ok c => 16 <= length value <= 64 /\ CertId_into_vec c = value /\ cert_id_wf c
  | Err e => InvalidLength_got_len e = length value /\
      (length value < 16 \/ 64 < length value)
  end.
Proof.
  destruct (CertId_try_from value) as [c|e] eqn:E.
  - apply CertId_try_from_inv in E as [-> Hwf]. split; [apply Hwf | done].
  - unfold CertId_try_from in E. case_decide as D; [|done]. by simplify_eq.
Qed.

(** Comparing and hashing wrapped identifiers agree: two wrappers are equal
    exactly when they feed a hasher the same data, and neither taking ownership
    of the wrapped value nor having rendered it before changes either. *)
Lemma dangerous_eq_hash_coherent (a b : DangerousComparableId CertId) :
  (Dangerous_eq a b = true <-> Dangerous_hash a = Dangerous_hash b) /\
  Dangerous_hash (Dangerous_into_owned a) = Dangerous_hash a /\
  Dangerous_eq (Dangerous_into_owned a) b = Dangerous_eq a b /\
  forall c s, CertId_as_hex_str (Cow_as_ref (dangerous_cow a)) = Some (c, s) ->
    Dangerous_hash (as_dangerous_comparable c) = Dangerous_hash a /\
    Dangerous_eq (as_dangerous_comparable c) b = Dangerous_eq a b.
Proof.
  split_and!.
  - rewrite Dangerous_eq_true. unfold Dangerous_hash. split.
    + apply CertId_hash_proper.
    + intros [= _ E]. exact E.
  - done.
  - done.
  - intros c s H. unfold CertId_as_hex_str in H. split_all. simplify_option_eq. by split_all.
Qed.

(** Rendering a well-formed identifier never panics, shows exactly its
    bytes, leaves the identifier the same identifier (and well-formed), and
    reading it again gives the same string from the cache. *)
Lemma cert_id_as_hex_str_spec (c : CertId) :
  cert_id_wf c ->
  exists c' s, CertId_as_hex_str c = Some (c', s) /\ parse_colon s = Some (cid_bytes c) /\
    id_equiv c c' /\ cert_id_wf c' /\ CertId_as_hex_str c' = Some (c', s).
Proof.
  intros Hwf. destruct (CertId_as_hex_str_wf c Hwf) as (s & Hs & E).
  eexists _, s. split_and!; [exact E | eauto with rc | done | | done].
  split; [apply Hwf | simpl; auto with rc].
Qed.

(** Reading the identifiers of a parsed certificate: the first Subject Key
    Identifier extension gives the [CertId], the first Authority Key Identifier
    extension that carries a key identifier gives the [IssuerCertId], and the
    only failures are that no such extension exists or that its bytes have a
    length out of range. *)
Lemma cert_ids_of_x509 (cert : X509Certificate) :
  match CertId_try_from_x509 cert with
  | Ok c => exists l1 x l2, x_extensions cert = l1 ++ x :: l2 /\
      sel_ski x = Some (cid_bytes c) /\ Forall (fun y => sel_ski y = None) l1 /\ cert_id_wf c
  | Err e =>
      (e = InvalidCertId_NoSKI /\ Forall (fun y => sel_ski y = None) (x_extensions cert)) \/
      (exists l1 x l2 bs, x_extensions cert = l1 ++ x :: l2 /\ sel_ski x = Some bs /\
        Forall (fun y => sel_ski y = None) l1 /\
        e = InvalidCertId_InvalidLength (mk_invalid_length (length bs)) /\
        ~ (16 <= length bs <= 64))
  end /\
  match IssuerCertId_try_from_x509 cert with
  | Ok i => exists l1 x l2, x_extensions cert = l1 ++ x :: l2 /\
      sel_aki x = Some (id_bytes i) /\ Forall (fun y => sel_aki y = None) l1 /\
      cert_id_wf (IssuerCertId_as_cert_id i)
  | Err e =>
      (e = InvalidIssuerCertId_NoAKI /\ Forall (fun y => sel_aki y = None) (x_extensions cert)) \/
      (exists l1 x l2 bs, x_extensions cert = l1 ++ x :: l2 /\ sel_aki x = Some bs /\
        Forall (fun y => sel_aki y = None) l1 /\
        e = InvalidIssuerCertId_InvalidLength (mk_invalid_length (length bs)) /\
        ~ (16 <= length bs <= 64))
  end.
Proof.
  split.
  - apply (extract_cases sel_ski).
  - pose proof (extract_cases sel_aki (x_extensions cert) InvalidIssuerCertId_NoAKI
      InvalidIssuerCertId_InvalidLength) as H.
    unfold IssuerCertId_try_from_x509.
    change (find_map _ (x_extensions cert)) with (find_map sel_aki (x_extensions cert)) in *.
    destruct (find_map sel_aki (x_extensions cert)) as [bs|]; simpl in *; [|exact H].
    destruct (CertId_try_from bs); simpl in *; exact H.
Qed.
