(* ===== verification/Hash.v ===== *)
(** * Hashing and keys

    Models [rc-crypto/src/hash/] ([Digest], the incremental SHA-256 state) and
    the identifiers derived from a digest: certificate [Fingerprint]s
    ([certificate/fingerprint.rs]) and [KeyId]s ([keys/key_id.rs]).  The SHA-256
    implementation ([aws_lc_rs::digest::Context]) is a parameter, with the
    documented laws of an incremental 32-byte hash. *)

From stdpp Require Import base option list strings.
From Stdlib Require Import Strings.Byte NArith Lia.
From S2P Require Import Prelude Hex.

(** ** The digest provider: [aws_lc_rs::digest::Context] over [SHA256] *)

Class AwsDigest : Type := {
  dg_ctx : Type;
  dg_new : dg_ctx;
  dg_update : dg_ctx -> list u8 -> dg_ctx;
  dg_finish : dg_ctx -> list u8
}.

Class AwsDigestLaws `{AwsDigest} : Prop := {
  dg_finish_length : forall c, length (dg_finish c) = 32;
  dg_update_app : forall c a b,
    dg_finish (dg_update (dg_update c a) b) = dg_finish (dg_update c (a ++ b))
}.

(** ** Digests *)

Definition SHA256_OUTPUT_LEN : nat := 32.

(** [Digest<32, Sha256>]: the fixed-size array. *)
Record Digest : Type := mk_digest { digest_bytes : list u8 }.

Definition Digest_from_raw (d : list u8) : Digest := mk_digest d.
Definition Digest_as_bytes (d : Digest) : list u8 := digest_bytes d.
Definition Digest_into_inner (d : Digest) : list u8 := digest_bytes d.
Definition Digest_eq (a b : Digest) : bool := bool_decide (digest_bytes a = digest_bytes b).
Definition Digest_hash (d : Digest) : list hash_write :=
  [WLen (length (digest_bytes d)); WBytes (digest_bytes d)].

Section Sha256.
Context `{AwsDigest}.

(** [struct Sha256State(Context)]. *)
Definition Sha256State : Type := dg_ctx.
Definition Sha256_incremental : Sha256State := dg_new.
Definition Sha256State_update (s : Sha256State) (data : list u8) : Sha256State :=
  dg_update s data.

(** [finish]: [try_into().expect("sha256 digest is 32 bytes")]. *)
Definition Sha256State_finish (s : Sha256State) : panics Digest :=
  let out := dg_finish s in
  if decide (length out = SHA256_OUTPUT_LEN) then Some (Digest_from_raw out) else None.

(** [HashAlgo::hash]. *)
Definition Sha256_hash (data : list u8) : panics Digest :=
  let ctx := Sha256_incremental in
  let ctx := Sha256State_update ctx data in
  Sha256State_finish ctx.

(** The digest of [data] as bytes. *)
Definition sha256 (data : list u8) : list u8 := dg_finish (dg_update dg_new data).

Context `{!AwsDigestLaws}.

Lemma Sha256_hash_spec data : Sha256_hash data = Some (mk_digest (sha256 data)).
Proof.
  unfold Sha256_hash, Sha256State_finish. rewrite decide_True; [done|].
  apply dg_finish_length.
Qed.

Lemma sha256_length data : length (sha256 data) = 32.
Proof. apply dg_finish_length. Qed.

Lemma Sha256_two_updates a b :
  Sha256State_finish (Sha256State_update (Sha256State_update Sha256_incremental a) b)
  = Some (mk_digest (sha256 (a ++ b))).
Proof.
  unfold Sha256State_finish, Sha256State_update, Sha256_incremental, sha256.
  rewrite decide_True by apply dg_finish_length. by rewrite dg_update_app.
Qed.

End Sha256.

(** ** Fingerprints and key identifiers *)

Record Fingerprint : Type := mk_fingerprint {
  fp_digest : Digest;
  fp_rendered : CachedStringRepr
}.

Definition Fingerprint_as_bytes (f : Fingerprint) : list u8 := Digest_as_bytes (fp_digest f).

Definition Fingerprint_as_hex_str (f : Fingerprint) : panics (Fingerprint * string) :=
  '(r, s) ← CachedStringRepr_get_or_init (fp_rendered f)
              (fun _ => colon_string (Fingerprint_as_bytes f));
  Some (mk_fingerprint (fp_digest f) r, s).

(** The derived [PartialEq] and [Hash]. *)
Definition Fingerprint_eq (a b : Fingerprint) : bool :=
  Digest_eq (fp_digest a) (fp_digest b) && CachedStringRepr_eq (fp_rendered a) (fp_rendered b).
Definition Fingerprint_hash (f : Fingerprint) : list hash_write :=
  Digest_hash (fp_digest f) ++ CachedStringRepr_hash (fp_rendered f).

Record KeyId : Type := mk_key_id { kid_digest : Digest; kid_rendered : CachedStringRepr }.

Definition KeyId_as_bytes (k : KeyId) : list u8 := Digest_as_bytes (kid_digest k).

Definition KeyId_as_hex_str (k : KeyId) : panics (KeyId * string) :=
  '(r, s) ← CachedStringRepr_get_or_init (kid_rendered k)
              (fun _ => colon_string (KeyId_as_bytes k));
  Some (mk_key_id (kid_digest k) r, s).

(** [TryFrom<&[u8]>]: exactly 32 bytes, else [KeyIdParseError(len)]. *)
Definition KeyId_try_from (value : list u8) : result KeyId nat :=
  if decide (length value = SHA256_OUTPUT_LEN) then
    Ok (mk_key_id (Digest_from_raw value) CachedStringRepr_default)
  else Err (length value).

Definition KeyId_eq (a b : KeyId) : bool :=
  Digest_eq (kid_digest a) (kid_digest b) && CachedStringRepr_eq (kid_rendered a) (kid_rendered b).

(** [struct PublicKey(&[u8])] and [KeyId::from(&PublicKey)]: the SHA-256 of the
    DER [SubjectPublicKeyInfo], which [rcgen] encodes ([spki]). *)
Record PublicKey : Type := mk_public_key { pk_bytes : list u8 }.

Definition KeyId_from `{AwsDigest} (spki : PublicKey -> list u8) (key : PublicKey) : panics KeyId :=
  let info := spki key in
  d ← Sha256_hash info;
  Some (mk_key_id d CachedStringRepr_default).

Definition PublicKey_key_id `{AwsDigest} (spki : PublicKey -> list u8) (key : PublicKey) :
  panics KeyId := KeyId_from spki key.

Lemma Fingerprint_eq_true a b :
  Fingerprint_eq a b = true <-> Fingerprint_as_bytes a = Fingerprint_as_bytes b.
Proof.
  unfold Fingerprint_eq, Digest_eq, CachedStringRepr_eq. rewrite andb_true_r.
  apply bool_decide_eq_true.
Qed.

(** ** A digest provider for concrete evaluation

    Not SHA-256: the first 32 bytes of the zero-padded input.  It satisfies the
    laws, which is all the hypotheses of the theorems ask of the provider. *)
Definition toy_digest : AwsDigest := {|
  dg_ctx := list u8;
  dg_new := [];
  dg_update := fun c bs => c ++ bs;
  dg_finish := fun c => take 32 (c ++ replicate 32 x00)
|}.

Lemma toy_digest_laws : @AwsDigestLaws toy_digest.
Proof.
  split; cbn [dg_finish dg_update dg_ctx toy_digest].
  - intros c. rewrite length_take, length_app, length_replicate. lia.
  - intros c a b. by rewrite <- !app_assoc.
Qed.

(** ** Properties *)

(** Key identifiers: a 32-byte slice round-trips through [KeyId], any other
    length is refused with that length, and the identifier derived from a public
    key is the digest of its SubjectPublicKeyInfo, rendered without panicking. *)
Lemma key_id_spec `{AwsDigestLaws} (spki : PublicKey -> list u8) (key : PublicKey)
  (value : list u8) :
  match KeyId_try_from value with
  | Ok k => length value = 32 /\ KeyId_as_bytes k = value
  | Err n => n = length value /\ length value <> 32
  end /\
  exists k k' s, PublicKey_key_id spki key = Some k /\
    KeyId_as_bytes k = sha256 (spki key) /\
    KeyId_try_from (KeyId_as_bytes k) = Ok k /\
    KeyId_as_hex_str k = Some (k', s) /\ KeyId_eq k k' = true /\
    parse_colon s = Some (sha256 (spki key)).
Proof.
  split; [unfold KeyId_try_from; case_decide as D; [split; [exact D | done] | done]|].
  unfold PublicKey_key_id, KeyId_from. rewrite Sha256_hash_spec.
  pose proof (sha256_length (spki key)) as Hl.
  destruct (sha256 (spki key)) as [|b bs] eqn:E; [done|].
  destruct (colon_string_total b bs) as [s Hs].
  eexists _, _, s. split_and!; [reflexivity | done | | | | by apply colon_string_parses].
  - unfold KeyId_try_from. by rewrite decide_True.
  - unfold KeyId_as_hex_str, KeyId_as_bytes. simpl. by rewrite Hs.
  - unfold KeyId_eq, Digest_eq. simpl. by rewrite bool_decide_true.
Qed.

Lemma key_id_spec_witness :
  exists k k' s, @PublicKey_key_id toy_digest pk_bytes (mk_public_key [x04]) = Some k /\
    KeyId_as_bytes k = @sha256 toy_digest [x04] /\
    KeyId_try_from (KeyId_as_bytes k) = Ok k /\
    KeyId_as_hex_str k = Some (k', s) /\ KeyId_eq k k' = true /\
    parse_colon s = Some (@sha256 toy_digest [x04]).
Proof.
  exact (proj2 (@key_id_spec toy_digest toy_digest_laws pk_bytes (mk_public_key [x04]) [])).
Defined.
