(* ===== verification/Keys.v ===== *)
(** * Keys and signers

    Models [rc-crypto/src/keys/private.rs], the verification half of
    [keys/public.rs] and [signer.rs].  The ECDSA-P256 implementation of
    [aws_lc_rs] is a parameter.  Everything here runs over a state [R], the
    process state [aws_lc_rs] reads (system randomness, the FIPS mode); a panic
    of an [expect] is a [Panic]. *)

From stdpp Require Import base option list strings.
From Stdlib Require Import Strings.Byte NArith Lia.
From S2P Require Import Prelude Hex Signature Hash.

(** ** The provider: [aws_lc_rs::signature::EcdsaKeyPair], [UnparsedPublicKey] *)

Class AwsEcdsa (R : Type) : Type := {
  EcdsaKeyPair : Type;
  try_fips_mode : R -> bool;
  generate_pkcs8 : R -> option (list u8) * R;
  from_pkcs8 : list u8 -> option EcdsaKeyPair;
  kp_public_key : EcdsaKeyPair -> list u8;
  kp_sign : EcdsaKeyPair -> list u8 -> R -> option (list u8) * R;
  ecdsa_verify : list u8 -> list u8 -> list u8 -> bool
}.

(** A generated document loads; a signature verifies under the public half of
    its key; an ASN.1 P-256 signature has at most 72 bytes (two 33-byte
    integers with their headers). *)
Class AwsEcdsaLaws (R : Type) `{AwsEcdsa R} : Prop := {
  generated_loads : forall r d r', generate_pkcs8 r = (Some d, r') -> is_Some (from_pkcs8 d);
  signed_verifies : forall k m r s r', kp_sign k m r = (Some s, r') ->
    ecdsa_verify (kp_public_key k) m s = true;
  signed_length : forall k m r s r', kp_sign k m r = (Some s, r') -> length s <= 72
}.

(** ** Public keys *)

Inductive SignatureVerifyErr : Type := mk_signature_verify_err.

Section Keys.
Context {R : Type} `{!AwsEcdsa R}.

(** [PublicKey::verify]. *)
Definition PublicKey_verify (self : PublicKey) (data : list u8) (sig : Signature) :
  panics (result () SignatureVerifyErr) :=
  sig ← Signature_as_ref sig;
  Some (if ecdsa_verify (pk_bytes self) data sig then Ok tt else Err mk_signature_verify_err).

(** ** Private keys *)

Record PrivateKey : Type := mk_private_key { prk_key : EcdsaKeyPair }.

(** A provider call that uses the randomness, and [expect]. *)
Definition expect_rand {A} (f : R -> option A * R) : prog R A := fun r =>
  let '(o, r') := f r in match o with Some a => Done a r' | None => Panic r' end.

(** [PrivateKey::new]; [fips] is [not(any(feature = "dd-source", feature =
    "non-fips"))], when the FIPS mode is asserted. *)
Definition PrivateKey_new (fips : bool) : prog R PrivateKey :=
  ok ← gets try_fips_mode;
  if fips && negb ok then panic
  else
    raw ← expect_rand generate_pkcs8;
    key ← of_panics (from_pkcs8 raw);
    mret (mk_private_key key).

Definition PrivateKey_default (fips : bool) : prog R PrivateKey := PrivateKey_new fips.

Definition PrivateKey_public_key (self : PrivateKey) : PublicKey :=
  mk_public_key (kp_public_key (prk_key self)).

(** ** [trait Signer] *)

Class Signer (T : Type) : Type := {
  signer_sign : T -> list u8 -> prog R Signature;
  signer_public_key : T -> PublicKey
}.

(** The promise of the trait: a signature verifies under the signer's key. *)
Class SignerLaws (T : Type) `{!Signer T} : Prop := {
  signer_verifies : forall t m r s r', signer_sign t m r = Done s r' ->
    PublicKey_verify (signer_public_key t) m s = Some (Ok tt)
}.

#[export] Instance PrivateKey_signer : Signer PrivateKey := {|
  signer_sign self data :=
    raw ← expect_rand (kp_sign (prk_key self) data);
    of_panics (Signature_from raw);
  signer_public_key := PrivateKey_public_key
|}.

(** [impl Signer for Arc<T>]: forwards. *)
Record Arc (T : Type) : Type := mk_arc { arc_inner : T }.

#[export] Instance Arc_signer {T} `{!Signer T} : Signer (Arc T) := {|
  signer_sign self data := signer_sign (arc_inner T self) data;
  signer_public_key self := signer_public_key (arc_inner T self)
|}.

(** ** Lemmas *)

Context `{!AwsEcdsaLaws R}.

Lemma signature_from_fits raw : length raw <= 72 ->
  exists s, Signature_from raw = Some s /\ Signature_as_ref s = Some raw.
Proof.
  intros L. unfold Signature_from.
  pose proof (signature_try_from_ok raw) as E. unfold MAX_LEN in E.
  rewrite E by lia. eexists. split; [done|].
  eapply signature_try_from_inv. apply E. lia.
Qed.

(** Signing fails only when the provider does. *)
Lemma PrivateKey_sign_spec (key : PrivateKey) m r :
  match kp_sign (prk_key key) m r with
  | (Some raw, r') => exists s, signer_sign key m r = Done s r' /\ Signature_as_ref s = Some raw
  | (None, r') => signer_sign key m r = Panic r'
  end.
Proof.
  simpl. unfold mbind, prog_bind, expect_rand.
  destruct (kp_sign (prk_key key) m r) as [[raw|] r'] eqn:E; [|done].
  destruct (signature_from_fits raw) as (s & F & A); [by eapply signed_length|].
  exists s. unfold of_panics. by rewrite F.
Qed.

#[export] Instance PrivateKey_signer_laws : SignerLaws PrivateKey.
Proof.
  split. intros key m r s r' E. pose proof (PrivateKey_sign_spec key m r) as S.
  destruct (kp_sign (prk_key key) m r) as [[raw|] r1] eqn:K; [|congruence].
  destruct S as (s1 & E1 & A). rewrite E in E1. simplify_eq.
  unfold PublicKey_verify. rewrite A. simpl. by rewrite (signed_verifies _ _ _ _ _ K).
Qed.

#[export] Instance Arc_signer_laws {T} `{!Signer T} `{!SignerLaws T} : SignerLaws (Arc T).
Proof. split. intros [t] m r s r' E. exact (signer_verifies t m r s r' E). Qed.

End Keys.
