(* ===== verification/Certificate.v ===== *)
(** * Certificates

    Models [rc-crypto/src/certificate/] (serial numbers, validity periods,
    parsing an X509 certificate from DER and PEM), [rc-x509-trust/src/cert/]
    (certificates received from the server, not yet trusted) and
    [rc-x509-roots/src/root.rs].  The parsers and encoders of the [x509_parser],
    [pem] and [jiff] crates are parameters ([X509Lib]); what is modelled is what
    this code does with their answers.  The theorems say exactly which inputs
    become a certificate, which are refused and with which error, which make the
    constructor panic, and that a certificate survives DER and PEM round trips. *)

From stdpp Require Import base option list strings.
From Stdlib Require Import Strings.Byte NArith ZArith Lia.
From S2P Require Import Prelude Hex CertId Hash.

Local Open Scope string_scope.

(** ** The parsing libraries *)

Class X509Lib : Type := {
  X509Error : Type;
  PEMError : Type;
  JiffError : Type;
  Timestamp : Type;
  (* X509CertificateParser::new().with_deep_parse_extensions(deep).parse(der):
     the unparsed remainder and the certificate *)
  x509_parse : bool -> list u8 -> result (list u8 * X509Certificate) X509Error;
  (* Pem::iter_from_buffer: the contents of each block, in order *)
  pem_iter : list u8 -> list (result (list u8) PEMError);
  (* pem::encode_config of a CERTIFICATE block with LF line endings *)
  pem_encode : list u8 -> list u8;
  (* jiff::Timestamp::from_second, and its Display *)
  timestamp_from_second : Z -> result Timestamp JiffError;
  timestamp_display : Timestamp -> string
}.

(** Documented behaviour the code relies on: a shallow parse accepts what a deep
    parse accepted ([subject] re-parses shallowly), and decoding an encoded PEM
    block gives its contents back. *)
Class X509LibLaws `{X509Lib} : Prop := {
  x509_shallow : forall der p, x509_parse true der = Ok p -> exists q, x509_parse false der = Ok q;
  pem_decode_encode : forall der, pem_iter (pem_encode der) = [Ok der]
}.

(** ** Serial numbers *)

Record SerialNumber : Type := mk_serial {
  serial_bytes : list u8;
  serial_rendered : CachedStringRepr
}.

(** [SerialNumber::new]: asserts [VALID_LENGTHS] ([1..=20]). *)
Definition SerialNumber_new (value : list u8) : panics SerialNumber :=
  if decide (1 <= length value /\ length value <= 20) then
    Some (mk_serial value CachedStringRepr_default)
  else None.

Definition SerialNumber_as_bytes (s : SerialNumber) : list u8 := serial_bytes s.

Definition SerialNumber_as_hex_str (n : SerialNumber) : panics (SerialNumber * string) :=
  '(r, s) ← CachedStringRepr_get_or_init (serial_rendered n)
              (fun _ => colon_string (serial_bytes n));
  Some (mk_serial (serial_bytes n) r, s).

(** [From<&X509Certificate>]. *)
Definition SerialNumber_from (cert : X509Certificate) : panics SerialNumber :=
  SerialNumber_new (x_raw_serial cert).

(** ** Fingerprints of certificates *)

Definition Fingerprint_from `{AwsDigest} (cert : X509Certificate) : panics Fingerprint :=
  digest ← Sha256_hash (x_raw cert);
  Some (mk_fingerprint digest CachedStringRepr_default).

Section Certificates.
Context `{AwsDigest} `{X509Lib}.

(** ** Validity periods *)

Record Validity : Type := mk_validity {
  not_before : Timestamp;
  not_after : Timestamp;
  validity_rendered : CachedStringRepr
}.

Definition asn1_to_timestamp (secs : Z) : result Timestamp JiffError :=
  timestamp_from_second secs.

(** [Validity::new] and [TryFrom<&X509Certificate>]. *)
Definition Validity_new (nb na : Z) : result Validity JiffError :=
  (let? not_before := asn1_to_timestamp nb in
   let? not_after := asn1_to_timestamp na in
   Ok (mk_validity not_before not_after CachedStringRepr_default))%rc.

Definition Validity_try_from (cert : X509Certificate) : result Validity JiffError :=
  Validity_new (x_not_before cert) (x_not_after cert).

Definition Validity_as_display_str (v : Validity) : panics (Validity * string) :=
  '(r, s) ← CachedStringRepr_get_or_init (validity_rendered v)
              (fun _ => Some (timestamp_display (not_before v) +:+ ".." +:+
                              timestamp_display (not_after v)));
  Some (mk_validity (not_before v) (not_after v) r, s).

(** [range]: the closed interval as a pair of bounds. *)
Definition Validity_range (v : Validity) : Timestamp * Timestamp := (not_before v, not_after v).

(** ** Certificates *)

Inductive InvalidDer : Type :=
| InvalidDer_Parse (e : X509Error)
| InvalidDer_ExcessDER
| InvalidDer_InvalidTimestamp (e : JiffError)
| InvalidDer_CertId (e : InvalidCertId)
| InvalidDer_IssuerCertId (e : InvalidIssuerCertId).

Inductive InvalidPem : Type :=
| InvalidPem_NoPEM
| InvalidPem_DeserialisePEM (e : PEMError)
| InvalidPem_ParseX509 (e : InvalidDer)
| InvalidPem_TooManyBlocks.

Record Certificate : Type := mk_certificate {
  cert_der : list u8;
  cert_public_key_der : list u8;
  cert_serial_number : SerialNumber;
  cert_fingerprint : Fingerprint;
  cert_validity : Validity;
  cert_cert_id : CertId;
  cert_issuer_cert_id : IssuerCertId;
  cert_is_ca : bool
}.

(** [Certificate::from_der], with its early returns in order.  The outer
    [option] is the panic of [Fingerprint::from] / [SerialNumber::from]. *)
Definition Certificate_from_der (der : list u8) : panics (result Certificate InvalidDer) :=
  match map_err InvalidDer_Parse (x509_parse true der) with
  | Err e => Some (Err e)
  | Ok (rem, cert) =>
      if decide (rem <> []) then Some (Err InvalidDer_ExcessDER)
      else
        fingerprint ← Fingerprint_from cert;
        serial_number ← SerialNumber_from cert;
        Some (let? validity := map_err InvalidDer_InvalidTimestamp (Validity_try_from cert) in
              let? cert_id := map_err InvalidDer_CertId (CertId_try_from_x509 cert) in
              let? issuer_cert_id :=
                map_err InvalidDer_IssuerCertId (IssuerCertId_try_from_x509 cert) in
              let is_ca := x_is_ca cert in
              let public_key_der := x_public_key cert in
              Ok (mk_certificate der public_key_der serial_number fingerprint validity
                    cert_id issuer_cert_id is_ca))%rc
  end.

(** [Certificate::from_pem]: exactly one PEM block. *)
Definition Certificate_from_pem (pem : list u8) : panics (result Certificate InvalidPem) :=
  match pem_iter pem with
  | [] => Some (Err InvalidPem_NoPEM)
  | Err e :: _ => Some (Err (InvalidPem_DeserialisePEM e))
  | Ok _ :: _ :: _ => Some (Err InvalidPem_TooManyBlocks)
  | [Ok contents] =>
      r ← Certificate_from_der contents;
      Some (map_err InvalidPem_ParseX509 r)
  end.

(** Accessors, and the PEM rendering. *)
Definition Certificate_as_der (c : Certificate) : list u8 := cert_der c.
Definition Certificate_generate_pem (c : Certificate) : list u8 := pem_encode (cert_der c).
Definition Certificate_public_key (c : Certificate) : PublicKey :=
  mk_public_key (cert_public_key_der c).

(** [subject]: re-parses the retained DER, [expect]ing it to be valid. *)
Definition Certificate_subject (c : Certificate) : panics string :=
  match x509_parse false (cert_der c) with
  | Ok (_, cert) => Some (x_subject cert)
  | Err _ => None
  end.

(** [From<rcgen::Certificate>]: [from_pem(..).expect("valid cert round-trip")]. *)
Definition Certificate_from_rcgen (pem : list u8) : panics Certificate :=
  r ← Certificate_from_pem pem;
  match r with Ok c => Some c | Err _ => None end.

(** ** Untrusted and root certificates *)

(** [struct UntrustedCertBytes(Bytes)] and [struct UntrustedCert(Certificate)]. *)
Record UntrustedCertBytes : Type := UntrustedCertBytes_new { ucb_bytes : list u8 }.
Record UntrustedCert : Type := mk_untrusted { untrusted_cert : Certificate }.

Definition UntrustedCert_from_der (der : list u8) : panics (result UntrustedCert InvalidDer) :=
  r ← Certificate_from_der der;
  Some (result_map mk_untrusted r).

Definition UntrustedCertBytes_parse (b : UntrustedCertBytes) :
  panics (result UntrustedCert InvalidDer) := UntrustedCert_from_der (ucb_bytes b).

Definition UntrustedCert_as_der_slice (c : UntrustedCert) : list u8 := cert_der (untrusted_cert c).
Definition UntrustedCert_fingerprint (c : UntrustedCert) : Fingerprint :=
  cert_fingerprint (untrusted_cert c).
Definition UntrustedCert_cert_id (c : UntrustedCert) : CertId := cert_cert_id (untrusted_cert c).
Definition UntrustedCert_issuer_cert_id (c : UntrustedCert) : IssuerCertId :=
  cert_issuer_cert_id (untrusted_cert c).
Definition UntrustedCert_into_trusted (c : UntrustedCert) : Certificate := untrusted_cert c.

(** [PartialEq]: by fingerprint. *)
Definition UntrustedCert_eq (a b : UntrustedCert) : bool :=
  Fingerprint_eq (UntrustedCert_fingerprint a) (UntrustedCert_fingerprint b).

(** [struct RootCertificate(Certificate)]. *)
Record RootCertificate : Type := RootCertificate_from_trusted_cert { root_cert : Certificate }.

(** [R1] and [R2]: a PEM constant parsed on first use,
    [expect]ing it to be valid. *)
Definition load_root (pem : list u8) : panics RootCertificate :=
  r ← Certificate_from_pem pem;
  match r with Ok c => Some (RootCertificate_from_trusted_cert c) | Err _ => None end.

End Certificates.

(** ** Lemmas *)

Section CertificateFacts.
Context `{AwsDigestLaws} `{X509Lib}.

Definition serial_in_range (x : X509Certificate) : Prop :=
  1 <= length (x_raw_serial x) /\ length (x_raw_serial x) <= 20.

(** The validity period of [x] runs from [nb] to [na]. *)
Definition valid_from_to (x : X509Certificate) (nb na : Timestamp) : Prop :=
  timestamp_from_second (x_not_before x) = Ok nb /\ timestamp_from_second (x_not_after x) = Ok na.

(** The first identifier that the extensions of [x] carry, of the kind [sel]. *)
Definition first_id (sel : ParsedExtension -> option (list u8)) (x : X509Certificate) : option (list u8) :=
  head (omap sel (x_extensions x)).
Definition id_in_range (bs : list u8) : Prop := 16 <= length bs /\ length bs <= 64.

(** [c] has the fields of the parsed certificate [x] of [der]. *)
Definition cert_reads (der : list u8) (x : X509Certificate) (c : Certificate) : Prop :=
  cert_der c = der /\
  serial_bytes (cert_serial_number c) = x_raw_serial x /\
  Fingerprint_as_bytes (cert_fingerprint c) = sha256 (x_raw x) /\
  valid_from_to x (not_before (cert_validity c)) (not_after (cert_validity c)) /\
  (first_id sel_ski x = Some (cid_bytes (cert_cert_id c)) /\ id_in_range (cid_bytes (cert_cert_id c))) /\
  (first_id sel_aki x = Some (cid_bytes (icid (cert_issuer_cert_id c))) /\
   id_in_range (cid_bytes (icid (cert_issuer_cert_id c)))) /\
  cert_is_ca c = x_is_ca x /\ cert_public_key_der c = x_public_key x.

(** Why a certificate with a serial number in range is refused: the first of
    the period, the identifier and the issuer's identifier that is no good. *)
Definition cert_refused (x : X509Certificate) (e : InvalidDer) : Prop :=
  let dated := exists nb na, valid_from_to x nb na in
  let identified := exists id, first_id sel_ski x = Some id /\ id_in_range id in
  match e with
  | InvalidDer_Parse _ | InvalidDer_ExcessDER => False
  | InvalidDer_InvalidTimestamp e =>
      timestamp_from_second (x_not_before x) = Err e \/
      is_ok (timestamp_from_second (x_not_before x)) = true /\
      timestamp_from_second (x_not_after x) = Err e
  | InvalidDer_CertId InvalidCertId_NoSKI => dated /\ first_id sel_ski x = None
  | InvalidDer_CertId (InvalidCertId_InvalidLength l) => dated /\
      exists id, first_id sel_ski x = Some id /\ ~ id_in_range id /\ actual_len l = length id
  | InvalidDer_IssuerCertId InvalidIssuerCertId_NoAKI => dated /\ identified /\ first_id sel_aki x = None
  | InvalidDer_IssuerCertId (InvalidIssuerCertId_InvalidLength l) => dated /\ identified /\
      exists id, first_id sel_aki x = Some id /\ ~ id_in_range id /\ actual_len l = length id
  end.

Lemma find_map_head {A B} (f : A -> option B) l : find_map f l = head (omap f l).
Proof. induction l as [|a l IH]; simpl; [done|]. by destruct (f a). Qed.

Lemma Validity_try_from_spec x :
  match Validity_try_from x with
  | Ok v => valid_from_to x (not_before v) (not_after v)
  | Err e => cert_refused x (InvalidDer_InvalidTimestamp e)
  end.
Proof.
  unfold Validity_try_from, Validity_new, asn1_to_timestamp, cert_refused, valid_from_to.
  destruct (timestamp_from_second (x_not_before x)); simpl; [|by left].
  destruct (timestamp_from_second (x_not_after x)); simpl; auto.
Qed.

(** Either identifier: in range, missing, or of the length that is reported. *)
Lemma CertId_try_from_range bs :
  match CertId_try_from bs with
  | Ok c => cid_bytes c = bs /\ id_in_range bs
  | Err l => ~ id_in_range bs /\ actual_len l = length bs
  end.
Proof.
  unfold CertId_try_from, id_in_range, MIN_LENGTH, MAX_LENGTH.
  case_decide; simpl; (split; [lia || done | lia || done]).
Qed.

Lemma CertId_try_from_x509_spec x :
  match CertId_try_from_x509 x with
  | Ok c => first_id sel_ski x = Some (cid_bytes c) /\ id_in_range (cid_bytes c)
  | Err InvalidCertId_NoSKI => first_id sel_ski x = None
  | Err (InvalidCertId_InvalidLength l) =>
      exists id, first_id sel_ski x = Some id /\ ~ id_in_range id /\ actual_len l = length id
  end.
Proof.
  unfold CertId_try_from_x509, first_id. change (find_map _ (x_extensions x)) with (find_map sel_ski (x_extensions x)).
  rewrite find_map_head. destruct (head _) as [bs|]; simpl; [|done].
  pose proof (CertId_try_from_range bs) as R. destruct (CertId_try_from bs) as [c|l]; simpl; [|by exists bs].
  by destruct R as [-> ?].
Qed.

Lemma IssuerCertId_try_from_x509_spec x :
  match IssuerCertId_try_from_x509 x with
  | Ok c => first_id sel_aki x = Some (cid_bytes (icid c)) /\ id_in_range (cid_bytes (icid c))
  | Err InvalidIssuerCertId_NoAKI => first_id sel_aki x = None
  | Err (InvalidIssuerCertId_InvalidLength l) =>
      exists id, first_id sel_aki x = Some id /\ ~ id_in_range id /\ actual_len l = length id
  end.
Proof.
  unfold IssuerCertId_try_from_x509, first_id.
  change (find_map _ (x_extensions x)) with (find_map sel_aki (x_extensions x)).
  rewrite find_map_head. destruct (head _) as [bs|]; simpl; [|done].
  pose proof (CertId_try_from_range bs) as R. destruct (CertId_try_from bs) as [c|l]; simpl; [|by exists bs].
  by destruct R as [-> ?].
Qed.

Lemma Fingerprint_from_spec x :
  Fingerprint_from x = Some (mk_fingerprint (mk_digest (sha256 (x_raw x))) CachedStringRepr_default).
Proof. unfold Fingerprint_from. by rewrite Sha256_hash_spec. Qed.

Lemma SerialNumber_from_spec x :
  SerialNumber_from x =
    if decide (serial_in_range x) then Some (mk_serial (x_raw_serial x) CachedStringRepr_default)
    else None.
Proof. unfold SerialNumber_from, SerialNumber_new. by repeat case_decide. Qed.

(** [from_der] once the parser has accepted all of the input. *)
Lemma from_der_parsed der x :
  x509_parse true der = Ok ([], x) ->
  Certificate_from_der der =
    if decide (serial_in_range x) then
      Some (let? validity := map_err InvalidDer_InvalidTimestamp (Validity_try_from x) in
            let? cert_id := map_err InvalidDer_CertId (CertId_try_from_x509 x) in
            let? issuer := map_err InvalidDer_IssuerCertId (IssuerCertId_try_from_x509 x) in
            Ok (mk_certificate der (x_public_key x)
                  (mk_serial (x_raw_serial x) CachedStringRepr_default)
                  (mk_fingerprint (mk_digest (sha256 (x_raw x))) CachedStringRepr_default)
                  validity cert_id issuer (x_is_ca x)))%rc
    else None.
Proof.
  intros Hp. unfold Certificate_from_der. rewrite Hp. simpl.
  rewrite Fingerprint_from_spec, SerialNumber_from_spec. simpl.
  by destruct (decide (serial_in_range x)).
Qed.

Lemma from_der_unparsed der :
  (forall x, x509_parse true der <> Ok ([], x)) ->
  (exists e, x509_parse true der = Err e /\
     Certificate_from_der der = Some (Err (InvalidDer_Parse e))) \/
  (exists rem x, x509_parse true der = Ok (rem, x) /\ rem <> [] /\
     Certificate_from_der der = Some (Err InvalidDer_ExcessDER)).
Proof.
  intros Hn. unfold Certificate_from_der.
  destruct (x509_parse true der) as [[rem x]|e] eqn:E; simpl; [right|left; eauto].
  destruct (decide (rem = [])) as [->|Hr]; [by destruct (Hn x)|].
  exists rem, x. split_and!; [done | done |]. by rewrite decide_True.
Qed.

Lemma from_der_parsed_dec der :
  (exists x, x509_parse true der = Ok ([], x)) \/ (forall x, x509_parse true der <> Ok ([], x)).
Proof. destruct (x509_parse true der) as [[[|] x]|e] eqn:E; naive_solver. Qed.

(** A parsed certificate with a serial number in range. *)
Lemma from_der_reads der x : x509_parse true der = Ok ([], x) -> serial_in_range x ->
  match Certificate_from_der der with
  | Some (Ok c) => cert_reads der x c /\ cert_id_wf (cert_cert_id c) /\
      cert_id_wf (icid (cert_issuer_cert_id c))
  | Some (Err e) => cert_refused x e
  | None => False
  end.
Proof.
  intros Hx Hs. rewrite (from_der_parsed _ _ Hx), decide_True by done.
  pose proof (Validity_try_from_spec x) as V. destruct (Validity_try_from x) as [v|e]; simpl; [|exact V].
  pose proof (CertId_try_from_x509_spec x) as I. pose proof (cert_ids_of_x509 x) as [Wi Wa].
  assert (dated : exists nb na, valid_from_to x nb na) by eauto.
  destruct (CertId_try_from_x509 x) as [c|[|l]]; simpl; [|done..].
  pose proof (IssuerCertId_try_from_x509_spec x) as A.
  assert (identified : exists id, first_id sel_ski x = Some id /\ id_in_range id) by eauto.
  destruct (IssuerCertId_try_from_x509 x) as [i|[|l]]; simpl; [|done..].
  destruct Wi as (? & ? & ? & _ & _ & _ & Wi), Wa as (? & ? & ? & _ & _ & _ & Wa).
  by split_and!.
Qed.

Lemma from_der_ok_inv der c :
  Certificate_from_der der = Some (Ok c) ->
  exists x, x509_parse true der = Ok ([], x) /\ serial_in_range x /\ cert_reads der x c.
Proof.
  intros Hc. destruct (from_der_parsed_dec der) as [[x Hx]|Hn].
  - assert (Hs : serial_in_range x).
    { rewrite (from_der_parsed _ _ Hx) in Hc. by case_decide. }
    exists x. pose proof (from_der_reads _ _ Hx Hs) as R. rewrite Hc in R. by destruct R.
  - destruct (from_der_unparsed _ Hn) as [(e & _ & E)|(rem & x & _ & _ & E)]; congruence.
Qed.

End CertificateFacts.

(** ** A concrete parsing library

    A three-byte certificate format (subject id byte, issuer id byte, serial
    length) and an identity PEM encoding, enough to evaluate the model. *)
Definition toy_x509 (der : list u8) (s a n : u8) : X509Certificate :=
  mk_x509 der (replicate (N.to_nat (Byte.to_N n)) x2a) 0 1
    [OtherExtension; SubjectKeyIdentifier (replicate 16 s);
     AuthorityKeyIdentifier (Some (replicate 16 a))] false [x04] "CN=toy".

Definition toy_lib : X509Lib := {|
  X509Error := unit; PEMError := unit; JiffError := unit; Timestamp := Z;
  x509_parse := fun _ der =>
    match der with
    | s :: a :: n :: rem => Ok (rem, toy_x509 (take 3 der) s a n)
    | _ => Err tt
    end;
  pem_iter := fun pem => [Ok pem];
  pem_encode := fun der => der;
  timestamp_from_second := fun z => Ok z;
  timestamp_display := fun _ => "t"
|}.

Lemma toy_lib_laws : @X509LibLaws toy_lib.
Proof.
  split; [|done]. intros der p Hp. exists p. exact Hp.
Qed.

(** ** Properties *)

Section CertificateProperties.
Context `{AwsDigestLaws} `{X509Lib}.

(** C39. What parsing a certificate does on every input: it returns a certificate
    carrying exactly the fields of the parsed input - its bytes, serial number,
    digest, the start and the end of its validity period, the first subject and
    authority key identifiers, whether it is an authority, its key - when the DER
    parses with nothing left over and every field is in range; each refusal names
    the first check that failed; and it panics exactly when the input parses but
    its serial number is empty or longer than 20 bytes. *)
Theorem certificate_from_der_spec (der : list u8) :
  match x509_parse true der with
  | Err e => Certificate_from_der der = Some (Err (InvalidDer_Parse e))
  | Ok (_ :: _, _) => Certificate_from_der der = Some (Err InvalidDer_ExcessDER)
  | Ok ([], x) =>
      match Certificate_from_der der with
      | None => ~ serial_in_range x
      | Some (Ok c) => serial_in_range x /\ cert_reads der x c /\
          cert_id_wf (cert_cert_id c) /\ cert_id_wf (icid (cert_issuer_cert_id c))
      | Some (Err e) => serial_in_range x /\ cert_refused x e
      end
  end.
Proof.
  destruct (x509_parse true der) as [[[|b rem] x]|e] eqn:Hx.
  - destruct (decide (serial_in_range x)) as [Hs|Hs].
    + pose proof (from_der_reads _ _ Hx Hs) as R.
      by destruct (Certificate_from_der der) as [[c|e]|].
    + rewrite (from_der_parsed _ _ Hx), decide_False by done. done.
  - unfold Certificate_from_der. by rewrite Hx.
  - unfold Certificate_from_der. by rewrite Hx.
Qed.

(** A certificate survives its encodings: re-parsing the retained DER or
    the PEM generated from it gives the same certificate, and asking for its
    subject never panics. *)
Lemma certificate_roundtrip `{!X509LibLaws} (der : list u8) (c : Certificate) :
  Certificate_from_der der = Some (Ok c) ->
  Certificate_from_der (Certificate_as_der c) = Some (Ok c) /\
  Certificate_from_pem (Certificate_generate_pem c) = Some (Ok c) /\
  is_Some (Certificate_subject c).
Proof.
  intros Hc. destruct (from_der_ok_inv _ _ Hc) as (x & Hx & _ & Hr).
  assert (E : cert_der c = der) by apply Hr. split_and!.
  - unfold Certificate_as_der. by rewrite E.
  - unfold Certificate_from_pem, Certificate_generate_pem. rewrite pem_decode_encode, E.
    by rewrite Hc.
  - unfold Certificate_subject. rewrite E. destruct (x509_shallow _ _ Hx) as [[r y] ->]. eauto.
Qed.

End CertificateProperties.

Lemma certificate_from_der_spec_witness :
  match @Certificate_from_der toy_digest toy_lib [x01; x02; x01] with
  | Some (Ok c) => cid_bytes (cert_cert_id c) = replicate 16 x01 /\
      not_before (cert_validity c) = 0%Z /\ not_after (cert_validity c) = 1%Z /\
      @cert_reads toy_digest toy_lib [x01; x02; x01] (toy_x509 [x01; x02; x01] x01 x02 x01) c
  | _ => False
  end.
Proof.
  split_and!; [reflexivity..|].
  apply (@certificate_from_der_spec toy_digest toy_digest_laws toy_lib [x01; x02; x01]).
Defined.

Lemma certificate_roundtrip_witness :
  exists c, @Certificate_from_der toy_digest toy_lib [x01; x02; x01] = Some (Ok c) /\
    @Certificate_from_pem toy_digest toy_lib (Certificate_generate_pem c) = Some (Ok c).
Proof.
  eexists. split; [reflexivity|].
  apply (@certificate_roundtrip toy_digest toy_digest_laws toy_lib toy_lib_laws [x01; x02; x01]).
  reflexivity.
Defined.
