(* ===== verification/Csr.v ===== *)
(** * Certificate signing requests

    Models [rc-crypto/src/certificate/csr.rs] and the interface of
    [issuer.rs].  [rcgen], which holds the parameters of a request and encodes
    it, is a parameter of the model: its parameter struct is the record
    [CertificateParams], its encoder is [serialize_request].  The theorems give
    the result of both constructors on every input: which names are refused, the
    profile that is requested, and that the request is signed by the key it asks
    to certify. *)

From stdpp Require Import base option list strings.
From Stdlib Require Import Strings.Byte NArith ZArith Lia.
From S2P Require Import Prelude Hex Utf8 Signature Hash Keys Certificate.

Local Open Scope string_scope.
Local Open Scope rc_scope.

(** ** [rcgen] *)

Inductive DnType : Type :=
| CommonName | OrganizationName | OrganizationalUnitName | OtherDnType (oid : list N).
Inductive IsCa : Type := NoCa | ExplicitNoCa | Ca (path_len : option N).
Inductive KeyUsagePurpose : Type :=
| DigitalSignature | ContentCommitment | KeyEncipherment | DataEncipherment | KeyAgreement
| KeyCertSign | CrlSign | EncipherOnly | DecipherOnly.
Inductive ExtendedKeyUsagePurpose : Type :=
| CodeSigning | OtherEku (oid : list N).

#[export] Instance DnType_eq_dec : EqDecision DnType.
Proof. solve_decision. Defined.

Class RcgenTypes : Type := {
  RcgenError : Type;
  Ia5String : Type;
  PrintableString : Type;
  TeletexString : Type;
  BmpString : Type;
  UniversalString : Type;
  DistinguishedName : Type;
  RcgenSerialNumber : Type;
  OffsetDateTime : Type;
  NameConstraints : Type;
  CrlDistributionPoint : Type;
  CustomExtension : Type;
  OtherSan : Type;
  RcgenSignatureAlgorithm : Type;
  (** The parameters that the code leaves at their defaults. *)
  OtherParams : Type;
  (** A serialised request. *)
  RcgenCsr : Type
}.

Section RcgenData.
Context `{RcgenTypes}.

Inductive DnValue : Type :=
| DnUtf8String (s : string)
| DnPrintableString (s : PrintableString)
| DnIa5String (s : Ia5String)
| DnTeletexString (s : TeletexString)
| DnBmpString (s : BmpString)
| DnUniversalString (s : UniversalString).

Inductive SanType : Type := DnsName (name : Ia5String) | SanOther (s : OtherSan).
Inductive KeyIdMethod : Type := KeyIdSha256 | KeyIdSha384 | KeyIdSha512 | PreSpecified (id : list u8).

Record CertificateParams : Type := mk_params {
  cp_serial_number : option RcgenSerialNumber;
  cp_subject_alt_names : list SanType;
  cp_distinguished_name : DistinguishedName;
  cp_is_ca : IsCa;
  cp_key_usages : list KeyUsagePurpose;
  cp_extended_key_usages : list ExtendedKeyUsagePurpose;
  cp_name_constraints : option NameConstraints;
  cp_crl_distribution_points : list CrlDistributionPoint;
  cp_custom_extensions : list CustomExtension;
  cp_key_identifier_method : KeyIdMethod;
  cp_not_before : OffsetDateTime;
  cp_not_after : OffsetDateTime;
  cp_use_authority_key_identifier_extension : bool;
  cp_other : OtherParams
}.

(** [trait SigningKey: PublicKeyData]. *)
Record SigningKey (R : Type) : Type := mk_signing_key {
  sk_sign : list u8 -> prog R (result (list u8) RcgenError);
  sk_der_bytes : list u8;
  sk_algorithm : RcgenSignatureAlgorithm
}.

(** What a reader of a request finds in it: the bytes that were signed, the
    signature, and, among the signed bytes, the subject key and the request. *)
Record CsrInfo : Type := mk_csr_info {
  ci_tbs : list u8;
  ci_signature : list u8;
  ci_public_key : list u8;
  ci_subject : DistinguishedName;
  ci_subject_alt_names : list SanType;
  ci_key_usages : list KeyUsagePurpose;
  ci_extended_key_usages : list ExtendedKeyUsagePurpose
}.

End RcgenData.
Arguments sk_sign {_ R} _ _ _.
Arguments sk_der_bytes {_ R} _.
Arguments sk_algorithm {_ R} _.

Class Rcgen `{RcgenTypes} : Type := {
  ia5_try_from : string -> result Ia5String RcgenError;
  ia5_as_str : Ia5String -> string;
  printable_as_str : PrintableString -> string;
  teletex_as_str : TeletexString -> string;
  dn_new : DistinguishedName;
  dn_push : DnType -> DnValue -> DistinguishedName -> DistinguishedName;
  dn_get : DnType -> DistinguishedName -> option DnValue;
  PKCS_ECDSA_P256_SHA256 : RcgenSignatureAlgorithm;
  subject_public_key_info : list u8 -> RcgenSignatureAlgorithm -> list u8;
  params_new : list string -> result CertificateParams RcgenError;
  serialize_request : forall {R}, CertificateParams -> SigningKey R -> prog R (result RcgenCsr RcgenError);
  csr_der : RcgenCsr -> list u8;
  csr_pem : RcgenCsr -> result string RcgenError;
  csr_info : RcgenCsr -> CsrInfo
}.

(** Parameters that have a place in a request; [p0] are the defaults. *)
Definition params_supported `{RcgenTypes} (p0 p : CertificateParams) : Prop :=
  cp_serial_number p = None /\ cp_name_constraints p = None /\ cp_crl_distribution_points p = [] /\
  cp_use_authority_key_identifier_extension p = cp_use_authority_key_identifier_extension p0 /\
  cp_other p = cp_other p0.

(** What [rcgen] documents: an IA5 string is a string of ASCII characters; a
    distinguished name maps types to values; parameters without names always
    exist; a request carries the subject key and the parameters it supports and
    is signed with the subject key, and its encoding fails only if a parameter
    has no place in a request or signing fails. *)
Class RcgenLaws `{Rcgen} : Prop := {
  ia5_ascii : forall s, match ia5_try_from s with
    | Ok v => str_is_ascii s = true /\ ia5_as_str v = s
    | Err _ => str_is_ascii s = false
    end;
  dn_get_push : forall t t' v dn,
    dn_get t (dn_push t' v dn) = if decide (t = t') then Some v else dn_get t dn;
  dn_get_new : forall t, dn_get t dn_new = None;
  params_new_empty : exists p, params_new [] = Ok p /\ cp_subject_alt_names p = [];
  request_contents : forall R p (k : SigningKey R) r c r', serialize_request p k r = Done (Ok c) r' ->
    ci_public_key (csr_info c) = sk_der_bytes k /\
    ci_subject (csr_info c) = cp_distinguished_name p /\
    ci_subject_alt_names (csr_info c) = cp_subject_alt_names p /\
    ci_key_usages (csr_info c) = cp_key_usages p /\
    ci_extended_key_usages (csr_info c) = cp_extended_key_usages p;
  request_signed : forall R p (k : SigningKey R) r c r', serialize_request p k r = Done (Ok c) r' ->
    exists r1 r2, sk_sign k (ci_tbs (csr_info c)) r1 = Done (Ok (ci_signature (csr_info c))) r2;
  request_total : forall R p (k : SigningKey R) p0 r, params_new [] = Ok p0 ->
    params_supported p0 p ->
    (forall m r, exists s r', sk_sign k m r = Done (Ok s) r') ->
    exists c r', serialize_request p k r = Done (Ok c) r'
}.

(** ** Requests *)

Definition CSR_ON : string := "Datadog, Inc.".
Definition CSR_OU : string := "RC Attestation Certificate".

Section Csr.
Context `{Rcgen} `{AwsDigest} {R : Type} `{!AwsEcdsa R}.

Inductive CsrError : Type :=
| San (e : RcgenError)
| Serialise (e : RcgenError)
| EmptyIdent.

Record CertificateSigningRequest : Type := mk_csr {
  csr_profile : CertificateParams;
  csr_serialised : RcgenCsr
}.

(** [impl PublicKeyData for PublicKey], and [PublicKey::key_id]. *)
Definition PublicKey_der_bytes (self : PublicKey) : list u8 := pk_bytes self.
Definition PublicKey_algorithm (self : PublicKey) : RcgenSignatureAlgorithm := PKCS_ECDSA_P256_SHA256.
Definition key_id (self : PublicKey) : panics KeyId :=
  PublicKey_key_id (fun k => subject_public_key_info (PublicKey_der_bytes k) (PublicKey_algorithm k)) self.

(** [impl SigningKey for PrivateKey], [impl PublicKeyData for PrivateKey]. *)
Definition PrivateKey_signing_key (self : PrivateKey) : SigningKey R :=
  mk_signing_key R
    (fun msg => sig ← signer_sign self msg; bs ← of_panics (Signature_as_ref sig); mret (Ok bs))
    (kp_public_key (prk_key self))
    (PublicKey_algorithm (PrivateKey_public_key self)).

(** The end of both constructors: the key identifier, and the serialised form. *)
Definition request (private_key : PrivateKey) (profile : list u8 -> CertificateParams) :
  prog R (result CertificateSigningRequest CsrError) :=
  kid ← of_panics (key_id (PrivateKey_public_key private_key));
  let profile := profile (KeyId_as_bytes kid) in
  serialised ← serialize_request profile (PrivateKey_signing_key private_key);
  mret (let? serialised := map_err Serialise serialised in Ok (mk_csr profile serialised)).

Definition subject (cn : string) : DistinguishedName :=
  let distinguished_name := dn_new in
  let distinguished_name := dn_push CommonName (DnUtf8String cn) distinguished_name in
  let distinguished_name := dn_push OrganizationName (DnUtf8String CSR_ON) distinguished_name in
  dn_push OrganizationalUnitName (DnUtf8String CSR_OU) distinguished_name.

Definition new_leaf (private_key : PrivateKey) (cn san : string) :
  prog R (result CertificateSigningRequest CsrError) :=
  if bool_decide (str_trim cn = []) || bool_decide (str_trim san = []) then mret (Err EmptyIdent)
  else
    match map_err San (params_new []) with
    | Err e => mret (Err e)
    | Ok profile =>
        match map_err San (ia5_try_from san) with
        | Err e => mret (Err e)
        | Ok san =>
            request private_key (fun kid => mk_params None [DnsName san] (subject cn) NoCa
              [DigitalSignature] [CodeSigning] None [] [] (PreSpecified kid) (cp_not_before profile)
              (cp_not_after profile) (cp_use_authority_key_identifier_extension profile) (cp_other profile))
        end
    end.

Definition new_intermediate (private_key : PrivateKey) (cn : string) :
  prog R (result CertificateSigningRequest CsrError) :=
  if bool_decide (str_trim cn = []) then mret (Err EmptyIdent)
  else
    match map_err San (params_new []) with
    | Err e => mret (Err e)
    | Ok profile =>
        request private_key (fun kid => mk_params None (cp_subject_alt_names profile) (subject cn) NoCa
          [KeyCertSign; CrlSign] [] None [] [] (PreSpecified kid) (cp_not_before profile)
          (cp_not_after profile) (cp_use_authority_key_identifier_extension profile) (cp_other profile))
    end.

Definition as_der_bytes (self : CertificateSigningRequest) : list u8 := csr_der (csr_serialised self).

(** [pem().expect(..)]. *)
Definition as_pem_string (self : CertificateSigningRequest) : panics string :=
  match csr_pem (csr_serialised self) with Ok s => Some s | Err _ => None end.

(** [common_name]: no common name and an unexpected encoding panic. *)
Definition common_name (self : CertificateSigningRequest) : panics string :=
  dn_value ← dn_get CommonName (cp_distinguished_name (csr_profile self));
  match dn_value with
  | DnUtf8String s => Some s
  | DnPrintableString s => Some (printable_as_str s)
  | DnIa5String s => Some (ia5_as_str s)
  | DnTeletexString s => Some (teletex_as_str s)
  | DnBmpString _ | DnUniversalString _ => None
  end.

End Csr.

(** ** Issuers: [issuer.rs] *)

Section Issuer.
Context `{Rcgen} `{X509Lib}.

Inductive IssueError (BoxErr : Type) : Type := Retryable (e : BoxErr) | Fatal (e : BoxErr).

Class CertIssuer (W BoxErr T : Type) : Type :=
  issue_cert_for : T -> CertificateSigningRequest -> N -> prog W (result Certificate (IssueError BoxErr)).

#[export] Instance Arc_issuer {W BoxErr T} `{!CertIssuer W BoxErr T} : CertIssuer W BoxErr (Arc T) :=
  fun self csr ttl => issue_cert_for (arc_inner T self) csr ttl.

End Issuer.

(** ** Lemmas *)

Section CsrLemmas.
Context `{RcgenLaws} `{AwsDigestLaws} {R : Type} `{!AwsEcdsa R} `{!AwsEcdsaLaws R}.

Definition blank (cs : list char) : Prop := Forall (fun c => is_whitespace c = true) cs.

(** The host's randomness never fails a signature of this key. *)
Definition can_sign (key : PrivateKey) : Prop :=
  forall m r, exists s r', kp_sign (prk_key key) m r = (Some s, r').

Definition spki_hash (key : PrivateKey) : list u8 :=
  sha256 (subject_public_key_info (kp_public_key (prk_key key)) PKCS_ECDSA_P256_SHA256).

(** The request proves possession of the key that it asks to certify. *)
Definition self_signed (key : PrivateKey) (c : RcgenCsr) : Prop :=
  ci_public_key (csr_info c) = pk_bytes (PrivateKey_public_key key) /\
  exists sig, Signature_as_ref sig = Some (ci_signature (csr_info c)) /\
    PublicKey_verify (PrivateKey_public_key key) (ci_tbs (csr_info c)) sig = Some (Ok tt).

(** A request for the key [key], the common name [cn] and the given uses. *)
Definition asks (key : PrivateKey) (cn : string) (sans : list SanType) (uses : list KeyUsagePurpose)
  (purposes : list ExtendedKeyUsagePurpose) (csr : CertificateSigningRequest) : Prop :=
  let i := csr_info (csr_serialised csr) in
  self_signed key (csr_serialised csr) /\
  dn_get CommonName (ci_subject i) = Some (DnUtf8String cn) /\
  dn_get OrganizationName (ci_subject i) = Some (DnUtf8String CSR_ON) /\
  dn_get OrganizationalUnitName (ci_subject i) = Some (DnUtf8String CSR_OU) /\
  ci_subject_alt_names i = sans /\ ci_key_usages i = uses /\ ci_extended_key_usages i = purposes /\
  cp_is_ca (csr_profile csr) = NoCa /\
  cp_key_identifier_method (csr_profile csr) = PreSpecified (spki_hash key) /\
  common_name csr = Some cn.

Lemma blank_trim cs : Forall scalar cs -> str_trim (str_of cs) = [] <-> blank cs.
Proof. intros F. by rewrite str_trim_nil, str_chars_of. Qed.

Lemma key_id_hash key : key_id (PrivateKey_public_key key) =
  Some (mk_key_id (mk_digest (spki_hash key)) CachedStringRepr_default).
Proof. unfold key_id, PublicKey_key_id, KeyId_from. by rewrite Sha256_hash_spec. Qed.

Lemma signing_key_signs key m r s r' :
  sk_sign (PrivateKey_signing_key key) m r = Done (Ok s) r' ->
  exists sig, Signature_as_ref sig = Some s /\
    PublicKey_verify (PrivateKey_public_key key) m sig = Some (Ok tt).
Proof.
  cbn [sk_sign PrivateKey_signing_key]. intros E.
  apply prog_bind_inv in E as (sig & r1 & Es & E). unfold of_panics in E.
  apply prog_bind_inv in E as (bs & r2 & Eb & [= -> ->]).
  destruct (Signature_as_ref sig) as [b|] eqn:A; [|done]. injection Eb as <- _.
  exists sig. split; [done|]. exact (signer_verifies key m r sig r1 Es).
Qed.

Lemma signing_key_total key : can_sign key ->
  forall m r, exists s r', sk_sign (PrivateKey_signing_key key) m r = Done (Ok s) r'.
Proof.
  intros C m r. destruct (C m r) as (s & r' & E). pose proof (PrivateKey_sign_spec key m r) as S.
  rewrite E in S. destruct S as (sig & Es & A). exists s, r'.
  cbn [sk_sign PrivateKey_signing_key]. unfold mbind, prog_bind, of_panics. by rewrite Es, A.
Qed.

(** What a request that was made says. *)
Lemma request_asks key profile cn sans uses purposes r csr r' :
  request key profile r = Done (Ok csr) r' ->
  (forall kid, cp_distinguished_name (profile kid) = subject cn /\
    cp_subject_alt_names (profile kid) = sans /\ cp_key_usages (profile kid) = uses /\
    cp_extended_key_usages (profile kid) = purposes /\ cp_is_ca (profile kid) = NoCa /\
    cp_key_identifier_method (profile kid) = PreSpecified kid) ->
  asks key cn sans uses purposes csr.
Proof.
  unfold request. rewrite key_id_hash. unfold of_panics. intros E P.
  apply prog_bind_inv in E as (kid & r1 & [= <- <-] & E). cbv zeta in E.
  specialize (P (spki_hash key)). unfold KeyId_as_bytes, Digest_as_bytes in E. simpl in E.
  set (p := profile (spki_hash key)) in *. destruct P as (Pd & Ps & Pu & Pp & Pc & Pk).
  apply prog_bind_inv in E as ([c|e] & r1 & Es & [= <- <-]).
  pose proof (request_contents _ _ _ _ _ _ Es) as (Ck & Cd & Cs & Cu & Cp).
  destruct (request_signed _ _ _ _ _ _ Es) as (r2 & r3 & Sg).
  unfold asks, common_name. cbn [csr_serialised csr_profile]. rewrite Cd, Cs, Cu, Cp, Pd.
  unfold subject. rewrite !dn_get_push. simpl.
  split_and!; try done. split; [done|]. by eapply signing_key_signs.
Qed.

Lemma request_made key profile p0 r : can_sign key -> params_new [] = Ok p0 ->
  (forall kid, params_supported p0 (profile kid)) ->
  exists csr r', request key profile r = Done (Ok csr) r'.
Proof.
  intros C P S. unfold request. rewrite key_id_hash.
  destruct (request_total R (profile (spki_hash key)) (PrivateKey_signing_key key) p0 r P (S _)
    (signing_key_total key C)) as (c & r' & E).
  eexists _, r'. unfold of_panics. erewrite prog_bind_done by reflexivity. cbv zeta.
  erewrite prog_bind_done by exact E. reflexivity.
Qed.

End CsrLemmas.

(** ** Providers for concrete evaluation *)

(** Not ECDSA: a signature repeats the key and the first bytes of the data. *)
#[export] Instance toy_ecdsa : AwsEcdsa () := {|
  EcdsaKeyPair := u8;
  try_fips_mode _ := true;
  generate_pkcs8 r := (Some [x2a], r);
  from_pkcs8 d := head d;
  kp_public_key k := [k];
  kp_sign k m r := (Some (k :: take 8 m), r);
  ecdsa_verify pk m s := bool_decide (s = (pk ++ take 8 m)%list)
|}.

#[export] Instance toy_ecdsa_laws : AwsEcdsaLaws ().
Proof.
  split.
  - intros r d r' [= <- _]. by eexists.
  - intros k m r s r' [= <- _]. by apply bool_decide_eq_true.
  - intros k m r s r' [= <- _]. simpl. rewrite length_take. lia.
Qed.

Record toy_csr : Type := mk_toy_csr {
  tc_signature : list u8;
  tc_key : list u8;
  tc_subject : list (DnType * (bool * string));
  tc_sans : list string;
  tc_uses : list KeyUsagePurpose;
  tc_purposes : list ExtendedKeyUsagePurpose
}.

Definition toy_rcgen_types : RcgenTypes := {|
  RcgenError := (); Ia5String := string; PrintableString := Empty_set; TeletexString := Empty_set;
  BmpString := Empty_set; UniversalString := Empty_set;
  DistinguishedName := list (DnType * (bool * string)); RcgenSerialNumber := list u8;
  OffsetDateTime := Z; NameConstraints := list string; CrlDistributionPoint := Empty_set;
  CustomExtension := list N * list u8 * bool;
  OtherSan := Empty_set; RcgenSignatureAlgorithm := (); OtherParams := (); RcgenCsr := toy_csr
|}.

Section Toy.
#[local] Existing Instance toy_rcgen_types.

Definition toy_value (v : DnValue) : bool * string :=
  match v with
  | DnUtf8String s => (true, s)
  | DnIa5String s => (false, s)
  | DnPrintableString s | DnTeletexString s | DnBmpString s | DnUniversalString s =>
      match (s : Empty_set) with end
  end.
Definition toy_unvalue (x : bool * string) : DnValue :=
  if x.1 then DnUtf8String x.2 else DnIa5String (x.2 : Ia5String).

Fixpoint toy_get (t : DnType) (dn : list (DnType * (bool * string))) : option DnValue :=
  match dn with
  | [] => None
  | (t', x) :: dn => if decide (t = t') then Some (toy_unvalue x) else toy_get t dn
  end.

Definition toy_san (s : SanType) : string :=
  match s with DnsName n => n | SanOther x => match (x : Empty_set) with end end.

#[export] Instance toy_rcgen : @Rcgen toy_rcgen_types := {|
  ia5_try_from s := if str_is_ascii s then Ok (s : Ia5String) else Err (tt : RcgenError);
  ia5_as_str s := s;
  printable_as_str s := match (s : Empty_set) with end;
  teletex_as_str s := match (s : Empty_set) with end;
  dn_new := [];
  dn_push t v dn := (t, toy_value v) :: dn;
  dn_get := toy_get;
  PKCS_ECDSA_P256_SHA256 := tt;
  subject_public_key_info k _ := x30 :: k;
  params_new _ := Ok (mk_params None [] [] NoCa [] [] None [] [] KeyIdSha256 0%Z 1%Z false tt);
  serialize_request R p k r :=
    match sk_sign k (sk_der_bytes k) r with
    | Done (Ok s) r' => Done (Ok (mk_toy_csr s (sk_der_bytes k) (cp_distinguished_name p)
        (toy_san <$> cp_subject_alt_names p) (cp_key_usages p) (cp_extended_key_usages p))) r'
    | Done (Err e) r' => Done (Err e) r'
    | Panic r' => Panic r'
    | Blocked r' => Blocked r'
    end;
  csr_der c := tc_signature c;
  csr_pem _ := Ok "";
  csr_info c := mk_csr_info (tc_key c) (tc_signature c) (tc_key c) (tc_subject c)
    ((DnsName : Ia5String -> SanType) <$> tc_sans c) (tc_uses c) (tc_purposes c)
|}.

Lemma toy_value_inv v : toy_unvalue (toy_value v) = v.
Proof. by destruct v as [s|[]|s|[]|[]|[]]. Qed.

Lemma toy_san_inv (l : list SanType) : (DnsName : Ia5String -> SanType) <$> (toy_san <$> l) = l.
Proof. induction l as [|[n|[]] l IH]; [done|]. simpl. by f_equal. Qed.

#[export] Instance toy_rcgen_laws : @RcgenLaws toy_rcgen_types toy_rcgen.
Proof.
  split; cbn.
  - intros s. by destruct (str_is_ascii s).
  - intros t t' v dn. by rewrite toy_value_inv.
  - done.
  - by eexists.
  - intros R p k r c r' E.
    destruct (sk_sign k (sk_der_bytes k) r) as [[s|e] r1|r1|r1]; simplify_eq/=. by rewrite toy_san_inv.
  - intros R p k r c r' E. exists r, r'.
    destruct (sk_sign k (sk_der_bytes k) r) as [[s|e] r1|r1|r1] eqn:K; simplify_eq/=. exact K.
  - intros R p k p0 r _ _ T. destruct (T (sk_der_bytes k) r) as (s & r' & ->). by eexists _, _.
Qed.

End Toy.

(** ** Properties *)

Section CsrProperties.
Context `{RcgenLaws} `{AwsDigestLaws} {R : Type} `{!AwsEcdsa R} `{!AwsEcdsaLaws R}.

(** C27. A leaf request, for a key that can sign: a common name or a subject
    alternative name that is empty or only Unicode white space is refused, then
    an alternative name that is not ASCII; every other pair of names gives a
    request for exactly the leaf profile (the given names under the fixed
    organisation, one DNS name, digital signatures for code signing, not a CA,
    the SHA-256 key identifier), signed by the key it asks to certify, which the
    library's own verification accepts. *)
Theorem new_leaf_spec (key : PrivateKey) (cn san : list char) r
  (Fc : Forall scalar cn) (Fs : Forall scalar san) (C : can_sign key) :
  let e := new_leaf key (str_of cn) (str_of san) r in
  if decide (blank cn \/ blank san) then e = Done (Err EmptyIdent) r
  else if decide (Forall (fun c => c < 0x80)%N san) then
    exists csr r' name, e = Done (Ok csr) r' /\ ia5_as_str name = str_of san /\
      asks key (str_of cn) [DnsName name] [DigitalSignature] [CodeSigning] csr
  else exists err, e = Done (Err (San err)) r.
Proof.
  cbv zeta. unfold new_leaf. destruct params_new_empty as (p0 & P & _).
  destruct (decide (blank cn \/ blank san)) as [B|B].
  { rewrite <- !blank_trim in B by done.
    destruct B as [->| ->]; [done|]. by rewrite orb_true_r. }
  rewrite !bool_decide_eq_false_2 by (rewrite blank_trim by done; tauto). cbn [orb]. rewrite P. simpl.
  pose proof (ia5_ascii (str_of san)) as A. pose proof (str_is_ascii_of san Fs) as As.
  destruct (ia5_try_from (str_of san)) as [name|err]; [destruct A as [A N] | rewrite A in As]; case_decide;
    try (exfalso; intuition congruence); simpl; [|by eexists].
  edestruct (request_made key) as (csr & r' & E); [done | exact P | |].
  2: { exists csr, r', name. split; [exact E|]. split; [done|]. by eapply request_asks. }
  by intros kid.
Qed.

(** An intermediate request: refused for a blank common name; otherwise a
    request for exactly the intermediate profile - no alternative names,
    certificate and revocation-list signing, no extended purposes - signed by the
    key it asks to certify. *)
Lemma new_intermediate_spec (key : PrivateKey) (cn : list char) r
  (Fc : Forall scalar cn) (C : can_sign key) :
  let e := new_intermediate key (str_of cn) r in
  if decide (blank cn) then e = Done (Err EmptyIdent) r
  else exists csr r', e = Done (Ok csr) r' /\
    asks key (str_of cn) [] [KeyCertSign; CrlSign] [] csr.
Proof.
  cbv zeta. unfold new_intermediate. destruct params_new_empty as (p0 & P & S).
  case_decide as B.
  { by rewrite bool_decide_eq_true_2 by (by apply blank_trim). }
  rewrite bool_decide_eq_false_2 by (by rewrite blank_trim). rewrite P. simpl.
  edestruct (request_made key) as (csr & r' & E); [done | exact P | |].
  2: { exists csr, r'. split; [exact E|]. by eapply request_asks. }
  by intros kid.
Qed.

(** C32. Whatever the names and even if signing can fail: a request that either
    constructor returns is signed by its own key and keeps the common name it
    was made with, so [common_name] never panics. *)
Theorem csr_well_formed (key : PrivateKey) (cn san : string) r r' csr
  (E : new_leaf key cn san r = Done (Ok csr) r' \/ new_intermediate key cn r = Done (Ok csr) r') :
  common_name csr = Some cn /\ self_signed key (csr_serialised csr).
Proof.
  assert (exists sans uses purposes, asks key cn sans uses purposes csr)
    as (? & ? & ? & Sg & _ & _ & _ & _ & _ & _ & _ & _ & N); [|done].
  destruct E as [E|E]; revert E; [unfold new_leaf | unfold new_intermediate];
    repeat (case_match; try discriminate); intros E; eexists _, _, _;
    (eapply request_asks; [exact E|]); intros kid; simpl; split_and!; reflexivity.
Qed.

End CsrProperties.

(** *** Witnesses *)

Definition toy_key : @PrivateKey () toy_ecdsa := @mk_private_key () toy_ecdsa x2a.

(** An ideographic space is blank; [a.b] is a name. *)
Lemma new_leaf_spec_witness :
  @new_leaf toy_rcgen_types toy_rcgen toy_digest () toy_ecdsa toy_key
    (str_of [0x3000; 0x20]%N) (str_of [0x61]%N) tt = Done (Err EmptyIdent) tt /\
  exists csr r', @new_leaf toy_rcgen_types toy_rcgen toy_digest () toy_ecdsa
    toy_key (str_of [0xe9]%N) (str_of [0x61; 0x2e; 0x62]%N) tt = Done (Ok csr) r' /\
    common_name csr = Some (str_of [0xe9]%N).
Proof.
  pose proof (@new_leaf_spec toy_rcgen_types toy_rcgen toy_rcgen_laws toy_digest toy_digest_laws () toy_ecdsa
    toy_ecdsa_laws toy_key) as T.
  split.
  - refine (T [0x3000; 0x20]%N [0x61]%N tt _ _ _); [repeat constructor; unfold scalar; lia .. |].
    by intros m r; eexists _, _.
  - edestruct (T [0xe9]%N [0x61; 0x2e; 0x62]%N tt) as (csr & r' & name & E & _ & A);
      [repeat constructor; unfold scalar; lia .. | by intros m r; eexists _, _ |].
    exists csr, r'. split; [exact E | apply A].
Defined.

Lemma new_intermediate_spec_witness :
  exists csr r', @new_intermediate toy_rcgen_types toy_rcgen toy_digest () toy_ecdsa
    toy_key (str_of [0x61]%N) tt = Done (Ok csr) r' /\
    ci_key_usages (csr_info (csr_serialised csr)) = [KeyCertSign; CrlSign].
Proof.
  edestruct (@new_intermediate_spec toy_rcgen_types toy_rcgen toy_rcgen_laws toy_digest toy_digest_laws ()
    toy_ecdsa toy_ecdsa_laws toy_key [0x61]%N tt) as (csr & r' & E & A);
    [repeat constructor; unfold scalar; lia | by intros m r; eexists _, _ |].
  exists csr, r'. split; [exact E | apply A].
Defined.

Lemma csr_well_formed_witness :
  match @new_intermediate toy_rcgen_types toy_rcgen toy_digest () toy_ecdsa
    toy_key "ca" tt with
  | Done (Ok csr) _ => common_name csr = Some "ca"
  | _ => False
  end.
Proof.
  refine (proj1 (@csr_well_formed toy_rcgen_types toy_rcgen toy_rcgen_laws toy_digest toy_digest_laws ()
    toy_ecdsa toy_ecdsa_laws toy_key "ca" "" tt tt _ _)).
  right. reflexivity.
Defined.
