(* ===== verification/TrustStore.v ===== *)
(** * Trust store: certificate cache, chain building, validation

    Models [rc-x509-trust/src/trust_store/] and
    [rc-x509-trust/src/chain/build_unverified.rs].

    A [CertCache] is an interface (a class over the cache's state); the
    in-memory cache implements it on top of a [mini_moka] cache, which is a
    parameter with the documented laws of a concurrent cache that may forget
    entries at any time.  Chain building is proved against the interface: it
    always terminates, what it returns is a linked path of at most six cached
    certificates from the leaf to a root, and against a cache that does not
    forget in the meantime its answer is fully determined by the contents. *)

From stdpp Require Import base option list gmap strings.
From Stdlib Require Import Strings.Byte NArith ZArith Lia.
From S2P Require Import Prelude Hex Signature CertId Hash Certificate.

Section TrustStore.
Context `{AwsDigest} `{X509Lib}.

(** ** The [CertCache] trait *)

(** Methods take [&self]; the cache's interior state is threaded. *)
Class CertCache (C : Type) : Type := {
  cache_insert : UntrustedCert -> prog C ();
  cache_get : CertId -> prog C (option UntrustedCert);
  cache_remove : CertId -> prog C ()
}.

(** ** Root sets *)

Record RootSet : Type := RootSet_new { roots : list RootCertificate }.

(** [find]: the first root whose certificate ID equals the needle. *)
Definition RootSet_find (rs : RootSet) (needle : DangerousComparableId IssuerCertId) :
  option RootCertificate :=
  find_first (fun v => Dangerous_eq (as_dangerous_comparable (cert_cert_id (root_cert v))) needle)
    (roots rs).

Definition RootSet_into_array (rs : RootSet) : list RootCertificate := roots rs.

(** ** Building a candidate chain *)

Definition MAX_INTERMEDIATES : nat := 6.

Inductive ChainBuildError : Type :=
| MissingIntermediate (id : IssuerCertId)
| ExcessivelyLongChain.

(** [struct UntrustedChain(&RootCertificate, Vec<Arc<UntrustedCert>>)]. *)
Record UntrustedChain : Type := UntrustedChain_new {
  chain_root : RootCertificate;
  chain_certs : list UntrustedCert
}.

Definition UntrustedChain_as_slice (c : UntrustedChain) : list UntrustedCert := chain_certs c.

(** The [loop] of [build_unverified_chain_for]; [fuel] bounds its iterations. *)
Fixpoint build_loop {C} `{CertCache C} (fuel : nat) (rs : RootSet)
  (next_cert_id : IssuerCertId) (chain : list UntrustedCert) :
  prog C (result UntrustedChain ChainBuildError) :=
  match fuel with
  | 0 => fun c => Blocked c
  | S fuel =>
      match RootSet_find rs (as_dangerous_comparable next_cert_id) with
      | Some v => mret (Ok (UntrustedChain_new v chain))
      | None =>
          if decide (MAX_INTERMEDIATES <= length chain) then mret (Err ExcessivelyLongChain)
          else
            issuer_cert ← cache_get (IssuerCertId_as_cert_id next_cert_id);
            match issuer_cert with
            | None => mret (Err (MissingIntermediate next_cert_id))
            | Some v => build_loop fuel rs (UntrustedCert_issuer_cert_id v) (chain ++ [v])
            end
      end
  end.

(** [build_unverified_chain_for].  One iteration per intermediate and one to
    stop, so [MAX_INTERMEDIATES + 1] iterations are enough. *)
Definition build_unverified_chain_for {C} `{CertCache C} (rs : RootSet) (cert : UntrustedCert) :
  prog C (result UntrustedChain ChainBuildError) :=
  build_loop (MAX_INTERMEDIATES + 1) rs (UntrustedCert_issuer_cert_id cert) [].

(** ** The trust store *)

Inductive VerificationError : Type :=
| MissingLeafCert (id : CertId)
| ChainBuild (e : ChainBuildError).

Record TrustStore (C : Type) : Type := mk_trust_store { ts_roots : RootSet; ts_cache : C }.
Arguments mk_trust_store {C} ts_roots ts_cache.
Arguments ts_roots {C} t.
Arguments ts_cache {C} t.

Definition TrustStore_new {C} (rs : list RootCertificate) (cache : C) : TrustStore C :=
  mk_trust_store (RootSet_new rs) cache.

(** [add]: one insertion per certificate, in order. *)
Fixpoint TrustStore_add {C} `{CertCache C} (certs : list UntrustedCert) : prog C () :=
  match certs with
  | [] => mret tt
  | cert :: certs => cache_insert cert ;; TrustStore_add certs
  end.

(** [validate]: looks the signing certificate up and builds a candidate chain
    for it.  The signature and the payload are not used. *)
Definition TrustStore_validate {C} `{CertCache C} (rs : RootSet) (signing_cert_id : CertId)
  (_signature : Signature) (_payload : list u8) : prog C (result () VerificationError) :=
  cert ← cache_get signing_cert_id;
  match cert with
  | None => mret (Err (MissingLeafCert signing_cert_id))
  | Some cert =>
      candidate_chain ← build_unverified_chain_for rs cert;
      mret (match candidate_chain with
            | Ok _ => Ok tt
            | Err e => Err (ChainBuild e)
            end)
  end.

(** ** The in-memory cache *)

(** [mini_moka::sync::Cache] keyed by owned comparable IDs. *)
Class Moka (M : Type) : Type := {
  (** [Cache::builder()] with the capacity, the idle time in seconds and the
      weigher, up to [build()]. *)
  moka_build : N -> N -> (DangerousComparableId CertId -> UntrustedCert -> panics Z) -> M;
  moka_insert : DangerousComparableId CertId -> UntrustedCert -> M -> M;
  moka_get : DangerousComparableId CertId -> M -> option UntrustedCert * M;
  moka_invalidate : DangerousComparableId CertId -> M -> M
}.

(** What is documented of it: a new cache is empty.  [moka_map] over-approximates the live entries:
    an entry may be evicted or expire at any call, but a hit returns the value
    last inserted under an equal key and not invalidated since. *)
Class MokaLaws (M : Type) `{Moka M} : Type := {
  moka_map : M -> gmap (list u8) UntrustedCert;
  moka_build_empty : forall cap idle weigh, moka_map (moka_build cap idle weigh) = ∅;
  moka_get_hit : forall k m v m',
    moka_get k m = (Some v, m') -> moka_map m !! Dangerous_as_bytes k = Some v;
  moka_get_forgets : forall k m r m', moka_get k m = (r, m') -> moka_map m' ⊆ moka_map m;
  moka_insert_spec : forall k v m,
    moka_map (moka_insert k v m) ⊆ <[Dangerous_as_bytes k := v]> (moka_map m);
  moka_invalidate_spec : forall k m,
    moka_map (moka_invalidate k m) ⊆ delete (Dangerous_as_bytes k) (moka_map m)
}.

(** [struct MemoryCertCache { certs }]. *)
Record MemoryCertCache (M : Type) : Type := mk_memory_cache { mcc_certs : M }.
Arguments mk_memory_cache {M} mcc_certs.
Arguments mcc_certs {M} m.

(** [weight_estimator]: a certificate's cache weight, DER length plus a quarter,
    in [usize] arithmetic of width [w] and saturated to [u32].  With overflow
    checks ([debug]) the multiplication panics when it overflows, else it
    wraps. *)
Definition weight_estimator (debug : bool) (w der_len : Z) : panics Z :=
  let prod := (der_len * 5)%Z in
  prod ← (if decide (prod < 2 ^ w)%Z then Some prod
          else if debug then None else Some (wrap w prod));
  let v := (prod / 4)%Z in
  Some (if decide (v <= u32_max)%Z then v else u32_max).

(** [PURGE_AFTER], in seconds. *)
Definition PURGE_AFTER : N := 24 * 60 * 60.

Section MemoryCache.
Context {M : Type} `{Moka M}.

(** [MemoryCertCache::new], in a build with or without overflow checks and with
    [usize] of width [w]. *)
Definition MemoryCertCache_new (debug : bool) (w : Z) (approx_max_bytes : N) :
  MemoryCertCache M :=
  mk_memory_cache
    (moka_build approx_max_bytes PURGE_AFTER
       (fun _id cert => weight_estimator debug w (Z.of_nat (length (UntrustedCert_as_der_slice cert))))).

Definition MemoryCertCache_insert (cert : UntrustedCert) : prog (MemoryCertCache M) () :=
  let cert_id := Dangerous_into_owned (as_dangerous_comparable (UntrustedCert_cert_id cert)) in
  modify (fun c => mk_memory_cache (moka_insert cert_id cert (mcc_certs c))).

(** [get], with the [assert_eq!] on the identifier of what was found. *)
Definition MemoryCertCache_get (cert_id : CertId) :
  prog (MemoryCertCache M) (option UntrustedCert) := fun c =>
  let '(got, m') :=
    moka_get (Dangerous_into_owned (as_dangerous_comparable cert_id)) (mcc_certs c) in
  let c' := mk_memory_cache m' in
  match got with
  | Some cert =>
      if Dangerous_eq (as_dangerous_comparable (UntrustedCert_cert_id cert))
           (as_dangerous_comparable cert_id)
      then Done got c' else Panic c'
  | None => Done got c'
  end.

Definition MemoryCertCache_remove (cert_id : CertId) : prog (MemoryCertCache M) () :=
  modify (fun c =>
    mk_memory_cache
      (moka_invalidate (Dangerous_into_owned (as_dangerous_comparable cert_id)) (mcc_certs c))).

#[export] Instance MemoryCertCache_CertCache : CertCache (MemoryCertCache M) := {|
  cache_insert := MemoryCertCache_insert;
  cache_get := MemoryCertCache_get;
  cache_remove := MemoryCertCache_remove
|}.

End MemoryCache.

End TrustStore.

Arguments mk_trust_store {_ C} ts_roots ts_cache.
Arguments ts_roots {_ C} t.
Arguments ts_cache {_ C} t.
Arguments mk_memory_cache {M} mcc_certs.
Arguments mcc_certs {M} m.

(** ** Interface contracts *)

Section Contracts.
Context `{X509Lib} (C : Type) `{!CertCache C}.

(** What chain building needs of any cache: lookups return (they do not wait),
    and a hit carries the identifier that was asked for. *)
Class CertCacheContract : Prop := {
  cache_get_key : forall id c v c',
    cache_get id c = Done (Some v) c' -> id_equiv (UntrustedCert_cert_id v) id;
  cache_get_returns : forall id c c', cache_get id c <> Blocked c'
}.

(** A cache that forgets nothing while it is being read: in a state that serves
    [m], every lookup answers from [m] and the cache keeps serving [m]. *)
Class StableCache : Type := {
  serves : C -> gmap (list u8) UntrustedCert -> Prop;
  serves_get : forall c m id, serves c m ->
    exists c', cache_get id c = Done (m !! id_bytes id) c' /\ serves c' m
}.

End Contracts.

(** ** Specification of chain building *)

Section ChainSpec.
Context `{X509Lib}.

(** [linked rs id chain root]: every certificate of [chain] is the issuer named
    before it, no identifier on the way is a root's, and the last one is
    [root]'s. *)
Inductive linked (rs : RootSet) : IssuerCertId -> list UntrustedCert -> RootCertificate -> Prop :=
| linked_root id root :
    RootSet_find rs (as_dangerous_comparable id) = Some root ->
    linked rs id [] root
| linked_step id c chain root :
    RootSet_find rs (as_dangerous_comparable id) = None ->
    id_equiv (UntrustedCert_cert_id c) id ->
    linked rs (UntrustedCert_issuer_cert_id c) chain root ->
    linked rs id (c :: chain) root.

(** [reach rs m id chain id']: following issuers in the map [m] from [id] passes
    through [chain] and arrives at [id'], without passing a root. *)
Inductive reach (rs : RootSet) (m : gmap (list u8) UntrustedCert) :
  IssuerCertId -> list UntrustedCert -> IssuerCertId -> Prop :=
| reach_here id : reach rs m id [] id
| reach_step id c chain id' :
    RootSet_find rs (as_dangerous_comparable id) = None ->
    m !! id_bytes id = Some c ->
    reach rs m (UntrustedCert_issuer_cert_id c) chain id' ->
    reach rs m id (c :: chain) id'.

(** The answer for a leaf whose issuer is [id], given what the cache holds. *)
Definition chain_answer (rs : RootSet) (m : gmap (list u8) UntrustedCert) (id : IssuerCertId)
  (r : result UntrustedChain ChainBuildError) : Prop :=
  match r with
  | Ok ch => exists id', reach rs m id (chain_certs ch) id' /\
      RootSet_find rs (as_dangerous_comparable id') = Some (chain_root ch) /\
      length (chain_certs ch) <= MAX_INTERMEDIATES
  | Err (MissingIntermediate id') => exists chain, reach rs m id chain id' /\
      RootSet_find rs (as_dangerous_comparable id') = None /\ m !! id_bytes id' = None /\
      length chain < MAX_INTERMEDIATES
  | Err ExcessivelyLongChain => exists chain id', reach rs m id chain id' /\
      RootSet_find rs (as_dangerous_comparable id') = None /\ length chain = MAX_INTERMEDIATES
  end.

Lemma RootSet_find_Some rs (id : IssuerCertId) root :
  RootSet_find rs (as_dangerous_comparable id) = Some root ->
  root ∈ roots rs /\ id_equiv (cert_cert_id (root_cert root)) id.
Proof.
  intros E. apply find_first_Some in E as [Hin E]. split; [done|].
  by apply as_dangerous_eq_true in E.
Qed.

Lemma linked_root_in rs id chain root : linked rs id chain root -> root ∈ roots rs.
Proof. induction 1 as [id root E|]; [by apply RootSet_find_Some in E as [? _] | done]. Qed.

Section AnyCache.
Context {C : Type} `{!CertCache C} `{!CertCacheContract C}.

(** The loop, whatever the cache does: it ends, and a chain it returns extends
    the chain so far by a linked path. *)
Lemma build_loop_sound fuel rs id chain c :
  length chain <= MAX_INTERMEDIATES -> MAX_INTERMEDIATES < fuel + length chain ->
  match build_loop fuel rs id chain c with
  | Done (Ok ch) _ => exists ext, chain_certs ch = chain ++ ext /\
      linked rs id ext (chain_root ch) /\ length (chain_certs ch) <= MAX_INTERMEDIATES
  | Done (Err _) _ | Panic _ => True
  | Blocked _ => False
  end.
Proof.
  revert id chain c. induction fuel as [|fuel IH]; intros id chain c Hl Hf; simpl; [lia|].
  destruct (RootSet_find rs _) as [root|] eqn:E.
  { exists []. rewrite app_nil_r. split_and!; [done | by constructor | done]. }
  case_decide as D; [done|]. unfold mbind, prog_bind.
  destruct (cache_get _ c) as [[v|] c'| |] eqn:G; [| done | done |].
  - assert (Hv : id_equiv (UntrustedCert_cert_id v) id) by exact (cache_get_key C _ _ _ _ G).
    specialize (IH (UntrustedCert_issuer_cert_id v) (chain ++ [v]) c').
    rewrite length_app in IH. simpl in IH.
    specialize (IH ltac:(lia) ltac:(lia)).
    destruct (build_loop _ _ _ _ _) as [[ch|]| |]; try done.
    destruct IH as (ext & Hc & Hext & Hn). exists (v :: ext).
    rewrite <- app_assoc in Hc. split_and!; [done | by constructor | done].
  - by apply (cache_get_returns C) in G.
Qed.

End AnyCache.

Section Stable.
Context {C : Type} `{!CertCache C} `{!StableCache C}.

(** One iteration of the loop against a cache that serves [m]. *)
Lemma build_loop_step fuel rs id chain c m :
  serves C c m ->
  RootSet_find rs (as_dangerous_comparable id) = None -> length chain < MAX_INTERMEDIATES ->
  exists c', serves C c' m /\ build_loop (S fuel) rs id chain c =
    match m !! id_bytes id with
    | None => Done (Err (MissingIntermediate id)) c'
    | Some v => build_loop fuel rs (UntrustedCert_issuer_cert_id v) (chain ++ [v]) c'
    end.
Proof.
  intros Hs E Hl. destruct (serves_get C c m (IssuerCertId_as_cert_id id) Hs) as (c' & G & Hs').
  exists c'. split; [done|]. simpl. rewrite E. rewrite decide_False by lia.
  erewrite prog_bind_done by exact G.
  change (id_bytes (IssuerCertId_as_cert_id id)) with (id_bytes id).
  by destruct (m !! id_bytes id).
Qed.

(** Following [reach] is following the loop. *)
Lemma build_loop_reach fuel rs id chain ext id' c m :
  serves C c m -> reach rs m id ext id' ->
  length chain + length ext <= MAX_INTERMEDIATES -> length ext < fuel ->
  exists c', serves C c' m /\
    build_loop fuel rs id chain c = build_loop (fuel - length ext) rs id' (chain ++ ext) c'.
Proof.
  intros Hs Hr. revert fuel chain c Hs.
  induction Hr as [id|id v ext id' E Hm Hr IH]; intros fuel chain c Hs Hl Hf.
  - exists c. rewrite app_nil_r, Nat.sub_0_r. done.
  - destruct fuel as [|fuel]; [simpl in Hf; lia|]. simpl in Hl, Hf.
    destruct (build_loop_step fuel rs id chain c m Hs E) as (c1 & Hs1 & ->); [lia|].
    rewrite Hm. destruct (IH fuel (chain ++ [v]) c1 Hs1) as (c2 & Hs2 & ->);
      [rewrite length_app; simpl; lia | lia |].
    exists c2. split; [done|]. rewrite <- app_assoc. done.
Qed.

(** The specified answer is the one returned. *)
Lemma build_answer_returned rs id c m r :
  serves C c m -> chain_answer rs m id r ->
  exists c', serves C c' m /\ build_loop (MAX_INTERMEDIATES + 1) rs id [] c = Done r c'.
Proof.
  intros Hs Ha. destruct r as [[root certs]|[id'|]]; simpl in Ha.
  - destruct Ha as (id' & Hr & E & Hl).
    destruct (build_loop_reach (MAX_INTERMEDIATES + 1) rs id [] certs id' c m) as (c' & Hs' & ->);
      [done | done | simpl length; lia | lia |].
    exists c'. split; [done|]. replace (MAX_INTERMEDIATES + 1 - length certs)
      with (S (MAX_INTERMEDIATES - length certs)) by lia. simpl. by rewrite E.
  - destruct Ha as (ext & Hr & E & Hm & Hl).
    destruct (build_loop_reach (MAX_INTERMEDIATES + 1) rs id [] ext id' c m) as (c1 & Hs1 & ->);
      [done | done | simpl length; lia | lia |].
    replace (MAX_INTERMEDIATES + 1 - length ext) with (S (MAX_INTERMEDIATES - length ext)) by lia.
    destruct (build_loop_step (MAX_INTERMEDIATES - length ext) rs id' ([] ++ ext) c1 m Hs1 E)
      as (c2 & Hs2 & E2); [done|].
    exists c2. split; [done|]. rewrite E2. by rewrite Hm.
  - destruct Ha as (ext & id' & Hr & E & Hl).
    destruct (build_loop_reach (MAX_INTERMEDIATES + 1) rs id [] ext id' c m) as (c1 & Hs1 & ->);
      [done | done | simpl length; lia | lia |].
    exists c1. split; [done|]. replace (MAX_INTERMEDIATES + 1 - length ext) with 1 by lia.
    simpl. rewrite E. by rewrite decide_True by lia.
Qed.

(** There always is a specified answer. *)
Lemma chain_answer_exists rs m n id chain id0 :
  reach rs m id0 chain id -> length chain + n = MAX_INTERMEDIATES -> exists r, chain_answer rs m id0 r.
Proof.
  assert (Hsnoc : forall a l b v, reach rs m a l b ->
    RootSet_find rs (as_dangerous_comparable b) = None -> m !! id_bytes b = Some v ->
    reach rs m a (l ++ [v]) (UntrustedCert_issuer_cert_id v)).
  { induction 1; intros; simpl; econstructor; eauto. constructor. }
  revert id chain. induction n as [|n IH]; intros id chain Hr Hl;
    destruct (RootSet_find rs (as_dangerous_comparable id)) as [root|] eqn:E.
  1,3: exists (Ok (UntrustedChain_new root chain)), id; simpl; split_and!; auto; lia.
  - exists (Err ExcessivelyLongChain), chain, id. split_and!; auto. lia.
  - destruct (m !! id_bytes id) as [v|] eqn:M.
    + apply (IH (UntrustedCert_issuer_cert_id v) (chain ++ [v])); [by eapply Hsnoc|].
      rewrite length_app. simpl. lia.
    + exists (Err (MissingIntermediate id)), chain. split_and!; auto. lia.
Qed.

Lemma build_answer_unique rs id c m :
  serves C c m ->
  exists r c', build_loop (MAX_INTERMEDIATES + 1) rs id [] c = Done r c' /\ serves C c' m /\
    forall r', chain_answer rs m id r' <-> r' = r.
Proof.
  intros Hs. destruct (chain_answer_exists rs m MAX_INTERMEDIATES id [] id) as [r Hr];
    [constructor | done |].
  destruct (build_answer_returned rs id c m r Hs Hr) as (c' & Hs' & E).
  exists r, c'. split_and!; [done | done |]. intros r'. split; [|by intros ->].
  intros Hr'. destruct (build_answer_returned rs id c m r' Hs Hr') as (c2 & _ & E2). congruence.
Qed.

End Stable.
End ChainSpec.

(** ** The in-memory cache keeps the contract *)

Section MemoryFacts.
Context `{X509Lib} {M : Type} `{!Moka M}.

#[export] Instance MemoryCertCache_contract : CertCacheContract (MemoryCertCache M).
Proof.
  split; intros id c.
  - intros v c' G. cbn in G. unfold MemoryCertCache_get in G.
    destruct (moka_get _ _) as [[cert|] m']; [|done].
    destruct (Dangerous_eq _ _) eqn:E; simplify_eq. by apply as_dangerous_eq_true in E.
  - intros c' G. cbn in G. unfold MemoryCertCache_get in G.
    destruct (moka_get _ _) as [[cert|] m']; [|done]. by destruct (Dangerous_eq _ _).
Qed.

(** A client's calls on the cache, and what a map that forgets nothing would
    hold after them. *)
Inductive cache_op : Type :=
| OpInsert (cert : UntrustedCert)
| OpGet (id : CertId)
| OpRemove (id : CertId).

Definition run_op (op : cache_op) : prog (MemoryCertCache M) () :=
  match op with
  | OpInsert cert => cache_insert cert
  | OpGet id => cache_get id ;; mret tt
  | OpRemove id => cache_remove id
  end.

Fixpoint run_ops (ops : list cache_op) : prog (MemoryCertCache M) () :=
  match ops with [] => mret tt | op :: ops => run_op op ;; run_ops ops end.

Definition apply_op (m : gmap (list u8) UntrustedCert) (op : cache_op) :
  gmap (list u8) UntrustedCert :=
  match op with
  | OpInsert cert => <[id_bytes (UntrustedCert_cert_id cert) := cert]> m
  | OpGet _ => m
  | OpRemove id => delete (id_bytes id) m
  end.

Definition history (ops : list cache_op) : gmap (list u8) UntrustedCert := foldl apply_op ∅ ops.

(** Every entry is filed under its own identifier. *)
Definition keys_match (m : gmap (list u8) UntrustedCert) : Prop :=
  map_Forall (fun k v => id_bytes (UntrustedCert_cert_id v) = k) m.

Lemma apply_op_keys m op : keys_match m -> keys_match (apply_op m op).
Proof.
  intros K. destruct op; simpl; [|done|by apply map_Forall_delete].
  by apply map_Forall_insert_2.
Qed.

Section Laws.
Context `{!MokaLaws M}.

Definition holds_at_most (m : gmap (list u8) UntrustedCert) (c : MemoryCertCache M) : Prop :=
  moka_map (mcc_certs c) ⊆ m.

Lemma memory_get_spec m c id :
  keys_match m -> holds_at_most m c ->
  exists r c', cache_get id c = Done r c' /\ holds_at_most m c' /\
    (r = None \/ r = m !! id_bytes id).
Proof.
  intros K I. cbn. unfold MemoryCertCache_get.
  destruct (moka_get _ (mcc_certs c)) as [r m'] eqn:G.
  assert (I' : holds_at_most m (mk_memory_cache m')).
  { unfold holds_at_most. simpl. etrans; [exact (moka_get_forgets _ _ _ _ G) | exact I]. }
  destruct r as [v|]; [|by exists None, (mk_memory_cache m'); auto].
  apply moka_get_hit in G. assert (Hv : m !! id_bytes id = Some v).
  { eapply lookup_weaken; [exact G | exact I]. }
  replace (Dangerous_eq _ _) with true; [by exists (Some v), (mk_memory_cache m'); auto|].
  symmetry. apply as_dangerous_eq_true. exact (K _ _ Hv).
Qed.

Lemma run_op_refines m c op :
  keys_match m -> holds_at_most m c ->
  exists c', run_op op c = Done tt c' /\ holds_at_most (apply_op m op) c'.
Proof.
  intros K I. destruct op as [cert|id|id]; simpl.
  - eexists. split; [reflexivity|]. unfold holds_at_most. simpl.
    etrans; [apply moka_insert_spec|]. by apply insert_mono.
  - destruct (memory_get_spec m c id K I) as (r & c' & G & I' & _).
    exists c'. split; [|done]. by rewrite (prog_bind_done _ _ _ _ _ G).
  - eexists. split; [reflexivity|]. unfold holds_at_most. simpl.
    etrans; [apply moka_invalidate_spec|]. by apply delete_mono.
Qed.

Lemma run_ops_refines ops m c :
  keys_match m -> holds_at_most m c ->
  exists c', run_ops ops c = Done tt c' /\ keys_match (foldl apply_op m ops) /\
    holds_at_most (foldl apply_op m ops) c'.
Proof.
  revert m c. induction ops as [|op ops IH]; intros m c K I; simpl; [by eexists|].
  destruct (run_op_refines m c op K I) as (c1 & E1 & I1).
  destruct (IH _ c1 (apply_op_keys _ op K) I1) as (c2 & E2 & K2 & I2).
  exists c2. by rewrite (prog_bind_done _ _ _ _ _ E1).
Qed.

End Laws.
End MemoryFacts.

(** ** What validation answers *)

Section ValidateFacts.
Context `{X509Lib}.

Lemma validate_answer {C} `{!CertCache C} `{!StableCache C} rs id signature payload c m
  (Hs : serves C c m) :
  exists r c', TrustStore_validate rs id signature payload c = Done r c' /\ serves C c' m /\
    (r = Ok tt <-> exists leaf ch, m !! id_bytes id = Some leaf /\
      chain_answer rs m (UntrustedCert_issuer_cert_id leaf) (Ok ch)) /\
    (forall e, r = Err (ChainBuild e) <-> exists leaf, m !! id_bytes id = Some leaf /\
      chain_answer rs m (UntrustedCert_issuer_cert_id leaf) (Err e)) /\
    (r = Err (MissingLeafCert id) <-> m !! id_bytes id = None).
Proof.
  destruct (serves_get C c m id Hs) as (c1 & G & Hs1). unfold TrustStore_validate.
  rewrite (prog_bind_done _ _ _ _ _ G). destruct (m !! id_bytes id) as [leaf|] eqn:E.
  - destruct (build_answer_unique rs (UntrustedCert_issuer_cert_id leaf) c1 m Hs1)
      as (r & c2 & B & Hs2 & U).
    eexists _, c2. split; [rewrite (prog_bind_done _ _ _ _ _ B); reflexivity|].
    split; [done|]. destruct r as [ch|e]; split_and!.
    + split; [intros _; exists leaf, ch; split; [done | by apply U] | done].
    + intros e. split; [done|]. intros (l & [= <-] & A). by apply U in A.
    + done.
    + split; [done|]. intros (l & ch & [= <-] & A). by apply U in A.
    + intros e'. split; [intros [= <-]; exists leaf; split; [done | by apply U]|].
      intros (l & [= <-] & A). apply U in A. by simplify_eq.
    + done.
  - eexists _, c1. split; [reflexivity|]. split; [done|]. split_and!; [|intros e|done].
    + split; [done|]. by intros (l & ch & ? & _).
    + split; [done|]. by intros (l & ? & _).
Qed.

End ValidateFacts.

(** ** A cache that never evicts *)

Section GmapMoka.
Context `{X509Lib}.

#[export] Instance gmap_moka : Moka (gmap (list u8) UntrustedCert) := {|
  moka_build _ _ _ := ∅;
  moka_insert k v m := <[Dangerous_as_bytes k := v]> m;
  moka_get k m := (m !! Dangerous_as_bytes k, m);
  moka_invalidate k m := delete (Dangerous_as_bytes k) m
|}.

#[export] Instance gmap_moka_laws : MokaLaws (gmap (list u8) UntrustedCert).
Proof.
  refine {| moka_map := fun m => m |}; simpl.
  - done.
  - by intros k m v m' [= ? ->].
  - by intros k m r m' [= _ ->].
  - done.
  - done.
Defined.

#[export] Instance gmap_stable : StableCache (MemoryCertCache (gmap (list u8) UntrustedCert)).
Proof.
  refine {| serves := fun c m => mcc_certs c = m /\ keys_match m |}.
  intros c m id [<- K]. exists c. split; [|done]. cbn. unfold MemoryCertCache_get. simpl.
  destruct c as [m]. simpl in *. change (Dangerous_as_bytes _) with (id_bytes id).
  destruct (m !! id_bytes id) as [v|] eqn:E; [|done].
  replace (Dangerous_eq _ _) with true; [done|].
  symmetry. apply as_dangerous_eq_true. exact (K _ _ E).
Defined.

End GmapMoka.

(** ** Concrete certificates *)

(** A certificate of the toy format, with subject key [s] and authority key [a]. *)
Definition toy_certificate (s a : u8) : @Certificate toy_lib :=
  @mk_certificate toy_lib [s; a; x01] [x04] (mk_serial [x2a] CachedStringRepr_default)
    (mk_fingerprint (mk_digest []) CachedStringRepr_default)
    (@mk_validity toy_lib 0%Z 1%Z CachedStringRepr_default)
    (mk_cert_id (replicate 16 s) CachedStringRepr_default)
    (mk_issuer_cert_id (mk_cert_id (replicate 16 a) CachedStringRepr_default)) false.

Definition toy_untrusted (s a : u8) : @UntrustedCert toy_lib :=
  @mk_untrusted toy_lib (toy_certificate s a).

Definition toy_roots : @RootSet toy_lib :=
  @RootSet_new toy_lib [@RootCertificate_from_trusted_cert toy_lib (toy_certificate x01 x01)].

Definition toy_id (s : u8) : CertId := mk_cert_id (replicate 16 s) CachedStringRepr_default.

(** A signature of one byte. *)
Definition toy_signature : Signature := mk_signature (x2a :: replicate 119 x00) 1.

(** Leaf 4 -> 3 -> 2 -> root 1, and the two-certificate cycle 5 <-> 6. *)
Definition toy_map : gmap (list u8) (@UntrustedCert toy_lib) :=
  list_to_map ((fun c => (id_bytes (@UntrustedCert_cert_id toy_lib c), c)) <$>
    [toy_untrusted x04 x03; toy_untrusted x03 x02; toy_untrusted x02 x01;
     toy_untrusted x05 x06; toy_untrusted x06 x05]).

Definition toy_cache : MemoryCertCache (gmap (list u8) (@UntrustedCert toy_lib)) :=
  mk_memory_cache toy_map.

Lemma toy_cache_serves :
  @serves toy_lib _ _ (@gmap_stable toy_lib) toy_cache toy_map.
Proof.
  split; [done|]. unfold keys_match, toy_map.
  apply (bool_decide_unpack _). vm_compute. exact I.
Qed.

(** ** Properties *)

Section TrustStoreProperties.
Context `{X509Lib}.

(** C5. Chain building against any cache that honours the contract, however it
    evicts entries between lookups: it returns after a bounded number of
    lookups, and a chain it returns is a linked path of at most
    [MAX_INTERMEDIATES] certificates from the leaf's issuer to a trusted root,
    stopping at the first root on the way. *)
Theorem build_chain_sound {C} `{!CertCache C} `{!CertCacheContract C} rs cert c :
  match build_unverified_chain_for rs cert c with
  | Done (Ok ch) _ =>
      linked rs (UntrustedCert_issuer_cert_id cert) (chain_certs ch) (chain_root ch) /\
      chain_root ch ∈ roots rs /\ length (chain_certs ch) <= 6
  | Done (Err _) _ | Panic _ => True
  | Blocked _ => False
  end.
Proof.
  pose proof (build_loop_sound (MAX_INTERMEDIATES + 1) rs
    (UntrustedCert_issuer_cert_id cert) [] c) as S.
  specialize (S ltac:(simpl; lia) ltac:(lia)). unfold build_unverified_chain_for.
  destruct (build_loop _ _ _ _ _) as [[ch|]| |]; try done.
  destruct S as (ext & -> & Hl & Hn). split_and!; [done | by eapply linked_root_in | done].
Qed.

(** Chain building against a cache that keeps its entries while it is read
    returns exactly the specified answer: the chain to the first root reached
    within [MAX_INTERMEDIATES] intermediates; the first issuer that is neither
    a root nor cached; or, when neither is met in time (a cycle of issuers
    included), that the chain is too long. *)
Lemma build_chain_complete {C} `{!CertCache C} `{!StableCache C} rs cert c m
  (Hs : serves C c m) :
  exists r c', build_unverified_chain_for rs cert c = Done r c' /\ serves C c' m /\
    forall r', chain_answer rs m (UntrustedCert_issuer_cert_id cert) r' <-> r' = r.
Proof. exact (build_answer_unique rs _ c m Hs). Qed.

(** C4. Against a cache that keeps its entries while it is read, validation
    accepts exactly when the signing certificate is cached and its issuers lead
    to a trusted root through at most [MAX_INTERMEDIATES] cached intermediates,
    and reports an uncached signing certificate as such - for every signature
    and every payload: neither has any influence. *)
Theorem validate_spec {C} `{!CertCache C} `{!StableCache C} rs id signature payload c m
  (Hs : serves C c m) :
  exists r c', TrustStore_validate rs id signature payload c = Done r c' /\ serves C c' m /\
    (r = Ok tt <-> exists leaf ch, m !! id_bytes id = Some leaf /\
      chain_answer rs m (UntrustedCert_issuer_cert_id leaf) (Ok ch)) /\
    (forall e, r = Err (ChainBuild e) <-> exists leaf, m !! id_bytes id = Some leaf /\
      chain_answer rs m (UntrustedCert_issuer_cert_id leaf) (Err e)) /\
    (r = Err (MissingLeafCert id) <-> m !! id_bytes id = None).
Proof. exact (validate_answer rs id signature payload c m Hs). Qed.

(** The in-memory cache, after any sequence of calls from [new]: no call
    panics on the identifier check, and a lookup returns either nothing (the
    entry was evicted) or what a map that forgets nothing would hold, so the
    certificate last inserted under that identifier and not removed since. *)
Lemma memory_cache_history {M} `{!Moka M} `{!MokaLaws M} debug w approx_max_bytes ops id :
  exists c, run_ops ops (MemoryCertCache_new (M:=M) debug w approx_max_bytes) = Done tt c /\
    exists r c', cache_get id c = Done r c' /\
      (r = None \/ r = history ops !! id_bytes id).
Proof.
  assert (I0 : holds_at_most ∅ (MemoryCertCache_new (M:=M) debug w approx_max_bytes)).
  { unfold holds_at_most, MemoryCertCache_new. cbn [mcc_certs]. by rewrite moka_build_empty. }
  destruct (run_ops_refines ops ∅ _ (map_Forall_empty _) I0) as (c & E & K & I).
  exists c. split; [done|].
  destruct (memory_get_spec _ c id K I) as (r & c' & G & _ & Hr). by exists r, c'.
Qed.

End TrustStoreProperties.

(** The cache weight of a certificate whose length times five fits the
    address width: no panic in either build mode, the weight fits [u32], is
    never below the certificate's own length (or saturates), and is the length
    plus a quarter, rounded down. *)
Lemma weight_estimator_bounds debug w der_len
  (Hlen : (0 <= der_len)%Z) (Hfit : (der_len * 5 < 2 ^ w)%Z) :
  exists v, weight_estimator debug w der_len = Some v /\
    (v <= u32_max)%Z /\ (Z.min der_len u32_max <= v)%Z /\
    v = Z.min (der_len + der_len / 4) u32_max.
Proof.
  unfold weight_estimator. rewrite decide_True by done. simpl.
  assert (E : (der_len * 5 / 4 = der_len + der_len / 4)%Z).
  { replace (der_len * 5)%Z with (der_len + der_len * 4)%Z by lia.
    rewrite Z.div_add by lia. lia. }
  assert (0 <= der_len / 4)%Z by (apply Z.div_pos; lia).
  eexists. split; [reflexivity|]. rewrite E. case_decide; lia.
Qed.

(** *** Witnesses *)

Lemma build_chain_sound_witness :
  match @build_unverified_chain_for toy_lib _ _ toy_roots (toy_untrusted x04 x03) toy_cache with
  | Done (Ok ch) _ =>
      linked toy_roots (UntrustedCert_issuer_cert_id (toy_untrusted x04 x03))
        (chain_certs ch) (chain_root ch) /\
      chain_root ch ∈ roots toy_roots /\ length (chain_certs ch) <= 6
  | Done (Err _) _ | Panic _ => True
  | Blocked _ => False
  end.
Proof.
  exact (@build_chain_sound toy_lib _ _ (@MemoryCertCache_contract toy_lib _ gmap_moka)
    toy_roots (toy_untrusted x04 x03) toy_cache).
Defined.

(** Leaf 4 has a chain; the cycle 5 <-> 6 is too long; an unknown issuer is named. *)
Lemma build_chain_complete_witness :
  match @build_unverified_chain_for toy_lib _ _ toy_roots (toy_untrusted x04 x03) toy_cache with
  | Done (Ok ch) _ => length (chain_certs ch) = 2
  | _ => False
  end /\
  match @build_unverified_chain_for toy_lib _ _ toy_roots (toy_untrusted x05 x06) toy_cache with
  | Done (Err ExcessivelyLongChain) _ => True
  | _ => False
  end /\
  exists r c', @build_unverified_chain_for toy_lib _ _ toy_roots (toy_untrusted x04 x03) toy_cache
    = Done r c' /\ @serves toy_lib _ _ (@gmap_stable toy_lib) c' toy_map /\
    forall r', chain_answer toy_roots toy_map
      (@UntrustedCert_issuer_cert_id toy_lib (toy_untrusted x04 x03)) r' <-> r' = r.
Proof.
  split; [vm_compute; reflexivity|]. split; [vm_compute; exact I|].
  exact (@build_chain_complete toy_lib _ _ (@gmap_stable toy_lib) toy_roots
    (toy_untrusted x04 x03) toy_cache toy_map toy_cache_serves).
Defined.

Lemma validate_spec_witness :
  match @TrustStore_validate toy_lib _ _ toy_roots (toy_id x04) toy_signature [x00] toy_cache with
  | Done (Ok _) _ => True
  | _ => False
  end /\
  exists r c', @TrustStore_validate toy_lib _ _ toy_roots (toy_id x09) toy_signature [] toy_cache
    = Done r c' /\ (r = Err (MissingLeafCert (toy_id x09)) <-> toy_map !! replicate 16 x09 = None).
Proof.
  split; [vm_compute; exact I|].
  destruct (@validate_spec toy_lib _ _ (@gmap_stable toy_lib) toy_roots (toy_id x09) toy_signature []
    toy_cache toy_map toy_cache_serves) as (r & c' & E & _ & _ & _ & W).
  exists r, c'. split; [exact E | exact W].
Defined.

Lemma memory_cache_history_witness :
  exists c, @run_ops toy_lib _ (@gmap_moka toy_lib)
      [OpInsert (toy_untrusted x02 x01); OpInsert (toy_untrusted x02 x03)]
      (@MemoryCertCache_new toy_lib _ (@gmap_moka toy_lib) true 64 1000)
      = Done tt c /\
    exists r c', @cache_get toy_lib _ _ (toy_id x02) c = Done r c' /\
      (r = None \/ r = history [OpInsert (toy_untrusted x02 x01); OpInsert (toy_untrusted x02 x03)]
         !! id_bytes (toy_id x02)).
Proof.
  apply (@memory_cache_history toy_lib _ (@gmap_moka toy_lib) (@gmap_moka_laws toy_lib)).
Defined.

Lemma weight_estimator_bounds_witness :
  exists v, weight_estimator true 64 1001 = Some v /\ (v <= u32_max)%Z /\
    (Z.min 1001 u32_max <= v)%Z /\ v = Z.min (1001 + 1001 / 4) u32_max.
Proof. apply weight_estimator_bounds; [lia | vm_compute; reflexivity]. Defined.
