(* ===== verification/Verifier.v ===== *)
(** * The attestation verifier

    Models [rc-x509-client/src/connection/handler/verifier.rs]: the trait
    through which the client asks whether a payload was signed, its forwarding
    implementation for [Arc] and the one for the trust store.  The trait states
    a contract for its implementations; the theorem is that the trust store
    meets it for no signature scheme that rejects anything of a certificate
    with a chain. *)

From stdpp Require Import base option list gmap.
From Stdlib Require Import Strings.Byte.
From S2P Require Import Prelude Signature CertId Keys Certificate TrustStore.

Section Verifier.
Context `{X509Lib}.

(** [trait AttestationVerifier]; [C] is the interior state behind [&self]. *)
Class AttestationVerifier (V C : Type) : Type :=
  attestation_validate : V -> CertId -> Signature -> list u8 -> prog C (result () VerificationError).

(** [impl AttestationVerifier for Arc<T>]. *)
#[export] Instance Arc_verifier {T C} `{!AttestationVerifier T C} : AttestationVerifier (Arc T) C :=
  fun self signing_cert_id signature payload =>
    attestation_validate (arc_inner T self) signing_cert_id signature payload.

(** [impl AttestationVerifier for TrustStore]: the inherent [validate], on the
    store's roots and, as the interior state, its cache. *)
#[export] Instance TrustStore_verifier {C} `{!CertCache C} : AttestationVerifier RootSet C :=
  fun self signing_cert_id signature payload =>
    TrustStore_validate self signing_cert_id signature payload.

(** The trait's contract, against a scheme that says what a signature proves:
    [Ok] iff the payload is proven to be signed by the certificate. *)
Definition attests {V C} `{!AttestationVerifier V C} (self : V)
  (proves : CertId -> Signature -> list u8 -> Prop) (c : C) : Prop :=
  forall id signature payload r c',
    attestation_validate self id signature payload c = Done r c' ->
    (r = Ok tt <-> proves id signature payload).

End Verifier.

Section VerifierProperties.
Context `{X509Lib}.

(** What the trust store, shared through an [Arc], accepts of a certificate
    that has a chain to a root is every signature over every payload; so against
    a scheme for which one signature over one payload proves nothing, the
    verifier does not meet the contract its trait documents. *)
Lemma trust_store_does_not_attest {C} `{!CertCache C} `{!StableCache C} rs c m
  (proves : CertId -> Signature -> list u8 -> Prop) (id : CertId) leaf ch signature payload
  (Hs : serves C c m) (Cached : m !! id_bytes id = Some leaf)
  (Chain : chain_answer rs m (UntrustedCert_issuer_cert_id leaf) (Ok ch))
  (Forged : ~ proves id signature payload) :
  (forall s p, exists c', attestation_validate (mk_arc _ rs) id s p c = Done (Ok tt) c') /\
  ~ attests (mk_arc _ rs) proves c.
Proof.
  assert (A : forall s p, exists c',
    attestation_validate (mk_arc _ rs) id s p c = Done (Ok tt) c').
  { intros s p. destruct (validate_answer rs id s p c m Hs) as (r & c' & E & _ & R & _).
    exists c'. assert (r = Ok tt) as <- by (apply R; by exists leaf, ch). exact E. }
  split; [exact A|]. intros K. destruct (A signature payload) as (c' & E).
  by apply Forged, (K _ _ _ _ _ E).
Qed.

End VerifierProperties.

(** *** Witness *)

(** Leaf 4 chains to the root; its signature over the empty payload proves
    nothing in a scheme that accepts no signature. *)
Lemma trust_store_does_not_attest_witness :
  ~ @attests _ (MemoryCertCache (gmap (list u8) (@UntrustedCert toy_lib)))
      (@Arc_verifier _ _ (@TrustStore_verifier toy_lib _ _)) (mk_arc _ toy_roots) (fun _ _ _ => False) toy_cache.
Proof.
  assert (M : toy_map !! id_bytes (toy_id x04) = Some (toy_untrusted x04 x03))
    by (vm_compute; reflexivity).
  destruct (@build_answer_unique toy_lib _ _ (@gmap_stable toy_lib) toy_roots
    (@UntrustedCert_issuer_cert_id toy_lib (toy_untrusted x04 x03)) toy_cache toy_map
    toy_cache_serves) as (r & c' & E & _ & U).
  assert (X : match @build_unverified_chain_for toy_lib _ _ toy_roots (toy_untrusted x04 x03) toy_cache
    with Done (Ok _) _ => True | _ => False end) by (vm_compute; exact I).
  unfold build_unverified_chain_for in X. rewrite E in X. destruct r as [ch|e]; [|done].
  apply (@trust_store_does_not_attest toy_lib _ _ (@gmap_stable toy_lib) toy_roots toy_cache
    toy_map (fun _ _ _ => False) (toy_id x04) (toy_untrusted x04 x03) ch toy_signature []
    toy_cache_serves M).
  - by apply U.
  - intros [].
Defined.
