(* ===== verification/VerifyChain.v ===== *)
(** Verification of a candidate chain: [EndpointHostname] (endpoint_hostname.rs)
    and [verify_chain] with its policy constants and its error mapping
    (chain/verify_chain.rs).  The webpki crate does the cryptographic and
    path checks; it is a parameter here ([Webpki]), with what it documents of an
    accepted path as laws ([WebpkiLaws]).  The specification spells out the
    policy - code signing, the algorithms, the errors - on its own. *)

From stdpp Require Import base list strings gmap.
From Stdlib Require Import Strings.Byte.
From S2P Require Import Prelude.
From S2P Require Import CertId.
From S2P Require Import Hash.
From S2P Require Import Certificate.
From S2P Require Import TrustStore.

Open Scope string_scope.

(** ** webpki *)

(** Its opaque types. *)
Class WebpkiTypes : Type := {
  DerTypeId : Type;
  AlgorithmContext : Type;
  KeyUsage : Type;
  ServerName : Type;
  InvalidDnsNameError : Type;
  FutureError : Type;
  TrustAnchor : Type;
  EndEntityCert : Type;
  VerifiedPath : Type;
  KeyPurposeIdIter : Type
}.

(** [rustls_pki_types::UnixTime], in seconds. *)
Definition UnixTime : Type := Z.

(** [webpki::Error], with the constructors the code names; it is
    non-exhaustive, and [Error_other] stands for the rest. *)
Inductive WebpkiError `{WebpkiTypes} : Type :=
| Error_BadDer
| Error_BadDerTime
| Error_EmptyEkuExtension
| Error_ExtensionValueInvalid
| Error_InvalidCertValidity
| Error_InvalidSerialNumber
| Error_InvalidNetworkMaskConstraint
| Error_MalformedDnsIdentifier
| Error_MalformedExtensions
| Error_MalformedNameConstraint
| Error_SignatureAlgorithmMismatch
| Error_TrailingData (t : DerTypeId)
| Error_InvalidSignatureForPublicKey
| Error_InvalidCrlSignatureForPublicKey
| Error_InvalidCrlNumber
| Error_IssuerNotCrlSigner
| Error_MaximumNameConstraintComparisonsExceeded
| Error_MaximumPathBuildCallsExceeded
| Error_MaximumPathDepthExceeded
| Error_MaximumSignatureChecksExceeded
| Error_CrlExpired (time next_update : UnixTime)
| Error_CertExpired (time not_after : UnixTime)
| Error_CertNotValidYet (time not_before : UnixTime)
| Error_CertRevoked
| Error_UnknownIssuer
| Error_NameConstraintViolation
| Error_PathLenConstraintViolated
| Error_CaUsedAsEndEntity
| Error_EndEntityUsedAsCa
| Error_CertNotValidForName (expected : ServerName) (presented : list string)
| Error_RequiredEkuNotFoundContext (required : KeyUsage) (present : list (list nat))
| Error_UnknownRevocationStatus
| Error_UnsupportedCertVersion
| Error_UnsupportedCriticalExtension
| Error_UnsupportedCrlIssuingDistributionPoint
| Error_UnsupportedCrlVersion
| Error_UnsupportedDeltaCrl
| Error_UnsupportedIndirectCrl
| Error_UnsupportedNameType
| Error_UnsupportedRevocationReason
| Error_UnsupportedRevocationReasonsPartitioning
| Error_UnsupportedCrlSignatureAlgorithmContext (c : AlgorithmContext)
| Error_UnsupportedSignatureAlgorithmContext (c : AlgorithmContext)
| Error_UnsupportedCrlSignatureAlgorithmForPublicKeyContext (c : AlgorithmContext)
| Error_UnsupportedSignatureAlgorithmForPublicKeyContext (c : AlgorithmContext)
| Error_other (e : FutureError).

(** The algorithms of [webpki::aws_lc_rs] the code lists. *)
Inductive SignatureAlgorithm : Type :=
| ECDSA_P256_SHA256 | ECDSA_P256_SHA384 | ECDSA_P256_SHA512
| ECDSA_P384_SHA256 | ECDSA_P384_SHA384 | ECDSA_P384_SHA512
| ECDSA_P521_SHA256 | ECDSA_P521_SHA384 | ECDSA_P521_SHA512
| ED25519
| RSA_PKCS1_2048_8192_SHA256 | RSA_PKCS1_2048_8192_SHA384 | RSA_PKCS1_2048_8192_SHA512
| RSA_PKCS1_2048_8192_SHA256_ABSENT_PARAMS | RSA_PKCS1_2048_8192_SHA384_ABSENT_PARAMS
| RSA_PKCS1_2048_8192_SHA512_ABSENT_PARAMS
| RSA_PKCS1_3072_8192_SHA384
| SignatureAlgorithm_other (n : nat).

#[export] Instance SignatureAlgorithm_eq_dec : EqDecision SignatureAlgorithm.
Proof. solve_decision. Defined.

(** Its functions.  [verify_for_usage] takes the EKU validator as a function;
    the revocation options and the path callback are [None] in the code and so
    not arguments here. *)
Class Webpki `{WebpkiTypes} : Type := {
  server_name_try_from : string -> result ServerName InvalidDnsNameError;
  server_name_to_str : ServerName -> string;
  required_if_present : list u8 -> KeyUsage;
  key_usage_validate : KeyUsage -> KeyPurposeIdIter -> result () WebpkiError;
  anchor_from_trusted_cert : list u8 -> result TrustAnchor WebpkiError;
  ee_try_from : list u8 -> result EndEntityCert WebpkiError;
  verify_for_usage : EndEntityCert -> list SignatureAlgorithm -> list TrustAnchor ->
    list (list u8) -> UnixTime -> (KeyPurposeIdIter -> result () WebpkiError) ->
    result VerifiedPath WebpkiError;
  verify_is_valid_for_subject_name : EndEntityCert -> ServerName -> result () WebpkiError
}.

Section VerifyChain.
Context `{X509Lib} `{Webpki}.

(** ** Endpoint hostnames *)

Record EndpointHostname : Type := mk_endpoint { as_server_name : ServerName }.

Definition EndpointHostname_try_from (value : string) :
  result EndpointHostname InvalidDnsNameError :=
  result_map mk_endpoint (server_name_try_from value).

Definition EndpointHostname_display (h : EndpointHostname) : string :=
  server_name_to_str (as_server_name h).

(** ** Policy *)

Definition ALLOWED_SIGNATURE_ALGORITHMS : list SignatureAlgorithm :=
  [ECDSA_P256_SHA256; ECDSA_P256_SHA384; ECDSA_P256_SHA512;
   ECDSA_P384_SHA256; ECDSA_P384_SHA384; ECDSA_P384_SHA512;
   ECDSA_P521_SHA256; ECDSA_P521_SHA384; ECDSA_P521_SHA512;
   ED25519;
   RSA_PKCS1_2048_8192_SHA256; RSA_PKCS1_2048_8192_SHA384; RSA_PKCS1_2048_8192_SHA512;
   RSA_PKCS1_2048_8192_SHA256_ABSENT_PARAMS; RSA_PKCS1_2048_8192_SHA384_ABSENT_PARAMS;
   RSA_PKCS1_2048_8192_SHA512_ABSENT_PARAMS;
   RSA_PKCS1_3072_8192_SHA384].

(** [43, 6, 1, 5, 5, 7, 3, 3]. *)
Definition EKU_CODE_SIGNING_BYTES : list u8 := [x2b; x06; x01; x05; x05; x07; x03; x03].

Inductive EKUPolicy : Type := RequireCodeSigning.

Definition EKUPolicy_validate (self : EKUPolicy) (iter : KeyPurposeIdIter) :
  result () WebpkiError :=
  match self with
  | RequireCodeSigning => key_usage_validate (required_if_present EKU_CODE_SIGNING_BYTES) iter
  end.

(** ** Errors *)

Inductive ChainVerifyError : Type :=
| CertMalformed (e : WebpkiError)
| CertSignatureInvalid
| CrlSignatureInvalid
| CrlMalformed (e : WebpkiError)
| ChainWalkLimits (e : WebpkiError)
| SignerIsCa
| IntermediateNotCa
| CertExpired (current not_after : UnixTime)
| CertFutureValidity (current not_before : UnixTime)
| CertRevoked
| CrlExpired (current next_update : UnixTime)
| LeafNameMismatch (expected : string) (cert : list string)
| ChainNameConstraint
| PathLen
| RequiredEKU (required : KeyUsage) (found : list (list nat))
| ChainBuildingMismatch
| Unsupported (e : WebpkiError)
| Unknown (e : WebpkiError).

(** [From<webpki::Error> for ChainVerifyError]. *)
Definition ChainVerifyError_from (value : WebpkiError) : ChainVerifyError :=
  match value with
  | Error_BadDer | Error_BadDerTime | Error_EmptyEkuExtension | Error_ExtensionValueInvalid
  | Error_InvalidCertValidity | Error_InvalidSerialNumber | Error_InvalidNetworkMaskConstraint
  | Error_MalformedDnsIdentifier | Error_MalformedExtensions | Error_MalformedNameConstraint
  | Error_SignatureAlgorithmMismatch | Error_TrailingData _ => CertMalformed value
  | Error_InvalidSignatureForPublicKey => CertSignatureInvalid
  | Error_InvalidCrlSignatureForPublicKey => CrlSignatureInvalid
  | Error_InvalidCrlNumber | Error_IssuerNotCrlSigner => CrlMalformed value
  | Error_MaximumNameConstraintComparisonsExceeded | Error_MaximumPathBuildCallsExceeded
  | Error_MaximumPathDepthExceeded | Error_MaximumSignatureChecksExceeded =>
      ChainWalkLimits value
  | Error_CrlExpired time next_update => CrlExpired time next_update
  | Error_CertExpired time not_after => CertExpired time not_after
  | Error_CertNotValidYet time not_before => CertFutureValidity time not_before
  | Error_CertRevoked => CertRevoked
  | Error_UnknownIssuer => ChainBuildingMismatch
  | Error_NameConstraintViolation => ChainNameConstraint
  | Error_PathLenConstraintViolated => PathLen
  | Error_CaUsedAsEndEntity => SignerIsCa
  | Error_EndEntityUsedAsCa => IntermediateNotCa
  | Error_CertNotValidForName expected presented =>
      LeafNameMismatch (server_name_to_str expected) presented
  | Error_RequiredEkuNotFoundContext required present => RequiredEKU required present
  | Error_UnknownRevocationStatus | Error_UnsupportedCertVersion
  | Error_UnsupportedCriticalExtension | Error_UnsupportedCrlIssuingDistributionPoint
  | Error_UnsupportedCrlVersion | Error_UnsupportedDeltaCrl | Error_UnsupportedIndirectCrl
  | Error_UnsupportedNameType | Error_UnsupportedRevocationReason
  | Error_UnsupportedRevocationReasonsPartitioning
  | Error_UnsupportedCrlSignatureAlgorithmContext _
  | Error_UnsupportedSignatureAlgorithmContext _
  | Error_UnsupportedCrlSignatureAlgorithmForPublicKeyContext _
  | Error_UnsupportedSignatureAlgorithmForPublicKeyContext _ => Unsupported value
  | Error_other _ => Unknown value
  end.

(** ** [verify_chain] *)

(** The outer [option] is the [expect] on the root.  [now] is [UnixTime::now()]. *)
Definition verify_chain (now : UnixTime) (root : RootCertificate) (cert : UntrustedCert)
  (chain : UntrustedChain) (eku_policy : EKUPolicy) (dns_name : EndpointHostname) :
  panics (result Certificate ChainVerifyError) :=
  let leaf_cert := UntrustedCert_as_der_slice cert in
  match anchor_from_trusted_cert (Certificate_as_der (root_cert root)) with
  | Err _ => None
  | Ok anchor =>
      let intermediates := UntrustedCert_as_der_slice <$> UntrustedChain_as_slice chain in
      Some (let? ee := map_err ChainVerifyError_from (ee_try_from leaf_cert) in
            let? _path := map_err ChainVerifyError_from
              (verify_for_usage ee ALLOWED_SIGNATURE_ALGORITHMS [anchor] intermediates now
                 (EKUPolicy_validate eku_policy)) in
            let? _u := map_err ChainVerifyError_from
              (verify_is_valid_for_subject_name ee (as_server_name dns_name)) in
            Ok (UntrustedCert_into_trusted cert))%rc
  end.

End VerifyChain.

(** ** What webpki documents *)

(** The facts about certificates, given as their DER, that the crate reads: who
    signed a certificate with which algorithm, when it is valid, the key
    purposes it lists and the names it is issued for. *)
Class WebpkiLaws `{Webpki} : Type := {
  pki_issued : list u8 -> list u8 -> SignatureAlgorithm -> Prop;
  pki_anchor_issued : list u8 -> TrustAnchor -> SignatureAlgorithm -> Prop;
  pki_valid_at : list u8 -> UnixTime -> Prop;
  pki_purposes : list u8 -> list (list u8);
  pki_named : list u8 -> ServerName -> Prop;
  iter_purposes : KeyPurposeIdIter -> list (list u8);
  ee_der : EndEntityCert -> list u8;
  (** A trust anchor has the subject and the key of its certificate. *)
  anchor_of_cert : forall der a c alg, anchor_from_trusted_cert der = Ok a ->
    pki_anchor_issued c a alg -> pki_issued c der alg;
  ee_of_cert : forall der ee, ee_try_from der = Ok ee -> ee_der ee = der;
  (** A usage required if present: the purposes are absent, or include it. *)
  usage_if_present : forall oid it, key_usage_validate (required_if_present oid) it = Ok tt ->
    iter_purposes it = [] \/ oid ∈ iter_purposes it;
  (** A verified path: some of the intermediates, each the issuer of the one
      before and the first of the end entity, the last issued by an anchor; all
      signed with given algorithms, valid at the time, and of purposes that the
      validator accepted. *)
  path_verified : forall ee algs anchors inters now usage p,
    verify_for_usage ee algs anchors inters now usage = Ok p ->
    exists path anchor alg, path ⊆ inters /\ anchor ∈ anchors /\ alg ∈ algs /\
      (forall i child parent, (ee_der ee :: path) !! i = Some child -> path !! i = Some parent ->
        exists alg, alg ∈ algs /\ pki_issued child parent alg) /\
      (forall top, last (ee_der ee :: path) = Some top -> pki_anchor_issued top anchor alg) /\
      Forall (fun c => pki_valid_at c now /\
        exists it, iter_purposes it = pki_purposes c /\ usage it = Ok tt) (ee_der ee :: path);
  name_verified : forall ee n, verify_is_valid_for_subject_name ee n = Ok tt -> pki_named (ee_der ee) n
}.

(** X.690 8.19: the DER contents of an object identifier whose arcs after the
    first two are below 128. *)
Definition oid_der (arcs : list N) : option (list u8) :=
  match arcs with
  | a :: b :: rest => mapM Byte.of_N ((40 * a + b)%N :: rest)
  | _ => None
  end.

(** ** Specification *)

(** The algorithms trusted in certificate signatures, by family. *)
Definition ecdsa_algorithms : list SignatureAlgorithm :=
  [ECDSA_P256_SHA256; ECDSA_P256_SHA384; ECDSA_P256_SHA512;
   ECDSA_P384_SHA256; ECDSA_P384_SHA384; ECDSA_P384_SHA512;
   ECDSA_P521_SHA256; ECDSA_P521_SHA384; ECDSA_P521_SHA512].
Definition rsa_algorithms : list SignatureAlgorithm :=
  [RSA_PKCS1_2048_8192_SHA256; RSA_PKCS1_2048_8192_SHA384; RSA_PKCS1_2048_8192_SHA512;
   RSA_PKCS1_2048_8192_SHA256_ABSENT_PARAMS; RSA_PKCS1_2048_8192_SHA384_ABSENT_PARAMS;
   RSA_PKCS1_2048_8192_SHA512_ABSENT_PARAMS; RSA_PKCS1_3072_8192_SHA384].
Definition trusted_algorithms : list SignatureAlgorithm :=
  (ecdsa_algorithms ++ ED25519 :: rsa_algorithms)%list.

(** id-kp-codeSigning, 1.3.6.1.5.5.7.3.3. *)
Definition code_signing (oid : list u8) : Prop := oid_der [1; 3; 6; 1; 5; 5; 7; 3; 3]%N = Some oid.

Section VerifyChainSpec.
Context `{X509Lib} `{Webpki}.

(** The three webpki checks, with the arguments they are to be made with. *)
Definition path_check (now : UnixTime) (anchor : TrustAnchor) (chain : UntrustedChain) (ee : EndEntityCert)
  (r : result VerifiedPath WebpkiError) : Prop :=
  exists oid, code_signing oid /\
    verify_for_usage ee trusted_algorithms [anchor]
      (cert_der ∘ untrusted_cert <$> chain_certs chain) now
      (fun purposes => key_usage_validate (required_if_present oid) purposes) = r.

Definition checks_pass (now : UnixTime) (anchor : TrustAnchor) (cert : UntrustedCert)
  (chain : UntrustedChain) (dns : EndpointHostname) : Prop :=
  exists ee path, ee_try_from (cert_der (untrusted_cert cert)) = Ok ee /\
    path_check now anchor chain ee (Ok path) /\
    verify_is_valid_for_subject_name ee (as_server_name dns) = Ok tt.

(** [w] is the error of the first check that fails. *)
Inductive first_failure (now : UnixTime) (anchor : TrustAnchor) (cert : UntrustedCert)
  (chain : UntrustedChain) (dns : EndpointHostname) : WebpkiError -> Prop :=
| fails_parse w :
    ee_try_from (cert_der (untrusted_cert cert)) = Err w ->
    first_failure now anchor cert chain dns w
| fails_path ee w :
    ee_try_from (cert_der (untrusted_cert cert)) = Ok ee ->
    path_check now anchor chain ee (Err w) ->
    first_failure now anchor cert chain dns w
| fails_name ee path w :
    ee_try_from (cert_der (untrusted_cert cert)) = Ok ee ->
    path_check now anchor chain ee (Ok path) ->
    verify_is_valid_for_subject_name ee (as_server_name dns) = Err w ->
    first_failure now anchor cert chain dns w.

(** The errors that a mapped error only groups: about the form of a
    certificate, about the form of a revocation list, about a limit of the
    search, and about something unsupported. *)
Definition ill_formed (w : WebpkiError) : Prop :=
  w ∈ [Error_BadDer; Error_BadDerTime; Error_EmptyEkuExtension; Error_ExtensionValueInvalid;
       Error_InvalidCertValidity; Error_InvalidSerialNumber; Error_InvalidNetworkMaskConstraint;
       Error_MalformedDnsIdentifier; Error_MalformedExtensions; Error_MalformedNameConstraint;
       Error_SignatureAlgorithmMismatch] \/ exists t, w = Error_TrailingData t.
Definition crl_ill_formed (w : WebpkiError) : Prop := w ∈ [Error_InvalidCrlNumber; Error_IssuerNotCrlSigner].
Definition search_limit (w : WebpkiError) : Prop :=
  w ∈ [Error_MaximumNameConstraintComparisonsExceeded; Error_MaximumPathBuildCallsExceeded;
       Error_MaximumPathDepthExceeded; Error_MaximumSignatureChecksExceeded].
Definition unsupported (w : WebpkiError) : Prop :=
  w ∈ [Error_UnknownRevocationStatus; Error_UnsupportedCertVersion; Error_UnsupportedCriticalExtension;
       Error_UnsupportedCrlIssuingDistributionPoint; Error_UnsupportedCrlVersion; Error_UnsupportedDeltaCrl;
       Error_UnsupportedIndirectCrl; Error_UnsupportedNameType; Error_UnsupportedRevocationReason;
       Error_UnsupportedRevocationReasonsPartitioning] \/
  exists c, w ∈ [Error_UnsupportedCrlSignatureAlgorithmContext c; Error_UnsupportedSignatureAlgorithmContext c;
                 Error_UnsupportedCrlSignatureAlgorithmForPublicKeyContext c;
                 Error_UnsupportedSignatureAlgorithmForPublicKeyContext c].

(** What [e] says about the webpki error behind it, by the documentation of its
    variants; a name mismatch keeps the name only as text. *)
Definition explains (e : ChainVerifyError) (w : WebpkiError) : Prop :=
  match e with
  | CertMalformed w' => w' = w /\ ill_formed w
  | CertSignatureInvalid => w = Error_InvalidSignatureForPublicKey
  | CrlSignatureInvalid => w = Error_InvalidCrlSignatureForPublicKey
  | CrlMalformed w' => w' = w /\ crl_ill_formed w
  | ChainWalkLimits w' => w' = w /\ search_limit w
  | SignerIsCa => w = Error_CaUsedAsEndEntity
  | IntermediateNotCa => w = Error_EndEntityUsedAsCa
  | CertExpired current not_after => w = Error_CertExpired current not_after
  | CertFutureValidity current not_before => w = Error_CertNotValidYet current not_before
  | CertRevoked => w = Error_CertRevoked
  | CrlExpired current next_update => w = Error_CrlExpired current next_update
  | LeafNameMismatch expected cert => exists n, expected = server_name_to_str n /\
      w = Error_CertNotValidForName n cert
  | ChainNameConstraint => w = Error_NameConstraintViolation
  | PathLen => w = Error_PathLenConstraintViolated
  | RequiredEKU required found => w = Error_RequiredEkuNotFoundContext required found
  | ChainBuildingMismatch => w = Error_UnknownIssuer
  | Unsupported w' => w' = w /\ unsupported w
  | Unknown w' => w' = w /\ exists f, w = Error_other f
  end.

Lemma grouped w :
  (ill_formed w -> ChainVerifyError_from w = CertMalformed w) /\
  (crl_ill_formed w -> ChainVerifyError_from w = CrlMalformed w) /\
  (search_limit w -> ChainVerifyError_from w = ChainWalkLimits w) /\
  (unsupported w -> ChainVerifyError_from w = Unsupported w).
Proof.
  unfold ill_formed, crl_ill_formed, search_limit, unsupported. split_and!; intros E.
  all: set_unfold; repeat match goal with
    | D : _ \/ _ |- _ => destruct D
    | X : exists _, _ |- _ => destruct X
    end; by subst.
Qed.

Lemma explains_from w e : explains e w <-> e = ChainVerifyError_from w.
Proof.
  split.
  - destruct (grouped w) as (G1 & G2 & G3 & G4).
    destruct e; simpl; try (by intros ->); try (intros [-> ?]; symmetry; by auto).
    + by intros (n & -> & ->).
    + by intros [-> [f ->]].
  - intros ->. destruct w; simpl; try done; try (by eexists);
      (split; [done|]); unfold ill_formed, crl_ill_formed, search_limit, unsupported; set_unfold; eauto 15.
Qed.

Lemma path_check_unique now anchor chain ee r1 r2 :
  path_check now anchor chain ee r1 -> path_check now anchor chain ee r2 -> r1 = r2.
Proof.
  intros (o1 & O1 & <-) (o2 & O2 & <-). unfold code_signing in *. rewrite O1 in O2.
  by injection O2 as ->.
Qed.

Lemma checks_pass_no_failure now anchor cert chain dns w :
  checks_pass now anchor cert chain dns -> first_failure now anchor cert chain dns w -> False.
Proof.
  intros (ee & path & E1 & E2 & E3) F.
  inversion F as [? P|ee' ? P P2|ee' ? ? P P2 P3]; subst; rewrite P in E1; try done; injection E1 as ->.
  - by pose proof (path_check_unique _ _ _ _ _ _ E2 P2).
  - congruence.
Qed.

Lemma first_failure_unique now anchor cert chain dns w1 w2 :
  first_failure now anchor cert chain dns w1 -> first_failure now anchor cert chain dns w2 -> w1 = w2.
Proof.
  intros F1 F2.
  inversion F1 as [? P|ee ? P P2|ee ? ? P P2 P3]; inversion F2 as [? Q|ee' ? Q Q2|ee' ? ? Q Q2 Q3]; subst;
    rewrite P in Q; try done; injection Q as ->; try done;
    try (pose proof (path_check_unique _ _ _ _ _ _ P2 Q2)); congruence.
Qed.

Lemma path_check_made now anchor chain pol ee :
  path_check now anchor chain ee (verify_for_usage ee ALLOWED_SIGNATURE_ALGORITHMS [anchor]
    (UntrustedCert_as_der_slice <$> UntrustedChain_as_slice chain) now (EKUPolicy_validate pol)).
Proof. destruct pol. exists EKU_CODE_SIGNING_BYTES. by split. Qed.

Lemma verify_chain_outcome now root cert chain pol dns anchor :
  anchor_from_trusted_cert (cert_der (root_cert root)) = Ok anchor ->
  (verify_chain now root cert chain pol dns = Some (Ok (untrusted_cert cert)) /\
     checks_pass now anchor cert chain dns) \/
  exists w, verify_chain now root cert chain pol dns = Some (Err (ChainVerifyError_from w)) /\
     first_failure now anchor cert chain dns w.
Proof.
  intros EA. unfold verify_chain, Certificate_as_der. rewrite EA.
  destruct (ee_try_from _) as [ee|w1] eqn:E1; simpl.
  2:{ right. exists w1. split; [done | by constructor]. }
  pose proof (path_check_made now anchor chain pol ee) as P.
  destruct (verify_for_usage _ _ _ _ _ _) as [path|w2]; simpl.
  2:{ right. exists w2. split; [done | by eapply fails_path]. }
  destruct (verify_is_valid_for_subject_name _ _) as [[]|w3] eqn:E3; simpl.
  - left. split; [done | by exists ee, path].
  - right. exists w3. split; [done | by eapply fails_name].
Qed.

(** A certificate that may sign code, as far as its purposes say. *)
Definition may_sign_code `{!WebpkiLaws} (der : list u8) : Prop :=
  pki_purposes der = [] \/ exists oid, code_signing oid /\ oid ∈ pki_purposes der.

(** [leaf] is trusted through [root] at [now] for the endpoint: signed, through
    certificates of [inters], by the root, with trusted algorithms; every
    certificate below the root is valid then and may sign code; and the leaf has
    the endpoint's name. *)
Definition trusted_leaf `{!WebpkiLaws} (now : UnixTime) (root : list u8) (inters : list (list u8))
  (name : ServerName) (leaf : list u8) : Prop :=
  exists path, path ⊆ inters /\
    (forall i child parent, (leaf :: path) !! i = Some child -> (path ++ [root])%list !! i = Some parent ->
      exists alg, alg ∈ trusted_algorithms /\ pki_issued child parent alg) /\
    Forall (fun c => pki_valid_at c now /\ may_sign_code c) (leaf :: path) /\
    pki_named leaf name.

Lemma checks_trust `{!WebpkiLaws} now root anchor cert chain dns :
  anchor_from_trusted_cert root = Ok anchor -> checks_pass now anchor cert chain dns ->
  trusted_leaf now root (cert_der ∘ untrusted_cert <$> chain_certs chain) (as_server_name dns)
    (cert_der (untrusted_cert cert)).
Proof.
  intros EA (ee & p & E1 & (oid & O & E2) & E3).
  destruct (path_verified _ _ _ _ _ _ _ E2) as (path & a & alg & Hin & Ha & Halg & L & T & F).
  apply name_verified in E3. rewrite (ee_of_cert _ _ E1) in *.
  apply list_elem_of_singleton in Ha as ->. exists path. split_and!; [done | | | done].
  - intros i child parent Hc Hp. apply lookup_app_Some in Hp as [Hp|[Hl Hp]]; [by eapply L|].
    apply list_lookup_singleton_Some in Hp as [Hi <-]. exists alg. split; [done|].
    eapply anchor_of_cert; [done|]. apply T. rewrite last_lookup. simpl length.
    by replace (pred (S (length path))) with i by lia.
  - eapply Forall_impl; [exact F|]. intros c (V & it & E & U). split; [done|].
    unfold may_sign_code. rewrite <- E. destruct (usage_if_present _ _ U); eauto.
Qed.

End VerifyChainSpec.

(** ** Properties *)

Section VerifyChainProperties.
Context `{X509Lib} `{Webpki}.

(** C8. Verifying a chain: it panics exactly when the root is not a valid trust
    anchor.  Otherwise it returns the leaf itself, as a trusted certificate,
    exactly when the leaf parses, webpki verifies a path to that one root through
    the candidate intermediates, under the trusted algorithms and for code
    signing where purposes are listed, and the leaf is valid for the endpoint's
    name; by what webpki documents, the leaf is then signed by the root through
    some of the intermediates, with trusted algorithms only, every certificate
    below the root is valid at that time and lists code signing or no purpose at
    all, and the leaf is issued for that name.  And otherwise it returns the error
    that explains the first check that failed. *)
Theorem verify_chain_spec `{!WebpkiLaws} now root cert chain pol dns :
  match anchor_from_trusted_cert (cert_der (root_cert root)) with
  | Err _ => verify_chain now root cert chain pol dns = None
  | Ok anchor => exists r, verify_chain now root cert chain pol dns = Some r /\
      (forall c, r = Ok c <-> c = untrusted_cert cert /\ checks_pass now anchor cert chain dns) /\
      (forall c, r = Ok c -> trusted_leaf now (cert_der (root_cert root))
        (cert_der ∘ untrusted_cert <$> chain_certs chain) (as_server_name dns) (cert_der c)) /\
      (forall e, r = Err e <->
        exists w, explains e w /\ first_failure now anchor cert chain dns w)
  end.
Proof.
  destruct (anchor_from_trusted_cert _) as [anchor|] eqn:EA.
  2:{ unfold verify_chain, Certificate_as_der. by rewrite EA. }
  destruct (verify_chain_outcome now root cert chain pol dns anchor EA) as [[Hv Hc]|(w & Hv & Hw)];
    eexists; (split; [exact Hv|]); split_and!.
  - intros c. split; [by intros [= <-] | by intros [-> _]].
  - intros c [= <-]. by eapply checks_trust.
  - intros e. split; [done|]. intros (w & _ & Hw). by destruct (checks_pass_no_failure _ _ _ _ _ _ Hc Hw).
  - intros c. split; [done|]. intros [_ Hc]. by destruct (checks_pass_no_failure _ _ _ _ _ _ Hc Hw).
  - done.
  - intros e. split; [intros [= <-]; exists w; by rewrite explains_from|].
    intros (w' & ->%explains_from & Hw'). by rewrite (first_failure_unique _ _ _ _ _ _ _ Hw Hw').
Qed.

End VerifyChainProperties.

(** *** Witness *)

(** Certificates of three bytes - subject, issuer, key purpose - signed with
    Ed25519 and valid from the epoch on; 1 stands for code signing, 2 for no
    purpose.  The whole list of intermediates is the path. *)
Definition toy_purposes (der : list u8) : list (list u8) :=
  match der with
  | [_; _; x01] => [[x2b; x06; x01; x05; x05; x07; x03; x03]]
  | [_; _; x02] => []
  | _ => [[x2b]]
  end.

Definition toy_issued (child parent : list u8) : bool :=
  match child, parent with
  | [_; i; _], [s; _; _] => bool_decide (i = s)
  | _, _ => false
  end.

Fixpoint toy_path (leaf : list u8) (inters : list (list u8)) (anchor : list u8) : bool :=
  match inters with
  | [] => toy_issued leaf anchor
  | c :: inters => toy_issued leaf c && toy_path c inters anchor
  end.

#[local] Instance toy_webpki_types : WebpkiTypes := {|
  DerTypeId := unit; AlgorithmContext := unit; KeyUsage := list u8; ServerName := string;
  InvalidDnsNameError := unit; FutureError := unit; TrustAnchor := list u8; EndEntityCert := list u8;
  VerifiedPath := unit; KeyPurposeIdIter := list (list u8)
|}.

Definition toy_verify (ee : list u8) (algs : list SignatureAlgorithm) (anchors inters : list (list u8))
  (now : UnixTime) (usage : list (list u8) -> result () WebpkiError) : result () WebpkiError :=
  if forallb (fun c => is_ok (usage (toy_purposes c))) (ee :: inters) then
    if bool_decide (0 <= now)%Z && bool_decide (ED25519 ∈ algs) && existsb (toy_path ee inters) anchors
    then Ok tt else Err Error_UnknownIssuer
  else Err (Error_RequiredEkuNotFoundContext [] []).

#[local] Instance toy_webpki : Webpki := {|
  server_name_try_from n := Ok n;
  server_name_to_str n := n;
  required_if_present oid := oid;
  key_usage_validate oid it := if bool_decide (it = [] \/ oid ∈ it) then Ok tt
    else Err (Error_RequiredEkuNotFoundContext oid []);
  anchor_from_trusted_cert der := Ok der;
  ee_try_from der := Ok der;
  verify_for_usage := toy_verify;
  verify_is_valid_for_subject_name ee n :=
    if bool_decide (n = "toy") then Ok tt else Err (Error_CertNotValidForName n ["toy"])
|}.

Lemma toy_path_links leaf inters anchor : toy_path leaf inters anchor = true ->
  (forall i child parent, (leaf :: inters) !! i = Some child -> inters !! i = Some parent ->
    toy_issued child parent = true) /\
  (forall top, last (leaf :: inters) = Some top -> toy_issued top anchor = true).
Proof.
  revert leaf. induction inters as [|c inters IH]; intros leaf; simpl.
  - intros E. split; [done|]. by intros top [= <-].
  - intros [E1 E2]%andb_prop. destruct (IH c E2) as [L T]. split; [|exact T].
    intros [|i] child parent; simpl; [by intros [= <-] [= <-] | apply L].
Qed.

#[local] Instance toy_webpki_laws : WebpkiLaws.
Proof.
  refine {| pki_issued child parent alg := toy_issued child parent = true /\ alg = ED25519;
            pki_anchor_issued child anchor alg := toy_issued child anchor = true /\ alg = ED25519;
            pki_valid_at _ now := (0 <= now)%Z; pki_purposes := toy_purposes;
            pki_named _ n := n = "toy"; iter_purposes it := it; ee_der ee := ee |}.
  - by intros der a c alg [= ->].
  - by intros der ee [= ->].
  - intros oid it. simpl. by case_bool_decide.
  - intros ee algs anchors inters now usage []. cbn [verify_for_usage toy_webpki]. unfold toy_verify.
    destruct (forallb _ _) eqn:F; [|done]. destruct (_ && _) eqn:A; [|done]. intros _.
    apply andb_prop in A as [[N G]%andb_prop [a [Ia P]]%existsb_exists].
    apply bool_decide_eq_true in N, G. apply toy_path_links in P as [L T].
    exists inters, a, ED25519. split_and!; [done | by apply list_elem_of_In | done | | |].
    + intros i child parent E1 E2. exists ED25519. split_and!; [done | by eapply L | done].
    + intros top E. split; [by apply T | done].
    + apply Forall_forall. intros c Ic. split; [done|]. exists (toy_purposes c). split; [done|].
      rewrite forallb_forall in F. specialize (F c (proj1 (list_elem_of_In _ _) Ic)).
      by destruct (usage _) as [[]|].
  - intros ee n. simpl. by case_bool_decide.
Defined.

Definition toy_chain : UntrustedChain :=
  UntrustedChain_new (RootCertificate_from_trusted_cert (toy_certificate x01 x01))
    [toy_untrusted x03 x02; toy_untrusted x02 x01].
Definition toy_endpoint (n : string) : EndpointHostname := @mk_endpoint toy_webpki_types n.

Lemma verify_chain_spec_witness :
  let verify n := verify_chain 5%Z (chain_root toy_chain) (toy_untrusted x04 x03) toy_chain RequireCodeSigning
    (toy_endpoint n) in
  verify "toy" = Some (Ok (toy_certificate x04 x03)) /\
  verify "other" = Some (Err (LeafNameMismatch "other" ["toy"])) /\
  @trusted_leaf toy_webpki_types toy_webpki toy_webpki_laws 5%Z [x01; x01; x01]
    [[x03; x02; x01]; [x02; x01; x01]] "toy" [x04; x03; x01].
Proof.
  split; [reflexivity|]. split; [reflexivity|].
  destruct (@verify_chain_spec toy_lib toy_webpki_types toy_webpki toy_webpki_laws 5%Z (chain_root toy_chain)
    (toy_untrusted x04 x03) toy_chain RequireCodeSigning (toy_endpoint "toy")) as (r & E & _ & T & _).
  injection E as <-. exact (T _ eq_refl).
Defined.
