(* ===== verification/ConnectionId.v ===== *)
(** * Connection identifiers

    Models [rc-crypto/src/connection_id/]: the client's nonce ([IdNonce]), the
    derivation of a [ConnectionId] from both nonces, and the verification of the
    identifier a server proposes ([UntrustedConnectionId::verify]).  The [uuid]
    crate and the random generator are parameters. *)

From stdpp Require Import base option list strings.
From Stdlib Require Import Strings.Byte NArith Lia.
From S2P Require Import Prelude Hex Hash.

(** ** Third-party code *)

(** [uuid::Uuid]. *)
Class UuidLib : Type := {
  Uuid : Type;
  uuid_as_bytes : Uuid -> list u8;
  uuid_from_bytes : list u8 -> Uuid;
  uuid_new_v8 : list u8 -> Uuid
}.

(** The bits of a 16-byte UUID that are not its version (high half of byte 6)
    and not its variant (top two bits of byte 8). *)
Definition uuid_free (b : list u8) : list N :=
  imap (fun i x => let n := Byte.to_N x in
    if decide (i = 6) then N.land n 15 else if decide (i = 8) then N.land n 63 else n) b.

(** RFC 9562, UUIDv8: the version and variant bits are set, the rest is the
    caller's. *)
Class UuidLaws `{UuidLib} : Prop := {
  uuid_bytes_inj : forall a b, uuid_as_bytes a = uuid_as_bytes b -> a = b;
  uuid_from_as_bytes : forall b, length b = 16 -> uuid_as_bytes (uuid_from_bytes b) = b;
  uuid_new_v8_length : forall b, length b = 16 -> length (uuid_as_bytes (uuid_new_v8 b)) = 16;
  uuid_new_v8_free : forall b, length b = 16 ->
    uuid_free (uuid_as_bytes (uuid_new_v8 b)) = uuid_free b
}.

(** [aws_lc_rs::rand::fill]: [n] bytes, or a failure. *)
Class Rng (R : Type) : Type := rand_fill : nat -> R -> option (list u8) * R.

(** ** Nonces *)

(** [struct IdNonce([u8; 16])]. *)
Record IdNonce : Type := mk_nonce { IdNonce_as_bytes : list u8 }.

Definition nonce_wf (n : IdNonce) : Prop := length (IdNonce_as_bytes n) = 16.

(** [IdNonce::default]: panics when the generator fails and on all zeroes. *)
Definition IdNonce_default {R} `{Rng R} : prog R IdNonce := fun r =>
  let '(got, r') := rand_fill 16 r in
  match got with
  | None => Panic r'
  | Some buf => if decide (buf = replicate 16 x00) then Panic r' else Done (mk_nonce buf) r'
  end.

(** ** Connection identifiers *)

Inductive ConnectionIdInvalid : Type := mk_connection_id_invalid.

Section ConnectionIds.
Context `{AwsDigest} `{UuidLib}.

Record ConnectionId : Type := mk_connection_id { conn_uuid : Uuid }.

(** [ConnectionId::new]: the first 16 bytes of
    SHA-256(server nonce, client nonce), as a UUIDv8. *)
Definition ConnectionId_new (client_nonce server_nonce : list u8) : panics ConnectionId :=
  let h := Sha256_incremental in
  let h := Sha256State_update h server_nonce in
  let h := Sha256State_update h client_nonce in
  d ← Sha256State_finish h;
  hash ← slice_to 16 (Digest_into_inner d);
  Some (mk_connection_id (uuid_new_v8 hash)).

Definition ConnectionId_as_bytes (c : ConnectionId) : list u8 := uuid_as_bytes (conn_uuid c).
Definition ConnectionId_from_unverified (id : list u8) : ConnectionId :=
  mk_connection_id (uuid_from_bytes id).

Record UntrustedConnectionId : Type := UntrustedConnectionId_new {
  uci_server_nonce : list u8;
  uci_id : list u8
}.

(** [UntrustedConnectionId::verify]. *)
Definition UntrustedConnectionId_verify (self : UntrustedConnectionId) (client_nonce : IdNonce) :
  panics (result ConnectionId ConnectionIdInvalid) :=
  derived ← ConnectionId_new (IdNonce_as_bytes client_nonce) (uci_server_nonce self);
  Some (if decide (ConnectionId_as_bytes derived <> uci_id self)
        then Err mk_connection_id_invalid else Ok derived).

(** ** Lemmas *)

(** The derivation as one expression. *)
Definition derived_id (client_nonce server_nonce : list u8) : ConnectionId :=
  mk_connection_id (uuid_new_v8 (take 16 (sha256 (server_nonce ++ client_nonce)))).

Context `{!AwsDigestLaws}.

Lemma ConnectionId_new_spec cn sn : ConnectionId_new cn sn = Some (derived_id cn sn).
Proof.
  unfold ConnectionId_new. rewrite Sha256_two_updates. simpl.
  unfold slice_to, Digest_into_inner. rewrite decide_True; [done|].
  simpl. rewrite sha256_length. lia.
Qed.

Lemma verify_outcome u n :
  UntrustedConnectionId_verify u n =
  Some (if decide (ConnectionId_as_bytes (derived_id (IdNonce_as_bytes n) (uci_server_nonce u))
                   <> uci_id u)
        then Err mk_connection_id_invalid
        else Ok (derived_id (IdNonce_as_bytes n) (uci_server_nonce u))).
Proof. unfold UntrustedConnectionId_verify. by rewrite ConnectionId_new_spec. Qed.

Lemma verify_Ok u n c :
  UntrustedConnectionId_verify u n = Some (Ok c) <->
  c = derived_id (IdNonce_as_bytes n) (uci_server_nonce u) /\ ConnectionId_as_bytes c = uci_id u.
Proof.
  rewrite verify_outcome. split.
  - case_decide as D; [done|]. by intros [= <-].
  - intros [-> E]. rewrite decide_False; [done|]. by intros [].
Qed.

End ConnectionIds.

(** ** A UUID library for concrete evaluation *)

Definition toy_v8 (b : list u8) : list u8 :=
  imap (fun i x => let n := Byte.to_N x in
    if decide (i = 6) then default x00 (Byte.of_N (128 + N.land n 15))
    else if decide (i = 8) then default x00 (Byte.of_N (128 + N.land n 63)) else x) b.

Definition toy_uuid : UuidLib := {|
  Uuid := list u8;
  uuid_as_bytes := fun b => b;
  uuid_from_bytes := fun b => b;
  uuid_new_v8 := toy_v8
|}.

Lemma toy_uuid_laws : @UuidLaws toy_uuid.
Proof.
  split; cbn [Uuid uuid_as_bytes uuid_from_bytes uuid_new_v8 toy_uuid].
  - done.
  - done.
  - intros b Hb. unfold toy_v8. by rewrite length_imap.
  - intros b _. unfold uuid_free, toy_v8. apply list_eq. intros i.
    rewrite !list_lookup_imap. destruct (b !! i) as [x|]; [|done].
    simpl. repeat case_decide; try done; by destruct x.
Qed.

(** A generator that returns the byte it was seeded with. *)
Definition toy_rng : Rng u8 := fun n b => (Some (replicate n b), b).

(** ** Properties *)

Section ConnectionIdProperties.
Context `{AwsDigestLaws} `{UuidLaws}.

(** C6. Verifying a proposed connection identifier never panics; it accepts
    exactly the 16 bytes derived from the server's nonce and this client's
    nonce, and the accepted identifier carries those bytes. *)
Theorem connection_id_verify_spec u n (Hn : nonce_wf n) :
  exists r, UntrustedConnectionId_verify u n = Some r /\
    (is_ok r = true <->
      uci_id u = uuid_as_bytes (uuid_new_v8
        (take 16 (sha256 (uci_server_nonce u ++ IdNonce_as_bytes n))))) /\
    (forall c, r = Ok c -> ConnectionId_as_bytes c = uci_id u /\ length (uci_id u) = 16) /\
    UntrustedConnectionId_verify
      (UntrustedConnectionId_new (uci_server_nonce u)
        (ConnectionId_as_bytes (derived_id (IdNonce_as_bytes n) (uci_server_nonce u)))) n
      = Some (Ok (derived_id (IdNonce_as_bytes n) (uci_server_nonce u))).
Proof.
  eexists. split; [apply verify_outcome|]. split_and!.
  - case_decide as D; unfold ConnectionId_as_bytes, derived_id in *; simpl in *.
    + split; [done|]. intros E. by destruct D.
    + done.
  - intros c. case_decide as D; [done|]. intros [= <-].
    split; [done|]. rewrite <- D. apply uuid_new_v8_length.
    rewrite length_take, sha256_length. done.
  - apply verify_Ok. done.
Qed.

(** C34. A connection identifier binds both nonces: if the same identifier
    verifies for two pairs of nonces, the pairs are the same or the two
    preimages are distinct byte strings whose SHA-256 digests agree on the 122
    bits a UUIDv8 keeps of their first 16 bytes.  The fixed length of the client
    nonce is what makes the concatenation unambiguous. *)
Theorem connection_id_binding u1 n1 u2 n2 c1 c2
  (W1 : nonce_wf n1) (W2 : nonce_wf n2)
  (V1 : UntrustedConnectionId_verify u1 n1 = Some (Ok c1))
  (V2 : UntrustedConnectionId_verify u2 n2 = Some (Ok c2))
  (Hid : uci_id u1 = uci_id u2) :
  c1 = c2 /\
  ((uci_server_nonce u1 = uci_server_nonce u2 /\ n1 = n2) \/
   (uci_server_nonce u1 ++ IdNonce_as_bytes n1 <> uci_server_nonce u2 ++ IdNonce_as_bytes n2 /\
    uuid_free (take 16 (sha256 (uci_server_nonce u1 ++ IdNonce_as_bytes n1))) =
    uuid_free (take 16 (sha256 (uci_server_nonce u2 ++ IdNonce_as_bytes n2))))).
Proof.
  apply verify_Ok in V1 as [E1 B1]. apply verify_Ok in V2 as [E2 B2].
  assert (B : uuid_as_bytes (conn_uuid c1) = uuid_as_bytes (conn_uuid c2)) by (unfold ConnectionId_as_bytes in *; congruence).
  split; [destruct c1, c2; f_equal; by apply uuid_bytes_inj|].
  destruct (decide (uci_server_nonce u1 ++ IdNonce_as_bytes n1
    = uci_server_nonce u2 ++ IdNonce_as_bytes n2)) as [E|E]; [left|right].
  - apply suffix_app_inj in E as [Es En]; [|by rewrite W1, W2].
    destruct n1, n2. simpl in En. by rewrite En.
  - split; [done|]. rewrite E1, E2 in B. simpl in B.
    apply (f_equal uuid_free) in B.
    by rewrite !uuid_new_v8_free in B by (rewrite length_take, sha256_length; done).
Qed.

End ConnectionIdProperties.

(** *** Witnesses *)

Definition toy_nonce (b : u8) : IdNonce := mk_nonce (replicate 16 b).

Lemma connection_id_verify_spec_witness :
  exists r, @UntrustedConnectionId_verify toy_digest toy_uuid
      (UntrustedConnectionId_new (replicate 16 x07) (toy_v8 (replicate 16 x07)))
      (toy_nonce x01) = Some r /\
    (is_ok r = true <-> toy_v8 (replicate 16 x07) =
      toy_v8 (take 16 (@sha256 toy_digest (replicate 16 x07 ++ replicate 16 x01)))).
Proof.
  destruct (@connection_id_verify_spec toy_digest toy_digest_laws toy_uuid toy_uuid_laws
    (UntrustedConnectionId_new (replicate 16 x07) (toy_v8 (replicate 16 x07)))
    (toy_nonce x01)) as (r & E & K & _); [reflexivity|].
  exists r. split; [exact E | exact K].
Defined.

Lemma connection_id_binding_witness :
  exists c1 c2, let u := UntrustedConnectionId_new (replicate 16 x07) (toy_v8 (replicate 16 x07)) in
    @UntrustedConnectionId_verify toy_digest toy_uuid u (toy_nonce x01) = Some (Ok c1) /\
    @UntrustedConnectionId_verify toy_digest toy_uuid u (toy_nonce x02) = Some (Ok c2) /\
    c1 = c2.
Proof.
  do 2 eexists. split; [reflexivity|]. split; [reflexivity|].
  refine (proj1 (@connection_id_binding toy_digest toy_digest_laws toy_uuid toy_uuid_laws
    (UntrustedConnectionId_new (replicate 16 x07) (toy_v8 (replicate 16 x07))) (toy_nonce x01)
    (UntrustedConnectionId_new (replicate 16 x07) (toy_v8 (replicate 16 x07))) (toy_nonce x02)
    _ _ _ _ _ _ _)); reflexivity.
Defined.
