(* ===== verification/Codec.v ===== *)
(** * Wire codec

    Models [rc-x509-client/src/codec/] with the value types its messages carry:
    [payload.rs], [app_info.rs], [build_version.rs], [endpoint.rs],
    [connection/reconnection.rs], [host_runtime/correlation_id.rs], and
    [encode] / [decode] of [rc-x509-proto/src/lib.rs].  The message types that
    prost generates from the [.proto] files are records here; the protobuf
    encoding itself is a parameter with prost's round-trip law. *)

From stdpp Require Import base option list strings pretty countable.
From Stdlib Require Import Strings.Byte NArith Ascii Lia.
From S2P Require Import Prelude Hex Certificate ConnectionId.

(** ** Value types *)

(** [struct CorrelationId(u64)]. *)
Record CorrelationId : Type := CorrelationId_new { CorrelationId_get : N }.

#[export] Instance CorrelationId_eq_dec : EqDecision CorrelationId.
Proof. solve_decision. Defined.

(** [struct Payload(Bytes)]. *)
Record Payload : Type := Payload_from { Payload_as_bytes : list u8 }.
Definition Payload_copy_from_slice (src : list u8) : Payload := Payload_from src.
Definition Payload_into_bytes (p : Payload) : list u8 := Payload_as_bytes p.
Definition Payload_len (p : Payload) : nat := length (Payload_as_bytes p).
Definition Payload_is_empty (p : Payload) : bool := bool_decide (Payload_as_bytes p = []).

#[export] Instance Payload_eq_dec : EqDecision Payload.
Proof. solve_decision. Defined.

(** Reconnection counters, [u64]s, and the opaque data. *)
Record GracefulDisconnectionCount : Type := Graceful_new { Graceful_as_raw : N }.
Record UngracefulDisconnectionCount : Type := Ungraceful_new { Ungraceful_as_raw : N }.
Record LastConnectedDuration : Type := mk_last_connected { LastConnected_as_seconds : N }.
Record ReconnectionData : Type := ReconnectionData_new { ReconnectionData_as_bytes : list u8 }.

(** [LastConnectedDuration::new]: whole seconds of a [Duration] given in
    nanoseconds. *)
Definition LastConnected_new (duration_nanos : N) : LastConnectedDuration :=
  mk_last_connected (duration_nanos / 1000000000).

Record BuildVersion : Type := mk_build_version {
  BuildVersion_commit : option string;
  BuildVersion_major : N;
  BuildVersion_minor : N;
  BuildVersion_patch : N;
  BuildVersion_pre : option string
}.

(** [Display]: major.minor.patch, then the pre-release and the commit if any. *)
Definition BuildVersion_display (v : BuildVersion) : string :=
  pretty (BuildVersion_major v) +:+ "." +:+ pretty (BuildVersion_minor v) +:+ "."
    +:+ pretty (BuildVersion_patch v)
    +:+ (match BuildVersion_pre v with Some pre => "-" +:+ pre | None => "" end)
    +:+ (match BuildVersion_commit v with Some hash => " (" +:+ hash +:+ ")" | None => "" end).

(** [str::parse::<u32>]: an optional plus sign, then decimal digits, checked
    for overflow. *)
Definition digit_val (c : Ascii.ascii) : option N :=
  let n := Ascii.N_of_ascii c in
  if decide (48 <= n <= 57)%N then Some (n - 48)%N else None.

Fixpoint parse_digits (s : string) (acc : N) : option N :=
  match s with
  | EmptyString => Some acc
  | String c s =>
      d ← digit_val c;
      let acc := (acc * 10 + d)%N in
      if decide (acc < 2 ^ 32)%N then parse_digits s acc else None
  end.

Definition u32_from_str (s : string) : option N :=
  let digits := match s with String "+" s => s | _ => s end in
  match digits with EmptyString => None | _ => parse_digits digits 0 end.

(** [BuildVersion::from_build] on the build's [CARGO_PKG_VERSION_*] and
    [BUILD_GIT_COMMIT_HASH] variables: the numbers are unwrapped. *)
Definition BuildVersion_from_build (v_major v_minor v_patch v_pre : string)
  (git_commit : option string) : panics BuildVersion :=
  let pre := if decide (v_pre = "") then None else Some v_pre in
  major ← u32_from_str v_major;
  minor ← u32_from_str v_minor;
  patch ← u32_from_str v_patch;
  Some (mk_build_version git_commit major minor patch pre).

Record AppName : Type := AppName_from { app_name_str : string }.
Record AppVersion : Type := AppVersion_from { app_version_str : string }.
Record AppInfo : Type := AppInfo_new { AppInfo_name : AppName; AppInfo_version : AppVersion }.

(** ** Messages from the server *)

Record DetachedSignature : Type := mk_detached { ds_cert_id : list u8; ds_signature : list u8 }.

Inductive ServerToClient : Type :=
| Ping
| CertificatePush (certs : list UntrustedCertBytes)
| ServerDispatch (correlation_id : CorrelationId) (payload : Payload)
    (detached_signature : option DetachedSignature)
| ClientHelloAck (connection_id : UntrustedConnectionId)
| SetReconnectionData (data : ReconnectionData).

(** [v1::server_to_client::Message], as generated. *)
Inductive S2CMessage : Type :=
| S2C_Ping
| S2C_CertificatePush (certificate : list (list u8))
| S2C_Dispatch (correlation_id : N) (signature : option DetachedSignature)
    (encoded_dispatch_request : list u8)
| S2C_ClientHelloAck (connection_id : option (list u8)) (server_nonce : list u8)
| S2C_SetReconnectionData (opaque : list u8).

(** ** Messages to the server *)

Inductive ProtocolError : Type :=
| HandshakeAckBeforeHello
| HandshakeDuplicateAck
| HandshakeConnectionIdRejected
| DeserialisationFailed (error_msg : string)
| CertIdInvalidLength (got_len : nat)
| DispatchBeforeHandshake (id : CorrelationId)
| DispatchMissingSignature (id : CorrelationId).

(** [v1::client_protocol_error::Error], as generated. *)
Inductive C2SError : Type :=
| C2S_HandshakeAckBeforeHello
| C2S_HandshakeDuplicateAck
| C2S_HandshakeConnectionIdRejected
| C2S_DeserialisationFailed (error_msg : string)
| C2S_CertIdInvalidLength (got_len : N)
| C2S_DispatchBeforeHandshake (correlation_id : N)
| C2S_DispatchMissingSignature (correlation_id : N).

(** [v1::ClientHello], as generated. *)
Record C2SHello : Type := mk_c2s_hello {
  w_nonce : list u8;
  w_graceful_disconnection_count : N;
  w_ungraceful_disconnection_count : N;
  w_reconnection_data : list u8;
  w_version_major : N;
  w_version_minor : N;
  w_version_patch : N;
  w_version_pre : option string;
  w_version_commit : option string;
  w_app_name : string;
  w_app_version : string;
  w_last_closed_connection_duration_seconds : N
}.

(** What prost provides: the decoding error, the response payload type, and the
    encodings of the two messages and of the payload. *)
Class ProtoTypes : Type := {
  DecodeError : Type;
  decode_error_display : DecodeError -> string;
  DispatchResponsePayload : Type
}.

Section Codec.
Context `{ProtoTypes}.

(** [v1::dispatch_response::Result]; prost keeps the enum as an [i32]. *)
Inductive DispatchResponseResult : Type :=
| DR_Error (code : Z)
| DR_Payload (p : DispatchResponsePayload).

(** [v1::client_to_server::Message], as generated, of what the client sends. *)
Inductive C2SMessage : Type :=
| C2S_Pong
| C2S_ClientHello (hello : C2SHello)
| C2S_Dispatch (correlation_id : N) (result : option DispatchResponseResult)
| C2S_ProtocolError (is_handshake_complete : bool) (error : option C2SError).

(** The fields of [ClientToServer::ClientHello]. *)
Record ClientHello : Type := mk_client_hello {
  ch_client_nonce : list u8;
  ch_graceful : GracefulDisconnectionCount;
  ch_ungraceful : UngracefulDisconnectionCount;
  ch_last_closed : LastConnectedDuration;
  ch_reconnection_data : option ReconnectionData;
  ch_version_info : BuildVersion;
  ch_app_name : AppName;
  ch_app_version : AppVersion
}.

Inductive ClientToServer : Type :=
| Pong
| Hello (hello : ClientHello)
| DispatchResponse (correlation_id : CorrelationId) (result : DispatchResponseResult)
| ReportProtocolError (reason : ProtocolError) (is_handshake_complete : bool).

Inductive DecodingError : Type :=
| DecodingError_Wire (e : DecodeError)
| DecodingError_NoMessage.

(** [Display] of [DecodingError]. *)
Definition DecodingError_display (e : DecodingError) : string :=
  match e with
  | DecodingError_Wire e => "deserialisation error: " +:+ decode_error_display e
  | DecodingError_NoMessage => "no message"
  end.

Class Prost : Type := {
  decode_s2c : list u8 -> result (option S2CMessage) DecodeError;
  encode_c2s : option C2SMessage -> list u8;
  decode_c2s : list u8 -> result (option C2SMessage) DecodeError;
  decode_response_payload : list u8 -> result DispatchResponsePayload DecodeError
}.

Class ProstLaws `{Prost} : Prop := {
  decode_encode_c2s : forall m, decode_c2s (encode_c2s m) = Ok m
}.

Context `{!Prost}.

(** The application message of a wire message. *)
Definition s2c_of_wire (m : S2CMessage) : ServerToClient :=
  match m with
  | S2C_Ping => Ping
  | S2C_Dispatch correlation_id signature req =>
      ServerDispatch (CorrelationId_new correlation_id) (Payload_from req)
        ((fun v => mk_detached (ds_cert_id v) (ds_signature v)) <$> signature)
  | S2C_CertificatePush certs => CertificatePush (UntrustedCertBytes_new <$> certs)
  | S2C_ClientHelloAck connection_id server_nonce =>
      ClientHelloAck (UntrustedConnectionId_new server_nonce (default [] connection_id))
  | S2C_SetReconnectionData opaque => SetReconnectionData (ReconnectionData_new opaque)
  end.

(** [TryFrom<&[u8]> for ServerToClient]. *)
Definition ServerToClient_try_from (value : list u8) : result ServerToClient DecodingError :=
  (let? got := map_err DecodingError_Wire (decode_s2c value) in
   let? message := ok_or got DecodingError_NoMessage in
   Ok (s2c_of_wire message))%rc.

Definition protocol_error_to_wire (reason : ProtocolError) : C2SError :=
  match reason with
  | HandshakeAckBeforeHello => C2S_HandshakeAckBeforeHello
  | HandshakeDuplicateAck => C2S_HandshakeDuplicateAck
  | HandshakeConnectionIdRejected => C2S_HandshakeConnectionIdRejected
  | DeserialisationFailed error_msg => C2S_DeserialisationFailed error_msg
  | CertIdInvalidLength v => C2S_CertIdInvalidLength (N.of_nat v mod 2 ^ 64)
  | DispatchBeforeHandshake id => C2S_DispatchBeforeHandshake (CorrelationId_get id)
  | DispatchMissingSignature id => C2S_DispatchMissingSignature (CorrelationId_get id)
  end.

(** The wire message of an application message. *)
Definition c2s_to_wire (value : ClientToServer) : C2SMessage :=
  match value with
  | Hello h => C2S_ClientHello {|
      w_graceful_disconnection_count := Graceful_as_raw (ch_graceful h);
      w_ungraceful_disconnection_count := Ungraceful_as_raw (ch_ungraceful h);
      w_last_closed_connection_duration_seconds := LastConnected_as_seconds (ch_last_closed h);
      w_nonce := ch_client_nonce h;
      w_reconnection_data :=
        default [] (ReconnectionData_as_bytes <$> ch_reconnection_data h);
      w_version_major := BuildVersion_major (ch_version_info h);
      w_version_minor := BuildVersion_minor (ch_version_info h);
      w_version_patch := BuildVersion_patch (ch_version_info h);
      w_version_commit := BuildVersion_commit (ch_version_info h);
      w_version_pre := BuildVersion_pre (ch_version_info h);
      w_app_name := app_name_str (ch_app_name h);
      w_app_version := app_version_str (ch_app_version h)
    |}
  | Pong => C2S_Pong
  | DispatchResponse correlation_id r => C2S_Dispatch (CorrelationId_get correlation_id) (Some r)
  | ReportProtocolError reason is_handshake_complete =>
      C2S_ProtocolError is_handshake_complete (Some (protocol_error_to_wire reason))
  end.

(** [From<ClientToServer> for Bytes]. *)
Definition ClientToServer_to_bytes (value : ClientToServer) : list u8 :=
  encode_c2s (Some (c2s_to_wire value)).

End Codec.

(** ** What the wire keeps *)

Section WireFacts.
Context `{ProtoTypes}.

(** An absent connection identifier is read as an empty one. *)
Definition s2c_normalise (m : S2CMessage) : S2CMessage :=
  match m with
  | S2C_ClientHelloAck connection_id server_nonce =>
      S2C_ClientHelloAck (Some (default [] connection_id)) server_nonce
  | m => m
  end.

Definition s2c_to_wire (m : ServerToClient) : S2CMessage :=
  match m with
  | Ping => S2C_Ping
  | CertificatePush certs => S2C_CertificatePush (ucb_bytes <$> certs)
  | ServerDispatch id payload sig => S2C_Dispatch (CorrelationId_get id) sig (Payload_as_bytes payload)
  | ClientHelloAck u => S2C_ClientHelloAck (Some (uci_id u)) (uci_server_nonce u)
  | SetReconnectionData d => S2C_SetReconnectionData (ReconnectionData_as_bytes d)
  end.

Lemma s2c_to_of_wire m : s2c_to_wire (s2c_of_wire m) = s2c_normalise m.
Proof.
  destruct m as [|certs|id sig req|cid nonce|d]; simpl; try done.
  - f_equal. induction certs as [|c certs IH]; [done | by apply (f_equal (cons c))].
  - by destruct sig as [[]|].
Qed.

Lemma s2c_of_to_wire m : s2c_of_wire (s2c_to_wire m) = m.
Proof.
  destruct m as [|certs|[] [] sig|[]|[]]; simpl; try done.
  - f_equal. induction certs as [|[c] certs IH]; [done | by apply (f_equal (cons (UntrustedCertBytes_new c)))].
  - by destruct sig as [[]|].
Qed.

(** Lengths the client can measure are below [2^64]. *)
Definition c2s_wf (m : ClientToServer) : Prop :=
  match m with
  | ReportProtocolError (CertIdInvalidLength n) _ => (N.of_nat n < 2 ^ 64)%N
  | _ => True
  end.

(** Empty reconnection data and none are the same on the wire. *)
Definition hello_canon (h : ClientHello) : ClientHello :=
  mk_client_hello (ch_client_nonce h) (ch_graceful h) (ch_ungraceful h) (ch_last_closed h)
    (Some (default (ReconnectionData_new []) (ch_reconnection_data h)))
    (ch_version_info h) (ch_app_name h) (ch_app_version h).

Definition c2s_canon (m : ClientToServer) : ClientToServer :=
  match m with Hello h => Hello (hello_canon h) | m => m end.

(** Read a message back from its wire form. *)
Definition protocol_error_of_wire (e : C2SError) : ProtocolError :=
  match e with
  | C2S_HandshakeAckBeforeHello => HandshakeAckBeforeHello
  | C2S_HandshakeDuplicateAck => HandshakeDuplicateAck
  | C2S_HandshakeConnectionIdRejected => HandshakeConnectionIdRejected
  | C2S_DeserialisationFailed s => DeserialisationFailed s
  | C2S_CertIdInvalidLength n => CertIdInvalidLength (N.to_nat n)
  | C2S_DispatchBeforeHandshake id => DispatchBeforeHandshake (CorrelationId_new id)
  | C2S_DispatchMissingSignature id => DispatchMissingSignature (CorrelationId_new id)
  end.

Definition c2s_of_wire (m : C2SMessage) : option ClientToServer :=
  match m with
  | C2S_Pong => Some Pong
  | C2S_ClientHello w => Some (Hello (mk_client_hello (w_nonce w)
      (Graceful_new (w_graceful_disconnection_count w))
      (Ungraceful_new (w_ungraceful_disconnection_count w))
      (mk_last_connected (w_last_closed_connection_duration_seconds w))
      (Some (ReconnectionData_new (w_reconnection_data w)))
      (mk_build_version (w_version_commit w) (w_version_major w) (w_version_minor w)
         (w_version_patch w) (w_version_pre w))
      (AppName_from (w_app_name w)) (AppVersion_from (w_app_version w))))
  | C2S_Dispatch id r => DispatchResponse (CorrelationId_new id) <$> r
  | C2S_ProtocolError done e => (fun e => ReportProtocolError (protocol_error_of_wire e) done) <$> e
  end.

Lemma protocol_error_of_to_wire e done :
  c2s_wf (ReportProtocolError e done) -> protocol_error_of_wire (protocol_error_to_wire e) = e.
Proof.
  destruct e as [| | | |n|[]|[]]; simpl; try easy. intros Hn.
  by rewrite N.mod_small, Nat2N.id.
Qed.

Lemma c2s_of_to_wire m : c2s_wf m -> c2s_of_wire (c2s_to_wire m) = Some (c2s_canon m).
Proof.
  destruct m as [|[n [g] [u] [l] d [c ma mi pa pre] [an] [av]]|[id] r|e done]; intros W; simpl; try easy.
  - unfold hello_canon. simpl. by destruct d as [[]|].
  - by rewrite (protocol_error_of_to_wire e done W).
Qed.

Lemma c2s_to_wire_canon m : c2s_to_wire (c2s_canon m) = c2s_to_wire m.
Proof. destruct m as [|h| |]; simpl; try done. by destruct (ch_reconnection_data h). Qed.

End WireFacts.

(** ** The build's version *)

Lemma digit_val_pretty d : (d < 10)%N -> digit_val (pretty_N_char d) = Some d.
Proof.
  intros L. assert (C : In d [0;1;2;3;4;5;6;7;8;9]%N) by (simpl; lia).
  simpl in C. by destruct_or? C; subst.
Qed.

Lemma parse_pretty_go (n : N) s :
  (n < 2 ^ 32)%N -> parse_digits (pretty_N_go n s) 0 = parse_digits s n.
Proof.
  revert s. induction (N.lt_wf_0 n) as [n _ IH]. intros s L.
  destruct (decide (0 < n)%N) as [P|P]; cycle 1.
  { replace n with 0%N by lia. by rewrite pretty_N_go_0. }
  assert (D : (n = n / 10 * 10 + n mod 10)%N) by (pose proof (N.div_mod n 10 ltac:(lia)); lia).
  assert (M : (n mod 10 < 10)%N) by (apply N.mod_lt; lia).
  rewrite pretty_N_go_step by done.
  rewrite IH; [|apply N.div_lt; lia|
    apply (N.le_lt_trans _ n); [apply N.Div0.div_le_upper_bound; lia | done]].
  cbn [parse_digits]. rewrite digit_val_pretty by done. cbn. rewrite <- D.
  by rewrite decide_True.
Qed.

(** A number's decimal starts with a digit. *)
Lemma pretty_go_digit (n : N) s :
  (0 < n)%N -> exists d s', (d < 10)%N /\ pretty_N_go n s = String (pretty_N_char d) s'.
Proof.
  revert s. induction (N.lt_wf_0 n) as [n _ IH]. intros s P.
  rewrite pretty_N_go_step by done. destruct (decide (0 < n / 10)%N) as [Q|Q].
  - apply IH; [apply N.div_lt; lia | done].
  - apply N.nlt_ge, N.le_0_r in Q. rewrite Q, pretty_N_go_0.
    eexists _, _. split; [|reflexivity]. apply N.mod_lt; lia.
Qed.

Lemma u32_from_str_pretty (n : N) : (n < 2 ^ 32)%N -> u32_from_str (pretty n) = Some n.
Proof.
  intros L. unfold pretty, pretty_N. case_decide as E; [by subst|].
  pose proof (parse_pretty_go n "" L) as G. cbn [parse_digits] in G. rewrite <- G.
  destruct (pretty_go_digit n "" ltac:(lia)) as (d & s & D & ->). unfold u32_from_str.
  assert (C : In d [0;1;2;3;4;5;6;7;8;9]%N) by (simpl; lia).
  simpl in C. by destruct_or? C; subst.
Qed.

(** The version a client reports is the one of its build. *)
Lemma from_build_roundtrip v :
  (BuildVersion_major v < 2 ^ 32)%N -> (BuildVersion_minor v < 2 ^ 32)%N ->
  (BuildVersion_patch v < 2 ^ 32)%N -> BuildVersion_pre v <> Some "" ->
  BuildVersion_from_build (pretty (BuildVersion_major v)) (pretty (BuildVersion_minor v))
    (pretty (BuildVersion_patch v)) (default "" (BuildVersion_pre v)) (BuildVersion_commit v) = Some v.
Proof.
  destruct v as [commit major minor patch pre]. cbn. intros L1 L2 L3 P.
  unfold BuildVersion_from_build. rewrite !u32_from_str_pretty by done. cbn.
  destruct pre as [pre|]; cbn; case_decide; congruence.
Qed.

(** ** A protobuf library for concrete evaluation

    Not protobuf: client messages are numbered and the number is written in
    unary-coded bits; server messages are a one-byte tag.  It satisfies the law. *)
Definition toy_proto : ProtoTypes := {|
  DecodeError := unit; decode_error_display := fun _ => "bad"; DispatchResponsePayload := list u8
|}.

Definition error_code (e : C2SError) : nat * (string * N) :=
  match e with
  | C2S_HandshakeAckBeforeHello => (0, ("", 0%N))
  | C2S_HandshakeDuplicateAck => (1, ("", 0%N))
  | C2S_HandshakeConnectionIdRejected => (2, ("", 0%N))
  | C2S_DeserialisationFailed s => (3, (s, 0%N))
  | C2S_CertIdInvalidLength n => (4, ("", n))
  | C2S_DispatchBeforeHandshake n => (5, ("", n))
  | C2S_DispatchMissingSignature n => (6, ("", n))
  end.

Definition error_decode (c : nat * (string * N)) : C2SError :=
  match c with
  | (0, _) => C2S_HandshakeAckBeforeHello
  | (1, _) => C2S_HandshakeDuplicateAck
  | (2, _) => C2S_HandshakeConnectionIdRejected
  | (3, (s, _)) => C2S_DeserialisationFailed s
  | (4, (_, n)) => C2S_CertIdInvalidLength n
  | (5, (_, n)) => C2S_DispatchBeforeHandshake n
  | (_, (_, n)) => C2S_DispatchMissingSignature n
  end.

#[local] Instance C2SError_eq_dec : EqDecision C2SError.
Proof. solve_decision. Defined.
#[local] Instance C2SError_countable : Countable C2SError.
Proof. refine (inj_countable' error_code error_decode _). by intros []. Defined.
#[local] Instance C2SHello_eq_dec : EqDecision C2SHello.
Proof. solve_decision. Defined.
#[local] Instance C2SHello_countable : Countable C2SHello.
Proof.
  refine (inj_countable'
    (fun w => (w_nonce w, w_graceful_disconnection_count w, w_ungraceful_disconnection_count w,
      w_reconnection_data w, w_version_major w, w_version_minor w, w_version_patch w,
      w_version_pre w, w_version_commit w, w_app_name w, w_app_version w,
      w_last_closed_connection_duration_seconds w))
    (fun '(a, b, c, d, e, f, g, h, i, j, k, l) => mk_c2s_hello a b c d e f g h i j k l) _).
  by intros [].
Defined.
#[local] Instance toy_result_eq_dec : EqDecision (@DispatchResponseResult toy_proto).
Proof. intros x y. unfold Decision. decide equality; [apply Z.eq_dec | apply (decide_rel (=@{list u8}))]. Defined.
#[local] Instance toy_result_countable : Countable (@DispatchResponseResult toy_proto).
Proof.
  refine (inj_countable'
    (fun r => match r with DR_Error z => inl z | DR_Payload p => inr (p : list u8) end)
    (fun s => match s with inl z => @DR_Error toy_proto z | inr p => @DR_Payload toy_proto p end) _).
  by intros [].
Defined.
#[local] Instance toy_message_eq_dec : EqDecision (@C2SMessage toy_proto).
Proof. intros x y. unfold Decision. decide equality; apply decide_rel; apply _. Defined.
#[local] Instance toy_message_countable : Countable (@C2SMessage toy_proto).
Proof.
  refine (inj_countable'
    (fun m => match m with
      | C2S_Pong => inl (inl tt) | C2S_ClientHello h => inl (inr h)
      | C2S_Dispatch id r => inr (inl (id, r)) | C2S_ProtocolError b e => inr (inr (b, e)) end)
    (fun s => match s with
      | inl (inl _) => @C2S_Pong toy_proto | inl (inr h) => @C2S_ClientHello toy_proto h
      | inr (inl (id, r)) => @C2S_Dispatch toy_proto id r
      | inr (inr (b, e)) => @C2S_ProtocolError toy_proto b e end) _).
  by intros [].
Defined.

Fixpoint bits_of (p : positive) : list u8 :=
  match p with xH => [] | xO p => x00 :: bits_of p | xI p => x01 :: bits_of p end.
Fixpoint of_bits (l : list u8) : positive :=
  match l with [] => xH | x00 :: l => xO (of_bits l) | _ :: l => xI (of_bits l) end.
Lemma of_bits_of p : of_bits (bits_of p) = p.
Proof. induction p; simpl; by f_equal. Qed.

Definition toy_prost : @Prost toy_proto := {|
  decode_s2c := fun bs => match bs with
    | [x01] => Ok (Some S2C_Ping)
    | x02 :: rest => Ok (Some (S2C_ClientHelloAck (Some (drop 16 rest)) (take 16 rest)))
    | x03 :: id :: rest => Ok (Some (S2C_Dispatch (Byte.to_N id)
        (Some (mk_detached (take 16 rest) [x01])) (drop 16 rest)))
    | [x04] => Ok (Some (S2C_Dispatch 7 None []))
    | [] => Ok None
    | _ => Err (tt : @DecodeError toy_proto)
    end;
  encode_c2s := fun m => bits_of (encode m);
  decode_c2s := fun bs => match decode (of_bits bs) with Some m => Ok m | None => Err (tt : @DecodeError toy_proto) end;
  decode_response_payload := fun bs => match bs with xff :: _ => Err (tt : @DecodeError toy_proto) | _ => Ok (bs : @DispatchResponsePayload toy_proto) end
|}.

Lemma toy_prost_laws : @ProstLaws toy_proto toy_prost.
Proof.
  split. intros m. cbn [decode_c2s encode_c2s toy_prost]. by rewrite of_bits_of, decode_encode.
Qed.

(** ** Properties *)

Section CodecProperties.
Context `{ProtoTypes} `{!Prost}.

(** Decoding a server message: a wire error and a missing message are
    reported as such, and a decoded message determines the wire message it came
    from, except that an absent connection identifier is read as an empty one;
    every application message comes from some wire message. *)
Lemma server_to_client_spec value :
  match decode_s2c value with
  | Err e => ServerToClient_try_from value = Err (DecodingError_Wire e)
  | Ok None => ServerToClient_try_from value = Err DecodingError_NoMessage
  | Ok (Some w) => exists m, ServerToClient_try_from value = Ok m /\ s2c_to_wire m = s2c_normalise w
  end /\
  (forall m, s2c_of_wire (s2c_to_wire m) = m).
Proof.
  split; [|apply s2c_of_to_wire]. unfold ServerToClient_try_from.
  destruct (decode_s2c value) as [[w|]|e]; simpl; try done.
  eexists. split; [done | apply s2c_to_of_wire].
Qed.

(** C33. Encoding a client message: the bytes decode to a wire message from
    which the message can be read back, so two messages have the same bytes
    exactly when they differ at most in absent versus empty reconnection
    data. *)
Theorem client_to_server_injective `{!ProstLaws} a b (Wa : c2s_wf a) (Wb : c2s_wf b) :
  (exists w, decode_c2s (ClientToServer_to_bytes a) = Ok (Some w) /\
    c2s_of_wire w = Some (c2s_canon a)) /\
  (ClientToServer_to_bytes a = ClientToServer_to_bytes b <-> c2s_canon a = c2s_canon b).
Proof.
  unfold ClientToServer_to_bytes. split.
  - exists (c2s_to_wire a). split; [apply decode_encode_c2s | by apply c2s_of_to_wire].
  - split; intros E.
    + apply (f_equal decode_c2s) in E. rewrite !decode_encode_c2s in E. injection E as E.
      apply (f_equal c2s_of_wire) in E. rewrite !c2s_of_to_wire in E by done. by simplify_eq.
    + rewrite <- (c2s_to_wire_canon a), <- (c2s_to_wire_canon b). by rewrite E.
Qed.

End CodecProperties.

(** *** Witness *)

Lemma client_to_server_injective_witness :
  @ClientToServer_to_bytes toy_proto toy_prost Pong <>
  @ClientToServer_to_bytes toy_proto toy_prost (ReportProtocolError (CertIdInvalidLength 70) true).
Proof.
  intros E. apply (@client_to_server_injective toy_proto toy_prost toy_prost_laws) in E;
    [discriminate E | exact I | reflexivity].
Defined.
