(* ===== verification/Mpsc.v ===== *)
(** * Channels

    The bounded channels of [tokio::sync::mpsc], which the client and the FFI
    layer are connected by.  The channel implementation is a parameter ([Mpsc]);
    [MpscLaws] states its documented behaviour by an abstraction to a bounded
    FIFO queue with a receiver flag and a count of live strong senders. *)

From stdpp Require Import base option list.
From Stdlib Require Import Lia.
From S2P Require Import Prelude.

(** [tokio::sync::mpsc::error::TrySendError], without the value handed back. *)
Inductive TrySendError : Type := TrySend_Full | TrySend_Closed.

(** [std::task::Poll]. *)
Inductive poll (A : Type) : Type := Ready (a : A) | Pending.
Arguments Ready {A} a.
Arguments Pending {A}.

(** What a poll of a stream yielded. *)
Definition yielded {A} (p : poll (option A)) : option A :=
  match p with Ready o => o | Pending => None end.

(** ** The documented behaviour *)

Record chan (T : Type) : Type := mk_chan {
  c_queue : list T;
  c_cap : nat;
  c_rx : bool;
  c_tx : nat
}.
Arguments mk_chan {T} c_queue c_cap c_rx c_tx.
Arguments c_queue {T} c.
Arguments c_cap {T} c.
Arguments c_rx {T} c.
Arguments c_tx {T} c.

Section Chan.
Context {T : Type}.

Definition chan_new (n : nat) : chan T := mk_chan [] n true 1.

Definition chan_push (x : T) (c : chan T) : chan T :=
  mk_chan (c_queue c ++ [x]) (c_cap c) (c_rx c) (c_tx c).

Definition chan_full (c : chan T) : Prop := c_cap c <= length (c_queue c).

#[export] Instance chan_full_dec c : Decision (chan_full c).
Proof. unfold chan_full. apply _. Defined.

(** [try_send]: never waits. *)
Definition chan_try_send (x : T) (c : chan T) : result () TrySendError * chan T :=
  if c_rx c then
    if decide (chan_full c) then (Err TrySend_Full, c) else (Ok tt, chan_push x c)
  else (Err TrySend_Closed, c).

(** One poll of [send]: waits while the channel is full. *)
Definition chan_poll_send (x : T) (c : chan T) : poll (result () ()) * chan T :=
  if c_rx c then
    if decide (chan_full c) then (Pending, c) else (Ready (Ok tt), chan_push x c)
  else (Ready (Err tt), c).

(** One poll of [recv]: waits while the channel is empty and has a sender. *)
Definition chan_poll_recv (c : chan T) : poll (option T) * chan T :=
  match c_queue c with
  | x :: q => (Ready (Some x), mk_chan q (c_cap c) (c_rx c) (c_tx c))
  | [] => (if decide (c_tx c = 0) then Ready None else Pending, c)
  end.

(** Dropping the receiver closes the channel and drops what it holds. *)
Definition chan_drop_rx (c : chan T) : chan T := mk_chan [] (c_cap c) false (c_tx c).

Definition chan_clone_tx (c : chan T) : chan T :=
  mk_chan (c_queue c) (c_cap c) (c_rx c) (S (c_tx c)).
Definition chan_drop_tx (c : chan T) : chan T :=
  mk_chan (c_queue c) (c_cap c) (c_rx c) (pred (c_tx c)).

(** [WeakSender::upgrade]: a new strong sender iff one is still alive. *)
Definition chan_upgrade (c : chan T) : option (chan T) :=
  if decide (c_tx c = 0) then None else Some (chan_clone_tx c).

(** Closed for the senders without a receiver, for the receiver also without a
    sender. *)
Definition chan_tx_is_closed (c : chan T) : bool := negb (c_rx c).
Definition chan_rx_is_closed (c : chan T) : bool := negb (c_rx c) || bool_decide (c_tx c = 0).

Lemma chan_drop_clone_tx c : chan_drop_tx (chan_clone_tx c) = c.
Proof. by destruct c. Qed.

Lemma chan_drop_clone_push x c :
  chan_drop_tx (chan_push x (chan_clone_tx c)) = chan_push x c.
Proof. by destruct c. Qed.

End Chan.

(** ** The parameter *)

Class Mpsc : Type := {
  mpsc : Type -> Type;
  mpsc_channel : forall {T}, nat -> mpsc T;
  mpsc_try_send : forall {T}, T -> mpsc T -> result () TrySendError * mpsc T;
  mpsc_poll_send : forall {T}, T -> mpsc T -> poll (result () ()) * mpsc T;
  mpsc_poll_recv : forall {T}, mpsc T -> poll (option T) * mpsc T;
  mpsc_drop_rx : forall {T}, mpsc T -> mpsc T;
  mpsc_clone_tx : forall {T}, mpsc T -> mpsc T;
  mpsc_drop_tx : forall {T}, mpsc T -> mpsc T;
  mpsc_upgrade : forall {T}, mpsc T -> option (mpsc T);
  mpsc_len : forall {T}, mpsc T -> nat;
  (** [Sender::is_closed], [Receiver::is_closed] *)
  mpsc_tx_is_closed : forall {T}, mpsc T -> bool;
  mpsc_rx_is_closed : forall {T}, mpsc T -> bool
}.

Class MpscLaws `{Mpsc} : Type := {
  mpsc_view : forall {T}, mpsc T -> chan T;
  view_channel : forall T n, mpsc_view (mpsc_channel (T:=T) n) = chan_new n;
  view_try_send : forall T (x : T) c, prod_map id mpsc_view (mpsc_try_send x c)
    = chan_try_send x (mpsc_view c);
  view_poll_send : forall T (x : T) c, prod_map id mpsc_view (mpsc_poll_send x c)
    = chan_poll_send x (mpsc_view c);
  view_poll_recv : forall T (c : mpsc T), prod_map id mpsc_view (mpsc_poll_recv c)
    = chan_poll_recv (mpsc_view c);
  view_drop_rx : forall T (c : mpsc T), mpsc_view (mpsc_drop_rx c) = chan_drop_rx (mpsc_view c);
  view_clone_tx : forall T (c : mpsc T), mpsc_view (mpsc_clone_tx c) = chan_clone_tx (mpsc_view c);
  view_drop_tx : forall T (c : mpsc T), mpsc_view (mpsc_drop_tx c) = chan_drop_tx (mpsc_view c);
  view_upgrade : forall T (c : mpsc T), mpsc_view <$> mpsc_upgrade c = chan_upgrade (mpsc_view c);
  view_len : forall T (c : mpsc T), mpsc_len c = length (c_queue (mpsc_view c));
  view_tx_is_closed : forall T (c : mpsc T), mpsc_tx_is_closed c = chan_tx_is_closed (mpsc_view c);
  view_rx_is_closed : forall T (c : mpsc T), mpsc_rx_is_closed c = chan_rx_is_closed (mpsc_view c)
}.

(** The documented behaviour is itself an implementation. *)
Definition fifo_mpsc : Mpsc := {|
  mpsc := chan;
  mpsc_channel := @chan_new;
  mpsc_try_send := @chan_try_send;
  mpsc_poll_send := @chan_poll_send;
  mpsc_poll_recv := @chan_poll_recv;
  mpsc_drop_rx := @chan_drop_rx;
  mpsc_clone_tx := @chan_clone_tx;
  mpsc_drop_tx := @chan_drop_tx;
  mpsc_upgrade := @chan_upgrade;
  mpsc_len := fun T c => length (c_queue c);
  mpsc_tx_is_closed := @chan_tx_is_closed;
  mpsc_rx_is_closed := @chan_rx_is_closed
|}.

Definition fifo_mpsc_laws : @MpscLaws fifo_mpsc.
Proof.
  refine {| mpsc_view := fun (T : Type) (c : @mpsc fifo_mpsc T) => (c : chan T) |};
    intros; cbn; try done.
  - by destruct (chan_try_send x c).
  - by destruct (chan_poll_send x c).
  - by destruct (chan_poll_recv c).
  - by destruct (chan_upgrade c).
Defined.

(** ** Reading the laws at one outcome *)

Section MpscFacts.
Context `{MpscLaws} {T : Type}.

Lemma mpsc_try_send_view (x : T) c r c' :
  mpsc_try_send x c = (r, c') -> chan_try_send x (mpsc_view c) = (r, mpsc_view c').
Proof. intros E. rewrite <- view_try_send, E. done. Qed.

Lemma mpsc_poll_send_view (x : T) c r c' :
  mpsc_poll_send x c = (r, c') -> chan_poll_send x (mpsc_view c) = (r, mpsc_view c').
Proof. intros E. rewrite <- view_poll_send, E. done. Qed.

Lemma mpsc_poll_recv_view (c : mpsc T) r c' :
  mpsc_poll_recv c = (r, c') -> chan_poll_recv (mpsc_view c) = (r, mpsc_view c').
Proof. intros E. rewrite <- view_poll_recv, E. done. Qed.

Lemma mpsc_upgrade_view (c : mpsc T) o :
  mpsc_upgrade c = o -> mpsc_view <$> o = chan_upgrade (mpsc_view c).
Proof. intros <-. apply view_upgrade. Qed.

(** What the operations do to the queue and the receiver flag alone. *)

Lemma mpsc_try_send_queue (x : T) c r c' : mpsc_try_send x c = (r, c') ->
  c_queue (mpsc_view c') = c_queue (mpsc_view c) ++ (if is_ok r then [x] else []) /\
  c_rx (mpsc_view c') = c_rx (mpsc_view c) /\ (is_ok r = true -> c_rx (mpsc_view c) = true).
Proof.
  intros E%mpsc_try_send_view. unfold chan_try_send in E.
  destruct (c_rx (mpsc_view c)) eqn:Rx; [case_decide|]; injection E as <- <-; simpl;
    rewrite ?app_nil_r; by split_and!.
Qed.

Lemma mpsc_poll_send_queue (x : T) c p c' : mpsc_poll_send x c = (p, c') ->
  c_queue (mpsc_view c') = c_queue (mpsc_view c) ++
    match p with Ready (Ok _) => [x] | _ => [] end.
Proof.
  intros E%mpsc_poll_send_view. unfold chan_poll_send in E.
  destruct (c_rx (mpsc_view c)); [case_decide|]; injection E as <- <-; simpl; by rewrite ?app_nil_r.
Qed.

Lemma mpsc_poll_recv_queue (c : mpsc T) p c' : mpsc_poll_recv c = (p, c') ->
  c_queue (mpsc_view c) = option_list (yielded p) ++ c_queue (mpsc_view c') /\
  c_rx (mpsc_view c') = c_rx (mpsc_view c).
Proof.
  intros E%mpsc_poll_recv_view. unfold chan_poll_recv in E.
  destruct (c_queue (mpsc_view c)) as [|x q] eqn:Q; injection E as <- <-; simpl; [|done].
  by case_decide.
Qed.

End MpscFacts.
