(* ===== verification/Dispatch.v ===== *)
(** * Dispatch interconnect

    Models [rc-x509-client/src/dispatch.rs]: the request queue from the
    connection to the host, the response queue back, the publisher that reports
    its own failures on the response queue, and the wire codes of dispatch
    errors.  The state is the pair of channels, next to whatever else the tasks
    share ([sh_rest]); [yield] is what the other tasks and threads do to it while
    this one is suspended, an argument of every operation that waits. *)

From stdpp Require Import base option list strings.
From Stdlib Require Import ZArith NArith Lia.
From S2P Require Import Prelude Codec Mpsc.

Definition DISPATCH_QUEUE_LEN : nat := 255.

Record Dispatch : Type := mk_dispatch { d_correlation_id : CorrelationId; d_payload : Payload }.

#[export] Instance Dispatch_eq_dec : EqDecision Dispatch.
Proof. solve_decision. Defined.

Section Dispatch.
Context `{ProtoTypes}.

Inductive DispatchError : Type :=
| UnknownPayload
| NoDispatchHandler
| HandlerQueueFull
| DispatchRequestQueueFull
| DispatchClosed
| ReplyDeserialisation (e : DecodeError)
| UnknownHostDispatchError
| HandlerExecTimeout.

Record DispatchResult : Type := mk_dispatch_result {
  dr_correlation_id : CorrelationId;
  dr_result : result DispatchResponsePayload DispatchError
}.

(** [v1::dispatch_response::DispatchError], as generated. *)
Inductive V1DispatchError : Type :=
| V1_Unspecified
| V1_UnknownPayload
| V1_NoDispatchHandler
| V1_HandlerQueueFull
| V1_ClientReturnedUnknown
| V1_DispatchQueueFull
| V1_Closed
| V1_ReplyDeserialisation
| V1_HandlerExecTimeout.

(** [as i32]: the numbers of the [.proto] file. *)
Definition V1DispatchError_code (e : V1DispatchError) : Z :=
  match e with
  | V1_Unspecified => 0
  | V1_UnknownPayload => 1
  | V1_NoDispatchHandler => 2
  | V1_HandlerQueueFull => 3
  | V1_ClientReturnedUnknown => 4
  | V1_DispatchQueueFull => 5
  | V1_Closed => 6
  | V1_ReplyDeserialisation => 7
  | V1_HandlerExecTimeout => 8
  end.

(** [From<DispatchError> for v1::dispatch_response::DispatchError]. *)
Definition DispatchError_into_v1 (value : DispatchError) : V1DispatchError :=
  match value with
  | UnknownPayload => V1_UnknownPayload
  | NoDispatchHandler => V1_NoDispatchHandler
  | HandlerQueueFull => V1_HandlerQueueFull
  | DispatchRequestQueueFull => V1_DispatchQueueFull
  | DispatchClosed => V1_Closed
  | ReplyDeserialisation _ => V1_ReplyDeserialisation
  | UnknownHostDispatchError => V1_ClientReturnedUnknown
  | HandlerExecTimeout => V1_HandlerExecTimeout
  end.

(** ** The interconnect *)

Context `{Mpsc}.

Record Shared (H : Type) : Type := mk_shared {
  sh_req : mpsc Dispatch;
  sh_resp : mpsc DispatchResult;
  sh_rest : H
}.
Arguments mk_shared {H} sh_req sh_resp sh_rest.
Arguments sh_req {H} s.
Arguments sh_resp {H} s.
Arguments sh_rest {H} s.

Definition set_req {H} (c : mpsc Dispatch) (s : Shared H) : Shared H :=
  mk_shared c (sh_resp s) (sh_rest s).
Definition set_resp {H} (c : mpsc DispatchResult) (s : Shared H) : Shared H :=
  mk_shared (sh_req s) c (sh_rest s).

(** The ends of the two channels that the three handles hold. *)
Inductive RequestSender : Type := request_tx.
Inductive RequestReceiver : Type := request_rx.
Inductive ResponseSender : Type := response_tx.
Inductive ResponseReceiver : Type := response_rx.
Inductive ResponseWeakSender : Type := response_weak.

Record DispatchPublisher : Type := mk_publisher {
  dp_tx : RequestSender;
  dp_rx : option ResponseReceiver;
  dp_errors : ResponseWeakSender
}.
Record DispatchStream : Type := mk_stream { ds_rx : RequestReceiver }.
Record DispatchResponder : Type := mk_responder { drs_tx : ResponseSender }.
Inductive DispatchResponseQueueClosed : Type := mk_response_queue_closed.

(** [new_dispatcher_interconnect]. *)
Definition new_dispatcher_interconnect {H} (rest : H) :
  (DispatchPublisher * DispatchStream * DispatchResponder) * Shared H :=
  ((mk_publisher request_tx (Some response_rx) response_weak,
    mk_stream request_rx, mk_responder response_tx),
   mk_shared (mpsc_channel DISPATCH_QUEUE_LEN) (mpsc_channel (DISPATCH_QUEUE_LEN + 1)) rest).

(** [take_recv_stream]: the receiver, the first time. *)
Definition DispatchPublisher_take_recv_stream (self : DispatchPublisher) :
  option ResponseReceiver * DispatchPublisher :=
  (dp_rx self, mk_publisher (dp_tx self) None (dp_errors self)).

Section Waiting.
Context {E : Type} (yield : Shared E -> Shared E).

(** [tx.send(x).await] on the response channel, polled at most [fuel] times. *)
Fixpoint resp_send (fuel : nat) (x : DispatchResult) : prog (Shared E) (result () ()) :=
  fun s =>
  match fuel with
  | 0 => Blocked s
  | S fuel =>
      let '(p, c) := mpsc_poll_send x (sh_resp s) in
      match p with
      | Ready r => Done r (set_resp c s)
      | Pending => resp_send fuel x (yield (set_resp c s))
      end
  end.

(** [self.tx.try_send(payload)]. *)
Definition req_try_send (_tx : RequestSender) (d : Dispatch) :
  prog (Shared E) (result () TrySendError) := fun s =>
  let '(r, c) := mpsc_try_send d (sh_req s) in Done r (set_req c s).

(** [self.errors.upgrade()]. *)
Definition resp_upgrade (_weak : ResponseWeakSender) :
  prog (Shared E) (option ResponseSender) := fun s =>
  match mpsc_upgrade (sh_resp s) with
  | Some c => Done (Some response_tx) (set_resp c s)
  | None => Done None s
  end.

(** Going out of scope of the upgraded sender. *)
Definition resp_drop_tx (_tx : ResponseSender) : prog (Shared E) () :=
  modify (fun s => set_resp (mpsc_drop_tx (sh_resp s)) s).

(** [DispatchPublisher::dispatch]. *)
Definition DispatchPublisher_dispatch (fuel : nat) (self : DispatchPublisher)
  (payload : Dispatch) : prog (Shared E) (result () DispatchError) :=
  let correlation_id := d_correlation_id payload in
  sent ← req_try_send (dp_tx self) payload;
  match sent with
  | Ok _ => mret (Ok tt)
  | Err e =>
      let err := match e with
                 | TrySend_Closed => DispatchClosed
                 | TrySend_Full => DispatchRequestQueueFull
                 end in
      up ← resp_upgrade (dp_errors self);
      match up with
      | Some tx =>
          _ ← resp_send fuel (mk_dispatch_result correlation_id (Err err));
          resp_drop_tx tx ;;
          mret (Err err)
      | None => mret (Err err)
      end
  end.

(** [DispatchStream::poll_next]. *)
Definition DispatchStream_poll_next (self : DispatchStream) :
  prog (Shared E) (poll (option Dispatch)) := fun s =>
  let '(p, c) := mpsc_poll_recv (sh_req s) in Done p (set_req c s).

(** The receiver taken from the publisher, polled as a stream. *)
Definition response_poll_next (_rx : ResponseReceiver) :
  prog (Shared E) (poll (option DispatchResult)) := fun s =>
  let '(p, c) := mpsc_poll_recv (sh_resp s) in Done p (set_resp c s).

(** [DispatchResponder::send_response]. *)
Definition DispatchResponder_send_response (fuel : nat) (self : DispatchResponder)
  (payload : DispatchResult) : prog (Shared E) (result () DispatchResponseQueueClosed) :=
  r ← resp_send fuel payload;
  mret (match r with Ok _ => Ok tt | Err _ => Err mk_response_queue_closed end).

End Waiting.
End Dispatch.

Arguments mk_shared {_ _ H} sh_req sh_resp sh_rest.
Arguments sh_req {_ _ H} s.
Arguments sh_resp {_ _ H} s.
Arguments sh_rest {_ _ H} s.

(** ** Specification *)

Section DispatchSpec.
Context `{ProtoTypes} `{MpscLaws}.

Definition req_view {E} (s : Shared E) : chan Dispatch := mpsc_view (sh_req s).
Definition resp_view {E} (s : Shared E) : chan DispatchResult := mpsc_view (sh_resp s).

(** The request queue takes no more requests. *)
Definition refuses (c : chan Dispatch) : Prop := c_rx c = false \/ chan_full c.

(** Why it refuses. *)
Definition refusal (c : chan Dispatch) : DispatchError :=
  if c_rx c then DispatchRequestQueueFull else DispatchClosed.

(** What a publication does to the two queues; [None] when it has to wait. *)
Definition publish (d : Dispatch) (req : chan Dispatch) (resp : chan DispatchResult) :
  option (result () DispatchError * (chan Dispatch * chan DispatchResult)) :=
  if decide (refuses req) then
    let err := refusal req in
    if decide (c_tx resp = 0) then Some (Err err, (req, resp))
    else if c_rx resp then
      if decide (chan_full resp) then None
      else Some (Err err,
        (req, chan_push (mk_dispatch_result (d_correlation_id d) (Err err)) resp))
    else Some (Err err, (req, resp))
  else Some (Ok tt, (chan_push d req, resp)).

(** Nobody else receives from the response channel, or drops its receiver. *)
Definition only_reader {E} (yield : Shared E -> Shared E) : Prop := forall s,
  c_rx (resp_view (yield s)) = c_rx (resp_view s) /\
  c_cap (resp_view (yield s)) = c_cap (resp_view s) /\
  length (c_queue (resp_view s)) <= length (c_queue (resp_view (yield s))).

Lemma req_try_send_refused {E} tx d (s : Shared E) :
  refuses (req_view s) ->
  exists s', req_try_send tx d s =
    Done (Err (if c_rx (req_view s) then TrySend_Full else TrySend_Closed)) s' /\
    req_view s' = req_view s /\ sh_resp s' = sh_resp s /\ sh_rest s' = sh_rest s.
Proof.
  intros R. unfold req_try_send. destruct (mpsc_try_send d (sh_req s)) as [r c] eqn:T.
  apply mpsc_try_send_view in T. unfold chan_try_send in T. fold (req_view s) in T.
  destruct (c_rx (req_view s)) eqn:X; [rewrite decide_True in T by (destruct R; [congruence|done])|];
    simplify_eq; eexists; (split; [reflexivity|]); by split_and!.
Qed.

Lemma req_try_send_accepted {E} tx d (s : Shared E) :
  ~ refuses (req_view s) ->
  exists s', req_try_send tx d s = Done (Ok tt) s' /\
    req_view s' = chan_push d (req_view s) /\ sh_resp s' = sh_resp s /\ sh_rest s' = sh_rest s.
Proof.
  intros R. unfold req_try_send. destruct (mpsc_try_send d (sh_req s)) as [r c] eqn:T.
  apply mpsc_try_send_view in T. unfold chan_try_send in T. fold (req_view s) in T.
  destruct (c_rx (req_view s)) eqn:X; [|by destruct R; left].
  rewrite decide_False in T by (intros Hf; apply R; by right). simplify_eq.
  eexists. split; [reflexivity|]. by split_and!.
Qed.

Lemma resp_upgrade_spec {E} weak (s : Shared E) :
  exists s', resp_upgrade weak s =
    Done (if decide (c_tx (resp_view s) = 0) then None else Some response_tx) s' /\
    sh_req s' = sh_req s /\ sh_rest s' = sh_rest s /\
    resp_view s' = if decide (c_tx (resp_view s) = 0) then resp_view s
                   else chan_clone_tx (resp_view s).
Proof.
  unfold resp_upgrade. destruct (mpsc_upgrade (sh_resp s)) as [c|] eqn:U;
    apply mpsc_upgrade_view in U; unfold chan_upgrade in U; fold (resp_view s) in U;
    case_decide; simplify_eq/=; eexists; (split; [reflexivity|]); by split_and!.
Qed.

Lemma resp_send_ready {E} yield fuel x (s : Shared E) r v' :
  chan_poll_send x (resp_view s) = (Ready r, v') ->
  exists s', resp_send yield (S fuel) x s = Done r s' /\
    sh_req s' = sh_req s /\ sh_rest s' = sh_rest s /\ resp_view s' = v'.
Proof.
  intros P. simpl. destruct (mpsc_poll_send x (sh_resp s)) as [p c] eqn:Q.
  apply mpsc_poll_send_view in Q. fold (resp_view s) in Q. rewrite P in Q. simplify_eq.
  eexists. split; [reflexivity|]. by split_and!.
Qed.

(** While nobody drains a full response channel, sending on it does not return. *)
Lemma resp_send_stuck {E} (yield : Shared E -> Shared E) fuel x s :
  only_reader yield -> c_rx (resp_view s) = true -> chan_full (resp_view s) ->
  exists s', resp_send yield fuel x s = Blocked s'.
Proof.
  intros Y. revert s. induction fuel as [|fuel IH]; intros s X F; simpl; [by eexists|].
  destruct (mpsc_poll_send x (sh_resp s)) as [p c] eqn:Q.
  apply mpsc_poll_send_view in Q. fold (resp_view s) in Q. unfold chan_poll_send in Q.
  rewrite X, decide_True in Q by done. injection Q as <- Q.
  assert (V : resp_view (set_resp c s) = resp_view s) by done.
  destruct (Y (set_resp c s)) as (Yx & Yc & Yq). rewrite V in Yx, Yc, Yq.
  apply IH; [congruence|]. unfold chan_full in *. lia.
Qed.

(** A refused request, up to the point where the error is sent. *)
Lemma dispatch_refused {E} yield fuel pub d (s : Shared E) :
  refuses (req_view s) ->
  let err := refusal (req_view s) in
  exists s2, req_view s2 = req_view s /\ sh_rest s2 = sh_rest s /\
    resp_view s2 = (if decide (c_tx (resp_view s) = 0) then resp_view s
                    else chan_clone_tx (resp_view s)) /\
    DispatchPublisher_dispatch yield fuel pub d s =
      if decide (c_tx (resp_view s) = 0) then Done (Err err) s2
      else (_ ← resp_send yield fuel (mk_dispatch_result (d_correlation_id d) (Err err));
            resp_drop_tx response_tx ;; mret (Err err)) s2.
Proof.
  intros R. unfold DispatchPublisher_dispatch.
  destruct (req_try_send_refused (dp_tx pub) d s R) as (s1 & E1 & Q1 & P1 & T1).
  destruct (resp_upgrade_spec (dp_errors pub) s1) as (s2 & E2 & Q2 & T2 & V2).
  assert (V1 : resp_view s1 = resp_view s) by (unfold resp_view; by rewrite P1).
  rewrite V1 in *. exists s2. split_and!; [|congruence | done |].
  - unfold req_view in *. by rewrite Q2.
  - rewrite (prog_bind_done _ _ _ _ _ E1). simpl.
    rewrite (prog_bind_done _ _ _ _ _ E2). unfold refusal.
    by destruct (c_rx (req_view s)), (decide (c_tx (resp_view s) = 0)).
Qed.

(** What sending an error on an upgraded response channel amounts to. *)
Lemma publish_error_ready x (v : chan DispatchResult) :
  ~ (c_rx v = true /\ chan_full v) ->
  exists r w, chan_poll_send x (chan_clone_tx v) = (Ready r, w) /\
    chan_drop_tx w = if c_rx v then chan_push x v else v.
Proof.
  intros F. unfold chan_poll_send. simpl. destruct (c_rx v) eqn:X.
  - rewrite decide_False by (intros F'; by apply F). do 2 eexists. split; [done|].
    apply chan_drop_clone_push.
  - do 2 eexists. split; [done|]. apply chan_drop_clone_tx.
Qed.

Lemma dispatch_publish {E} yield fuel pub d (s : Shared E) r req' resp' :
  publish d (req_view s) (resp_view s) = Some (r, (req', resp')) ->
  exists s', DispatchPublisher_dispatch yield (S fuel) pub d s = Done r s' /\
    req_view s' = req' /\ resp_view s' = resp' /\ sh_rest s' = sh_rest s.
Proof.
  unfold publish. intros P. case_decide as R.
  2:{ destruct (req_try_send_accepted (dp_tx pub) d s R) as (s1 & E1 & Q1 & P1 & T1).
      unfold DispatchPublisher_dispatch. rewrite (prog_bind_done _ _ _ _ _ E1). simplify_eq.
      exists s1. split_and!; try done. unfold resp_view. by rewrite P1. }
  destruct (dispatch_refused yield (S fuel) pub d s R) as (s2 & Q2 & T2 & V2 & ->).
  case_decide as X; [simplify_eq; by exists s2|].
  destruct (publish_error_ready
    (mk_dispatch_result (d_correlation_id d) (Err (refusal (req_view s)))) (resp_view s))
    as (r0 & w & Hw & Hd).
  { intros [Hx Hf]. rewrite Hx, decide_True in P by done. done. }
  rewrite <- V2 in Hw.
  destruct (resp_send_ready yield fuel _ s2 r0 w Hw) as (s3 & E3 & Q3 & T3 & V3).
  rewrite (prog_bind_done _ _ _ _ _ E3). eexists. split; [|split_and!].
  - unfold mbind, prog_bind. simpl. do 2 f_equal.
    destruct (c_rx (resp_view s)); [case_decide|]; by simplify_eq.
  - unfold req_view in *. simpl. rewrite Q3, Q2.
    destruct (c_rx (resp_view s)); [case_decide|]; by simplify_eq.
  - unfold resp_view in *. simpl. rewrite view_drop_tx, V3, Hd.
    destruct (c_rx (mpsc_view (sh_resp s))); [case_decide|]; by simplify_eq.
  - simpl. congruence.
Qed.

End DispatchSpec.

(** ** Concrete runs *)

(** [n] requests published and at once taken by the host's stream; the number
    of rounds in which both succeeded. *)
Fixpoint rounds `{ProtoTypes} `{Mpsc} (n : nat) : prog (Shared ()) nat :=
  match n with
  | 0 => mret 0
  | S n =>
      r ← DispatchPublisher_dispatch id 1 (mk_publisher request_tx None response_weak)
            (mk_dispatch (CorrelationId_new (N.of_nat n)) (Payload_from []));
      p ← DispatchStream_poll_next (mk_stream request_rx);
      k ← rounds n;
      mret (match r, p with Ok _, Ready (Some _) => S k | _, _ => k end)
  end.

(** One response for each of [n] requests; the number that were queued. *)
Fixpoint answers `{ProtoTypes} `{Mpsc} (n : nat) : prog (Shared ()) nat :=
  match n with
  | 0 => mret 0
  | S n =>
      r ← DispatchResponder_send_response id 1 (mk_responder response_tx)
            (mk_dispatch_result (CorrelationId_new (N.of_nat n)) (Err UnknownPayload));
      k ← answers n;
      mret (match r with Ok _ => S k | Err _ => k end)
  end.

Definition toy_shared : @Shared toy_proto fifo_mpsc () :=
  snd (@new_dispatcher_interconnect toy_proto fifo_mpsc () tt).

Definition toy_dispatch (n : N) : Dispatch := mk_dispatch (CorrelationId_new n) (Payload_from []).
Definition toy_result (n : N) : @DispatchResult toy_proto :=
  @mk_dispatch_result toy_proto (CorrelationId_new n) (Err UnknownPayload).

(** Both queues full, the host still holding its responder. *)
Definition toy_stuck : @Shared toy_proto fifo_mpsc () :=
  @mk_shared toy_proto fifo_mpsc ()
    (mk_chan (replicate 255 (toy_dispatch 0)) 255 true 1)
    (mk_chan (replicate 256 (toy_result 0)) 256 true 1) tt.

(** ** Properties *)

Section DispatchProperties.
Context `{ProtoTypes} `{MpscLaws} {E : Type} (yield : Shared E -> Shared E).

(** C29. Publishing a dispatch request, on every state of the two queues in
    which it does not have to wait: the request is queued, or it is refused for
    the reason given and exactly one error response with its correlation
    identifier is queued, or - when the host has dropped its responder or the
    response stream is gone - no response is. *)
Theorem dispatch_spec fuel pub d s r req' resp'
  (Hp : publish d (req_view s) (resp_view s) = Some (r, (req', resp'))) :
  exists s', DispatchPublisher_dispatch yield (S fuel) pub d s = Done r s' /\
    req_view s' = req' /\ resp_view s' = resp' /\ sh_rest s' = sh_rest s.
Proof. exact (dispatch_publish yield fuel pub d s r req' resp' Hp). Qed.

(** C38. Publishing blocks for ever when the request queue refuses the request,
    the response queue is full, and only the caller receives from it: no number
    of polls completes it. *)
Theorem dispatch_can_deadlock pub d s
  (Hy : only_reader yield) (Hreq : refuses (req_view s))
  (Htx : c_tx (resp_view s) <> 0) (Hrx : c_rx (resp_view s) = true)
  (Hfull : chan_full (resp_view s)) :
  forall fuel, exists s', DispatchPublisher_dispatch yield fuel pub d s = Blocked s'.
Proof.
  intros fuel. destruct (dispatch_refused yield fuel pub d s Hreq) as (s2 & Q2 & T2 & V2 & ->).
  rewrite decide_False in V2 by done. rewrite decide_False by done. unfold mbind, prog_bind.
  destruct (resp_send_stuck yield fuel
    (mk_dispatch_result (d_correlation_id d) (Err (refusal (req_view s)))) s2 Hy) as [s' ->].
  - by rewrite V2.
  - rewrite V2. exact Hfull.
  - by exists s'.
Qed.

(** Dispatch errors on the wire: never the unspecified code, within the
    codes the protocol defines, and distinct for distinct errors except that the
    detail of a deserialisation error is not kept. *)
Lemma dispatch_error_codes (a b : DispatchError) :
  (1 <= V1DispatchError_code (DispatchError_into_v1 a) <= 8)%Z /\
  (V1DispatchError_code (DispatchError_into_v1 a) = V1DispatchError_code (DispatchError_into_v1 b)
   <-> a = b \/ exists d e, a = ReplyDeserialisation d /\ b = ReplyDeserialisation e).
Proof.
  split; [destruct a; simpl; lia|]. split.
  - destruct a, b; simpl; intros ?; try discriminate; eauto.
  - intros [-> | (d & e & -> & ->)]; done.
Qed.

End DispatchProperties.

(** C40. The response queue can be full although every request gets exactly one
    response: 257 requests are taken by the host's stream before any response
    is, 256 responses are queued, and the response to the last waits for ever
    unless the queue is drained. *)
Theorem reply_queue_can_fill :
  exists s s', @rounds toy_proto fifo_mpsc 257 toy_shared = Done 257 s /\
    @answers toy_proto fifo_mpsc 256 s = Done 256 s' /\
    forall fuel, exists s'', @DispatchResponder_send_response toy_proto fifo_mpsc () id fuel
      (mk_responder response_tx) (toy_result 256) s' = Blocked s''.
Proof.
  do 2 eexists. split; [vm_compute; reflexivity|]. split; [vm_compute; reflexivity|].
  intros fuel. unfold DispatchResponder_send_response, mbind, prog_bind.
  edestruct (@resp_send_stuck toy_proto fifo_mpsc fifo_mpsc_laws () id fuel (toy_result 256))
    as [s'' E].
  4:{ rewrite E. by exists s''. }
  - done.
  - reflexivity.
  - vm_compute. lia.
Qed.

(** *** Witnesses *)

Lemma dispatch_spec_witness :
  exists s', @DispatchPublisher_dispatch toy_proto fifo_mpsc () id 1
      (mk_publisher request_tx None response_weak) (toy_dispatch 7) toy_shared = Done (Ok tt) s' /\
    c_queue (@req_view toy_proto fifo_mpsc fifo_mpsc_laws () s') = [toy_dispatch 7].
Proof.
  destruct (@dispatch_spec toy_proto fifo_mpsc fifo_mpsc_laws () id 0
    (mk_publisher request_tx None response_weak) (toy_dispatch 7) toy_shared (Ok tt)
    (mk_chan [toy_dispatch 7] 255 true 1) (mk_chan [] 256 true 1)) as (s' & E & R & _);
    [reflexivity|].
  exists s'. split; [exact E | rewrite R; reflexivity].
Defined.

Lemma dispatch_can_deadlock_witness :
  exists s', @DispatchPublisher_dispatch toy_proto fifo_mpsc () id 300
    (mk_publisher request_tx None response_weak) (toy_dispatch 7) toy_stuck = Blocked s'.
Proof.
  apply (@dispatch_can_deadlock toy_proto fifo_mpsc fifo_mpsc_laws () id).
  - intros s. split_and!; done.
  - right. vm_compute. lia.
  - discriminate.
  - reflexivity.
  - vm_compute. lia.
Defined.
