(* ===== verification/Runtime.v ===== *)
(** * What a connection needs of its environment

    The interface between the message-processing code of a connection and
    everything around it: the I/O broker ([SendToServer], handler/traits.rs and
    host_runtime/api.rs), the cancellation token and the timer of the async
    runtime, the dispatch publisher, the random generator and the shared
    [InstanceMetrics] (metrics.rs).  [ConnEnv] has the operations, [ConnEnvLaws]
    what is promised of them in terms of two logs: the messages accepted for
    sending and the dispatch requests accepted for the host.  On top of it,
    [retry_send] (handler/delegate/retry.rs) and [build_hello]
    (handler/hello.rs). *)

From stdpp Require Import base option list strings.
From Stdlib Require Import Strings.Byte NArith Lia.
From S2P Require Import Prelude ConnectionId Codec Mpsc Dispatch.

Inductive ConnectionErr : Type :=
| ConnectionErr_Unknown
| ConnectionErr_Closed
| ConnectionErr_QueueFull.

(** ** Metrics *)

Record InstanceMetrics : Type := mk_metrics {
  im_version : BuildVersion;
  im_graceful_disconnect : GracefulDisconnectionCount;
  im_ungraceful_disconnect : UngracefulDisconnectionCount;
  im_last_conn_duration : N
}.

(** [Duration::from_secs], in nanoseconds. *)
Definition from_secs (s : N) : N := s * 1000000000.

Definition InstanceMetrics_last_conn_duration (m : InstanceMetrics) : LastConnectedDuration :=
  LastConnected_new (from_secs (im_last_conn_duration m)).

Definition InstanceMetrics_set_last_conn_duration (nanos : N) (m : InstanceMetrics) :
  InstanceMetrics :=
  mk_metrics (im_version m) (im_graceful_disconnect m) (im_ungraceful_disconnect m)
    (nanos / 1000000000).

Definition InstanceMetrics_default (version : BuildVersion) : InstanceMetrics :=
  mk_metrics version (Graceful_new 0) (Ungraceful_new 0) 0.

(** ** The environment *)

Class ConnEnv `{ProtoTypes} (W : Type) : Type := {
  CancellationToken : Type;
  MetricsRef : Type;
  (** [reply.send(m).await] *)
  env_send : ClientToServer -> prog W (result () ConnectionErr);
  (** [select! { biased; _ = stop.cancelled() => true,
                 _ = sleep(1s) => false }] *)
  env_stop_or_sleep : CancellationToken -> prog W bool;
  (** [publisher.dispatch(d).await] *)
  env_dispatch : DispatchPublisher -> Dispatch -> prog W (result () DispatchError);
  env_rng :: Rng W;
  env_metrics : MetricsRef -> W -> InstanceMetrics
}.

(** What the operations leave in the logs, however they end. *)
Class ConnEnvLaws `{ProtoTypes} (W : Type) `{!ConnEnv W} : Type := {
  sent : W -> list ClientToServer;
  queued : W -> list Dispatch;
  send_log : forall m w, match env_send m w with
    | Done (Ok _) w' => sent w' = sent w ++ [m] /\ queued w' = queued w
    | Done (Err _) w' | Panic w' | Blocked w' => sent w' = sent w /\ queued w' = queued w
    end;
  stop_log : forall tok w, sent (final (env_stop_or_sleep tok w)) = sent w /\
    queued (final (env_stop_or_sleep tok w)) = queued w;
  dispatch_log : forall p d w, match env_dispatch p d w with
    | Done (Ok _) w' => sent w' = sent w /\ queued w' = queued w ++ [d]
    | Done (Err _) w' | Panic w' | Blocked w' => sent w' = sent w /\ queued w' = queued w
    end;
  dispatch_no_panic : forall p d w w', env_dispatch p d w <> Panic w';
  rng_log : forall n w, sent (snd (rand_fill n w)) = sent w /\
    queued (snd (rand_fill n w)) = queued w;
  rng_length : forall n w bs, fst (rand_fill n w) = Some bs -> length bs = n
}.

(** The scheduling side: sends complete, a cancelled token stays cancelled and
    is seen before the timer, and the timer needs a runtime that has one. *)
Class ConnEnvSched `{ProtoTypes} (W : Type) `{!ConnEnv W} : Type := {
  env_stopped : CancellationToken -> W -> bool;
  env_timers : W -> bool;
  send_returns : forall m w, exists r w', env_send m w = Done r w' /\
    env_timers w' = env_timers w /\
    forall tok, env_stopped tok w = true -> env_stopped tok w' = true;
  select_stopped : forall tok w, env_timers w = true -> env_stopped tok w = true ->
    env_stop_or_sleep tok w = Done true w;
  select_no_timers : forall tok w, env_timers w = false -> env_stop_or_sleep tok w = Panic w
}.

Section Retry.
Context `{ProtoTypes} {W : Type} `{!ConnEnv W}.

(** [retry_send], at most [fuel] attempts. *)
Fixpoint retry_send (fuel : nat) (value : ClientToServer) (stop : CancellationToken) :
  prog W () :=
  match fuel with
  | 0 => fun w => Blocked w
  | S fuel =>
      r ← env_send value;
      match r with
      | Ok _ => mret tt
      | Err ConnectionErr_Closed => mret tt
      | Err ConnectionErr_Unknown | Err ConnectionErr_QueueFull =>
          stopped ← env_stop_or_sleep stop;
          if (stopped : bool) then mret tt else retry_send fuel value stop
      end
  end.

(** [build_hello]. *)
Definition build_hello (app_info : AppInfo) (metrics : MetricsRef) :
  prog W (IdNonce * ClientToServer) :=
  nonce ← IdNonce_default;
  m ← gets (env_metrics metrics);
  mret (nonce, Hello (mk_client_hello (IdNonce_as_bytes nonce)
    (im_graceful_disconnect m) (im_ungraceful_disconnect m)
    (InstanceMetrics_last_conn_duration m) None (im_version m)
    (AppInfo_name app_info) (AppInfo_version app_info))).

(** ** Lemmas *)

Context `{!ConnEnvLaws W}.

(** A run that may have appended one message, and queued no request; only a
    completed run appends. *)
Definition sends_at_most {A} (v : ClientToServer) (w : W) (e : exec W A) : Prop :=
  queued (final e) = queued w /\
  (sent (final e) = sent w \/ (completed e = true /\ sent (final e) = sent w ++ [v])).

Lemma retry_send_at_most fuel v stop w : sends_at_most v w (retry_send fuel v stop w).
Proof.
  revert w. induction fuel as [|fuel IH]; intros w; [by split; auto|].
  pose proof (send_log v w) as L. simpl. unfold mbind, prog_bind.
  destruct (env_send v w) as [[[]|e] w1|w1|w1]; simpl; [|destruct L as [L1 L2]..].
  - destruct L as [L1 L2]. split; simpl; auto.
  - destruct e; [| by split; simpl; auto |].
    all: destruct (stop_log stop w1) as [S1 S2];
      destruct (env_stop_or_sleep stop w1) as [[] w2|w2|w2]; simpl in *;
      try (split; simpl; [congruence | left; congruence]).
    all: destruct (IH w2) as [Q [S|[C S]]]; split; try congruence;
      [left|right; split; [done|]]; congruence.
  - by split; auto.
  - by split; auto.
Qed.

Lemma IdNonce_default_log w :
  sent (final (IdNonce_default w)) = sent w /\ queued (final (IdNonce_default w)) = queued w.
Proof.
  unfold IdNonce_default. pose proof (rng_log 16 w) as L.
  destruct (rand_fill 16 w) as [[bs|] w']; simpl in *; [by case_decide | done].
Qed.

Lemma IdNonce_default_wf w n w' : IdNonce_default w = Done n w' -> nonce_wf n.
Proof.
  unfold IdNonce_default. pose proof (rng_length 16 w) as L.
  destruct (rand_fill 16 w) as [[bs|] w1]; simpl in *; [|done].
  case_decide; intros; simplify_eq. by apply L.
Qed.

Lemma IdNonce_default_drawn w n w' : IdNonce_default w = Done n w' ->
  rand_fill 16 w = (Some (IdNonce_as_bytes n), w').
Proof.
  unfold IdNonce_default. destruct (rand_fill 16 w) as [[bs|] w1]; [|done]. case_decide; [done|].
  by intros [= <- <-].
Qed.

End Retry.

(** ** A scripted environment for concrete evaluation

    Sends fail as the script says and then succeed; the token and the timer are
    flags; the generator repeats one byte. *)
Record toy_world : Type := mk_toy {
  tw_script : list ConnectionErr;
  tw_sent : list (@ClientToServer toy_proto);
  tw_queued : list Dispatch;
  tw_stopped : bool;
  tw_timers : bool;
  tw_seed : u8
}.

Definition toy_version : BuildVersion := mk_build_version None 1 2 3 None.

#[export] Instance toy_env : @ConnEnv toy_proto toy_world := {|
  CancellationToken := unit;
  MetricsRef := unit;
  env_send m w := match tw_script w with
    | e :: es =>
        Done (Err e) (mk_toy es (tw_sent w) (tw_queued w) (tw_stopped w) (tw_timers w) (tw_seed w))
    | [] => Done (Ok tt)
        (mk_toy [] (tw_sent w ++ [m]) (tw_queued w) (tw_stopped w) (tw_timers w) (tw_seed w))
    end;
  env_stop_or_sleep _ w := if tw_timers w then Done (tw_stopped w) w else Panic w;
  env_dispatch _ d w := Done (Ok tt)
    (mk_toy (tw_script w) (tw_sent w) (tw_queued w ++ [d]) (tw_stopped w) (tw_timers w) (tw_seed w));
  env_rng n w := (Some (replicate n (tw_seed w)), w);
  env_metrics _ _ := InstanceMetrics_default toy_version
|}.

#[export] Instance toy_env_laws : @ConnEnvLaws toy_proto toy_world toy_env.
Proof.
  refine {| sent := tw_sent; queued := tw_queued |}.
  - intros m [[|e es] ? ? ? ? ?]; done.
  - intros [] [? ? ? ? [] ?]; done.
  - intros p d []; done.
  - done.
  - done.
  - intros n w bs [= <-]. apply length_replicate.
Defined.

#[export] Instance toy_env_sched : @ConnEnvSched toy_proto toy_world toy_env.
Proof.
  refine {| env_stopped := fun _ => tw_stopped; env_timers := tw_timers |}.
  - intros m [[|e es] ? ? ? ? ?]; simpl; by do 2 eexists.
  - intros [] [? ? ? ? [] ?]; simpl; congruence.
  - intros [] [? ? ? ? [] ?]; simpl; congruence.
Defined.

(** Nothing sent or queued yet, a running token, a working timer. *)
Definition toy_start (script : list ConnectionErr) : toy_world := mk_toy script [] [] false true x05.

(** ** Properties *)

Section RetryProperties.
Context `{ProtoTypes} {W : Type} `{!ConnEnv W}.

(** Sending with retries, whatever the broker and the timer answer: the
    message is accepted at most once, only by a run that completes, and nothing
    else is sent or dispatched; once the connection is cancelled, one attempt
    is the last and the call returns. *)
Lemma retry_send_spec `{!ConnEnvLaws W} `{!ConnEnvSched W} fuel v stop w :
  sends_at_most v w (retry_send fuel v stop w) /\
  (env_timers w = true -> env_stopped stop w = true -> fuel <> 0 ->
   completed (retry_send fuel v stop w) = true).
Proof.
  split; [apply retry_send_at_most|]. intros T S. destruct fuel as [|fuel]; [done|]. intros _. simpl.
  destruct (send_returns v w) as (r & w1 & E & T1 & S1).
  rewrite (prog_bind_done _ _ _ _ _ E). destruct r as [[]|[]]; try done;
    by rewrite (prog_bind_done _ _ _ _ _
      (select_stopped stop w1 (eq_trans T1 T) (S1 stop S))).
Qed.

(** On a runtime built without a timer, the first attempt that has to be
    retried panics: the message is not sent and the call does not return, even
    if the connection has already been cancelled. *)
Lemma retry_send_needs_timer `{!ConnEnvLaws W} `{!ConnEnvSched W} fuel v stop w e w1
  (T : env_timers w = false) (E : env_send v w = Done (Err e) w1)
  (R : e <> ConnectionErr_Closed) :
  retry_send (S fuel) v stop w = Panic w1 /\ sent w1 = sent w.
Proof.
  split.
  - simpl. rewrite (prog_bind_done _ _ _ _ _ E).
    destruct (send_returns v w) as (r & w1' & E' & T1 & _). rewrite E in E'. simplify_eq.
    assert (P : env_stop_or_sleep stop w1' = Panic w1') by (apply select_no_timers; congruence).
    unfold mbind, prog_bind. destruct e; [by rewrite P | done | by rewrite P].
  - pose proof (send_log v w) as L. rewrite E in L. by destruct L.
Qed.

End RetryProperties.

(** *** Witnesses *)

Lemma retry_send_spec_witness :
  tw_sent (final (@retry_send toy_proto _ toy_env 3 Pong tt
    (toy_start [ConnectionErr_QueueFull; ConnectionErr_Unknown]))) = [Pong] /\
  @completed toy_world () (@retry_send toy_proto _ toy_env 1 Pong tt
    (mk_toy [ConnectionErr_QueueFull] [] [] true true x05)) = true.
Proof.
  split; [reflexivity|].
  apply (@retry_send_spec toy_proto _ toy_env toy_env_laws toy_env_sched 1 Pong tt
    (mk_toy [ConnectionErr_QueueFull] [] [] true true x05)); [reflexivity | reflexivity | done].
Defined.

Lemma retry_send_needs_timer_witness :
  exists w1, @retry_send toy_proto _ toy_env 5 Pong tt
    (mk_toy [ConnectionErr_QueueFull] [] [] true false x05) = Panic w1 /\ tw_sent w1 = [].
Proof.
  eexists.
  apply (@retry_send_needs_timer toy_proto _ toy_env toy_env_laws toy_env_sched 4 Pong tt
    (mk_toy [ConnectionErr_QueueFull] [] [] true false x05) ConnectionErr_QueueFull);
    [reflexivity | reflexivity | discriminate].
Defined.
