(* ===== verification/Fsm.v ===== *)
(** * The protocol state machine of a connection

    Models [rc-x509-client/src/connection/handler/delegate/]: the phases
    (fsm/pre_handshake.rs, fsm/handshaking.rs, fsm/active.rs, fsm/error.rs), the
    typestate container ([Fsm], fsm/fsm.rs), the dispatch over phases
    ([State], state.rs) and [MessageDelegate] (message_delegate.rs), against the
    environment interface of [Runtime].  The specification is a reaction table
    ([reaction]); the theorems relate whole sessions to it. *)

From stdpp Require Import base option list strings.
From Stdlib Require Import Strings.Byte NArith Lia.
From S2P Require Import Prelude Hex CertId Hash Certificate ConnectionId Codec Mpsc Dispatch Runtime.

Section Fsm.
Context `{ProtoTypes} `{AwsDigest} `{UuidLib}.

(** ** Phases *)

Record PreHandshake : Type := mk_pre_handshake { ph_app_info : AppInfo }.
Record Handshaking : Type := mk_handshaking { hs_nonce : IdNonce }.
Record Active : Type := mk_active { act_connection_id : ConnectionId }.
Inductive ErrorPhase : Type := mk_error_phase.

Definition PreHandshake_IS_HANDSHAKE_COMPLETE : bool := false.
Definition Handshaking_IS_HANDSHAKE_COMPLETE : bool := false.
Definition Active_IS_HANDSHAKE_COMPLETE : bool := true.
Definition Error_IS_HANDSHAKE_COMPLETE : bool := true.

Context {W : Type} `{!ConnEnv W} {V : Type}.

Record Fsm (S : Type) : Type := mk_fsm {
  fsm_metrics : MetricsRef;
  fsm_stop : CancellationToken;
  fsm_dispatch : DispatchPublisher;
  fsm_verifier : V;
  fsm_state : S
}.
Arguments mk_fsm {S} fsm_metrics fsm_stop fsm_dispatch fsm_verifier fsm_state.
Arguments fsm_metrics {S} f.
Arguments fsm_stop {S} f.
Arguments fsm_dispatch {S} f.
Arguments fsm_verifier {S} f.
Arguments fsm_state {S} f.

Inductive State : Type :=
| State_PreHandshake (s : Fsm PreHandshake)
| State_Handshaking (s : Fsm Handshaking)
| State_Active (s : Fsm Active)
| State_Error (s : Fsm ErrorPhase).

(** [Fsm::into_state]. *)
Definition Fsm_into_state {S U} (self : Fsm S) (state : U) : Fsm U :=
  mk_fsm (fsm_metrics self) (fsm_stop self) (fsm_dispatch self) (fsm_verifier self) state.

(** Attempts allowed to each [retry_send]. *)
Variable fuel : nat.

(** [Fsm::protocol_error]. *)
Definition Fsm_protocol_error {S} (self : Fsm S) (is_handshake_complete : bool)
  (reason : ProtocolError) : prog W State :=
  retry_send fuel (ReportProtocolError reason is_handshake_complete) (fsm_stop self) ;;
  mret (State_Error (Fsm_into_state self mk_error_phase)).

(** *** [PreHandshake] *)

Definition PreHandshake_new (metrics : MetricsRef) (stop : CancellationToken)
  (dispatch : DispatchPublisher) (app_info : AppInfo) (verifier : V) : Fsm PreHandshake :=
  mk_fsm metrics stop dispatch verifier (mk_pre_handshake app_info).

Definition PreHandshake_send_hello (self : Fsm PreHandshake) : prog W State :=
  '(nonce, hello) ← build_hello (ph_app_info (fsm_state self)) (fsm_metrics self);
  retry_send fuel hello (fsm_stop self) ;;
  mret (State_Handshaking (Fsm_into_state self (mk_handshaking nonce))).

Definition PreHandshake_process (self : Fsm PreHandshake) (msg : ServerToClient) : prog W State :=
  match msg with
  | Ping => retry_send fuel Pong (fsm_stop self) ;; mret (State_PreHandshake self)
  | CertificatePush _ | SetReconnectionData _ => mret (State_PreHandshake self)
  | ClientHelloAck _ =>
      Fsm_protocol_error self PreHandshake_IS_HANDSHAKE_COMPLETE HandshakeAckBeforeHello
  | ServerDispatch correlation_id _ _ =>
      Fsm_protocol_error self PreHandshake_IS_HANDSHAKE_COMPLETE
        (DispatchBeforeHandshake correlation_id)
  end.

(** *** [Handshaking] *)

(** [unreachable!]. *)
Definition Handshaking_send_hello (self : Fsm Handshaking) : prog W State := panic.

Definition Handshaking_verify (proposed_id : UntrustedConnectionId) (client_nonce : IdNonce) :
  panics (result ConnectionId ConnectionIdInvalid) :=
  UntrustedConnectionId_verify proposed_id client_nonce.

(** The acknowledgement takes the nonce out of the state, leaving a freshly
    generated one behind ([mem::take]). *)
Definition Handshaking_process (self : Fsm Handshaking) (msg : ServerToClient) : prog W State :=
  match msg with
  | Ping => retry_send fuel Pong (fsm_stop self) ;; mret (State_Handshaking self)
  | CertificatePush _ | SetReconnectionData _ => mret (State_Handshaking self)
  | ClientHelloAck proposed_id =>
      let id_nonce := hs_nonce (fsm_state self) in
      placeholder ← IdNonce_default;
      let self := Fsm_into_state self (mk_handshaking placeholder) in
      verified ← of_panics (Handshaking_verify proposed_id id_nonce);
      match verified with
      | Ok connection_id => mret (State_Active (Fsm_into_state self (mk_active connection_id)))
      | Err _ =>
          Fsm_protocol_error self Handshaking_IS_HANDSHAKE_COMPLETE HandshakeConnectionIdRejected
      end
  | ServerDispatch correlation_id _ _ =>
      Fsm_protocol_error self Handshaking_IS_HANDSHAKE_COMPLETE
        (DispatchBeforeHandshake correlation_id)
  end.

(** *** [Active] *)

Definition Active_send_hello (self : Fsm Active) : prog W State := panic.

(** [handle_dispatch]. *)
Definition Active_handle_dispatch (self : Fsm Active) (correlation_id : CorrelationId)
  (payload : Payload) (detached_signature : option DetachedSignature) : prog W State :=
  match detached_signature with
  | Some (mk_detached cert_id ((_ :: _) as signature)) =>
      match CertId_try_from cert_id with
      | Ok signing_cert_id =>
          _ ← env_dispatch (fsm_dispatch self) (mk_dispatch correlation_id payload);
          mret (State_Active self)
      | Err e =>
          let got_len := InvalidLength_got_len e in
          Fsm_protocol_error self Active_IS_HANDSHAKE_COMPLETE (CertIdInvalidLength got_len)
      end
  | _ =>
      Fsm_protocol_error self Active_IS_HANDSHAKE_COMPLETE
        (DispatchMissingSignature correlation_id)
  end.

Definition Active_process (self : Fsm Active) (msg : ServerToClient) : prog W State :=
  match msg with
  | Ping => retry_send fuel Pong (fsm_stop self) ;; mret (State_Active self)
  | CertificatePush _ | SetReconnectionData _ => mret (State_Active self)
  | ServerDispatch correlation_id payload detached_signature =>
      Active_handle_dispatch self correlation_id payload detached_signature
  | ClientHelloAck _ =>
      Fsm_protocol_error self Active_IS_HANDSHAKE_COMPLETE HandshakeDuplicateAck
  end.

(** *** [Error] *)

Definition Error_send_hello (self : Fsm ErrorPhase) : prog W State := panic.
Definition Error_process (self : Fsm ErrorPhase) (_msg : ServerToClient) : prog W State :=
  mret (State_Error self).

(** ** [State] *)

Definition State_send_hello (self : State) : prog W State :=
  match self with
  | State_PreHandshake s => PreHandshake_send_hello s
  | State_Handshaking s => Handshaking_send_hello s
  | State_Active s => Active_send_hello s
  | State_Error s => Error_send_hello s
  end.

Definition State_process (self : State) (msg : ServerToClient) : prog W State :=
  match self with
  | State_PreHandshake s => PreHandshake_process s msg
  | State_Handshaking s => Handshaking_process s msg
  | State_Active s => Active_process s msg
  | State_Error s => Error_process s msg
  end.

Definition State_protocol_error (self : State) (reason : ProtocolError) : prog W State :=
  match self with
  | State_PreHandshake s => Fsm_protocol_error s PreHandshake_IS_HANDSHAKE_COMPLETE reason
  | State_Handshaking s => Fsm_protocol_error s Handshaking_IS_HANDSHAKE_COMPLETE reason
  | State_Active s => Fsm_protocol_error s Active_IS_HANDSHAKE_COMPLETE reason
  | State_Error s => Fsm_protocol_error s Error_IS_HANDSHAKE_COMPLETE reason
  end.

(** ** [MessageDelegate] *)

Record MessageDelegate : Type := mk_delegate { delegate_state : State }.

Definition MessageDelegate_new (stop : CancellationToken) (metrics : MetricsRef)
  (dispatch : DispatchPublisher) (app_info : AppInfo) (verifier : V) : MessageDelegate :=
  mk_delegate (State_PreHandshake (PreHandshake_new metrics stop dispatch app_info verifier)).

Definition MessageDelegate_process_impl (state : State)
  (msg : result ServerToClient DecodingError) : prog W State :=
  match state with
  | State_Error s => mret (State_Error s)
  | _ =>
      match msg with
      | Ok v => State_process state v
      | Err e => State_protocol_error state (DeserialisationFailed (DecodingError_display e))
      end
  end.

Definition MessageDelegate_send_hello (self : MessageDelegate) : prog W MessageDelegate :=
  s ← State_send_hello (delegate_state self); mret (mk_delegate s).

Definition MessageDelegate_process (self : MessageDelegate)
  (msg : result ServerToClient DecodingError) : prog W MessageDelegate :=
  s ← MessageDelegate_process_impl (delegate_state self) msg; mret (mk_delegate s).

(** A session: the hello, then the server's messages in order. *)
Fixpoint process_all (self : MessageDelegate) (msgs : list (result ServerToClient DecodingError)) :
  prog W MessageDelegate :=
  match msgs with
  | [] => mret self
  | msg :: msgs => self ← MessageDelegate_process self msg; process_all self msgs
  end.

Definition session (self : MessageDelegate) (msgs : list (result ServerToClient DecodingError)) :
  prog W MessageDelegate :=
  self ← MessageDelegate_send_hello self; process_all self msgs.

End Fsm.
Arguments mk_fsm {_ _ _ _ S} fsm_metrics fsm_stop fsm_dispatch fsm_verifier fsm_state.
Arguments fsm_metrics {_ _ _ _ S} f.
Arguments fsm_stop {_ _ _ _ S} f.
Arguments fsm_dispatch {_ _ _ _ S} f.
Arguments fsm_verifier {_ _ _ _ S} f.
Arguments fsm_state {_ _ _ _ S} f.

(** ** Specification: the reaction table *)

Section Reaction.
Context `{ProtoTypes} `{AwsDigest} `{UuidLib}.

Inductive phase : Type :=
| Phase_Pre
| Phase_Handshaking (nonce : IdNonce)
| Phase_Active (id : ConnectionId)
| Phase_Error.

Definition handshake_complete (p : phase) : bool :=
  match p with Phase_Active _ | Phase_Error => true | _ => false end.

(** A dispatch request the client may forward: signed, by a well-formed
    certificate identifier. *)
Definition admissible (sig : option DetachedSignature) : result () (option nat) :=
  match sig with
  | Some (mk_detached cert_id signature) =>
      if decide (signature = []) then Err None
      else if decide (16 <= length cert_id /\ length cert_id <= 64) then Ok tt
      else Err (Some (length cert_id))
  | None => Err None
  end.

(** What a message makes of a phase: the next phase, the reply, the request
    forwarded to the host. *)
Record outcome : Type := mk_outcome {
  o_phase : phase; o_reply : option ClientToServer; o_dispatch : option Dispatch }.

Definition violation (p : phase) (reason : ProtocolError) : outcome :=
  mk_outcome Phase_Error (Some (ReportProtocolError reason (handshake_complete p))) None.

Definition quiet (p : phase) : outcome := mk_outcome p None None.

Definition react_ack (p : phase) (u : UntrustedConnectionId) : outcome :=
  match p with
  | Phase_Pre => violation p HandshakeAckBeforeHello
  | Phase_Handshaking n =>
      let id := derived_id (IdNonce_as_bytes n) (uci_server_nonce u) in
      if decide (ConnectionId_as_bytes id = uci_id u) then quiet (Phase_Active id)
      else violation p HandshakeConnectionIdRejected
  | Phase_Active _ => violation p HandshakeDuplicateAck
  | Phase_Error => quiet p
  end.

Definition react_dispatch (p : phase) (id : CorrelationId) (payload : Payload)
  (sig : option DetachedSignature) : outcome :=
  match p with
  | Phase_Active _ =>
      match admissible sig with
      | Ok _ => mk_outcome p None (Some (mk_dispatch id payload))
      | Err None => violation p (DispatchMissingSignature id)
      | Err (Some n) => violation p (CertIdInvalidLength n)
      end
  | Phase_Error => quiet p
  | _ => violation p (DispatchBeforeHandshake id)
  end.

Definition reaction (p : phase) (msg : result ServerToClient DecodingError) : outcome :=
  match p, msg with
  | Phase_Error, _ => quiet p
  | _, Err e => violation p (DeserialisationFailed (DecodingError_display e))
  | _, Ok Ping => mk_outcome p (Some Pong) None
  | _, Ok (CertificatePush _) | _, Ok (SetReconnectionData _) => quiet p
  | _, Ok (ClientHelloAck u) => react_ack p u
  | _, Ok (ServerDispatch id payload sig) => react_dispatch p id payload sig
  end.

(** The table applied to a whole conversation. *)
Fixpoint reactions (p : phase) (msgs : list (result ServerToClient DecodingError)) : list outcome :=
  match msgs with
  | [] => []
  | msg :: msgs => reaction p msg :: reactions (o_phase (reaction p msg)) msgs
  end.

Definition last_phase (p : phase) (os : list outcome) : phase :=
  default p (o_phase <$> last os).

Definition replies (os : list outcome) : list ClientToServer := omap o_reply os.
Definition forwarded (os : list outcome) : list Dispatch := omap o_dispatch os.

Definition is_protocol_error (m : ClientToServer) : bool :=
  match m with ReportProtocolError _ _ => true | _ => false end.

End Reaction.

(** ** Simulation *)

Section Simulation.
Context `{ProtoTypes} `{AwsDigestLaws} `{UuidLib}.
Context {W : Type} `{!ConnEnv W} `{!ConnEnvLaws W} {V : Type}.

Definition phase_of (s : State (V:=V)) : phase :=
  match s with
  | State_PreHandshake _ => Phase_Pre
  | State_Handshaking f => Phase_Handshaking (hs_nonce (fsm_state f))
  | State_Active f => Phase_Active (act_connection_id (fsm_state f))
  | State_Error _ => Phase_Error
  end.

(** What every phase carries along. *)
Definition handles {S} (f : Fsm (V:=V) S) := (fsm_metrics f, fsm_stop f, fsm_dispatch f, fsm_verifier f).
Definition handles_of (s : State (V:=V)) :=
  match s with
  | State_PreHandshake f => handles f
  | State_Handshaking f => handles f
  | State_Active f => handles f
  | State_Error f => handles f
  end.

(** [l'] is [l], possibly with the element of [o] appended. *)
Definition grows {A} (o : option A) (l l' : list A) : Prop :=
  l' = l \/ exists x, o = Some x /\ l' = l ++ [x].

(** A run from [s] in [w] that behaves as [o] says. *)
Definition follows (o : outcome) (s : State) (w : W) (e : exec W State) : Prop :=
  match e with
  | Done s' w' => phase_of s' = o_phase o /\ handles_of s' = handles_of s /\
      grows (o_reply o) (sent w) (sent w') /\ grows (o_dispatch o) (queued w) (queued w')
  | Panic w' | Blocked w' => sent w' = sent w /\ queued w' = queued w
  end.

Lemma grows_refl {A} (o : option A) l : grows o l l.
Proof. by left. Qed.

Lemma grows_app {A} (o : option A) l l' :
  grows o l l' -> exists k, l' = l ++ k /\ k `sublist_of` option_list o.
Proof.
  intros [->|(x & -> & ->)].
  - exists []. rewrite app_nil_r. split; [done | apply sublist_nil_l].
  - by exists [x].
Qed.

#[local] Hint Resolve grows_refl : rc.

(** Reply [m], then stay in or go to [s']. *)
Lemma reply_follows fuel m stop s s' w d :
  handles_of s' = handles_of s ->
  follows (mk_outcome (phase_of s') (Some m) d) s w
    ((retry_send fuel m stop ;; mret s') w).
Proof.
  intros Hh. destruct (retry_send_at_most fuel m stop w) as [Q S].
  unfold mbind, prog_bind. destruct (retry_send fuel m stop w) as [[] w'|w'|w']; simpl in *.
  - split_and!; [done | done | | by left].
    destruct S as [->|[_ ->]]; [by left | right; eauto].
  - destruct S as [S|[? _]]; [done | discriminate].
  - destruct S as [S|[? _]]; [done | discriminate].
Qed.

Lemma protocol_error_follows {S} fuel (f : Fsm S) s b reason w :
  handles f = handles_of s ->
  follows (mk_outcome Phase_Error (Some (ReportProtocolError reason b)) None) s w
    (Fsm_protocol_error fuel f b reason w).
Proof.
  intros Hh. apply (reply_follows fuel _ (fsm_stop f) s
    (State_Error (Fsm_into_state f mk_error_phase))). done.
Qed.

Lemma quiet_follows s w : follows (quiet (phase_of s)) s w (mret (M:=prog W) s w).
Proof. simpl. split_and!; auto with rc. Qed.

Lemma ack_follows fuel (f : Fsm Handshaking) u w :
  follows (react_ack (phase_of (State_Handshaking f)) u) (State_Handshaking f) w
    (Handshaking_process fuel f (ClientHelloAck u) w).
Proof.
  unfold Handshaking_process. pose proof (IdNonce_default_log w) as [Ls Lq].
  unfold mbind at 1. unfold prog_bind at 1.
  destruct (IdNonce_default w) as [n w'|w'|w'] eqn:E; simpl in Ls, Lq; [|done..].
  unfold Handshaking_verify. rewrite verify_outcome. simpl react_ack.
  unfold mbind at 1, prog_bind at 1. simpl of_panics.
  destruct (decide (ConnectionId_as_bytes _ = uci_id u)) as [D|D].
  - rewrite decide_False by (intros []; done). simpl. rewrite Ls, Lq. split_and!; auto with rc.
  - rewrite decide_True by done.
    pose proof (protocol_error_follows fuel (Fsm_into_state f (mk_handshaking n))
      (State_Handshaking f) Handshaking_IS_HANDSHAKE_COMPLETE HandshakeConnectionIdRejected w'
      eq_refl) as P.
    unfold follows, violation in *. by destruct (Fsm_protocol_error _ _ _ _ w'); rewrite Ls, Lq in P.
Qed.

Lemma dispatch_follows fuel (f : Fsm Active) id payload sig w :
  follows (react_dispatch (phase_of (State_Active f)) id payload sig) (State_Active f) w
    (Active_handle_dispatch fuel f id payload sig w).
Proof.
  unfold Active_handle_dispatch. simpl react_dispatch.
  destruct sig as [[cert_id [|b sig]]|]; simpl admissible; [by apply protocol_error_follows| |by apply protocol_error_follows].
  unfold CertId_try_from, MIN_LENGTH, MAX_LENGTH.
  destruct (decide (16 <= length cert_id /\ length cert_id <= 64)) as [D|D].
  - rewrite decide_False by lia.
    pose proof (dispatch_log (fsm_dispatch f) (mk_dispatch id payload) w) as L.
    unfold mbind, prog_bind.
    destruct (env_dispatch _ _ w) as [[[]|e] w'|w'|w']; simpl; destruct L as [Ls Lq];
      rewrite Ls, Lq; try done; split_and!; auto with rc.
    right. eauto.
  - rewrite decide_True by lia. by apply protocol_error_follows.
Qed.

(** One message: the implementation does what the table says. *)
Lemma process_follows fuel s msg w :
  follows (reaction (phase_of s) msg) s w (MessageDelegate_process_impl fuel s msg w).
Proof.
  destruct s as [f|f|f|f], msg as [[|certs|id payload sig|u|d]|e];
    cbn [MessageDelegate_process_impl State_process State_protocol_error
         PreHandshake_process Active_process Error_process].
  all: try exact (quiet_follows _ w).
  all: try (apply protocol_error_follows; reflexivity).
  - apply (reply_follows fuel Pong (fsm_stop f) _ (State_PreHandshake f)). done.
  - apply (reply_follows fuel Pong (fsm_stop f) _ (State_Handshaking f)). done.
  - apply ack_follows.
  - apply (reply_follows fuel Pong (fsm_stop f) _ (State_Active f)). done.
  - apply dispatch_follows.
Qed.

(** What a run has appended to the logs is a selection, in order, of what the
    outcomes [os] allow. *)
Definition logs_within (os : list outcome) (w w' : W) : Prop :=
  (exists l, sent w' = sent w ++ l /\ l `sublist_of` replies os) /\
  (exists k, queued w' = queued w ++ k /\ k `sublist_of` forwarded os).

Lemma logs_within_refl os w w' : sent w' = sent w -> queued w' = queued w -> logs_within os w w'.
Proof.
  intros Hs Hq. split; exists []; rewrite app_nil_r; split; done || apply sublist_nil_l.
Qed.

Lemma logs_within_cons o os w w1 w' :
  grows (o_reply o) (sent w) (sent w1) -> grows (o_dispatch o) (queued w) (queued w1) ->
  logs_within os w1 w' -> logs_within (o :: os) w w'.
Proof.
  intros (l & S1 & L1)%grows_app (k & Q1 & K1)%grows_app [(l2 & S2 & L2) (k2 & Q2 & K2)].
  unfold replies, forwarded in *. split.
  - exists (l ++ l2). rewrite S2, S1, <- app_assoc. split; [done|].
    simpl. destruct (o_reply o); simpl in *; [exact (sublist_app _ _ _ _ L1 L2)|].
    apply sublist_nil_r in L1. by subst.
  - exists (k ++ k2). rewrite Q2, Q1, <- app_assoc. split; [done|].
    simpl. destruct (o_dispatch o); simpl in *; [exact (sublist_app _ _ _ _ K1 K2)|].
    apply sublist_nil_r in K1. by subst.
Qed.

Lemma last_phase_cons p o os : last_phase p (o :: os) = last_phase (o_phase o) os.
Proof. unfold last_phase. rewrite last_cons. by destruct (last os). Qed.

Lemma process_all_cons fuel (self : MessageDelegate (V:=V)) msg msgs w :
  process_all fuel self (msg :: msgs) w =
  match MessageDelegate_process_impl fuel (delegate_state self) msg w with
  | Done s1 w1 => process_all fuel (mk_delegate s1) msgs w1
  | Panic w1 => Panic w1
  | Blocked w1 => Blocked w1
  end.
Proof.
  simpl. unfold MessageDelegate_process, mbind, prog_bind.
  by destruct (MessageDelegate_process_impl fuel (delegate_state self) msg w).
Qed.

Lemma process_all_within fuel (self : MessageDelegate (V:=V)) msgs w :
  let os := reactions (phase_of (delegate_state self)) msgs in
  logs_within os w (final (process_all fuel self msgs w)) /\
  (forall s' w', process_all fuel self msgs w = Done s' w' ->
    phase_of (delegate_state s') = last_phase (phase_of (delegate_state self)) os).
Proof.
  revert self w. induction msgs as [|msg msgs IH]; intros self w.
  { split; [by apply logs_within_refl | by intros s' w' [= <- <-]]. }
  rewrite process_all_cons. simpl reactions.
  pose proof (process_follows fuel (delegate_state self) msg w) as F.
  destruct (MessageDelegate_process_impl fuel (delegate_state self) msg w) as [s1 w1|w1|w1];
    simpl in F |- *; [|by destruct F; split; [apply logs_within_refl|]..].
  destruct F as (P & _ & S & Q). destruct (IH (mk_delegate s1) w1) as [L E].
  simpl in L, E. rewrite P in L, E. split.
  - by eapply logs_within_cons.
  - intros s' w' D. rewrite last_phase_cons. exact (E s' w' D).
Qed.

(** Sending the hello from the initial phase. *)
Lemma send_hello_follows fuel (f : Fsm (V:=V) PreHandshake) w :
  match MessageDelegate_send_hello fuel (mk_delegate (State_PreHandshake f)) w with
  | Done self w' => exists n h, nonce_wf n /\ ch_client_nonce h = IdNonce_as_bytes n /\
      fst (rand_fill 16 w) = Some (IdNonce_as_bytes n) /\
      phase_of (delegate_state self) = Phase_Handshaking n /\
      grows (Some (Hello h)) (sent w) (sent w') /\ queued w' = queued w
  | Panic w' | Blocked w' => sent w' = sent w /\ queued w' = queued w
  end.
Proof.
  unfold MessageDelegate_send_hello, State_send_hello, PreHandshake_send_hello, build_hello.
  simpl delegate_state. cbv iota.
  pose proof (IdNonce_default_log w) as [Ls Lq]. pose proof (IdNonce_default_wf w) as Wf.
  pose proof (IdNonce_default_drawn w) as D.
  unfold mbind, prog_bind, gets. destruct (IdNonce_default w) as [n w1|w1|w1]; simpl in *; [|done..].
  set (h := mk_client_hello _ _ _ _ _ _ _ _).
  destruct (retry_send_at_most fuel (Hello h) (fsm_stop f) w1) as [Q S].
  rewrite Ls in S. rewrite Lq in Q.
  destruct (retry_send fuel (Hello h) (fsm_stop f) w1) as [[] w2|w2|w2]; simpl in *.
  - exists n, h. split_and!; [by apply (Wf n w1) | done | by rewrite (D n w1) | done | | done].
    destruct S as [S|[_ S]]; [by left | right; eauto].
  - destruct S as [S|[? _]]; done.
  - destruct S as [S|[? _]]; done.
Qed.

End Simulation.

(** ** What the table allows *)

Section TableFacts.
Context `{ProtoTypes} `{AwsDigest} `{UuidLib}.

Lemma reactions_error msgs :
  replies (reactions Phase_Error msgs) = [] /\ forwarded (reactions Phase_Error msgs) = [] /\
  last_phase Phase_Error (reactions Phase_Error msgs) = Phase_Error.
Proof.
  unfold replies, forwarded. induction msgs as [|msg msgs (IH1 & IH2 & IH3)]; [done|].
  simpl reactions. rewrite last_phase_cons. by destruct msg as [[]|].
Qed.

(** A reaction replies with nothing, with a pong, or with a protocol error that
    ends the conversation. *)
Lemma reaction_reply p msg :
  match o_reply (reaction p msg) with
  | None => True
  | Some Pong => o_phase (reaction p msg) = p
  | Some (ReportProtocolError _ _) => o_phase (reaction p msg) = Phase_Error
  | Some _ => False
  end.
Proof.
  destruct p, msg as [[| |cid payload [[cert [|b sig]]|]|u|]|]; simpl; try done; repeat case_decide; done.
Qed.

Lemma reactions_shape p msgs :
  exists n o, replies (reactions p msgs) = replicate n Pong ++ option_list o /\
    (forall m, o = Some m -> is_protocol_error m = true /\
       last_phase p (reactions p msgs) = Phase_Error).
Proof.
  revert p. induction msgs as [|msg msgs IH]; intros p; [by exists 0, None|].
  simpl reactions. rewrite last_phase_cons. pose proof (reaction_reply p msg) as R.
  destruct (reaction p msg) as [p' r d] eqn:E. simpl in *.
  destruct r as [r|].
  - destruct r as [|h|id res|reason b]; try done.
    + destruct (IH p') as (n & o & -> & Ho). by exists (S n), o.
    + subst p'. destruct (reactions_error msgs) as (-> & _ & L).
      exists 0, (Some (ReportProtocolError reason b)). split; [done|]. by intros m [= <-].
  - destruct (IH p') as (n & o & Hr & Ho). by exists n, o.
Qed.

(** No reply is a hello. *)
Lemma replies_no_hello p msgs h : Hello h ∉ replies (reactions p msgs).
Proof.
  destruct (reactions_shape p msgs) as (n & o & -> & Ho). intros [[E _]%elem_of_replicate|E]%elem_of_app; [done|].
  destruct o as [m|]; [|by apply not_elem_of_nil in E]. apply list_elem_of_singleton in E as <-.
  by destruct (Ho _ eq_refl).
Qed.

(** The identifier of an active phase was proposed by the server and derived
    from the nonce. *)
Definition acknowledged (n : IdNonce) (msgs : list (result ServerToClient DecodingError))
  (id : ConnectionId) : Prop :=
  exists u, Ok (ClientHelloAck u) ∈ msgs /\
    id = derived_id (IdNonce_as_bytes n) (uci_server_nonce u) /\ ConnectionId_as_bytes id = uci_id u.

Lemma acknowledged_cons n msg msgs id : acknowledged n msgs id -> acknowledged n (msg :: msgs) id.
Proof. intros (u & Hu & E). exists u. split; [by right | done]. Qed.

Lemma acknowledged_app n msgs msgs' id :
  acknowledged n msgs id -> acknowledged n (msgs ++ msgs') id.
Proof. intros (u & Hu & E). exists u. split; [apply elem_of_app; by left | done]. Qed.

(** A step out of the handshake. *)
Lemma handshake_step n msg :
  (o_phase (reaction (Phase_Handshaking n) msg) = Phase_Handshaking n \/
   o_phase (reaction (Phase_Handshaking n) msg) = Phase_Error \/
   exists id, o_phase (reaction (Phase_Handshaking n) msg) = Phase_Active id /\
     acknowledged n [msg] id) /\
  o_dispatch (reaction (Phase_Handshaking n) msg) = None.
Proof.
  destruct msg as [[| | |u|]|]; simpl; try by auto.
  case_decide as D; simpl; [|by auto]. split; [|done]. right. right. eexists. split; [done|].
  exists u. split; [by left | done].
Qed.

(** A step of an active connection. *)
Lemma active_step id msg :
  (o_phase (reaction (Phase_Active id) msg) = Phase_Active id \/
   o_phase (reaction (Phase_Active id) msg) = Phase_Error) /\
  (forall d, o_dispatch (reaction (Phase_Active id) msg) = Some d -> exists sig,
     msg = Ok (ServerDispatch (d_correlation_id d) (d_payload d) sig) /\ admissible sig = Ok tt).
Proof.
  destruct msg as [[| |cid payload sig|u|]|]; simpl; try (split; [by auto | by intros d [=]]).
  destruct (admissible sig) as [[]|[n|]] eqn:A; simpl; [|split; [by auto | by intros d [=]]..].
  split; [by left|]. intros d [= <-]. by exists sig.
Qed.

Lemma reactions_cons p msg msgs :
  reactions p (msg :: msgs) = reaction p msg :: reactions (o_phase (reaction p msg)) msgs.
Proof. done. Qed.

Lemma forwarded_cons o os : forwarded (o :: os) = option_list (o_dispatch o) ++ forwarded os.
Proof. unfold forwarded. simpl. by destruct (o_dispatch o). Qed.

Lemma not_forwarded_error d msgs : d ∉ forwarded (reactions Phase_Error msgs).
Proof. destruct (reactions_error msgs) as (_ & -> & _). apply not_elem_of_nil. Qed.

(** A request in the conversation that may be forwarded as [d]. *)
Definition requested (msgs : list (result ServerToClient DecodingError)) (d : Dispatch) : Prop :=
  exists sig, Ok (ServerDispatch (d_correlation_id d) (d_payload d) sig) ∈ msgs /\
    admissible sig = Ok tt.

Lemma requested_cons msg msgs d : requested msgs d -> requested (msg :: msgs) d.
Proof. intros (sig & Hs & A). exists sig. split; [by right | done]. Qed.

Lemma active_reactions id msgs :
  (last_phase (Phase_Active id) (reactions (Phase_Active id) msgs) = Phase_Active id \/
   last_phase (Phase_Active id) (reactions (Phase_Active id) msgs) = Phase_Error) /\
  (forall d, d ∈ forwarded (reactions (Phase_Active id) msgs) -> requested msgs d).
Proof.
  induction msgs as [|msg msgs [IH1 IH2]].
  { split; [by left|]. intros d Hd. by apply not_elem_of_nil in Hd. }
  rewrite reactions_cons, last_phase_cons, forwarded_cons.
  destruct (active_step id msg) as [P D]. split.
  - destruct P as [->| ->]; [done | right; apply (reactions_error msgs)].
  - intros d [Hd|Hd]%elem_of_app.
    + destruct (o_dispatch (reaction (Phase_Active id) msg)) as [d'|] eqn:E; [|by apply not_elem_of_nil in Hd].
      apply list_elem_of_singleton in Hd as ->. destruct (D d' eq_refl) as (sig & -> & A).
      exists sig. split; [by left | done].
    + apply requested_cons. destruct P as [P|P]; rewrite P in Hd; [by apply IH2|].
      by apply not_forwarded_error in Hd.
Qed.

(** From the handshake: what ends active was acknowledged, and what is
    forwarded was requested, after an acknowledgement. *)
Lemma handshake_reactions n msgs :
  (forall id, last_phase (Phase_Handshaking n) (reactions (Phase_Handshaking n) msgs)
     = Phase_Active id -> acknowledged n msgs id) /\
  (forall d, d ∈ forwarded (reactions (Phase_Handshaking n) msgs) -> exists before after id,
     msgs = before ++ after /\ acknowledged n before id /\ requested after d).
Proof.
  induction msgs as [|msg msgs [IH1 IH2]].
  { split; [done|]. intros d Hd. by apply not_elem_of_nil in Hd. }
  rewrite reactions_cons, last_phase_cons, forwarded_cons.
  destruct (handshake_step n msg) as [P ->].
  change (option_list (@None Dispatch)) with (@nil Dispatch). rewrite app_nil_l.
  destruct P as [->|[->|(id & -> & A)]].
  - split; [intros id Hid; by apply acknowledged_cons, IH1|].
    intros d Hd. destruct (IH2 d Hd) as (before & after & id & -> & Ha & Hr).
    exists (msg :: before), after, id. split_and!; [done | by apply acknowledged_cons | done].
  - split; [|intros d Hd; by apply not_forwarded_error in Hd].
    intros id. by destruct (reactions_error msgs) as (_ & _ & ->).
  - destruct (active_reactions id msgs) as [L F]. split.
    + intros id' Hid. assert (id' = id) as -> by (destruct L; congruence).
      exact (acknowledged_app n [msg] msgs id A).
    + intros d Hd. exists [msg], msgs, id. split_and!; auto.
Qed.

End TableFacts.

(** ** Selections of a regular list *)

Lemma sublist_replicate {A} (x : A) n l :
  l `sublist_of` replicate n x -> exists k, l = replicate k x.
Proof.
  revert l. induction n as [|n IH]; intros l Hl; [apply sublist_nil_r in Hl; by exists 0|].
  apply sublist_cons_r in Hl as [Hl|(l' & -> & Hl)]; [by apply IH|].
  destruct (IH l' Hl) as [k ->]. by exists (S k).
Qed.

Lemma sublist_option {A} (o : option A) l :
  l `sublist_of` option_list o -> exists o', l = option_list o' /\ (o' = None \/ o' = o).
Proof.
  destruct o as [x|]; simpl; intros Hl.
  - apply sublist_cons_r in Hl as [Hl|(l' & -> & Hl)]; apply sublist_nil_r in Hl; subst.
    + exists None. auto.
    + exists (Some x). auto.
  - apply sublist_nil_r in Hl. subst. exists None. auto.
Qed.

(** ** An environment in which nothing fails *)

Section Healthy.
Context `{ProtoTypes} `{AwsDigestLaws} `{UuidLib}.
Context {W : Type} `{!ConnEnv W} `{!ConnEnvLaws W} {V : Type}.

(** From a state of [I], sends and dispatches succeed and the generator
    produces usable nonces. *)
Class HealthyEnv (I : W -> Prop) : Prop := {
  healthy_send : forall m w, I w -> exists w', env_send m w = Done (Ok tt) w' /\ I w';
  healthy_dispatch : forall p d w, I w -> exists w', env_dispatch p d w = Done (Ok tt) w' /\ I w';
  healthy_rng : forall w, I w -> exists bs w', rand_fill 16 w = (Some bs, w') /\
    bs <> replicate 16 x00 /\ I w'
}.

Context (I : W -> Prop) `{!HealthyEnv I}.

(** A run that completes with exactly the outcome [o]. *)
Definition performs (o : outcome) (w : W) (e : exec W (State (V:=V))) : Prop :=
  exists s' w', e = Done s' w' /\ I w' /\ phase_of s' = o_phase o /\
    sent w' = sent w ++ option_list (o_reply o) /\ queued w' = queued w ++ option_list (o_dispatch o).

Lemma retry_send_healthy fuel m stop w :
  I w -> exists w', retry_send (S fuel) m stop w = Done tt w' /\ I w' /\
    sent w' = sent w ++ [m] /\ queued w' = queued w.
Proof.
  intros Hw. destruct (healthy_send m w Hw) as (w' & E & Hw').
  pose proof (send_log m w) as L. rewrite E in L. destruct L as [L1 L2].
  exists w'. split_and!; try done. simpl. by rewrite (prog_bind_done _ _ _ _ _ E).
Qed.

Lemma IdNonce_default_healthy w :
  I w -> exists n w', IdNonce_default w = Done n w' /\ I w' /\ sent w' = sent w /\ queued w' = queued w.
Proof.
  intros Hw. destruct (healthy_rng w Hw) as (bs & w' & E & Nz & Hw').
  destruct (rng_log 16 w) as [L1 L2]. rewrite E in L1, L2.
  exists (mk_nonce bs), w'. split_and!; try done.
  unfold IdNonce_default. rewrite E. by rewrite decide_False.
Qed.

Lemma reply_performs fuel m stop s' w :
  I w -> performs (mk_outcome (phase_of s') (Some m) None) w
    ((retry_send (S fuel) m stop ;; mret s') w).
Proof.
  intros Hw. destruct (retry_send_healthy fuel m stop w Hw) as (w' & E & Hw' & S & Q).
  exists s', w'. split_and!; try done; [by rewrite (prog_bind_done _ _ _ _ _ E)|].
  simpl. by rewrite app_nil_r.
Qed.

Lemma quiet_performs s w : I w -> performs (quiet (phase_of s)) w (mret (M:=prog W) s w).
Proof. intros Hw. exists s, w. simpl. by rewrite !app_nil_r. Qed.

Lemma ack_performs fuel (f : Fsm (V:=V) Handshaking) u w :
  I w -> performs (react_ack (phase_of (State_Handshaking f)) u) w
    (Handshaking_process (S fuel) f (ClientHelloAck u) w).
Proof.
  intros Hw. unfold Handshaking_process.
  destruct (IdNonce_default_healthy w Hw) as (n & w' & E & Hw' & S & Q).
  rewrite (prog_bind_done _ _ _ _ _ E). unfold Handshaking_verify. rewrite verify_outcome.
  simpl react_ack. unfold mbind at 1, prog_bind at 1. simpl of_panics.
  destruct (decide (ConnectionId_as_bytes _ = uci_id u)) as [D|D].
  - rewrite decide_False by (intros []; done). eexists _, w'.
    split_and!; [reflexivity | done | done |..]; simpl; by rewrite app_nil_r.
  - rewrite decide_True by done.
    destruct (reply_performs fuel (ReportProtocolError HandshakeConnectionIdRejected false)
      (fsm_stop f) (State_Error (Fsm_into_state f mk_error_phase)) w' Hw')
      as (s' & w2 & E2 & Hw2 & P2 & S2 & Q2).
    exists s', w2. split_and!; [exact E2 | done | done | by rewrite S2, S | by rewrite Q2, Q].
Qed.

Lemma dispatch_performs fuel (f : Fsm (V:=V) Active) id payload sig w :
  I w -> performs (react_dispatch (phase_of (State_Active f)) id payload sig) w
    (Active_handle_dispatch (S fuel) f id payload sig w).
Proof.
  intros Hw. unfold Active_handle_dispatch. simpl react_dispatch.
  assert (Err : forall reason, performs
    (mk_outcome Phase_Error (Some (ReportProtocolError reason true)) None) w
    (Fsm_protocol_error (S fuel) f true reason w)).
  { intros reason. exact (reply_performs fuel _ (fsm_stop f)
      (State_Error (Fsm_into_state f mk_error_phase)) w Hw). }
  destruct sig as [[cert_id [|b sig]]|]; simpl admissible; [apply Err| |apply Err].
  unfold CertId_try_from, MIN_LENGTH, MAX_LENGTH.
  destruct (decide (16 <= length cert_id /\ length cert_id <= 64)) as [D|D].
  - rewrite decide_False by lia.
    destruct (healthy_dispatch (fsm_dispatch f) (mk_dispatch id payload) w Hw) as (w' & E & Hw').
    pose proof (dispatch_log (fsm_dispatch f) (mk_dispatch id payload) w) as L.
    rewrite E in L. destruct L as [L1 L2]. rewrite (prog_bind_done _ _ _ _ _ E).
    exists (State_Active f), w'. split_and!; try done. simpl. by rewrite app_nil_r.
  - rewrite decide_True by lia. apply Err.
Qed.

Lemma process_performs fuel s msg w :
  I w -> performs (reaction (phase_of s) msg) w (MessageDelegate_process_impl (S fuel) s msg w).
Proof.
  intros Hw. destruct s as [f|f|f|f], msg as [[|certs|id payload sig|u|d]|e];
    cbn [MessageDelegate_process_impl State_process State_protocol_error
         PreHandshake_process Active_process Error_process].
  all: try exact (quiet_performs _ w Hw).
  all: try exact (reply_performs fuel _ (fsm_stop f)
         (State_Error (Fsm_into_state f mk_error_phase)) w Hw).
  - exact (reply_performs fuel Pong (fsm_stop f) (State_PreHandshake f) w Hw).
  - exact (reply_performs fuel Pong (fsm_stop f) (State_Handshaking f) w Hw).
  - by apply ack_performs.
  - exact (reply_performs fuel Pong (fsm_stop f) (State_Active f) w Hw).
  - by apply dispatch_performs.
Qed.

Lemma process_all_performs fuel (self : MessageDelegate (V:=V)) msgs w :
  I w -> let os := reactions (phase_of (delegate_state self)) msgs in
  exists self' w', process_all (S fuel) self msgs w = Done self' w' /\
    phase_of (delegate_state self') = last_phase (phase_of (delegate_state self)) os /\
    sent w' = sent w ++ replies os /\ queued w' = queued w ++ forwarded os.
Proof.
  revert self w. induction msgs as [|msg msgs IH]; intros self w Hw.
  { exists self, w. by rewrite !app_nil_r. }
  cbv zeta. rewrite process_all_cons, reactions_cons, forwarded_cons, last_phase_cons.
  destruct (process_performs fuel (delegate_state self) msg w Hw)
    as (s1 & w1 & -> & Hw1 & P1 & S1 & Q1).
  destruct (IH (mk_delegate s1) w1 Hw1) as (self' & w' & -> & P & S & Q).
  simpl delegate_state in P, S, Q. rewrite P1 in P, S, Q.
  exists self', w'. split_and!; [done | done | | by rewrite Q, Q1, <- app_assoc].
  rewrite S, S1, <- app_assoc. f_equal. unfold replies.
  by destruct (o_reply (reaction (phase_of (delegate_state self)) msg)) eqn:R; simpl; rewrite R.
Qed.

End Healthy.

(** ** Properties *)

Section FsmProperties.
Context `{ProtoTypes} `{AwsDigestLaws} `{UuidLib}.
Context {W : Type} `{!ConnEnv W} `{!ConnEnvLaws W} {V : Type}.

(** The delegate of a new connection, and its session. *)
Definition new_session (fuel : nat) (stop : CancellationToken) (metrics : MetricsRef)
  (dispatch : DispatchPublisher) (app_info : AppInfo) (verifier : V)
  (msgs : list (result ServerToClient DecodingError)) : prog W (MessageDelegate (V:=V)) :=
  session fuel (MessageDelegate_new stop metrics dispatch app_info verifier) msgs.

Lemma new_session_within fuel stop metrics dispatch info v msgs w :
  let e := new_session fuel stop metrics dispatch info v msgs w in
  (sent (final e) = sent w /\ queued (final e) = queued w /\ completed e = false) \/
  exists n h w1, nonce_wf n /\ ch_client_nonce h = IdNonce_as_bytes n /\
    fst (rand_fill 16 w) = Some (IdNonce_as_bytes n) /\
    grows (Some (Hello h)) (sent w) (sent w1) /\ queued w1 = queued w /\
    logs_within (reactions (Phase_Handshaking n) msgs) w1 (final e) /\
    (forall s' w', e = Done s' w' -> phase_of (delegate_state s') =
      last_phase (Phase_Handshaking n) (reactions (Phase_Handshaking n) msgs)).
Proof.
  unfold new_session, session, MessageDelegate_new.
  pose proof (send_hello_follows fuel (PreHandshake_new metrics stop dispatch info v) w) as F.
  unfold mbind, prog_bind. destruct (MessageDelegate_send_hello fuel _ w) as [self w1|w1|w1];
    simpl in F |- *; [|left; by destruct F..].
  right. destruct F as (n & h & Hn & Hh & D & P & S & Q).
  destruct (process_all_within fuel self msgs w1) as [L E]. rewrite P in L, E.
  by exists n, h, w1.
Qed.

(** C3. One message, in any phase and however the environment behaves: the
    connection moves to the phase the reaction table gives, keeps its handles,
    and sends at most the reply and forwards at most the request of the table;
    a run that panics or is still waiting has sent and forwarded nothing. *)
Theorem process_refines_table fuel (self : MessageDelegate (V:=V)) msg w :
  match MessageDelegate_process fuel self msg w with
  | Done self' w' =>
      phase_of (delegate_state self') = o_phase (reaction (phase_of (delegate_state self)) msg) /\
      handles_of (delegate_state self') = handles_of (delegate_state self) /\
      grows (o_reply (reaction (phase_of (delegate_state self)) msg)) (sent w) (sent w') /\
      grows (o_dispatch (reaction (phase_of (delegate_state self)) msg)) (queued w) (queued w')
  | Panic w' | Blocked w' => sent w' = sent w /\ queued w' = queued w
  end.
Proof.
  pose proof (process_follows fuel (delegate_state self) msg w) as F.
  unfold MessageDelegate_process, mbind, prog_bind.
  by destruct (MessageDelegate_process_impl fuel (delegate_state self) msg w).
Qed.

(** C26. What a connection sends over a whole session, however it ends: at most
    one hello, which is first, then only pongs, then at most one protocol error,
    after which nothing more is sent and the connection is in its error phase. *)
Theorem session_sent_shape fuel stop metrics dispatch info v msgs w :
  let e := new_session fuel stop metrics dispatch info v msgs w in
  exists (hello : option ClientHello) n (err : option ClientToServer),
    sent (final e) = sent w ++ option_list (Hello <$> hello) ++ replicate n Pong ++ option_list err /\
    (forall m, err = Some m -> is_protocol_error m = true /\
      forall s' w', e = Done s' w' -> phase_of (delegate_state s') = Phase_Error).
Proof.
  destruct (new_session_within fuel stop metrics dispatch info v msgs w)
    as [(S & _ & _)|(n & h & w1 & _ & _ & _ & G & _ & [(l & L1 & L2) _] & P)]; cbv zeta.
  { exists None, 0, None. rewrite S. simpl. by rewrite !app_nil_r. }
  destruct (reactions_shape (Phase_Handshaking n) msgs) as (k & o & R & Ho).
  rewrite R in L2. apply sublist_app_r in L2 as (l1 & l2 & -> & K1 & K2).
  apply sublist_replicate in K1 as [k' ->]. apply sublist_option in K2 as (o' & -> & Ho').
  assert (Herr : forall m, o' = Some m -> is_protocol_error m = true /\
    forall s' w', new_session fuel stop metrics dispatch info v msgs w = Done s' w' ->
      phase_of (delegate_state s') = Phase_Error).
  { intros m ->. destruct Ho' as [?|Ho']; [done|]. destruct (Ho m (eq_sym Ho')) as [I1 I2].
    split; [done|]. intros s' w' E. by rewrite (P s' w' E). }
  destruct G as [G|(x & [= <-] & G)]; rewrite L1, G.
  - by exists None, k', o'.
  - exists (Some h), k', o'. by rewrite <- app_assoc.
Qed.


(** C10. When nothing in the environment fails, a session completes, sends its
    hello and then exactly the replies of the table, forwards exactly the
    requests of the table, in order, and ends in the table's last phase. *)
Theorem session_complete (I : W -> Prop) `{!HealthyEnv I} fuel stop metrics dispatch info v msgs w
  (Hw : I w) (Hf : fuel <> 0) :
  exists n h self' w', new_session fuel stop metrics dispatch info v msgs w = Done self' w' /\
    nonce_wf n /\ ch_client_nonce h = IdNonce_as_bytes n /\
    let os := reactions (Phase_Handshaking n) msgs in
    sent w' = sent w ++ Hello h :: replies os /\ queued w' = queued w ++ forwarded os /\
    phase_of (delegate_state self') = last_phase (Phase_Handshaking n) os.
Proof.
  destruct fuel as [|fuel]; [done|]. unfold new_session, session, MessageDelegate_send_hello,
    MessageDelegate_new, State_send_hello, PreHandshake_send_hello, build_hello.
  destruct (IdNonce_default_healthy I w Hw) as (n & w1 & E1 & I1 & S1 & Q1).
  set (h := mk_client_hello (IdNonce_as_bytes n)
    (im_graceful_disconnect (env_metrics metrics w1))
    (im_ungraceful_disconnect (env_metrics metrics w1))
    (InstanceMetrics_last_conn_duration (env_metrics metrics w1)) None
    (im_version (env_metrics metrics w1)) (AppInfo_name info) (AppInfo_version info)).
  destruct (retry_send_healthy I fuel (Hello h) stop w1 I1) as (w2 & E2 & I2 & S2 & Q2).
  destruct (process_all_performs I fuel (mk_delegate (State_Handshaking
    (mk_fsm metrics stop dispatch v (mk_handshaking n)))) msgs w2 I2)
    as (self' & w' & E3 & P & S3 & Q3).
  exists n, h, self', w'. split_and!; [| by apply (IdNonce_default_wf w n w1) | done | | | exact P].
  - cbn [delegate_state]. unfold mbind, prog_bind, mret, prog_ret, gets. rewrite E1. cbv beta iota.
    change (retry_send (S fuel) _ _ w1) with (retry_send (S fuel) (Hello h) stop w1).
    rewrite E2. exact E3.
  - rewrite S3, S2, S1, <- app_assoc. done.
  - rewrite Q3, Q2, Q1. done.
Qed.

End FsmProperties.

(** *** Witness *)

#[export] Instance toy_healthy : @HealthyEnv toy_proto toy_world toy_env
  (fun w => tw_script w = [] /\ tw_seed w = x05).
Proof.
  split.
  - intros m [s ? ? ? ? ?] [Hs Hb]. simpl in Hs, Hb. subst s. eexists. split; [reflexivity|]. done.
  - intros p d [] [Hs Hb]. eexists. split; [reflexivity|]. done.
  - intros w [Hs Hb]. do 2 eexists. split; [reflexivity|]. simpl. rewrite Hb. split; [done|]. done.
Qed.

Definition toy_publisher : DispatchPublisher := mk_publisher request_tx None response_weak.
Definition toy_info : AppInfo := AppInfo_new (AppName_from "agent") (AppVersion_from "1").

(** An acknowledgement the toy digest accepts, and a signed request. *)
Definition toy_ack : result ServerToClient (@DecodingError toy_proto) :=
  Ok (ClientHelloAck (UntrustedConnectionId_new (replicate 16 x07) (toy_v8 (replicate 16 x07)))).
Definition toy_request : result ServerToClient (@DecodingError toy_proto) :=
  Ok (ServerDispatch (CorrelationId_new 9) (Payload_from [x2a])
        (Some (mk_detached (replicate 16 x03) [x01]))).

Definition toy_session (msgs : list (result ServerToClient (@DecodingError toy_proto))) :=
  @new_session toy_proto toy_digest toy_uuid toy_world toy_env unit 1 tt tt toy_publisher
    toy_info tt msgs (toy_start []).

Lemma session_complete_witness :
  tw_queued (final (toy_session [toy_ack; toy_request])) =
    [mk_dispatch (CorrelationId_new 9) (Payload_from [x2a])] /\
  length (tw_sent (final (toy_session [Ok Ping; toy_request; toy_ack; Ok Ping]))) = 3 /\
  completed (toy_session [toy_ack; toy_request]) = true.
Proof.
  split; [reflexivity|]. split; [reflexivity|]. unfold toy_session.
  edestruct (@session_complete toy_proto toy_digest toy_digest_laws toy_uuid toy_world toy_env
    toy_env_laws unit _ toy_healthy 1 tt tt toy_publisher toy_info tt
    [toy_ack; toy_request] (toy_start [])) as (n & h & self' & w' & E & _);
    [split; reflexivity | discriminate |].
  rewrite E. reflexivity.
Defined.

Definition toy_delegate := @MessageDelegate_new toy_proto toy_uuid toy_world toy_env unit tt tt
  toy_publisher toy_info tt.

Lemma process_refines_table_witness :
  match @MessageDelegate_process toy_proto toy_digest toy_uuid toy_world toy_env unit 1
    toy_delegate toy_request (toy_start []) with
  | Done self' w' => phase_of (delegate_state self') = Phase_Error /\ w'.(tw_queued) = []
  | _ => False
  end.
Proof.
  pose proof (@process_refines_table toy_proto toy_digest toy_digest_laws toy_uuid toy_world toy_env
    toy_env_laws unit 1 toy_delegate toy_request
    (toy_start [])) as R.
  vm_compute in R |- *. destruct R as (P & _). split; [exact P | reflexivity].
Defined.

Lemma session_sent_shape_witness :
  exists (hello : option (@ClientHello)) n err,
    tw_sent (final (toy_session [Ok Ping; toy_request; toy_ack; Ok Ping])) =
      option_list (Hello <$> hello) ++ replicate n Pong ++ option_list err.
Proof.
  destruct (@session_sent_shape toy_proto toy_digest toy_digest_laws toy_uuid toy_world toy_env
    toy_env_laws unit 1 tt tt toy_publisher toy_info tt [Ok Ping; toy_request; toy_ack; Ok Ping]
    (toy_start [])) as (hello & n & err & E & _).
  exists hello, n, err. exact E.
Defined.

