(* ===== verification/Actor.v ===== *)
(** * The connection actor

    Models [rc-x509-client/src/connection/handler/actor.rs]: the control loop
    that sends the hello and then serves, by priority, the stop signal, the
    host's dispatch results and the server's messages.  The streams, the clock
    and suspension are added to the environment interface ([ActorEnv]). *)

From stdpp Require Import base option list strings.
From Stdlib Require Import Strings.Byte NArith ZArith Lia.
From S2P Require Import Prelude Hash Certificate ConnectionId Codec Mpsc Dispatch Runtime Fsm.

Class ActorEnv `{ProtoTypes} (W : Type) `{!ConnEnv W} : Type := {
  Incoming : Type;
  (** [stop.cancelled()], polled *)
  actor_stopped : CancellationToken -> W -> bool;
  (** [io.take_recv_stream()] *)
  env_take_recv_stream : prog W (option Incoming);
  (** [server_messages.next()], polled *)
  env_poll_incoming : Incoming -> prog W (poll (option (result ServerToClient DecodingError)));
  (** [dispatch_ack.next()], polled *)
  env_poll_response : ResponseReceiver -> prog W (poll (option DispatchResult));
  (** suspended until one of them is woken *)
  env_suspend : prog W ();
  (** [Instant::now()], in nanoseconds *)
  env_now : prog W N;
  env_update_metrics : MetricsRef -> (InstanceMetrics -> InstanceMetrics) -> prog W ()
}.

Section Actor.
Context `{ProtoTypes} `{AwsDigest} `{UuidLib}.
Context {W : Type} `{!ConnEnv W} `{!ActorEnv W} {V : Type}.

Record ConnectionActor : Type := mk_actor {
  ca_stop : CancellationToken;
  ca_dispatch_stream : option ResponseReceiver;
  ca_delegate : MessageDelegate (V:=V);
  ca_metrics : MetricsRef
}.

Definition ConnectionActor_new (stop : CancellationToken) (delegate : MessageDelegate (V:=V))
  (dispatch_stream : ResponseReceiver) (metrics : MetricsRef) : ConnectionActor :=
  mk_actor stop (Some dispatch_stream) delegate metrics.

Definition with_delegate (self : ConnectionActor) (d : MessageDelegate (V:=V)) : ConnectionActor :=
  mk_actor (ca_stop self) (ca_dispatch_stream self) d (ca_metrics self).

(** Attempts allowed to each [retry_send]. *)
Variable fuel : nat.

Definition server_message (self : ConnectionActor) (msg : result ServerToClient DecodingError) :
  prog W ConnectionActor :=
  d ← MessageDelegate_process fuel (ca_delegate self) msg;
  mret (with_delegate self d).

(** The response a dispatch result is forwarded as. *)
Definition response_message (v : DispatchResult) : ClientToServer :=
  DispatchResponse (dr_correlation_id v)
    (match dr_result v with
     | Ok payload => DR_Payload payload
     | Err err => DR_Error (V1DispatchError_code (DispatchError_into_v1 err))
     end).

Definition dispatch_response (self : ConnectionActor) (v : DispatchResult) : prog W () :=
  retry_send fuel (response_message v) (ca_stop self).

(** The biased [select!] loop, at most [n] polls. *)
Fixpoint actor_loop (n : nat) (dispatch_ack : ResponseReceiver) (server_messages : Incoming)
  (self : ConnectionActor) : prog W () :=
  match n with
  | 0 => fun w => Blocked w
  | S n =>
      stopped ← gets (actor_stopped (ca_stop self));
      if (stopped : bool) then mret tt
      else
        v ← env_poll_response dispatch_ack;
        match v with
        | Ready (Some v) =>
            dispatch_response self v ;; actor_loop n dispatch_ack server_messages self
        | Ready None => mret tt
        | Pending =>
            v ← env_poll_incoming server_messages;
            match v with
            | Ready (Some v) =>
                self ← server_message self v; actor_loop n dispatch_ack server_messages self
            | Ready None => mret tt
            | Pending => env_suspend ;; actor_loop n dispatch_ack server_messages self
            end
        end
  end.

Definition unwrap {A} (o : option A) : prog W A := of_panics o.

Definition run_loop (n : nat) (self : ConnectionActor) : prog W () :=
  dispatch_ack ← unwrap (ca_dispatch_stream self);
  let self := mk_actor (ca_stop self) None (ca_delegate self) (ca_metrics self) in
  stream ← env_take_recv_stream;
  server_messages ← unwrap stream;
  d ← MessageDelegate_send_hello fuel (ca_delegate self);
  actor_loop n dispatch_ack server_messages (with_delegate self d).

Definition ConnectionActor_run (n : nat) (self : ConnectionActor) : prog W () :=
  start ← env_now;
  let metrics := ca_metrics self in
  run_loop n self ;;
  now ← env_now;
  env_update_metrics metrics (InstanceMetrics_set_last_conn_duration (now - start)).

End Actor.

(** ** Frames *)

Section Frames.
Context `{ProtoTypes} `{AwsDigest} `{UuidLib}.
Context {W : Type} `{!ConnEnv W} {V : Type}.

(** A program that keeps the assertion [I], however it ends. *)
Definition preserves {A} (I : W -> Prop) (p : prog W A) : Prop := forall w, I w -> I (final (p w)).

(** An assertion that all of the connection's operations keep. *)
Class Stable (I : W -> Prop) : Prop := {
  stable_send : forall m, preserves I (env_send m);
  stable_stop : forall tok, preserves I (env_stop_or_sleep tok);
  stable_dispatch : forall p d, preserves I (env_dispatch p d);
  stable_rng : forall n w, I w -> I (snd (rand_fill n w))
}.

Lemma preserves_bind {A B} I (p : prog W A) (k : A -> prog W B) :
  preserves I p -> (forall a, preserves I (k a)) -> preserves I (p ≫= k).
Proof.
  intros Hp Hk w Hw. unfold mbind, prog_bind. specialize (Hp w Hw).
  destruct (p w) as [a w'|w'|w']; simpl in *; [by apply Hk | done..].
Qed.

Lemma preserves_ret {A} I (a : A) : preserves I (mret (M:=prog W) a).
Proof. by intros w. Qed.

Lemma preserves_gets {A} I (f : W -> A) : preserves I (gets f).
Proof. by intros w. Qed.

Lemma preserves_panics {A} I (p : panics A) : preserves I (of_panics p).
Proof. intros w. by destruct p. Qed.

Context (I : W -> Prop) `{!Stable I}.

Lemma preserves_retry_send fuel v stop : preserves I (retry_send fuel v stop).
Proof.
  induction fuel as [|fuel IH]; [by intros w|]. simpl. apply preserves_bind; [apply stable_send|].
  intros [[]|[]]; try apply preserves_ret; apply preserves_bind; try apply stable_stop;
    intros []; try done; apply preserves_ret.
Qed.

Lemma preserves_nonce : preserves I IdNonce_default.
Proof.
  intros w Hw. unfold IdNonce_default. pose proof (stable_rng 16 w Hw) as F.
  destruct (rand_fill 16 w) as [[bs|] w']; simpl in *; [by case_decide | done].
Qed.

Lemma preserves_protocol_error {S} fuel (f : Fsm (V:=V) S) b r :
  preserves I (Fsm_protocol_error fuel f b r).
Proof. apply preserves_bind; [apply preserves_retry_send | intros; apply preserves_ret]. Qed.

Lemma preserves_process_impl fuel (s : State (V:=V)) msg :
  preserves I (MessageDelegate_process_impl fuel s msg).
Proof.
  assert (Pong : forall st s', preserves I (retry_send fuel Pong st ;; mret (M:=prog W) (A:=State (V:=V)) s')).
  { intros. apply preserves_bind; [apply preserves_retry_send | intros; apply preserves_ret]. }
  destruct s as [f|f|f|f], msg as [[|certs|id payload sig|u|d]|e];
    cbn [MessageDelegate_process_impl State_process State_protocol_error PreHandshake_process
         Handshaking_process Active_process Error_process];
    try apply Pong; try apply preserves_ret; try apply preserves_protocol_error.
  - apply preserves_bind; [apply preserves_nonce|]. intros n.
    apply preserves_bind; [apply preserves_panics|].
    intros [c|e]; [apply preserves_ret | apply preserves_protocol_error].
  - unfold Active_handle_dispatch. destruct sig as [[cert [|b sig]]|]; try apply preserves_protocol_error.
    destruct (CertId.CertId_try_from cert); [|apply preserves_protocol_error].
    apply preserves_bind; [apply stable_dispatch | intros; apply preserves_ret].
Qed.

Lemma preserves_send_hello fuel (d : MessageDelegate (V:=V)) :
  preserves I (MessageDelegate_send_hello fuel d).
Proof.
  apply preserves_bind; [|intros; apply preserves_ret].
  destruct (delegate_state d); try by intros w.
  apply preserves_bind; [apply preserves_bind; [apply preserves_nonce | intros n]|].
  - apply preserves_bind; [apply preserves_gets | intros; apply preserves_ret].
  - intros [n h]. apply preserves_bind; [apply preserves_retry_send | intros; apply preserves_ret].
Qed.

End Frames.

(** An observation none of the connection's operations changes. *)
Class Framed `{ProtoTypes} {W X : Type} `{!ConnEnv W} (obs : W -> X) : Prop :=
  framed_stable :: forall x, Stable (fun w => obs w = x).

Lemma keeps {W X A} (obs : W -> X) (p : prog W A) w :
  (forall x, preserves (fun w => obs w = x) p) -> obs (final (p w)) = obs w.
Proof. intros K. by apply K. Qed.

(** An assertion that the actor's own operations keep as well. *)
Class ActorStable `{ProtoTypes} {W : Type} `{!ConnEnv W} `{!ActorEnv W} (I : W -> Prop) : Prop := {
  actor_stable :: Stable I;
  stable_response : forall rx, preserves I (env_poll_response rx);
  stable_incoming : forall rx, preserves I (env_poll_incoming rx);
  stable_suspend : preserves I env_suspend;
  stable_take : preserves I env_take_recv_stream;
  stable_now : preserves I env_now;
  stable_metrics : forall r f, preserves I (env_update_metrics r f)
}.

Section ActorFrames.
Context `{ProtoTypes} `{AwsDigest} `{UuidLib}.
Context {W : Type} `{!ConnEnv W} `{!ActorEnv W} {V : Type}.
Context (I : W -> Prop) `{!ActorStable I}.

Lemma preserves_actor_loop fuel n rx inc (self : ConnectionActor (V:=V)) :
  preserves I (actor_loop fuel n rx inc self).
Proof.
  revert self. induction n as [|n IH]; intros self; [by intros w|]. cbn [actor_loop].
  apply preserves_bind; [apply preserves_gets|]. intros []; [apply preserves_ret|].
  apply preserves_bind; [apply stable_response|].
  intros [[v|]|]; [apply preserves_bind | apply preserves_ret | apply preserves_bind].
  - by apply preserves_retry_send; apply actor_stable.
  - intros; apply IH.
  - apply stable_incoming.
  - intros [[v|]|]; [apply preserves_bind | apply preserves_ret | apply preserves_bind];
      [|intros; apply IH | apply stable_suspend | intros; apply IH].
    apply preserves_bind; [|intros; apply preserves_ret].
    apply preserves_bind; [apply preserves_process_impl, actor_stable | intros; apply preserves_ret].
Qed.

(** The actor as a whole keeps it. *)
Lemma preserves_run fuel n (self : ConnectionActor (V:=V)) :
  preserves I (ConnectionActor_run fuel n self).
Proof.
  unfold ConnectionActor_run, run_loop, unwrap.
  apply preserves_bind; [apply stable_now|]. intros t0. apply preserves_bind.
  - apply preserves_bind; [apply preserves_panics|]. intros rx. cbv zeta.
    apply preserves_bind; [apply stable_take|]. intros st.
    apply preserves_bind; [apply preserves_panics|]. intros inc.
    apply preserves_bind; [apply preserves_send_hello, actor_stable | intros; apply preserves_actor_loop].
  - intros _. apply preserves_bind; [apply stable_now | intros; apply stable_metrics].
Qed.

End ActorFrames.

(** ** What the actor logs *)

Class ActorEnvLaws `{ProtoTypes} (W : Type) `{!ConnEnv W} `{!ActorEnv W} `{!ConnEnvLaws W} : Type := {
  acked : W -> list DispatchResult;
  received : W -> list (result ServerToClient DecodingError);
  acked_framed :: Framed acked;
  received_framed :: Framed received;
  poll_response_log : forall rx w, let e := env_poll_response rx w in
    sent (final e) = sent w /\ queued (final e) = queued w /\ received (final e) = received w /\
    acked (final e) = acked w ++ match e with Done (Ready (Some v)) _ => [v] | _ => [] end;
  poll_incoming_log : forall rx w, let e := env_poll_incoming rx w in
    sent (final e) = sent w /\ queued (final e) = queued w /\ acked (final e) = acked w /\
    received (final e) = received w ++ match e with Done (Ready (Some v)) _ => [v] | _ => [] end;
  suspend_log : forall w, let w' := final (env_suspend w) in
    sent w' = sent w /\ queued w' = queued w /\ acked w' = acked w /\ received w' = received w;
  take_recv_log : forall w, let w' := final (env_take_recv_stream w) in
    sent w' = sent w /\ queued w' = queued w /\ acked w' = acked w /\ received w' = received w;
  clock_log : forall w, let w' := final (env_now w) in
    sent w' = sent w /\ queued w' = queued w /\ acked w' = acked w /\ received w' = received w;
  metrics_log : forall r f w, let w' := final (env_update_metrics r f w) in
    sent w' = sent w /\ queued w' = queued w /\ acked w' = acked w /\ received w' = received w
}.

Section ActorTrace.
Context `{ProtoTypes} `{AwsDigestLaws} `{UuidLib}.
Context {W : Type} `{!ConnEnv W} `{!ActorEnv W} `{!ConnEnvLaws W} `{!ActorEnvLaws W} {V : Type}.

Definition is_response (m : ClientToServer) : bool :=
  match m with DispatchResponse _ _ => true | _ => false end.

(** What the server is to receive for a result: its correlation identifier, and
    the payload or the wire format's code of the error. *)
Definition response_for (x : DispatchResult) : ClientToServer :=
  DispatchResponse (dr_correlation_id x)
    match dr_result x with
    | Ok payload => DR_Payload payload
    | Err UnknownPayload => DR_Error 1
    | Err NoDispatchHandler => DR_Error 2
    | Err HandlerQueueFull => DR_Error 3
    | Err UnknownHostDispatchError => DR_Error 4
    | Err DispatchRequestQueueFull => DR_Error 5
    | Err DispatchClosed => DR_Error 6
    | Err (ReplyDeserialisation _) => DR_Error 7
    | Err HandlerExecTimeout => DR_Error 8
    end.

Lemma response_message_for x : response_message x = response_for x.
Proof. unfold response_message, response_for. by destruct (dr_result x) as [|[]]. Qed.

Definition same_logs (w w' : W) : Prop :=
  sent w' = sent w /\ queued w' = queued w /\ acked w' = acked w /\ received w' = received w.

(** From [w] to [w'], starting in phase [p]: results [acks] and messages [msgs]
    were taken; of what was sent, the responses are a selection of the results,
    one each and in order, and the rest a selection of the table's replies to
    the messages; what was forwarded is a selection of the table's requests. *)
Definition actor_trace (p : phase) (w w' : W) : Prop := exists acks msgs l k,
  acked w' = acked w ++ acks /\ received w' = received w ++ msgs /\
  sent w' = sent w ++ l /\ queued w' = queued w ++ k /\
  List.filter is_response l `sublist_of` (response_for <$> acks) /\
  List.filter (negb ∘ is_response) l `sublist_of` replies (reactions p msgs) /\
  k `sublist_of` forwarded (reactions p msgs).

Lemma actor_trace_refl p w w' : same_logs w w' -> actor_trace p w w'.
Proof.
  intros (S & Q & A & R). exists [], [], [], []. rewrite !app_nil_r.
  split_and!; try done; apply sublist_nil_l.
Qed.

Lemma actor_trace_same p w w1 w' : same_logs w w1 -> actor_trace p w1 w' -> actor_trace p w w'.
Proof. intros (S & Q & A & R). unfold actor_trace. by rewrite S, Q, A, R. Qed.

Lemma actor_trace_ack p v w w1 w' :
  acked w1 = acked w ++ [v] -> received w1 = received w -> queued w1 = queued w ->
  grows (Some (response_message v)) (sent w) (sent w1) ->
  actor_trace p w1 w' -> actor_trace p w w'.
Proof.
  intros A R Q (l0 & S & L0)%grows_app (acks & msgs & l & k & A' & R' & S' & Q' & L1 & L2 & L3).
  rewrite response_message_for in L0.
  exists (v :: acks), msgs, (l0 ++ l), k. rewrite A', A, R', R, Q', Q, S', S, <- !app_assoc.
  rewrite !List.filter_app. simpl in L0.
  split_and!; [done.. | | | done].
  - apply sublist_cons_r in L0 as [L0|(l' & -> & L0)]; apply sublist_nil_r in L0; subst; simpl.
    + by apply sublist_cons.
    + by apply sublist_skip.
  - apply sublist_cons_r in L0 as [L0|(l' & -> & L0)]; apply sublist_nil_r in L0; subst; done.
Qed.

Lemma reaction_not_response p msg m : o_reply (reaction p msg) = Some m -> is_response m = false.
Proof. intros E. pose proof (reaction_reply p msg) as R. rewrite E in R. by destruct m. Qed.

Lemma replies_cons o os : replies (o :: os) = option_list (o_reply o) ++ replies os.
Proof. unfold replies. simpl. by destruct (o_reply o). Qed.

Lemma actor_trace_msg p msg w w1 w' :
  received w1 = received w ++ [msg] -> acked w1 = acked w ->
  grows (o_reply (reaction p msg)) (sent w) (sent w1) ->
  grows (o_dispatch (reaction p msg)) (queued w) (queued w1) ->
  actor_trace (o_phase (reaction p msg)) w1 w' -> actor_trace p w w'.
Proof.
  intros R A (l0 & S & L0)%grows_app (k0 & Q & K0)%grows_app
    (acks & msgs & l & k & A' & R' & S' & Q' & L1 & L2 & L3).
  assert (N : Forall (fun m => is_response m = false) l0).
  { apply Forall_forall. intros m Hm. eapply elem_of_sublist in Hm; [|exact L0].
    destruct (o_reply (reaction p msg)) as [m'|] eqn:E; simpl in Hm.
    - apply list_elem_of_singleton in Hm as ->. by eapply reaction_not_response.
    - by apply not_elem_of_nil in Hm. }
  assert (F1 : List.filter is_response l0 = []).
  { clear -N. induction N as [|m l0 Hm N IH]; simpl; [done | by rewrite Hm]. }
  assert (F2 : List.filter (negb ∘ is_response) l0 = l0).
  { clear -N. induction N as [|m l0 Hm N IH]; simpl; [done | by rewrite Hm; simpl; rewrite IH]. }
  exists acks, (msg :: msgs), (l0 ++ l), (k0 ++ k).
  rewrite A', A, R', R, Q', Q, S', S, <- !app_assoc, !List.filter_app, F1, F2.
  rewrite reactions_cons, replies_cons, forwarded_cons.
  split_and!; try done; by apply sublist_app.
Qed.

Definition actor_phase (self : ConnectionActor (V:=V)) : phase :=
  phase_of (delegate_state (ca_delegate self)).

(** Forwarding a dispatch result, then continuing with [k]. *)
Lemma ack_branch fuel v (self : ConnectionActor (V:=V)) p w w1 (k : prog W ()) :
  acked w1 = acked w ++ [v] -> received w1 = received w -> sent w1 = sent w ->
  queued w1 = queued w -> (forall w2, actor_trace p w2 (final (k w2))) ->
  actor_trace p w (final ((dispatch_response fuel self v ;; k) w1)).
Proof.
  intros A R S Q K. unfold dispatch_response, mbind, prog_bind.
  destruct (retry_send_at_most fuel (response_message v) (ca_stop self) w1) as [Q2 S2].
  pose proof (keeps acked (retry_send fuel (response_message v) (ca_stop self)) w1 (fun x => preserves_retry_send _ _ _ _)) as A2.
  pose proof (keeps received (retry_send fuel (response_message v) (ca_stop self)) w1 (fun x => preserves_retry_send _ _ _ _)) as R2.
  assert (G : grows (Some (response_message v)) (sent w)
    (sent (final (retry_send fuel (response_message v) (ca_stop self) w1)))).
  { rewrite <- S. destruct S2 as [S2|[_ S2]]; [by left | right; eauto]. }
  destruct (retry_send fuel (response_message v) (ca_stop self) w1) as [[] w2|w2|w2];
    cbn [final] in *; eapply actor_trace_ack; try exact G; try congruence;
    [apply K | by apply actor_trace_refl..].
Qed.

(** Processing a server message, then continuing with [k]. *)
Lemma msg_branch fuel v (self : ConnectionActor (V:=V)) w w1 (k : ConnectionActor -> prog W ()) :
  received w1 = received w ++ [v] -> acked w1 = acked w -> sent w1 = sent w ->
  queued w1 = queued w ->
  (forall self' w2, actor_trace (actor_phase self') w2 (final (k self' w2))) ->
  actor_trace (actor_phase self) w (final ((self' ← server_message fuel self v; k self') w1)).
Proof.
  intros R A S Q K. unfold server_message, actor_phase.
  pose proof (process_follows fuel (delegate_state (ca_delegate self)) v w1) as F.
  pose proof (keeps acked (MessageDelegate_process_impl fuel (delegate_state (ca_delegate self)) v) w1
    (fun x => preserves_process_impl _ _ _ _)) as A2.
  pose proof (keeps received (MessageDelegate_process_impl fuel (delegate_state (ca_delegate self)) v) w1
    (fun x => preserves_process_impl _ _ _ _)) as R2.
  unfold MessageDelegate_process, mbind, prog_bind.
  destruct (MessageDelegate_process_impl fuel (delegate_state (ca_delegate self)) v w1)
    as [s2 w2|w2|w2]; cbn [final follows mret prog_ret] in *.
  - destruct F as (P & _ & S2 & Q2). rewrite S in S2. rewrite Q in Q2.
    eapply (actor_trace_msg _ v w w2); [congruence | congruence | exact S2 | exact Q2 |].
    rewrite <- P. apply (K (with_delegate self (mk_delegate s2))).
  - destruct F as [S2 Q2]. eapply (actor_trace_msg _ v w w2);
      [congruence | congruence | left; congruence | left; congruence | by apply actor_trace_refl].
  - destruct F as [S2 Q2]. eapply (actor_trace_msg _ v w w2);
      [congruence | congruence | left; congruence | left; congruence | by apply actor_trace_refl].
Qed.

(** The loop, however many polls it gets and however it ends. *)
Lemma actor_loop_trace fuel n rx inc (self : ConnectionActor (V:=V)) w :
  actor_trace (actor_phase self) w (final (actor_loop fuel n rx inc self w)).
Proof.
  revert self w. induction n as [|n IH]; intros self w; [by apply actor_trace_refl|].
  cbn [actor_loop]. unfold gets. unfold mbind at 1, prog_bind at 1. cbv beta iota.
  destruct (actor_stopped (ca_stop self) w); [by apply actor_trace_refl|].
  unfold mbind at 1, prog_bind at 1. pose proof (poll_response_log rx w) as (S & Q & R & A).
  destruct (env_poll_response rx w) as [[[v|]|] w1|w1|w1]; cbn [final] in *;
    rewrite ?app_nil_r in A; try by (apply actor_trace_refl; split_and!).
  { apply ack_branch; auto. }
  unfold mbind at 1, prog_bind at 1.
  pose proof (poll_incoming_log inc w1) as (S1 & Q1 & A1 & R1).
  destruct (env_poll_incoming inc w1) as [[[v|]|] w2|w2|w2]; cbn [final mret prog_ret] in *;
    rewrite ?app_nil_r in R1.
  - apply msg_branch; auto; congruence.
  - apply actor_trace_refl. change (same_logs w w2). split_and!; congruence.
  - unfold mbind, prog_bind. pose proof (suspend_log w2) as (S2 & Q2 & A2 & R2).
    destruct (env_suspend w2) as [[] w3|w3|w3]; cbn [final] in *;
      [eapply actor_trace_same; [|apply IH] | apply actor_trace_refl | apply actor_trace_refl];
      split_and!; congruence.
  - apply actor_trace_refl; split_and!; congruence.
  - apply actor_trace_refl; split_and!; congruence.
Qed.

End ActorTrace.

(** ** A scripted environment for concrete evaluation

    The scripted connection of [Runtime] with the results and messages that are
    still to come; a stream that has run dry is closed. *)
Record toy_actor_world : Type := mk_toy_actor {
  ta_base : toy_world;
  ta_acks : list (@DispatchResult toy_proto);
  ta_msgs : list (result ServerToClient (@DecodingError toy_proto));
  ta_acked : list (@DispatchResult toy_proto);
  ta_received : list (result ServerToClient (@DecodingError toy_proto));
  ta_metrics : InstanceMetrics
}.

Definition on_base (w : toy_actor_world) (b : toy_world) : toy_actor_world :=
  mk_toy_actor b (ta_acks w) (ta_msgs w) (ta_acked w) (ta_received w) (ta_metrics w).

Definition lift_base {A} (p : prog toy_world A) : prog toy_actor_world A := fun w =>
  match p (ta_base w) with
  | Done a b => Done a (on_base w b)
  | Panic b => Panic (on_base w b)
  | Blocked b => Blocked (on_base w b)
  end.

#[export] Instance toy_actor_conn : @ConnEnv toy_proto toy_actor_world := {|
  CancellationToken := unit;
  MetricsRef := unit;
  env_send m := lift_base (env_send (ConnEnv:=toy_env) m);
  env_stop_or_sleep tok := lift_base (env_stop_or_sleep (ConnEnv:=toy_env) tok);
  env_dispatch p d := lift_base (env_dispatch (ConnEnv:=toy_env) p d);
  env_rng n w := (Some (replicate n (tw_seed (ta_base w))), w);
  env_metrics _ w := ta_metrics w
|}.

#[export] Instance toy_actor_conn_laws : @ConnEnvLaws toy_proto toy_actor_world toy_actor_conn.
Proof.
  refine {| sent := fun w => tw_sent (ta_base w); queued := fun w => tw_queued (ta_base w) |}.
  - intros m [[[|e es] ? ? ? ? ?] ? ? ? ? ?]; done.
  - intros [] [[? ? ? ? [] ?] ? ? ? ? ?]; done.
  - intros p d []; done.
  - done.
  - done.
  - intros n w bs [= <-]. apply length_replicate.
Defined.

#[export] Instance toy_actor_env : @ActorEnv toy_proto toy_actor_world toy_actor_conn := {|
  Incoming := unit;
  actor_stopped _ w := tw_stopped (ta_base w);
  env_take_recv_stream w := Done (Some tt) w;
  env_poll_incoming _ w := match ta_msgs w with
    | m :: ms => Done (Ready (Some m)) (mk_toy_actor (ta_base w) (ta_acks w) ms (ta_acked w)
        (ta_received w ++ [m]) (ta_metrics w))
    | [] => Done (Ready None) w
    end;
  env_poll_response _ w := match ta_acks w with
    | a :: as_ => Done (Ready (Some a)) (mk_toy_actor (ta_base w) as_ (ta_msgs w)
        (ta_acked w ++ [a]) (ta_received w) (ta_metrics w))
    | [] => Done Pending w
    end;
  env_suspend w := Done tt w;
  env_now w := Done 5000000000%N w;
  env_update_metrics _ f w := Done tt (mk_toy_actor (ta_base w) (ta_acks w) (ta_msgs w)
    (ta_acked w) (ta_received w) (f (ta_metrics w)))
|}.

#[export] Instance toy_actor_laws :
  @ActorEnvLaws toy_proto toy_actor_world toy_actor_conn toy_actor_env toy_actor_conn_laws.
Proof.
  refine {| acked := ta_acked; received := ta_received |}.
  - split; [intros m [[[|] ? ? ? ? ?] ? ? ? ? ?] | intros [] [[? ? ? ? [] ?] ? ? ? ? ?] | intros p d [] | ]; done.
  - split; [intros m [[[|] ? ? ? ? ?] ? ? ? ? ?] | intros [] [[? ? ? ? [] ?] ? ? ? ? ?] | intros p d [] | ]; done.
  - intros rx [? [|] ? ? ? ?]; simpl; by rewrite ?app_nil_r.
  - intros rx [? ? [|] ? ? ?]; simpl; by rewrite ?app_nil_r.
  - done.
  - done.
  - done.
  - done.
Defined.

Definition toy_actor_start (acks : list DispatchResult)
  (msgs : list (result ServerToClient (@DecodingError toy_proto))) : toy_actor_world :=
  mk_toy_actor (toy_start []) acks msgs [] [] (InstanceMetrics_default toy_version).

(** ** Properties *)

Section ActorProperties.
Context `{ProtoTypes} `{AwsDigestLaws} `{UuidLib}.
Context {W : Type} `{!ConnEnv W} `{!ActorEnv W} `{!ConnEnvLaws W} `{!ActorEnvLaws W} {V : Type}.

(** The actor of a new connection, run with at most [n] polls. *)
Definition run_new_actor (fuel n : nat) (stop : CancellationToken) (metrics : MetricsRef)
  (dispatch : DispatchPublisher) (rx : ResponseReceiver) (info : AppInfo) (verifier : V) : prog W () :=
  ConnectionActor_run fuel n
    (ConnectionActor_new stop (MessageDelegate_new stop metrics dispatch info verifier) rx metrics).

Lemma preserves_run_new_actor (I : W -> Prop) `{!ActorStable I} fuel n stop metrics dispatch rx info v :
  preserves I (run_new_actor fuel n stop metrics dispatch rx info v).
Proof. apply preserves_run. done. Qed.

Lemma run_loop_eq fuel n stop metrics d rx w :
  run_loop fuel n (ConnectionActor_new (V:=V) stop d rx metrics) w =
  match env_take_recv_stream w with
  | Done (Some st) w0 =>
      match MessageDelegate_send_hello fuel d w0 with
      | Done d' w1 => actor_loop fuel n rx st (with_delegate (mk_actor stop None d metrics) d') w1
      | Panic w1 => Panic w1
      | Blocked w1 => Blocked w1
      end
  | Done None w0 | Panic w0 => Panic w0
  | Blocked w0 => Blocked w0
  end.
Proof.
  unfold run_loop, unwrap, of_panics, mbind, prog_bind. simpl.
  by destruct (env_take_recv_stream w) as [[st|] w0|w0|w0].
Qed.

Lemma run_loop_trace fuel n stop metrics dispatch rx info (v : V) w :
  let e := run_loop fuel n (ConnectionActor_new stop
    (MessageDelegate_new stop metrics dispatch info v) rx metrics) w in
  same_logs w (final e) \/ exists nonce h w1, nonce_wf nonce /\
    ch_client_nonce h = IdNonce_as_bytes nonce /\
    grows (Some (Hello h)) (sent w) (sent w1) /\ queued w1 = queued w /\
    acked w1 = acked w /\ received w1 = received w /\
    actor_trace (Phase_Handshaking nonce) w1 (final e).
Proof.
  cbv zeta. rewrite run_loop_eq. pose proof (take_recv_log w) as (S0 & Q0 & A0 & R0).
  destruct (env_take_recv_stream w) as [[st|] w0|w0|w0]; cbn [final] in *;
    [|by left; split_and!..].
  pose proof (send_hello_follows fuel (PreHandshake_new metrics stop dispatch info v) w0) as F.
  pose proof (keeps acked (MessageDelegate_send_hello fuel (MessageDelegate_new stop metrics dispatch info v)) w0
    (fun x => preserves_send_hello _ _ _)) as A1.
  pose proof (keeps received (MessageDelegate_send_hello fuel (MessageDelegate_new stop metrics dispatch info v)) w0
    (fun x => preserves_send_hello _ _ _)) as R1.
  unfold MessageDelegate_new in *.
  destruct (MessageDelegate_send_hello fuel _ w0) as [self w1|w1|w1]; cbn [final] in *.
  - right. destruct F as (nonce & h & Hn & Hh & _ & P & G & Q).
    exists nonce, h, w1. rewrite S0 in G. split_and!; try congruence; try done.
    rewrite <- P. apply (actor_loop_trace fuel n rx st (with_delegate _ self)).
  - left. destruct F. split_and!; congruence.
  - left. destruct F. split_and!; congruence.
Qed.

(** Taking the time before and recording the duration after leave no trace. *)
Lemma run_final fuel n (self : ConnectionActor (V:=V)) w :
  same_logs w (final (ConnectionActor_run fuel n self w)) \/ exists w0, same_logs w w0 /\
    same_logs (final (run_loop fuel n self w0)) (final (ConnectionActor_run fuel n self w)).
Proof.
  unfold ConnectionActor_run, mbind, prog_bind. pose proof (clock_log w) as C0.
  destruct (env_now w) as [t0 w0|w0|w0]; cbn [final] in *; [|by left..].
  right. exists w0. split; [done|].
  destruct (run_loop fuel n self w0) as [[] w1|w1|w1]; cbn [final]; [|done..].
  pose proof (clock_log w1) as (S1 & Q1 & A1 & R1).
  destruct (env_now w1) as [t1 w2|w2|w2]; cbn [final] in *; [|by split_and!..].
  pose proof (metrics_log (ca_metrics self) (InstanceMetrics_set_last_conn_duration (t1 - t0)) w2)
    as (S2 & Q2 & A2 & R2). split_and!; congruence.
Qed.

(** The whole run, in terms of the table. *)
Lemma run_new_actor_trace fuel n stop metrics dispatch rx info v w :
  let e := run_new_actor fuel n stop metrics dispatch rx info v w in
  same_logs w (final e) \/
  exists nonce h hello acks msgs l k, nonce_wf nonce /\
    ch_client_nonce h = IdNonce_as_bytes nonce /\ (hello = [] \/ hello = [Hello h]) /\
    acked (final e) = acked w ++ acks /\ received (final e) = received w ++ msgs /\
    sent (final e) = sent w ++ hello ++ l /\ queued (final e) = queued w ++ k /\
    List.filter is_response l `sublist_of` (response_for <$> acks) /\
    List.filter (negb ∘ is_response) l `sublist_of`
      replies (reactions (Phase_Handshaking nonce) msgs) /\
    k `sublist_of` forwarded (reactions (Phase_Handshaking nonce) msgs).
Proof.
  cbv zeta. unfold run_new_actor.
  destruct (run_final fuel n (ConnectionActor_new stop
    (MessageDelegate_new stop metrics dispatch info v) rx metrics) w) as [C|(w0 & (S0 & Q0 & A0 & R0) & (S2 & Q2 & A2 & R2))];
    [by left|].
  destruct (run_loop_trace fuel n stop metrics dispatch rx info v w0)
    as [(S1 & Q1 & A1 & R1)|(nonce & h & w1 & Hn & Hh & G & Q1 & A1 & R1 &
    (acks & msgs & l & k & A' & R' & S' & Q' & L1 & L2 & L3))].
  { left. split_and!; congruence. }
  right. destruct G as [G|(x & [= <-] & G)].
  - exists nonce, h, [], acks, msgs, l, k. rewrite app_nil_l.
    split_and!; try done; [by left | congruence..].
  - exists nonce, h, [Hello h], acks, msgs, l, k. split_and!; try congruence; try done; [by right|].
    rewrite S2, S', G, S0, <- app_assoc. done.
Qed.

(** C11. A connection actor, over any number of polls and however it ends: it
    sends at most one hello, first; every dispatch response it sends carries
    the correlation identifier and outcome of one host result it took, each
    result answered at most once and in the order taken; everything else it
    sends, and everything it forwards to the host, is a selection in order of
    what the reaction table gives for the server messages it took. *)
Theorem actor_run_trace fuel n stop metrics dispatch rx info v w :
  let e := run_new_actor fuel n stop metrics dispatch rx info v w in
  same_logs w (final e) \/
  exists nonce h hello acks msgs l k, nonce_wf nonce /\
    ch_client_nonce h = IdNonce_as_bytes nonce /\ (hello = [] \/ hello = [Hello h]) /\
    acked (final e) = acked w ++ acks /\ received (final e) = received w ++ msgs /\
    sent (final e) = sent w ++ hello ++ l /\ queued (final e) = queued w ++ k /\
    List.filter is_response l `sublist_of` (response_for <$> acks) /\
    List.filter (negb ∘ is_response) l `sublist_of`
      replies (reactions (Phase_Handshaking nonce) msgs) /\
    k `sublist_of` forwarded (reactions (Phase_Handshaking nonce) msgs).
Proof. apply run_new_actor_trace. Qed.

End ActorProperties.

(** *** Witness *)

(** Acknowledged, two requests; the host's results are answered, then the
    duration is recorded. *)
Lemma actor_run_trace_witness :
  let e := @run_new_actor toy_proto toy_digest toy_uuid toy_actor_world toy_actor_conn toy_actor_env
    unit 1 9 tt tt toy_publisher response_rx toy_info tt
    (toy_actor_start [toy_result 3; toy_result 4] [toy_ack; toy_request]) in
  length (tw_sent (ta_base (final e))) = 3 /\ completed e = true /\
  exists hello l, tw_sent (ta_base (final e)) = hello ++ l /\
    List.filter is_response l `sublist_of` [response_for (toy_result 3); response_for (toy_result 4)].
Proof.
  split; [reflexivity|]. split; [reflexivity|].
  destruct (@actor_run_trace toy_proto toy_digest toy_digest_laws toy_uuid toy_actor_world
    toy_actor_conn toy_actor_env toy_actor_conn_laws toy_actor_laws unit 1 9 tt tt toy_publisher
    response_rx toy_info tt (toy_actor_start [toy_result 3; toy_result 4] [toy_ack; toy_request]))
    as [(S & _)|(nonce & h & hello & acks & msgs & l & k & _ & _ & _ & A & _ & S & _ & L & _)];
    [discriminate S|].
  exists hello, l. split; [exact S|]. vm_compute in A. rewrite <- A in L. exact L.
Defined.
