(* ===== verification/Ffi.v ===== *)
(** * The FFI connection

    Models [rc-x509-ffi/src/connection.rs] up to its two tasks: the lifecycle
    state of an [FFIConnection], the calls the host makes on it
    ([rc_conn_*]), the events it publishes to the client library, and
    [IOHandle] (io_handle.rs).  A connection connects at most once, so the
    system state has one set of channels; [yield] is what the tasks and the
    client library do while a host call blocks, and [join_io] /
    [join_dispatch] wait for the spawned tasks.  Calls behave differently in
    debug and release builds; [debug] is [cfg!(debug_assertions)]. *)

From stdpp Require Import base option list strings.
From Stdlib Require Import Strings.Byte NArith ZArith Lia.
From S2P Require Import Prelude Utf8 Codec Mpsc Dispatch Runtime.

Definition QUEUE_BUFFER_LEN : nat := 100.

(** ** Values returned to and from the host *)

Inductive DispatchRet : Type :=
| DispatchRet_Success | DispatchRet_UnknownPayload | DispatchRet_NoDispatchHandler
| DispatchRet_QueueFull | DispatchRet_Unknown.
Inductive DispatchHostError : Type := DispatchHostError_HandlerExecTimeout.
Inductive SendRet : Type := SendRet_Success | SendRet_Closed | SendRet_Unknown.
Inductive RecvRet : Type := RecvRet_Success | RecvRet_InvalidState.
Inductive ConnRet : Type := ConnRet_Success | ConnRet_InvalidState.

(** Function and data pointers of the host, null being zero. *)
Definition pointer : Type := N.
Record SendCbUserData : Type := mk_send_user_data { scu_ptr : pointer }.
Record DispatchCbUserData : Type := mk_dispatch_user_data { dcu_ptr : pointer }.

(** ** Lifecycle events, and the I/O handle *)

(** [IOHandle]: the sender of the outgoing and the receiver of the incoming
    channel. *)
Record IOHandle : Type := mk_io_handle { io_rx : bool }.
Definition IOHandle_new : IOHandle := mk_io_handle true.
Definition IOHandle_take_recv_stream (self : IOHandle) : bool * IOHandle :=
  (io_rx self, mk_io_handle false).

(** [EndpointHostname] of the client crate. *)
Record EndpointHostname : Type := EndpointHostname_from { endpoint_str : string }.

Inductive ConnectionEvent : Type :=
| Event_Init
| Event_Connected (io : IOHandle) (dispatch : DispatchPublisher) (endpoint : EndpointHostname)
| Event_Disconnected
| Event_Release.

Inductive FState : Type :=
| Init
| Configured (send : pointer) (user_data : SendCbUserData)
| Connected (dispatch_responder : DispatchResponder)
| Disconnected.

Record FFIConnection : Type := mk_ffi_connection {
  fc_dispatch : pointer;
  fc_dispatch_user_data : DispatchCbUserData;
  fc_state : FState
}.

Definition set_state (c : FFIConnection) (s : FState) : FFIConnection :=
  mk_ffi_connection (fc_dispatch c) (fc_dispatch_user_data c) s.

Section Ffi.
Context `{ProtoTypes} `{!Prost} `{Mpsc}.

(** What the connection shares with its tasks and the client library, next to
    the dispatch interconnect. *)
Record FfiRest : Type := mk_rest {
  fr_events : list ConnectionEvent;
  fr_events_open : bool;
  fr_lib2ffi : mpsc ClientToServer;
  fr_ffi2lib : mpsc (result ServerToClient DecodingError);
  fr_io_stop : bool;
  fr_dispatch_stop : bool;
  fr_tasks : option (pointer * SendCbUserData)
}.

Definition Sys : Type := Shared FfiRest.
Definition set_rest (f : FfiRest -> FfiRest) (s : Sys) : Sys :=
  mk_shared (sh_req s) (sh_resp s) (f (sh_rest s)).

Context (debug : bool) (yield : Sys -> Sys) (fuel : nat)
  (join_io join_dispatch : prog Sys (result () ())).

(** [invalid_state!]. *)
Definition invalid_state {A} (ret : A) : prog Sys A := if debug then panic else mret ret.

(** [publish_event]. *)
Definition publish_event (e : ConnectionEvent) : prog Sys () := fun s =>
  let r := sh_rest s in
  if fr_events_open r then
    Done tt (set_rest (fun r => mk_rest (fr_events r ++ [e]) (fr_events_open r) (fr_lib2ffi r)
      (fr_ffi2lib r) (fr_io_stop r) (fr_dispatch_stop r) (fr_tasks r)) s)
  else Panic s.

(** [IOHandle::send], on its outgoing channel. *)
Definition IOHandle_send (payload : ClientToServer) (tx : mpsc ClientToServer) :
  result () ConnectionErr * mpsc ClientToServer :=
  let '(r, c) := mpsc_try_send payload tx in
  (match r with
   | Ok _ => Ok tt
   | Err TrySend_Closed => Err ConnectionErr_Closed
   | Err TrySend_Full => Err ConnectionErr_QueueFull
   end, c).

(** [FFIConnection::new]. *)
Definition FFIConnection_new (dispatch : pointer) (user_data : DispatchCbUserData) :
  prog Sys FFIConnection :=
  if decide (dispatch = 0%N) then panic
  else publish_event Event_Init ;; mret (mk_ffi_connection dispatch user_data Init).

(** [handle_dispatch_result]. *)
Definition handle_dispatch_result (self : FFIConnection) (payload : DispatchResult) : prog Sys () :=
  match fc_state self with
  | Connected dispatch_responder =>
      _ ← DispatchResponder_send_response yield fuel dispatch_responder payload; mret tt
  | Init | Configured _ _ | Disconnected => mret tt
  end.

(** Channels, tasks and interconnect of a new connection.  The responder is
    cloned for the dispatch task. *)
Definition open_link (send : pointer) (user_data : SendCbUserData) (s : Sys) : Sys :=
  let r := sh_rest s in
  let ic := snd (new_dispatcher_interconnect
    (mk_rest (fr_events r) (fr_events_open r) (mpsc_channel QUEUE_BUFFER_LEN)
      (mpsc_channel QUEUE_BUFFER_LEN) false false (Some (send, user_data)))) in
  set_resp (mpsc_clone_tx (sh_resp ic)) ic.

(** [set_connected]. *)
Definition set_connected (self : FFIConnection) (endpoint : EndpointHostname) :
  prog Sys (FFIConnection * ConnRet) :=
  match fc_state self with
  | Configured send user_data =>
      modify (open_link send user_data) ;;
      let self := set_state self (Connected (mk_responder response_tx)) in
      publish_event (Event_Connected IOHandle_new
        (mk_publisher request_tx (Some response_rx) response_weak) endpoint) ;;
      mret (self, ConnRet_Success)
  | Init | Connected _ | Disconnected =>
      r ← invalid_state ConnRet_InvalidState; mret (self, r)
  end.

(** [block_on(ffi2lib.send(payload))]. *)
Fixpoint ffi2lib_send (n : nat) (payload : result ServerToClient DecodingError) :
  prog Sys (result () ()) := fun s =>
  match n with
  | 0 => Blocked s
  | S n =>
      let '(p, c) := mpsc_poll_send payload (fr_ffi2lib (sh_rest s)) in
      let s' := set_rest (fun r => mk_rest (fr_events r) (fr_events_open r) (fr_lib2ffi r) c
        (fr_io_stop r) (fr_dispatch_stop r) (fr_tasks r)) s in
      match p with Ready r => Done r s' | Pending => ffi2lib_send n payload (yield s') end
  end.

(** [recv_incoming]. *)
Definition recv_incoming (self : FFIConnection) (payload : result ServerToClient DecodingError) :
  prog Sys RecvRet :=
  match fc_state self with
  | Connected _ => _ ← ffi2lib_send fuel payload; mret RecvRet_Success
  | Init | Configured _ _ | Disconnected => invalid_state RecvRet_InvalidState
  end.

(** Both stop signals. *)
Definition cancel_tasks (s : Sys) : Sys :=
  set_rest (fun r => mk_rest (fr_events r) (fr_events_open r) (fr_lib2ffi r) (fr_ffi2lib r)
    true true (fr_tasks r)) s.

(** The senders the connected state held. *)
Definition drop_link (s : Sys) : Sys :=
  set_resp (mpsc_drop_tx (sh_resp s))
    (set_rest (fun r => mk_rest (fr_events r) (fr_events_open r) (fr_lib2ffi r)
      (mpsc_drop_tx (fr_ffi2lib r)) (fr_io_stop r) (fr_dispatch_stop r) (fr_tasks r)) s).

(** [block_on(task).expect(..)]. *)
Definition expect_joined (join : prog Sys (result () ())) : prog Sys () :=
  r ← join; match r with Ok _ => mret tt | Err _ => panic end.

(** [set_disconnected]. *)
Definition set_disconnected (self : FFIConnection) : prog Sys (FFIConnection * ConnRet) :=
  match fc_state self with
  | Connected _ =>
      let self := set_state self Disconnected in
      modify cancel_tasks ;;
      expect_joined join_io ;;
      expect_joined join_dispatch ;;
      publish_event Event_Disconnected ;;
      modify drop_link ;;
      mret (self, ConnRet_Success)
  | Init | Configured _ _ | Disconnected =>
      r ← invalid_state ConnRet_InvalidState; mret (self, r)
  end.

(** [set_send_callback]. *)
Definition set_send_callback (self : FFIConnection) (cb : pointer) (user_data : SendCbUserData) :
  prog Sys (FFIConnection * ConnRet) :=
  if decide (cb = 0%N) then panic
  else match fc_state self with
  | Init | Configured _ _ => mret (set_state self (Configured cb user_data), ConnRet_Success)
  | Connected _ | Disconnected => r ← invalid_state ConnRet_InvalidState; mret (self, r)
  end.

(** [free]: on [Ok] the connection is gone. *)
Definition FFIConnection_free (self : FFIConnection) :
  prog Sys (result () (FFIConnection * ConnRet)) :=
  match fc_state self with
  | Connected _ => ret ← invalid_state ConnRet_InvalidState; mret (Err (self, ret))
  | Init | Configured _ _ | Disconnected => publish_event Event_Release ;; mret (Ok tt)
  end.

(** ** The exported functions

    A pointer argument is [None] when null; a buffer is its bytes, the length
    argument being its length. *)

Definition assert_not_null {A} (p : option A) : prog Sys A :=
  match p with Some a => mret a | None => panic end.

Definition rc_conn_new (ctx : option ()) (dispatch : pointer) (user_data : pointer) :
  prog Sys FFIConnection :=
  _ ← assert_not_null ctx; FFIConnection_new dispatch (mk_dispatch_user_data user_data).

Definition rc_conn_dispatch_result (conn : option FFIConnection) (correlation_id : N)
  (data : option (list u8)) : prog Sys () :=
  conn ← assert_not_null conn;
  payload ← assert_not_null data;
  if decide (payload = []) then mret tt
  else
    let result := map_err ReplyDeserialisation (decode_response_payload payload) in
    handle_dispatch_result conn (mk_dispatch_result (CorrelationId_new correlation_id) result).

(** [From<DispatchHostError> for DispatchError]. *)
Definition DispatchHostError_into (e : DispatchHostError) : DispatchError :=
  match e with DispatchHostError_HandlerExecTimeout => HandlerExecTimeout end.

Definition rc_conn_dispatch_error (conn : option FFIConnection) (correlation_id : N)
  (error : DispatchHostError) : prog Sys () :=
  conn ← assert_not_null conn;
  handle_dispatch_result conn
    (mk_dispatch_result (CorrelationId_new correlation_id) (Err (DispatchHostError_into error))).

Definition rc_conn_connected (conn : option FFIConnection) (endpoint_hostname : option (list u8)) :
  prog Sys (FFIConnection * ConnRet) :=
  conn ← assert_not_null conn;
  bytes ← assert_not_null endpoint_hostname;
  name ← assert_not_null (from_utf8 bytes);
  set_connected conn (EndpointHostname_from name).

Definition rc_conn_disconnected (conn : option FFIConnection) : prog Sys (FFIConnection * ConnRet) :=
  conn ← assert_not_null conn; set_disconnected conn.

Definition rc_conn_recv (conn : option FFIConnection) (data : option (list u8)) : prog Sys RecvRet :=
  conn ← assert_not_null conn;
  payload ← assert_not_null data;
  if decide (payload = []) then mret RecvRet_Success
  else recv_incoming conn (ServerToClient_try_from payload).

Definition rc_conn_send_callback (conn : option FFIConnection) (cb user_data : pointer) :
  prog Sys (FFIConnection * ConnRet) :=
  conn ← assert_not_null conn; set_send_callback conn cb (mk_send_user_data user_data).

(** The connection that remains, if it was not freed. *)
Definition rc_conn_free (conn : option FFIConnection) : prog Sys (option FFIConnection * ConnRet) :=
  conn ← assert_not_null conn;
  r ← FFIConnection_free conn;
  mret (match r with Ok _ => (None, ConnRet_Success) | Err (conn, ret) => (Some conn, ret) end).

End Ffi.

(** ** The host as a sequence of calls *)

Section Host.
Context `{ProtoTypes} `{!Prost} `{Mpsc}.
Context (debug : bool) (yield : Sys -> Sys) (fuel : nat)
  (join_io join_dispatch : prog Sys (result () ())).

Inductive host_call : Type :=
| Call_send_callback (cb user_data : pointer)
| Call_connected (endpoint_hostname : list u8)
| Call_disconnected
| Call_recv (data : list u8)
| Call_dispatch_result (correlation_id : N) (data : list u8)
| Call_dispatch_error (correlation_id : N) (error : DispatchHostError)
| Call_free.

(** One call on a live connection; [None] once it is freed. *)
Definition host_step (c : FFIConnection) (call : host_call) : prog Sys (option FFIConnection) :=
  match call with
  | Call_send_callback cb ud =>
      r ← rc_conn_send_callback debug (Some c) cb ud; mret (Some (fst r))
  | Call_connected h => r ← rc_conn_connected debug (Some c) (Some h); mret (Some (fst r))
  | Call_disconnected =>
      r ← rc_conn_disconnected debug join_io join_dispatch (Some c); mret (Some (fst r))
  | Call_recv data => _ ← rc_conn_recv debug yield fuel (Some c) (Some data); mret (Some c)
  | Call_dispatch_result id data =>
      rc_conn_dispatch_result yield fuel (Some c) id (Some data) ;; mret (Some c)
  | Call_dispatch_error id e => rc_conn_dispatch_error yield fuel (Some c) id e ;; mret (Some c)
  | Call_free => r ← rc_conn_free debug (Some c); mret (fst r)
  end.

(** A freed connection takes no more calls. *)
Fixpoint run_calls (c : option FFIConnection) (calls : list host_call) :
  prog Sys (option FFIConnection) :=
  match c, calls with
  | Some conn, call :: calls => c' ← host_step conn call; run_calls c' calls
  | _, _ => mret c
  end.

(** ** The lifecycle of the published events *)

Definition events (s : Sys) : list ConnectionEvent := fr_events (sh_rest s).

(** The events of a connection in a given state; [None] is a freed one. *)
Inductive lifecycle : option FState -> list ConnectionEvent -> Prop :=
| life_init : lifecycle (Some Init) [Event_Init]
| life_configured send ud : lifecycle (Some (Configured send ud)) [Event_Init]
| life_connected r io p h : lifecycle (Some (Connected r)) [Event_Init; Event_Connected io p h]
| life_disconnected io p h :
    lifecycle (Some Disconnected) [Event_Init; Event_Connected io p h; Event_Disconnected]
| life_unused : lifecycle None [Event_Init; Event_Release]
| life_used io p h :
    lifecycle None [Event_Init; Event_Connected io p h; Event_Disconnected; Event_Release].

#[local] Hint Constructors lifecycle : rc.

(** Programs that publish nothing, however they end. *)
Definition silent {A} (p : prog Sys A) : Prop := forall s, events (final (p s)) = events s.

Lemma silent_bind {A B} (p : prog Sys A) (k : A -> prog Sys B) :
  silent p -> (forall a, silent (k a)) -> silent (p ≫= k).
Proof.
  intros Hp Hk s. unfold mbind, prog_bind. specialize (Hp s).
  destruct (p s) as [a s'|s'|s']; simpl in *; [|done..]. by rewrite Hk.
Qed.

Lemma silent_ret {A} (a : A) : silent (mret (M:=prog Sys) a).
Proof. done. Qed.

Lemma silent_invalid {A} (r : A) : silent (invalid_state debug r).
Proof. unfold invalid_state. by destruct debug. Qed.

Lemma silent_not_null {A} (o : option A) : silent (assert_not_null o).
Proof. by destruct o. Qed.

Context (Hyield : forall s, events (yield s) = events s)
  (Hio : silent join_io) (Hdispatch : silent join_dispatch).

Lemma silent_ffi2lib_send n payload : silent (ffi2lib_send yield n payload).
Proof.
  induction n as [|n IH]; intros s; simpl; [done|].
  destruct (mpsc_poll_send payload _) as [[r|] c]; [done|]. by rewrite IH, Hyield.
Qed.

Lemma silent_resp_send n x : silent (resp_send yield n x).
Proof.
  induction n as [|n IH]; intros s; simpl; [done|].
  destruct (mpsc_poll_send x _) as [[r|] c]; [done|]. by rewrite IH, Hyield.
Qed.

Lemma silent_dispatch_result c x : silent (handle_dispatch_result yield fuel c x).
Proof.
  unfold handle_dispatch_result. destruct (fc_state c); try apply silent_ret.
  apply silent_bind; [|done]. apply silent_bind; [apply silent_resp_send | done].
Qed.

Lemma silent_recv c m : silent (recv_incoming debug yield fuel c m).
Proof.
  unfold recv_incoming. destruct (fc_state c); try apply silent_invalid.
  apply silent_bind; [apply silent_ffi2lib_send | done].
Qed.

Lemma publish_final e s :
  (publish_event e s = Panic s) \/
  exists s', publish_event e s = Done tt s' /\ events s' = events s ++ [e].
Proof.
  unfold publish_event. destruct (fr_events_open (sh_rest s)); [right; by eexists | by left].
Qed.

(** Events that are those of some connection. *)
Definition lawful (evs : list ConnectionEvent) : Prop := exists o, lifecycle o evs.

(** A run that ends, however it ends, with lawful events. *)
Definition stays_lawful (e : exec Sys (option FFIConnection)) : Prop :=
  match e with
  | Done c' s' => lifecycle (fc_state <$> c') (events s')
  | Panic s' | Blocked s' => lawful (events s')
  end.

Lemma lawful_silent {A} (p : prog Sys A) (k : A -> option FFIConnection) o s :
  silent p -> lifecycle o (events s) ->
  (forall a s', p s = Done a s' -> o = fc_state <$> k a) ->
  stays_lawful ((a ← p; mret (k a)) s).
Proof.
  intros Hp L K. specialize (Hp s). unfold mbind, prog_bind.
  destruct (p s) as [a s'|s'|s'] eqn:E; simpl in *; rewrite Hp.
  - by rewrite <- (K a s' eq_refl).
  - by exists o.
  - by exists o.
Qed.

Lemma lifecycle_events o evs : lifecycle o evs ->
  match o with
  | Some Init | Some (Configured _ _) => evs = [Event_Init]
  | Some (Connected _) => exists io p h, evs = [Event_Init; Event_Connected io p h]
  | Some Disconnected =>
      exists io p h, evs = [Event_Init; Event_Connected io p h; Event_Disconnected]
  | None => True
  end.
Proof. intros [| | | | |]; eauto. Qed.

(** Refused calls. *)
Lemma refused_lawful c s :
  lifecycle (Some (fc_state c)) (events s) ->
  stays_lawful ((r ← (r ← invalid_state debug ConnRet_InvalidState; mret (M:=prog Sys) (c, r));
                 mret (Some (fst r))) s).
Proof.
  intros L. unfold invalid_state, mbind, prog_bind. destruct debug; simpl; [by eexists | done].
Qed.

Lemma connected_lawful c h s :
  lifecycle (Some (fc_state c)) (events s) ->
  stays_lawful ((r ← set_connected debug c h; mret (Some (fst r))) s).
Proof.
  intros L. unfold set_connected. destruct (fc_state c) as [|send ud|r|] eqn:E.
  2:{ apply lifecycle_events in L. unfold mbind, prog_bind, modify. cbv beta iota.
      destruct (publish_final (Event_Connected IOHandle_new
        (mk_publisher request_tx (Some response_rx) response_weak) h) (open_link send ud s))
        as [->|(s' & -> & Es')]; simpl; [exists (Some Init) | rewrite Es'];
        change (events (open_link send ud s)) with (events s); rewrite L; constructor. }
  all: apply refused_lawful; by rewrite E.
Qed.

Lemma disconnected_lawful c s :
  lifecycle (Some (fc_state c)) (events s) ->
  stays_lawful ((r ← set_disconnected debug join_io join_dispatch c; mret (Some (fst r))) s).
Proof.
  intros L. unfold set_disconnected. destruct (fc_state c) as [|send ud|r|] eqn:E.
  1,2,4: apply refused_lawful; by rewrite E.
  pose proof L as L'. apply lifecycle_events in L' as (io & p & h & Hev).
  unfold expect_joined, mbind, prog_bind, modify. cbv beta iota.
  pose proof (Hio (cancel_tasks s)) as S1. change (events (cancel_tasks s)) with (events s) in S1.
  destruct (join_io (cancel_tasks s)) as [[[]|e] s1|s1|s1]; simpl in *; try (rewrite S1; by eexists).
  pose proof (Hdispatch s1) as S2.
  destruct (join_dispatch s1) as [[[]|e] s2|s2|s2]; simpl in *; try (rewrite S2, S1; by eexists).
  destruct (publish_final Event_Disconnected s2) as [->|(s' & -> & Es')]; simpl;
    [rewrite S2, S1; by eexists|].
  change (events (drop_link s')) with (events s'). rewrite Es', S2, S1, Hev. constructor.
Qed.

Lemma send_callback_lawful c cb ud s :
  lifecycle (Some (fc_state c)) (events s) ->
  stays_lawful ((r ← set_send_callback debug c cb ud; mret (Some (fst r))) s).
Proof.
  intros L. unfold set_send_callback. case_decide; [by eexists|].
  destruct (fc_state c) as [|send ud'|r|] eqn:E; [| |apply refused_lawful; by rewrite E..];
    apply lifecycle_events in L; simpl; rewrite L; constructor.
Qed.

Lemma free_lawful c s :
  lifecycle (Some (fc_state c)) (events s) ->
  stays_lawful ((r ← rc_conn_free debug (Some c); mret (fst r)) s).
Proof.
  intros L. unfold rc_conn_free, FFIConnection_free, assert_not_null, mbind, prog_bind. simpl.
  destruct (fc_state c) as [|send ud|r|] eqn:E.
  3:{ unfold invalid_state. destruct debug; simpl; [by eexists | by rewrite E]. }
  all: destruct (publish_final Event_Release s) as [->|(s' & -> & Es')]; simpl; [by eexists|];
    rewrite Es'; apply lifecycle_events in L.
  1,2: rewrite L; constructor.
  destruct L as (io & p & h & ->). constructor.
Qed.

Lemma rc_conn_connected_eq c h s :
  rc_conn_connected debug (Some c) (Some h) s =
  match from_utf8 h with
  | Some name => set_connected debug c (EndpointHostname_from name) s
  | None => Panic s
  end.
Proof.
  unfold rc_conn_connected, assert_not_null. unfold mbind, prog_bind at 1 2 3. simpl.
  by destruct (from_utf8 h).
Qed.

Lemma host_step_lawful c call s :
  lifecycle (Some (fc_state c)) (events s) ->
  stays_lawful (host_step c call s).
Proof.
  intros L. destruct call as [cb ud|h| |data|id data|id e|]; cbn [host_step].
  - by apply send_callback_lawful.
  - unfold mbind at 1, prog_bind at 1. rewrite rc_conn_connected_eq.
    destruct (from_utf8 h) as [name|].
    + exact (connected_lawful c (EndpointHostname_from name) s L).
    + change (lawful (events s)). by eexists.
  - by apply disconnected_lawful.
  - apply (lawful_silent _ (fun _ => Some c) (Some (fc_state c))); [|done|done].
    unfold rc_conn_recv. simpl. apply silent_bind; [done|]. intros c'. apply silent_bind; [done|].
    intros p. case_decide; [apply silent_ret | apply silent_recv].
  - apply (lawful_silent _ (fun _ => Some c) (Some (fc_state c))); [|done|done].
    unfold rc_conn_dispatch_result. apply silent_bind; [done|]. intros c'.
    apply silent_bind; [done|]. intros p.
    case_decide; [apply silent_ret | apply silent_dispatch_result].
  - apply (lawful_silent _ (fun _ => Some c) (Some (fc_state c))); [|done|done].
    unfold rc_conn_dispatch_error. apply silent_bind; [done|]. intros c'.
    apply silent_dispatch_result.
  - by apply free_lawful.
Qed.

Lemma run_calls_lawful calls c s :
  lifecycle (fc_state <$> c) (events s) ->
  stays_lawful (run_calls c calls s).
Proof.
  revert c s. induction calls as [|call calls IH]; intros [c|] s L; simpl; try done.
  pose proof (host_step_lawful c call s L) as S. unfold mbind, prog_bind.
  destruct (host_step c call s) as [c' s'|s'|s']; simpl in *; [by apply IH | done..].
Qed.

End Host.

(** ** Release builds do not panic *)

Section NoPanic.
Context `{ProtoTypes} `{!Prost} `{Mpsc}.

Definition events_open (s : Sys) : Prop := fr_events_open (sh_rest s) = true.

(** While the event stream is consumed, [p] does not panic, nor close it. *)
Definition safe {A} (p : prog Sys A) : Prop := forall s, events_open s ->
  match p s with Panic _ => False | Done _ s' | Blocked s' => events_open s' end.

Lemma safe_bind {A B} (p : prog Sys A) (k : A -> prog Sys B) :
  safe p -> (forall a, safe (k a)) -> safe (p ≫= k).
Proof.
  intros Hp Hk s Hs. unfold mbind, prog_bind. specialize (Hp s Hs).
  destruct (p s) as [a s'|s'|s']; [by apply Hk | done..].
Qed.

Lemma safe_ret {A} (a : A) : safe (mret (M:=prog Sys) a).
Proof. by intros s Hs. Qed.

Lemma safe_publish e : safe (publish_event e).
Proof. intros s Hs. unfold publish_event. by rewrite Hs. Qed.

Lemma safe_modify f : (forall s, events_open s -> events_open (f s)) -> safe (modify f).
Proof. intros Hf s Hs. by apply Hf. Qed.

#[local] Hint Resolve safe_bind safe_ret safe_publish safe_modify : rc.

(** A call with arguments the host is allowed to pass: a non-null callback, a
    hostname in UTF-8. *)
Definition well_formed (call : host_call) : Prop :=
  match call with
  | Call_send_callback cb _ => cb <> 0%N
  | Call_connected h => utf8_valid h = true
  | _ => True
  end.

Context (yield : Sys -> Sys) (fuel : nat) (join_io join_dispatch : prog Sys (result () ())).
Context (Hyield : forall s, events_open s -> events_open (yield s))
  (Hio : safe (expect_joined join_io)) (Hdispatch : safe (expect_joined join_dispatch)).

Lemma safe_ffi2lib_send n payload : safe (ffi2lib_send yield n payload).
Proof.
  induction n as [|n IH]; intros s Hs; simpl; [done|].
  destruct (mpsc_poll_send payload _) as [[r|] c]; [done|]. by apply IH, Hyield.
Qed.

Lemma safe_resp_send n x : safe (resp_send yield n x).
Proof.
  induction n as [|n IH]; intros s Hs; simpl; [done|].
  destruct (mpsc_poll_send x _) as [[r|] c]; [done|]. by apply IH, Hyield.
Qed.

Lemma safe_dispatch_result c x : safe (handle_dispatch_result yield fuel c x).
Proof.
  unfold handle_dispatch_result. destruct (fc_state c); auto with rc.
  apply safe_bind; [|auto with rc]. apply safe_bind; [apply safe_resp_send | auto with rc].
Qed.

Lemma safe_refused {A} (a : A) r :
  safe (r ← invalid_state false (r : ConnRet); mret (M:=prog Sys) (a, r)).
Proof. apply safe_bind; intros; apply safe_ret. Qed.

Lemma safe_host_step c call :
  well_formed call -> safe (host_step false yield fuel join_io join_dispatch c call).
Proof.
  destruct call as [cb ud|h| |data|id data|id e|]; intros Wf; cbn [host_step].
  - apply safe_bind; [|auto with rc]. unfold rc_conn_send_callback, set_send_callback. simpl.
    apply safe_bind; [apply safe_ret|]. intros c'. rewrite decide_False by done.
    destruct (fc_state c'); auto using safe_refused with rc.
  - apply safe_bind; [|auto with rc]. intros s Hs. rewrite rc_conn_connected_eq.
    unfold from_utf8. simpl in Wf. rewrite Wf. unfold set_connected.
    destruct (fc_state c); try by apply safe_refused.
    apply (safe_bind (modify _)); [by apply safe_modify | | done].
    intros []. apply safe_bind; auto with rc.
  - apply safe_bind; [|auto with rc]. apply safe_bind; [apply safe_ret|]. intros c'.
    unfold set_disconnected. destruct (fc_state c'); auto using safe_refused.
    apply safe_bind; [by apply safe_modify|]. intros _. apply safe_bind; [done|]. intros _.
    apply safe_bind; [done|]. intros _. apply safe_bind; [apply safe_publish|]. intros _.
    apply safe_bind; [by apply safe_modify | auto with rc].
  - apply safe_bind; [|auto with rc]. apply safe_bind; [apply safe_ret|]. intros c'.
    apply safe_bind; [apply safe_ret|]. intros p. case_decide; [apply safe_ret|].
    unfold recv_incoming. destruct (fc_state c'); try apply safe_ret.
    apply safe_bind; [apply safe_ffi2lib_send | auto with rc].
  - apply safe_bind; [|auto with rc]. apply safe_bind; [apply safe_ret|]. intros c'.
    apply safe_bind; [apply safe_ret|]. intros p.
    case_decide; [apply safe_ret | apply safe_dispatch_result].
  - apply safe_bind; [|auto with rc]. apply safe_bind; [apply safe_ret|]. intros c'.
    apply safe_dispatch_result.
  - apply safe_bind; [|auto with rc]. apply safe_bind; [apply safe_ret|]. intros c'.
    apply safe_bind; [|auto with rc]. unfold FFIConnection_free.
    destruct (fc_state c'); apply safe_bind; auto with rc; apply safe_ret.
Qed.

Lemma safe_run_calls calls c :
  Forall well_formed calls -> safe (run_calls false yield fuel join_io join_dispatch c calls).
Proof.
  intros Hc. revert c. induction Hc as [|call calls Wf _ IH]; intros [c|]; try apply safe_ret.
  apply safe_bind; [by apply safe_host_step | apply IH].
Qed.

End NoPanic.

(** ** Properties *)

Section FfiProperties.
Context `{ProtoTypes} `{!Prost} `{Mpsc}.

(** A refused call, in either build mode. *)
Definition refused {A} (debug : bool) (s : Sys) (x : A) : exec Sys A :=
  if debug then Panic s else Done x s.

(** C7. Whatever sequence of calls the host makes on a connection, in either
    build mode and however the sequence ends, the events the connection
    publishes are those of the documented lifecycle: Init, then possibly
    Connected and after it Disconnected, each at most once, and Release only
    last and never while connected; and the connection's state is the one its
    events describe. *)
Theorem ffi_lifecycle debug yield fuel join_io join_dispatch dispatch user_data calls s0 c s1
  (Hyield : forall s, events (yield s) = events s)
  (Hio : silent join_io) (Hdispatch : silent join_dispatch)
  (Hev0 : events s0 = []) (Hnew : rc_conn_new (Some tt) dispatch user_data s0 = Done c s1) :
  stays_lawful (run_calls debug yield fuel join_io join_dispatch (Some c) calls s1).
Proof.
  apply run_calls_lawful; [done..|]. unfold rc_conn_new, FFIConnection_new in Hnew. simpl in Hnew.
  apply prog_bind_inv in Hnew as (u & s & [= <- <-] & Hnew). case_decide; [done|].
  apply prog_bind_inv in Hnew as ([] & s & Hp & [= <- <-]).
  destruct (publish_final Event_Init s0) as [E|(s' & E & Es')]; [congruence|].
  rewrite E in Hp. simplify_eq. rewrite Es', Hev0. constructor.
Qed.

(** C35. In a release build no sequence of calls makes the library panic, as long
    as the event stream is consumed, callbacks are not null, hostnames are
    UTF-8, and the connection's tasks have not panicked: calls out of order are
    refused, not fatal. *)
Theorem ffi_release_never_panics yield fuel join_io join_dispatch calls c s
  (Hyield : forall s, events_open s -> events_open (yield s))
  (Hio : safe (expect_joined join_io)) (Hdispatch : safe (expect_joined join_dispatch))
  (Hcalls : Forall well_formed calls) (Hs : events_open s) :
  match run_calls false yield fuel join_io join_dispatch c calls s with
  | Panic _ => False
  | _ => True
  end.
Proof.
  pose proof (safe_run_calls yield fuel join_io join_dispatch Hyield Hio Hdispatch calls c
    Hcalls s Hs) as S.
  by destruct (run_calls _ _ _ _ _ c calls s).
Qed.

(** A call the connection's state does not allow has no effect: a release
    build returns InvalidState with connection and system unchanged, a debug
    build panics with the system unchanged.  Allowed are: setting the callback
    before connecting, connecting once configured, disconnecting and receiving
    while connected, freeing while not connected. *)
Lemma ffi_invalid_calls_inert debug yield fuel join_io join_dispatch c s cb ud h m
  (Hcb : cb <> 0%N) :
  match fc_state c with
  | Init =>
      set_connected debug c h s = refused debug s (c, ConnRet_InvalidState) /\
      set_disconnected debug join_io join_dispatch c s = refused debug s (c, ConnRet_InvalidState) /\
      recv_incoming debug yield fuel c m s = refused debug s RecvRet_InvalidState
  | Configured _ _ =>
      set_disconnected debug join_io join_dispatch c s = refused debug s (c, ConnRet_InvalidState) /\
      recv_incoming debug yield fuel c m s = refused debug s RecvRet_InvalidState
  | Connected _ =>
      set_connected debug c h s = refused debug s (c, ConnRet_InvalidState) /\
      set_send_callback debug c cb ud s = refused debug s (c, ConnRet_InvalidState) /\
      FFIConnection_free debug c s = refused debug s (Err (c, ConnRet_InvalidState))
  | Disconnected =>
      set_connected debug c h s = refused debug s (c, ConnRet_InvalidState) /\
      set_disconnected debug join_io join_dispatch c s = refused debug s (c, ConnRet_InvalidState) /\
      set_send_callback debug c cb ud s = refused debug s (c, ConnRet_InvalidState) /\
      recv_incoming debug yield fuel c m s = refused debug s RecvRet_InvalidState
  end.
Proof.
  unfold refused, set_connected, set_disconnected, recv_incoming, set_send_callback,
    FFIConnection_free, invalid_state.
  destruct (fc_state c), debug; split_and!; rewrite ?decide_False by done; reflexivity.
Qed.

(** A reported result with room in the response queue is queued. *)
Lemma result_queued `{!MpscLaws} yield fuel c r x s :
  fc_state c = Connected r -> c_rx (resp_view s) = true -> ~ chan_full (resp_view s) ->
  exists s', handle_dispatch_result yield (S fuel) c x s = Done tt s' /\
    req_view s' = req_view s /\ sh_rest s' = sh_rest s /\ resp_view s' = chan_push x (resp_view s).
Proof.
  intros Hc Hrx Hroom. unfold handle_dispatch_result. rewrite Hc. unfold DispatchResponder_send_response.
  destruct (resp_send_ready yield fuel x s (Ok tt) (chan_push x (resp_view s)))
    as (s' & E & Q & T & V).
  { unfold chan_poll_send. rewrite Hrx. by rewrite decide_False. }
  exists s'. split_and!; [| by unfold req_view; rewrite Q | done | done].
  unfold mbind, prog_bind. by rewrite E.
Qed.

(** C36. Results reported by the host on a connected connection with room in the
    response queue: a non-empty buffer queues exactly one response under the
    given correlation identifier, with the decoded payload or the decoding
    error; an empty buffer - the encoding of a default payload - queues
    nothing; and a reported error, of which there is only the timeout of a
    handler, queues exactly that error. *)
Theorem ffi_dispatch_result_spec `{!MpscLaws} yield fuel c r id data e s
  (Hc : fc_state c = Connected r) (Hrx : c_rx (resp_view s) = true)
  (Hroom : ~ chan_full (resp_view s)) :
  (exists s', rc_conn_dispatch_result yield (S fuel) (Some c) id (Some data) s = Done tt s' /\
    req_view s' = req_view s /\ sh_rest s' = sh_rest s /\
    resp_view s' = if decide (data = []) then resp_view s else
      chan_push (mk_dispatch_result (CorrelationId_new id)
        (map_err ReplyDeserialisation (decode_response_payload data))) (resp_view s)) /\
  (exists s', rc_conn_dispatch_error yield (S fuel) (Some c) id e s = Done tt s' /\
    req_view s' = req_view s /\ sh_rest s' = sh_rest s /\
    resp_view s' = chan_push (mk_dispatch_result (CorrelationId_new id) (Err HandlerExecTimeout)) (resp_view s)).
Proof.
  split.
  - unfold rc_conn_dispatch_result, assert_not_null. unfold mbind, prog_bind. simpl.
    destruct (decide (data = [])) as [->|Hd]; [by exists s|]. by eapply result_queued.
  - unfold rc_conn_dispatch_error, assert_not_null. unfold mbind, prog_bind. simpl. destruct e.
    by eapply result_queued.
Qed.

End FfiProperties.

(** *** Witnesses *)

Definition toy_rest : @FfiRest toy_proto fifo_mpsc :=
  @mk_rest toy_proto fifo_mpsc [] true (chan_new 100) (chan_new 100) false false None.
Definition toy_sys : @Sys toy_proto fifo_mpsc :=
  snd (@new_dispatcher_interconnect toy_proto fifo_mpsc _ toy_rest).
Definition toy_join : prog (@Sys toy_proto fifo_mpsc) (result () ()) := fun s => Done (Ok tt) s.

(** Out of order, then connect, disconnect, a refused reconnect, free. *)
Definition toy_calls : list host_call :=
  [Call_disconnected; Call_send_callback 1%N 0%N; Call_connected [x61]; Call_free; Call_disconnected;
   Call_connected [x61]; Call_free; Call_free].

Definition toy_new : exec (@Sys toy_proto fifo_mpsc) FFIConnection :=
  @rc_conn_new toy_proto fifo_mpsc (Some tt) 7%N 0%N toy_sys.

Lemma ffi_lifecycle_witness :
  exists c s1, toy_new = Done c s1 /\
    match @run_calls toy_proto toy_prost fifo_mpsc false id 1 toy_join toy_join (Some c) toy_calls s1 with
    | Done None s' => length (@events toy_proto fifo_mpsc s') = 4 /\ lifecycle None (events s')
    | _ => False
    end.
Proof.
  do 2 eexists. split; [reflexivity|].
  match goal with
  | |- context [@run_calls _ _ _ _ _ _ _ _ (Some ?c) _ ?s1] =>
      pose proof (@ffi_lifecycle toy_proto toy_prost fifo_mpsc false id 1 toy_join toy_join 7%N 0%N
        toy_calls toy_sys c s1 (fun _ => eq_refl) (fun _ => eq_refl) (fun _ => eq_refl) eq_refl eq_refl)
        as L
  end.
  split; [reflexivity | exact L].
Defined.

Lemma ffi_release_never_panics_witness :
  match @run_calls toy_proto toy_prost fifo_mpsc false id 1 toy_join toy_join
    (Some (mk_ffi_connection 7%N (mk_dispatch_user_data 0%N) Init)) toy_calls toy_sys with
  | Panic _ => False
  | _ => True
  end.
Proof.
  refine (@ffi_release_never_panics toy_proto toy_prost fifo_mpsc id 1 toy_join toy_join toy_calls
    (Some (mk_ffi_connection 7%N (mk_dispatch_user_data 0%N) Init)) toy_sys _ _ _ _ _);
    try (intros s Hs; exact Hs); [|reflexivity].
  repeat constructor; discriminate.
Defined.

Lemma ffi_invalid_calls_inert_witness :
  @set_connected toy_proto fifo_mpsc false (mk_ffi_connection 7%N (mk_dispatch_user_data 0%N) Init)
    (EndpointHostname_from "a") toy_sys
  = Done (mk_ffi_connection 7%N (mk_dispatch_user_data 0%N) Init, ConnRet_InvalidState) toy_sys.
Proof.
  apply (@ffi_invalid_calls_inert toy_proto fifo_mpsc false id 1 toy_join toy_join
    (mk_ffi_connection 7%N (mk_dispatch_user_data 0%N) Init) toy_sys 1%N (mk_send_user_data 0%N)
    (EndpointHostname_from "a") (Ok Ping)). discriminate.
Defined.

Lemma ffi_dispatch_result_spec_witness :
  let c := Some (mk_ffi_connection 7%N (mk_dispatch_user_data 0%N) (Connected (mk_responder response_tx))) in
  (exists s', @rc_conn_dispatch_result toy_proto toy_prost fifo_mpsc id 1 c 3%N (Some []) toy_sys = Done tt s' /\
    c_queue (@resp_view toy_proto fifo_mpsc fifo_mpsc_laws _ s') = []) /\
  (exists s', @rc_conn_dispatch_error toy_proto fifo_mpsc id 1 c 3%N DispatchHostError_HandlerExecTimeout toy_sys
      = Done tt s' /\
    length (c_queue (@resp_view toy_proto fifo_mpsc fifo_mpsc_laws _ s')) = 1).
Proof.
  destruct (@ffi_dispatch_result_spec toy_proto toy_prost fifo_mpsc fifo_mpsc_laws id 0
    (mk_ffi_connection 7%N (mk_dispatch_user_data 0%N) (Connected (mk_responder response_tx)))
    (mk_responder response_tx) 3%N [] DispatchHostError_HandlerExecTimeout toy_sys)
    as [(s' & E & _ & _ & V) (t & E' & _ & _ & V')]; [reflexivity | reflexivity | vm_compute; lia|].
  split; [exists s'; split; [exact E | rewrite V; reflexivity] | exists t; split; [exact E' | rewrite V'; reflexivity]].
Defined.
