(* ===== verification/FfiTasks.v ===== *)
(** * The two tasks of an FFI connection

    Models [io_task] and [dispatch_task] of [rc-x509-ffi/src/connection.rs]: the
    threads that call back into the host, one to send outgoing messages, one to
    deliver dispatch requests.  The host's callbacks are parameters; every call
    is logged with its arguments and result.  Between any two polls the rest of
    the program may run ([yield]). *)

From stdpp Require Import base option list strings.
From Stdlib Require Import Strings.Byte NArith Lia.
From S2P Require Import Prelude Utf8 Codec Mpsc Dispatch Runtime Ffi.

(** [len as u32]. *)
Definition len_u32 (l : list u8) : N := (N.of_nat (length l) mod 2 ^ 32)%N.

Section IoTask.
Context `{ProtoTypes} `{!Prost} `{Mpsc}.

(** One call of [SendCb]: the buffer, the length passed, the answer. *)
Record send_call : Type := mk_send_call {
  sc_data : list u8; sc_length : N; sc_ret : SendRet }.

Record IoWorld (Hst : Type) : Type := mk_io {
  iw_lib2ffi : mpsc ClientToServer;
  iw_stop : bool;
  iw_host : Hst;
  iw_calls : list send_call
}.
Arguments mk_io {Hst} iw_lib2ffi iw_stop iw_host iw_calls.
Arguments iw_lib2ffi {Hst} i.
Arguments iw_stop {Hst} i.
Arguments iw_host {Hst} i.
Arguments iw_calls {Hst} i.

Context {Hst : Type} (send : list u8 -> N -> Hst -> SendRet * Hst)
  (yield : IoWorld Hst -> IoWorld Hst).

(** Leaving [io_task] drops the receiver. *)
Definition io_exit : prog (IoWorld Hst) () :=
  modify (fun w => mk_io (mpsc_drop_rx (iw_lib2ffi w)) (iw_stop w) (iw_host w) (iw_calls w)).

(** [send(buf.as_ptr(), buf.len() as u32, user_data)]. *)
Definition call_send (payload : ClientToServer) : prog (IoWorld Hst) SendRet := fun w =>
  let buf := ClientToServer_to_bytes payload in
  let '(ret, h) := send buf (len_u32 buf) (iw_host w) in
  Done ret (mk_io (iw_lib2ffi w) (iw_stop w) h
    (iw_calls w ++ [mk_send_call buf (len_u32 buf) ret])).

(** [lib2ffi.recv()], polled. *)
Definition io_poll_recv : prog (IoWorld Hst) (poll (option ClientToServer)) := fun w =>
  let '(p, c) := mpsc_poll_recv (iw_lib2ffi w) in
  Done p (mk_io c (iw_stop w) (iw_host w) (iw_calls w)).

(** [io_task], at most [n] polls. *)
Fixpoint io_task (n : nat) : prog (IoWorld Hst) () :=
  match n with
  | 0 => fun w => Blocked w
  | S n =>
      modify yield ;;
      stopped ← gets iw_stop;
      if (stopped : bool) then io_exit
      else
        maybe_payload ← io_poll_recv;
        match maybe_payload with
        | Pending => io_task n
        | Ready None => io_exit
        | Ready (Some payload) =>
            ret ← call_send payload;
            match ret with
            | SendRet_Success => io_task n
            | SendRet_Closed | SendRet_Unknown => io_exit
            end
        end
  end.

(** ** Lemmas *)

Context `{!MpscLaws}.

Definition io_queue (w : IoWorld Hst) : list ClientToServer := c_queue (mpsc_view (iw_lib2ffi w)).
Definition io_rx_open (w : IoWorld Hst) : bool := c_rx (mpsc_view (iw_lib2ffi w)).

(** The rest of the program appends messages and may cancel; it does not take
    messages out or call the host's callback. *)
Definition io_yield_ok : Prop := forall w,
  (exists ext, io_queue (yield w) = io_queue w ++ ext) /\
  iw_calls (yield w) = iw_calls w /\ io_rx_open (yield w) = io_rx_open w /\
  (iw_stop w = true -> iw_stop (yield w) = true).

(** A message that the rest of the program appends at some point. *)
Definition io_arrives (m : ClientToServer) : Prop :=
  exists w ext, io_queue (yield w) = io_queue w ++ ext /\ m ∈ ext.

Lemma io_appended w ext : io_queue (yield w) = io_queue w ++ ext -> Forall io_arrives ext.
Proof. intros E. apply Forall_forall. intros m Hm. by exists w, ext. Qed.

Definition succeeded (c : send_call) : Prop := sc_ret c = SendRet_Success.

(** The call made for a message, given the host's answer. *)
Definition call_for (m : ClientToServer) (c : send_call) : Prop :=
  sc_data c = ClientToServer_to_bytes m /\ sc_length c = len_u32 (ClientToServer_to_bytes m).

(** From [w], the run [e] took the messages [msgs] from the front of the queue -
    those it held, then ones the rest of the program appends -, in order, and
    made one call for each; a call that did not succeed was the last thing it
    did. *)
Definition delivers (w : IoWorld Hst) (e : exec (IoWorld Hst) ()) : Prop :=
  exists msgs calls ext rest,
    io_queue w ++ ext = msgs ++ rest /\ Forall io_arrives ext /\
    iw_calls (final e) = iw_calls w ++ calls /\ Forall2 call_for msgs calls /\
    match e with
    | Done _ w' => io_rx_open w' = false /\
        (Forall succeeded calls \/ exists init c, calls = init ++ [c] /\ Forall succeeded init)
    | Blocked w' => rest = io_queue w' /\ Forall succeeded calls
    | Panic _ => False
    end.

Lemma delivers_exit w : delivers w (io_exit w).
Proof.
  exists [], [], [], (io_queue w). rewrite !app_nil_r.
  split_and!; [done | done | done | constructor |]. split; [|by left].
  unfold io_rx_open. simpl. by rewrite view_drop_rx.
Qed.

(** Messages appended before the run starts. *)
Lemma delivers_yield w w' e ext : Forall io_arrives ext ->
  io_queue w' = io_queue w ++ ext -> iw_calls w' = iw_calls w -> delivers w' e -> delivers w e.
Proof.
  intros A Q C (msgs & calls & ext' & rest & Q' & A' & C' & F & E).
  exists msgs, calls, (ext ++ ext'), rest. rewrite app_assoc, <- Q, Q', C', C.
  split_and!; [done | by apply Forall_app | done..].
Qed.

(** One message taken and delivered. *)
Lemma delivers_cons m c w w' e :
  io_queue w = m :: io_queue w' -> iw_calls w' = iw_calls w ++ [c] -> call_for m c -> succeeded c ->
  delivers w' e -> delivers w e.
Proof.
  intros Q C Hc S (msgs & calls & ext & rest & Q' & A' & C' & F & E).
  exists (m :: msgs), (c :: calls), ext, rest. rewrite Q, C', C, <- app_assoc. simpl. rewrite Q'.
  split_and!; [done | done | done | by constructor |].
  destruct e; [|done|].
  - destruct E as [E1 [E2|(init & c' & -> & E2)]]; split; try done.
    + left. by constructor.
    + right. exists (c :: init), c'. split; [done | by constructor].
  - destruct E. split; [done | by constructor].
Qed.

Lemma io_task_delivers n w : io_yield_ok -> delivers w (io_task n w).
Proof.
  intros Y. revert w. induction n as [|n IH]; intros w.
  { exists [], [], [], (io_queue w). rewrite !app_nil_r. by split_and!. }
  cbn [io_task]. unfold mbind, prog_bind, modify, gets. cbv beta iota.
  destruct (Y w) as ([ext Yq] & Yc & _ & _). eapply delivers_yield; [by eapply io_appended | exact Yq | exact Yc |].
  destruct (iw_stop (yield w)); [apply delivers_exit|].
  unfold io_poll_recv. destruct (mpsc_poll_recv (iw_lib2ffi (yield w))) as [p c] eqn:P.
  apply mpsc_poll_recv_view in P. unfold chan_poll_recv in P.
  destruct (c_queue (mpsc_view (iw_lib2ffi (yield w)))) as [|m q] eqn:Q.
  - assert (V : mpsc_view c = mpsc_view (iw_lib2ffi (yield w))) by (by simplify_eq).
    assert (Qc : io_queue (mk_io c (iw_stop (yield w)) (iw_host (yield w)) (iw_calls (yield w)))
      = io_queue (yield w) ++ []) by (unfold io_queue; simpl; by rewrite V, app_nil_r).
    destruct p as [[m|]|]; [by case_decide | |];
      (eapply delivers_yield; [by apply Forall_nil_2 | exact Qc | done |]); [apply delivers_exit | apply IH].
  - injection P as <- V. unfold call_send. cbn [iw_lib2ffi iw_stop iw_host iw_calls].
    destruct (send _ _ _) as [ret h]. set (call := mk_send_call _ _ ret).
    set (w1 := mk_io c (iw_stop (yield w)) h (iw_calls (yield w) ++ [call])).
    assert (Qw : io_queue (yield w) = m :: io_queue w1).
    { unfold io_queue. simpl. by rewrite Q, <- V. }
    destruct ret; [by apply (delivers_cons m call (yield w) w1) | |];
      exists [m], [call], [], (io_queue w1); rewrite app_nil_r;
      (split_and!; [exact Qw | done | done | by repeat constructor |]);
      (split; [unfold io_rx_open; simpl; by rewrite view_drop_rx | right; by exists [], call]).
Qed.

End IoTask.
Arguments mk_io {_ _ Hst} iw_lib2ffi iw_stop iw_host iw_calls.
Arguments iw_lib2ffi {_ _ Hst} i.
Arguments iw_stop {_ _ Hst} i.
Arguments iw_host {_ _ Hst} i.
Arguments iw_calls {_ _ Hst} i.

Section DispatchTask.
Context `{ProtoTypes} `{Mpsc}.

(** One call of [DispatchCb]. *)
Record dispatch_call : Type := mk_dispatch_call {
  dc_correlation_id : N; dc_data : list u8; dc_length : N; dc_ret : DispatchRet }.

Record DtRest (Hst : Type) : Type := mk_dt {
  dt_stop : bool;
  dt_host : Hst;
  dt_calls : list dispatch_call;
  dt_reports : list DispatchResult
}.
Arguments mk_dt {Hst} dt_stop dt_host dt_calls dt_reports.
Arguments dt_stop {Hst} d.
Arguments dt_host {Hst} d.
Arguments dt_calls {Hst} d.
Arguments dt_reports {Hst} d.

Context {Hst : Type} (dispatch : N -> list u8 -> N -> Hst -> DispatchRet * Hst).
Definition DtWorld : Type := Shared (DtRest Hst).
Context (yield : DtWorld -> DtWorld) (fuel : nat).

Definition dt_rest (f : DtRest Hst -> DtRest Hst) (s : DtWorld) : DtWorld :=
  mk_shared (sh_req s) (sh_resp s) (f (sh_rest s)).

(** [dispatch(id, payload.as_ptr(), payload.len() as u32, user_data)]. *)
Definition call_dispatch (d : Dispatch) : prog DtWorld DispatchRet := fun s =>
  let id := CorrelationId_get (d_correlation_id d) in
  let data := Payload_as_bytes (d_payload d) in
  let '(ret, h) := dispatch id data (len_u32 data) (dt_host (sh_rest s)) in
  Done ret (dt_rest (fun r => mk_dt (dt_stop r) h
    (dt_calls r ++ [mk_dispatch_call id data (len_u32 data) ret]) (dt_reports r)) s).

(** The error a refused delivery is reported as. *)
Definition DispatchRet_error (ret : DispatchRet) : option DispatchError :=
  match ret with
  | DispatchRet_Success => None
  | DispatchRet_NoDispatchHandler => Some NoDispatchHandler
  | DispatchRet_UnknownPayload => Some UnknownPayload
  | DispatchRet_QueueFull => Some HandlerQueueFull
  | DispatchRet_Unknown => Some UnknownHostDispatchError
  end.

(** [block_on(responder.send_response(..))], logged when accepted. *)
Definition report (x : DispatchResult) : prog DtWorld (result () DispatchResponseQueueClosed) :=
  r ← DispatchResponder_send_response yield fuel (mk_responder response_tx) x;
  match r with
  | Ok _ => modify (dt_rest (fun t => mk_dt (dt_stop t) (dt_host t) (dt_calls t)
              (dt_reports t ++ [x]))) ;; mret r
  | Err _ => mret r
  end.

(** Leaving [dispatch_task] drops the stream and its responder. *)
Definition dt_exit : prog DtWorld () :=
  modify (fun s => set_req (mpsc_drop_rx (sh_req s)) (set_resp (mpsc_drop_tx (sh_resp s)) s)).

(** [dispatch_task], at most [n] polls. *)
Fixpoint dispatch_task (n : nat) : prog DtWorld () :=
  match n with
  | 0 => fun s => Blocked s
  | S n =>
      modify yield ;;
      stopped ← gets (fun s => dt_stop (sh_rest s));
      if (stopped : bool) then dt_exit
      else
        maybe_payload ← DispatchStream_poll_next (mk_stream request_rx);
        match maybe_payload with
        | Pending => dispatch_task n
        | Ready None => dt_exit
        | Ready (Some data) =>
            dispatch_ret ← call_dispatch data;
            match DispatchRet_error dispatch_ret with
            | None => dispatch_task n
            | Some e =>
                r ← report (mk_dispatch_result (d_correlation_id data) (Err e));
                match r with Ok _ => dispatch_task n | Err _ => dt_exit end
            end
        end
  end.

(** ** Lemmas *)

Context `{!MpscLaws}.

Definition dt_queue (s : DtWorld) : list Dispatch := c_queue (req_view s).

(** The rest of the program appends requests and may cancel. *)
Definition dt_yield_ok : Prop := forall s,
  (exists ext, dt_queue (yield s) = dt_queue s ++ ext) /\
  dt_calls (sh_rest (yield s)) = dt_calls (sh_rest s) /\
  dt_reports (sh_rest (yield s)) = dt_reports (sh_rest s).

(** A request that the rest of the program appends at some point. *)
Definition arrives (d : Dispatch) : Prop :=
  exists s ext, dt_queue (yield s) = dt_queue s ++ ext /\ d ∈ ext.

(** The call made for a request. *)
Definition dispatched_by (d : Dispatch) (c : dispatch_call) : Prop :=
  dc_correlation_id c = CorrelationId_get (d_correlation_id d) /\
  dc_data c = Payload_as_bytes (d_payload d) /\ dc_length c = len_u32 (Payload_as_bytes (d_payload d)).

(** What the server is to be told of a call, by the documentation of the
    callback's answers: nothing of a request the host took, and the reason of a
    refusal under the request's identifier. *)
Definition reported_as (c : dispatch_call) : option DispatchResult :=
  let refused e := Some (mk_dispatch_result (CorrelationId_new (dc_correlation_id c)) (Err e)) in
  match dc_ret c with
  | DispatchRet_Success => None
  | DispatchRet_UnknownPayload => refused UnknownPayload
  | DispatchRet_NoDispatchHandler => refused NoDispatchHandler
  | DispatchRet_QueueFull => refused HandlerQueueFull
  | DispatchRet_Unknown => refused UnknownHostDispatchError
  end.

Lemma reported_as_error c : reported_as c =
  (fun e => mk_dispatch_result (CorrelationId_new (dc_correlation_id c)) (Err e))
    <$> DispatchRet_error (dc_ret c).
Proof. unfold reported_as. by destruct (dc_ret c). Qed.

(** From [s] to [s'], the requests [ds] were taken from the front of the queue -
    those it held, then ones the rest of the program appends -, in order, one
    call made for each; the reports made are those of the failed
    calls, in order, except that the last may be missing. *)
Definition serves_requests (s s' : DtWorld) : Prop := exists ds calls reports ext rest,
  dt_queue s ++ ext = ds ++ rest /\ Forall arrives ext /\
  dt_calls (sh_rest s') = dt_calls (sh_rest s) ++ calls /\ Forall2 dispatched_by ds calls /\
  dt_reports (sh_rest s') = dt_reports (sh_rest s) ++ reports /\
  reports `prefix_of` omap reported_as calls /\
  length (omap reported_as calls) <= S (length reports).

(** Only requests were appended. *)
Definition only_grows (s s' : DtWorld) : Prop :=
  (exists ext, dt_queue s' = dt_queue s ++ ext /\ Forall arrives ext) /\
  dt_calls (sh_rest s') = dt_calls (sh_rest s) /\ dt_reports (sh_rest s') = dt_reports (sh_rest s).

Lemma only_grows_same s s' : dt_queue s' = dt_queue s -> sh_rest s' = sh_rest s -> only_grows s s'.
Proof. intros Q R. split_and!; [|by rewrite R..]. exists []. by rewrite app_nil_r. Qed.

Lemma only_grows_yield s : dt_yield_ok -> only_grows s (yield s).
Proof.
  intros Y. destruct (Y s) as ([ext E] & C & R). split_and!; [|done..]. exists ext. split; [done|].
  apply Forall_forall. intros d Hd. by exists s, ext.
Qed.

Lemma only_grows_trans s1 s2 s3 : only_grows s1 s2 -> only_grows s2 s3 -> only_grows s1 s3.
Proof.
  intros ((e1 & Q1 & A1) & C1 & R1) ((e2 & Q2 & A2) & C2 & R2). split_and!; [|congruence..].
  exists (e1 ++ e2). rewrite Q2, Q1, app_assoc. split; [done | by apply Forall_app].
Qed.

Lemma serves_refl s s' :
  dt_calls (sh_rest s') = dt_calls (sh_rest s) -> dt_reports (sh_rest s') = dt_reports (sh_rest s) ->
  serves_requests s s'.
Proof.
  intros C R. exists [], [], [], [], (dt_queue s). rewrite !app_nil_r.
  split_and!; [done | done | done | constructor | done | done | simpl; lia].
Qed.

Lemma serves_grow s s1 s' : only_grows s s1 -> serves_requests s1 s' -> serves_requests s s'.
Proof.
  intros ((e1 & Q1 & A1) & C1 & R1) (ds & calls & reports & ext & rest & Q & A & C & F & R & P & L).
  exists ds, calls, reports, (e1 ++ ext), rest. rewrite app_assoc, <- Q1, Q, C, C1, R, R1.
  split_and!; [done | by apply Forall_app | done..].
Qed.

(** A request served, its failure (if any) reported. *)
Lemma serves_cons d c s s1 s' :
  (exists ext, d :: dt_queue s1 = dt_queue s ++ ext /\ Forall arrives ext) ->
  dt_calls (sh_rest s1) = dt_calls (sh_rest s) ++ [c] -> dispatched_by d c ->
  dt_reports (sh_rest s1) = dt_reports (sh_rest s) ++ option_list (reported_as c) ->
  serves_requests s1 s' -> serves_requests s s'.
Proof.
  intros (e1 & Q1 & A1) C1 Hc R1 (ds & calls & reports & ext & rest & Q & A & C & F & R & P & L).
  exists (d :: ds), (c :: calls), (option_list (reported_as c) ++ reports), (e1 ++ ext), rest.
  rewrite app_assoc, <- Q1, C, C1, R, R1, <- !app_assoc, <- app_comm_cons, Q.
  assert (O : omap reported_as (c :: calls) = option_list (reported_as c) ++ omap reported_as calls).
  { simpl. by destruct (reported_as c). }
  rewrite O, !length_app. split_and!; [done | by apply Forall_app | done | by constructor | done | | lia].
  by apply prefix_app.
Qed.

(** A request served, its failure not reported. *)
Lemma serves_last d c s s1 :
  (exists rest, dt_queue s = d :: rest) ->
  dt_calls (sh_rest s1) = dt_calls (sh_rest s) ++ [c] -> dispatched_by d c ->
  dt_reports (sh_rest s1) = dt_reports (sh_rest s) -> serves_requests s s1.
Proof.
  intros (rest & Q) C Hc R. exists [d], [c], [], [], rest. rewrite !app_nil_r.
  split_and!; [done | done | done | constructor; [exact Hc | constructor] | done | apply prefix_nil |].
  simpl. destruct (reported_as c); simpl; lia.
Qed.

Lemma resp_send_grows n x s : dt_yield_ok -> only_grows s (final (resp_send yield n x s)).
Proof.
  intros Y. revert s. induction n as [|n IH]; intros s; simpl; [by apply only_grows_same|].
  destruct (mpsc_poll_send x (sh_resp s)) as [[r|] c]; simpl; [by apply only_grows_same|].
  eapply only_grows_trans; [|apply IH]. exact (only_grows_yield (set_resp c s) Y).
Qed.

(** Reporting: on success the report is logged, otherwise nothing is. *)
Lemma report_spec x s : dt_yield_ok ->
  match report x s with
  | Done (Ok _) s' => exists s1, only_grows s s1 /\ dt_queue s' = dt_queue s1 /\
      dt_calls (sh_rest s') = dt_calls (sh_rest s1) /\
      dt_reports (sh_rest s') = dt_reports (sh_rest s1) ++ [x]
  | Done (Err _) s' | Blocked s' => only_grows s s'
  | Panic _ => False
  end.
Proof.
  intros Y. pose proof (resp_send_grows fuel x s Y) as G.
  assert (NP : forall n s s', resp_send yield n x s <> Panic s').
  { clear. intros n. induction n as [|n IH]; intros s s'; simpl; [done|].
    destruct (mpsc_poll_send x (sh_resp s)) as [[r|] c]; [done | apply IH]. }
  unfold report, DispatchResponder_send_response, mbind, prog_bind.
  destruct (resp_send yield fuel x s) as [[[]|[]] s1|s1|s1] eqn:E; simpl in *; try done.
  - by exists s1.
  - by apply NP in E.
Qed.

(** Delivering one request and reporting its failure, then continuing with [k]. *)
Lemma serve_one d (k : prog DtWorld ()) s s1 : dt_yield_ok ->
  (forall s, serves_requests s (final (k s))) ->
  dt_queue s = d :: dt_queue s1 -> sh_rest s1 = sh_rest s ->
  serves_requests s (final ((dispatch_ret ← call_dispatch d;
    match DispatchRet_error dispatch_ret with
    | None => k
    | Some e =>
        r ← report (mk_dispatch_result (d_correlation_id d) (Err e));
        match r with Ok _ => k | Err _ => dt_exit end
    end) s1)).
Proof.
  intros Y K Q T. unfold mbind at 1, prog_bind at 1, call_dispatch. rewrite T.
  destruct (dispatch _ _ _ _) as [ret h]. set (call := mk_dispatch_call _ _ _ ret).
  set (s2 := dt_rest _ s1). assert (Hc : dispatched_by d call) by done.
  assert (Q2 : dt_queue s = d :: dt_queue s2) by done.
  assert (C2 : dt_calls (sh_rest s2) = dt_calls (sh_rest s) ++ [call]) by (simpl; by rewrite T).
  assert (R2 : dt_reports (sh_rest s2) = dt_reports (sh_rest s)) by (simpl; by rewrite T).
  destruct (DispatchRet_error ret) as [e|] eqn:Er.
  2:{ apply (serves_cons d call _ s2); [by exists []; rewrite app_nil_r | done | done | | apply K].
      rewrite reported_as_error. simpl dc_ret. rewrite Er. by rewrite app_nil_r. }
  assert (Rep : reported_as call = Some (mk_dispatch_result (d_correlation_id d) (Err e))).
  { rewrite reported_as_error. simpl. rewrite Er. by destruct (d_correlation_id d). }
  pose proof (report_spec (mk_dispatch_result (d_correlation_id d) (Err e)) s2 Y) as R.
  unfold mbind at 1, prog_bind at 1. clearbody s2.
  assert (Qe : exists rest, dt_queue s = d :: rest) by (by exists (dt_queue s2)).
  destruct (report _ s2) as [[u|u] s3|s3|s3]; [| |done|].
  - destruct R as (s4 & ((ext & Q4 & A4) & C4 & R4) & Q3 & C3 & R3).
    apply (serves_cons d call _ s3); [|congruence | done | | apply K].
    + exists ext. by rewrite Q3, Q4, app_comm_cons, <- Q2.
    + rewrite R3, R4, Rep, R2. done.
  - destruct R as (_ & C3 & R3). apply (serves_last d call); simpl; done || congruence.
  - destruct R as (_ & C3 & R3). apply (serves_last d call); simpl; done || congruence.
Qed.

Lemma dispatch_task_serves n s : dt_yield_ok -> serves_requests s (final (dispatch_task n s)).
Proof.
  intros Y. revert s. induction n as [|n IH]; intros s; [by apply serves_refl|].
  cbn [dispatch_task]. unfold mbind at 1 2, prog_bind at 1 2, modify, gets. cbv beta iota.
  apply (serves_grow s (yield s)); [by apply only_grows_yield|].
  destruct (dt_stop (sh_rest (yield s))); [by apply serves_refl|].
  unfold mbind at 1, prog_bind at 1, DispatchStream_poll_next.
  destruct (mpsc_poll_recv (sh_req (yield s))) as [p c] eqn:P.
  apply mpsc_poll_recv_view in P. unfold chan_poll_recv in P. fold (req_view (yield s)) in P.
  set (s1 := set_req c (yield s)).
  destruct (c_queue (req_view (yield s))) as [|d q] eqn:Q; injection P as <- V.
  - assert (G : only_grows (yield s) s1).
    { apply only_grows_same; [|done].
      change (c_queue (mpsc_view c) = dt_queue (yield s)). by rewrite <- V. }
    apply (serves_grow _ s1); [exact G|].
    case_decide; [by apply serves_refl | apply IH].
  - apply (serve_one d (dispatch_task n) (yield s) s1 Y IH); [|done].
    change (c_queue (req_view (yield s)) = d :: c_queue (mpsc_view c)). by rewrite Q, <- V.
Qed.

End DispatchTask.
Arguments mk_dt {_ Hst} dt_stop dt_host dt_calls dt_reports.
Arguments dt_stop {_ Hst} d.
Arguments dt_host {_ Hst} d.
Arguments dt_calls {_ Hst} d.
Arguments dt_reports {_ Hst} d.

(** ** Properties *)

Section TaskProperties.
Context `{ProtoTypes} `{!Prost} `{MpscLaws} {Hst : Type}.

(** C31. The I/O task, over any number of polls: it takes messages from the front
    of the outgoing queue (those it held, then ones that the rest of the program
    appends) in order and makes exactly one callback per message,
    with its encoding and its length modulo [2^32]; it stops at the first
    callback that does not succeed; when it returns, the queue is closed to
    further sends; and once its stop signal is set it makes no further
    callback and returns. *)
Theorem io_task_spec (send : list u8 -> N -> Hst -> SendRet * Hst) yield n w
  (Hyield : io_yield_ok yield) :
  delivers yield w (io_task send yield n w) /\
  (iw_stop w = true -> n <> 0 -> exists w', io_task send yield n w = Done tt w' /\
     iw_calls w' = iw_calls w /\ io_rx_open w' = false).
Proof.
  split; [by apply io_task_delivers|]. intros Hs Hn. destruct n as [|n]; [done|].
  destruct (Hyield w) as (_ & Yc & _ & Ys). cbn [io_task].
  unfold mbind, prog_bind, modify, gets. cbv beta iota. rewrite (Ys Hs).
  eexists. split; [reflexivity|]. split; [exact Yc|]. unfold io_rx_open. simpl. by rewrite view_drop_rx.
Qed.

(** C30. The dispatch task, over any number of polls: it takes requests from the
    front of the queue (those it held, then ones that the rest of the program
    appends) in order and makes exactly one callback per request,
    with its correlation identifier and payload; every refused delivery is
    reported under that identifier with the error its answer stands for, in
    order and once, the last report alone possibly missing when the task ends
    or waits there; and once its stop signal is set it makes no further
    callback or report and returns. *)
Theorem dispatch_task_spec (dispatch : N -> list u8 -> N -> Hst -> DispatchRet * Hst) yield fuel n s
  (Hyield : dt_yield_ok yield)
  (Hstop : forall s, dt_stop (sh_rest s) = true -> dt_stop (sh_rest (yield s)) = true) :
  serves_requests yield s (final (dispatch_task dispatch yield fuel n s)) /\
  (dt_stop (sh_rest s) = true -> n <> 0 -> exists s', dispatch_task dispatch yield fuel n s = Done tt s' /\
     dt_calls (sh_rest s') = dt_calls (sh_rest s) /\
     dt_reports (sh_rest s') = dt_reports (sh_rest s) /\ c_rx (req_view s') = false).
Proof.
  split; [by apply dispatch_task_serves|]. intros Hs Hn. destruct n as [|n]; [done|].
  destruct (Hyield s) as (_ & Yc & Yr). cbn [dispatch_task].
  unfold mbind, prog_bind, modify, gets. cbv beta iota. rewrite (Hstop s Hs).
  eexists. split; [reflexivity|]. split; [exact Yc|]. split; [exact Yr|].
  unfold req_view. simpl. by rewrite view_drop_rx.
Qed.

End TaskProperties.

(** *** Witnesses *)

(** A host that accepts two sends and then closes. *)
Definition toy_send (_ : list u8) (_ : N) (k : nat) : SendRet * nat :=
  match k with 0 => (SendRet_Closed, 0) | S k => (SendRet_Success, k) end.

Definition toy_io : @IoWorld toy_proto fifo_mpsc nat :=
  @mk_io toy_proto fifo_mpsc nat (mk_chan [Pong; Pong; Pong; Pong] 100 true 1) false 2 [].

Lemma toy_io_yield : @io_yield_ok toy_proto fifo_mpsc nat id fifo_mpsc_laws.
Proof. intros w. split_and!; try done. exists []. by rewrite app_nil_r. Qed.

Lemma io_task_spec_witness :
  let e := @io_task toy_proto toy_prost fifo_mpsc nat toy_send id 9 toy_io in
  length (iw_calls (final e)) = 3 /\ completed e = true /\
  @delivers toy_proto toy_prost fifo_mpsc nat id fifo_mpsc_laws toy_io e.
Proof.
  split; [vm_compute; reflexivity|]. split; [vm_compute; reflexivity|].
  apply (@io_task_spec toy_proto toy_prost fifo_mpsc fifo_mpsc_laws nat toy_send id 9 toy_io).
  exact toy_io_yield.
Defined.

(** A host that knows no payload. *)
Definition toy_dispatch_cb (_ : N) (_ : list u8) (_ : N) (k : unit) : DispatchRet * unit :=
  (DispatchRet_UnknownPayload, k).

Definition toy_dt : @DtWorld toy_proto fifo_mpsc unit :=
  @mk_shared toy_proto fifo_mpsc _ (mk_chan [toy_dispatch 4; toy_dispatch 5] 255 true 1)
    (mk_chan [] 256 true 2) (@mk_dt toy_proto unit false tt [] []).

Lemma dispatch_task_spec_witness :
  let s' := final (@dispatch_task toy_proto fifo_mpsc unit toy_dispatch_cb id 1 9 toy_dt) in
  length (dt_calls (sh_rest s')) = 2 /\ length (dt_reports (sh_rest s')) = 2 /\
  @serves_requests toy_proto fifo_mpsc unit id fifo_mpsc_laws toy_dt s'.
Proof.
  split; [reflexivity|]. split; [reflexivity|].
  apply (@dispatch_task_spec toy_proto fifo_mpsc fifo_mpsc_laws unit toy_dispatch_cb id 1 9 toy_dt).
  - intros s. split_and!; try done. exists []. by rewrite app_nil_r.
  - done.
Defined.
