(* ===== verification/World.v ===== *)
(** * The environment the FFI layer provides

    Closes the interface of [Runtime]: the environment of a connection built
    from the code of this repository - [IOHandle] over its outgoing channel,
    [DispatchPublisher] over the dispatch interconnect - and from the runtime
    that [Ctx::new] (ctx.rs) builds, and the proof that it keeps the interface's
    laws.  The scheduler ([yield]) and the random generator stay parameters. *)

From stdpp Require Import base option list strings.
From Stdlib Require Import Strings.Byte NArith Lia.
From S2P Require Import Prelude Hash Certificate ConnectionId Codec Mpsc Dispatch Runtime Fsm Ffi.

(** ** The runtime *)

(** [tokio::runtime::Builder]: the options the code sets, and the timer, which
    is off unless enabled. *)
Record RuntimeBuilder : Type := mk_runtime {
  rt_current_thread : bool;
  rt_thread_name : string;
  rt_keep_alive_secs : N;
  rt_time : bool
}.

Definition Builder_new_current_thread : RuntimeBuilder := mk_runtime true "tokio-rt-worker" 10 false.
Definition Builder_thread_name (n : string) (b : RuntimeBuilder) : RuntimeBuilder :=
  mk_runtime (rt_current_thread b) n (rt_keep_alive_secs b) (rt_time b).
Definition Builder_thread_keep_alive (secs : N) (b : RuntimeBuilder) : RuntimeBuilder :=
  mk_runtime (rt_current_thread b) (rt_thread_name b) secs (rt_time b).

(** The runtime [Ctx::new] builds for the worker thread. *)
Definition Ctx_runtime : RuntimeBuilder :=
  Builder_thread_keep_alive (60 * 60)
    (Builder_thread_name "rc-x509-runtime" Builder_new_current_thread).

(** ** The world of one connection *)

Class RngLaws (R : Type) `{Rng R} : Prop := {
  rand_fill_length : forall n r bs, fst (rand_fill n r) = Some bs -> length bs = n
}.

Section Entropy.
Context {R : Type} `{!Rng R}.

(** The generator works: no failure, and never sixteen zero bytes. *)
Definition entropy : Prop := forall r : R, exists bs r',
  rand_fill 16 r = (Some bs, r') /\ length bs = 16 /\ bs <> replicate 16 x00.

(** The nonce that a state of the generator gives. *)
Definition drawn (r : R) (bs : list u8) (r' : R) : Prop :=
  rand_fill 16 r = (Some bs, r') /\ length bs = 16.
End Entropy.

(** A generator that works. *)
Definition toy_fixed_rng : Rng () := fun k r => (Some (replicate k x05), r).

Lemma toy_entropy : entropy (R:=()) (Rng0:=toy_fixed_rng).
Proof. intros r. eexists _, _. split; [reflexivity|]. split; [reflexivity | discriminate]. Qed.

Section World.
Context `{ProtoTypes} `{Mpsc} {R Host : Type} `{!Rng R}.

(** The outgoing channel, the token, the runtime, the metrics and the generator,
    next to the dispatch interconnect; the last two fields record what was
    accepted, for the specification only. *)
Record ConnRest : Type := mk_conn_rest {
  cr_out : mpsc ClientToServer;
  cr_stopped : bool;
  cr_runtime : RuntimeBuilder;
  cr_metrics : InstanceMetrics;
  cr_rng : R;
  cr_host : Host;
  cr_sent : list ClientToServer;
  cr_queued : list Dispatch
}.

Definition World : Type := Shared ConnRest.
Definition upd (f : ConnRest -> ConnRest) (w : World) : World :=
  mk_shared (sh_req w) (sh_resp w) (f (sh_rest w)).

Context (yield : World -> World) (fuel : nat).

Definition world_send (m : ClientToServer) : prog World (result () ConnectionErr) := fun w =>
  let '(r, c) := IOHandle_send m (cr_out (sh_rest w)) in
  Done r (upd (fun t => mk_conn_rest c (cr_stopped t) (cr_runtime t) (cr_metrics t) (cr_rng t)
    (cr_host t) (match r with Ok _ => cr_sent t ++ [m] | Err _ => cr_sent t end) (cr_queued t)) w).

(** [sleep] panics when the runtime has no timer; the branches of [select!] are
    evaluated before the first is polled. *)
Definition world_stop_or_sleep (w : World) : exec World bool :=
  if rt_time (cr_runtime (sh_rest w)) then
    if cr_stopped (sh_rest w) then Done true w
    else let w' := yield w in Done (cr_stopped (sh_rest w')) w'
  else Panic w.

Definition world_dispatch (p : DispatchPublisher) (d : Dispatch) :
  prog World (result () DispatchError) :=
  r ← DispatchPublisher_dispatch yield fuel p d;
  match r with
  | Ok _ => modify (upd (fun t => mk_conn_rest (cr_out t) (cr_stopped t) (cr_runtime t)
      (cr_metrics t) (cr_rng t) (cr_host t) (cr_sent t) (cr_queued t ++ [d]))) ;; mret r
  | Err _ => mret r
  end.

Definition world_rng (n : nat) (w : World) : option (list u8) * World :=
  let '(o, r) := rand_fill n (cr_rng (sh_rest w)) in
  (o, upd (fun t => mk_conn_rest (cr_out t) (cr_stopped t) (cr_runtime t) (cr_metrics t) r
    (cr_host t) (cr_sent t) (cr_queued t)) w).

#[export] Instance world_env : ConnEnv World := {|
  CancellationToken := unit;
  MetricsRef := unit;
  env_send := world_send;
  env_stop_or_sleep _ := world_stop_or_sleep;
  env_dispatch := world_dispatch;
  env_rng := world_rng;
  env_metrics _ w := cr_metrics (sh_rest w)
|}.

(** ** The laws hold *)

(** The rest of the program does not send or dispatch in this connection's
    name, does not change the runtime, and does not undo a cancellation. *)
Definition world_yield_ok : Prop := forall w,
  cr_sent (sh_rest (yield w)) = cr_sent (sh_rest w) /\
  cr_queued (sh_rest (yield w)) = cr_queued (sh_rest w) /\
  cr_runtime (sh_rest (yield w)) = cr_runtime (sh_rest w) /\
  (cr_stopped (sh_rest w) = true -> cr_stopped (sh_rest (yield w)) = true).

Context (Hyield : world_yield_ok) `{!RngLaws R}.

Lemma resp_send_quiet n x w :
  cr_sent (sh_rest (final (resp_send yield n x w))) = cr_sent (sh_rest w) /\
  cr_queued (sh_rest (final (resp_send yield n x w))) = cr_queued (sh_rest w).
Proof.
  revert w. induction n as [|n IH]; intros w; simpl; [done|].
  destruct (mpsc_poll_send x (sh_resp w)) as [[r|] c]; [done|].
  destruct (IH (yield (set_resp c w))) as [-> ->].
  by destruct (Hyield (set_resp c w)) as (-> & -> & _).
Qed.

Lemma resp_send_no_panic n x (w w' : World) : resp_send yield n x w <> Panic w'.
Proof.
  revert w. induction n as [|n IH]; intros w; simpl; [done|].
  by destruct (mpsc_poll_send x (sh_resp w)) as [[r|] c].
Qed.

Lemma world_dispatch_log p d w : match world_dispatch p d w with
  | Done (Ok _) w' => cr_sent (sh_rest w') = cr_sent (sh_rest w) /\
      cr_queued (sh_rest w') = cr_queued (sh_rest w) ++ [d]
  | Done (Err _) w' | Blocked w' => cr_sent (sh_rest w') = cr_sent (sh_rest w) /\
      cr_queued (sh_rest w') = cr_queued (sh_rest w)
  | Panic _ => False
  end.
Proof.
  unfold world_dispatch, DispatchPublisher_dispatch, req_try_send, resp_upgrade, resp_drop_tx,
    modify, mbind, prog_bind.
  destruct (mpsc_try_send d (sh_req w)) as [[[]|e] c]; simpl; [done|].
  destruct (mpsc_upgrade (sh_resp w)) as [c'|]; simpl; [|done].
  set (x := mk_dispatch_result _ _). set (w1 := set_resp c' (set_req c w)).
  destruct (resp_send_quiet fuel x w1) as [S Q].
  pose proof (resp_send_no_panic fuel x w1) as NP.
  destruct (resp_send yield fuel x w1) as [r w2|w2|w2]; simpl in *; [done | by destruct (NP w2) | done].
Qed.

Lemma world_send_log m w : match world_send m w with
  | Done (Ok _) w' => cr_sent (sh_rest w') = cr_sent (sh_rest w) ++ [m] /\
      cr_queued (sh_rest w') = cr_queued (sh_rest w)
  | Done (Err _) w' | Panic w' | Blocked w' => cr_sent (sh_rest w') = cr_sent (sh_rest w) /\
      cr_queued (sh_rest w') = cr_queued (sh_rest w)
  end.
Proof.
  unfold world_send. by destruct (IOHandle_send m (cr_out (sh_rest w))) as [[[]|e] c].
Qed.

Lemma world_stop_log w :
  cr_sent (sh_rest (final (world_stop_or_sleep w))) = cr_sent (sh_rest w) /\
  cr_queued (sh_rest (final (world_stop_or_sleep w))) = cr_queued (sh_rest w).
Proof.
  unfold world_stop_or_sleep. destruct (rt_time _); [|done]. destruct (cr_stopped _); [done|].
  simpl. by destruct (Hyield w) as (-> & -> & _).
Qed.

Lemma world_rng_log n w :
  cr_sent (sh_rest (snd (world_rng n w))) = cr_sent (sh_rest w) /\
  cr_queued (sh_rest (snd (world_rng n w))) = cr_queued (sh_rest w).
Proof. unfold world_rng. by destruct (rand_fill n (cr_rng (sh_rest w))). Qed.

Lemma world_rng_length n w bs : fst (world_rng n w) = Some bs -> length bs = n.
Proof.
  unfold world_rng. intros E. apply (rand_fill_length n (cr_rng (sh_rest w))).
  by destruct (rand_fill n (cr_rng (sh_rest w))).
Qed.

#[export] Instance world_laws : ConnEnvLaws World.
Proof.
  refine {| sent w := cr_sent (sh_rest w); queued w := cr_queued (sh_rest w) |}.
  - apply world_send_log.
  - intros tok w. apply world_stop_log.
  - intros p d w. pose proof (world_dispatch_log p d w) as L. cbn [env_dispatch world_env].
    by destruct (world_dispatch p d w) as [[[]|e] w'|w'|w'].
  - intros p d w w'. pose proof (world_dispatch_log p d w) as L. cbn [env_dispatch world_env].
    by destruct (world_dispatch p d w).
  - apply world_rng_log.
  - apply world_rng_length.
Defined.

#[export] Instance world_sched : ConnEnvSched World.
Proof.
  refine {| env_stopped _ w := cr_stopped (sh_rest w);
            env_timers w := rt_time (cr_runtime (sh_rest w)) |}.
  - intros m w. cbn [env_send world_env]. unfold world_send.
    destruct (IOHandle_send m (cr_out (sh_rest w))) as [r c]. by do 2 eexists.
  - intros tok w T S. cbn [env_stop_or_sleep world_env]. unfold world_stop_or_sleep. by rewrite T, S.
  - intros tok w T. cbn [env_stop_or_sleep world_env]. unfold world_stop_or_sleep. by rewrite T.
Defined.

End World.

(** ** The outgoing queue backing up *)

Section BackedUp.
Context `{ProtoTypes} `{AwsDigestLaws} `{UuidLib} `{MpscLaws} {R Host V : Type} `{!Rng R}.
Abbreviation W := (World (R:=R) (Host:=Host)).
Context (yield : W -> W) (n : nat).
#[local] Instance env : ConnEnv W := world_env yield n.

(** The runtime is the one [Ctx::new] builds, and the host has not taken the
    messages that fill the outgoing queue. *)
Definition backed_up (w : W) : Prop :=
  cr_runtime (sh_rest w) = Ctx_runtime /\
  c_rx (mpsc_view (cr_out (sh_rest w))) = true /\ chan_full (mpsc_view (cr_out (sh_rest w))).

(** The run panics, and the host never sees the message. *)
Definition panics_unsent {A} (w : W) (e : exec W A) : Prop :=
  exists w', e = Panic w' /\ cr_sent (sh_rest w') = cr_sent (sh_rest w).

Lemma retry_panics fuel v stop w :
  backed_up w -> panics_unsent w (retry_send (S fuel) v stop w).
Proof.
  intros (T & Rx & F). simpl. unfold world_send, IOHandle_send, mbind, prog_bind. simpl.
  destruct (mpsc_try_send v (cr_out (sh_rest w))) as [r c] eqn:E.
  apply mpsc_try_send_view in E. unfold chan_try_send in E.
  rewrite Rx, decide_True in E by done. injection E as <- _. simpl.
  unfold world_stop_or_sleep. simpl. rewrite T. by eexists.
Qed.

Lemma bind_panics {A B} w (p : prog W A) (k : A -> prog W B) :
  panics_unsent w (p w) -> panics_unsent w ((p ≫= k) w).
Proof. intros (w' & E & S). exists w'. unfold mbind, prog_bind. by rewrite E. Qed.

Lemma protocol_error_panics {S} fuel (f : Fsm (V:=V) S) b r w :
  backed_up w -> panics_unsent w (Fsm_protocol_error (Datatypes.S fuel) f b r w).
Proof. intros B. by apply bind_panics, retry_panics. Qed.

(** Drawing the placeholder nonce keeps the queue as it is, or panics itself. *)
Lemma nonce_backed_up w : backed_up w ->
  match IdNonce_default w with
  | Done _ w' => backed_up w' /\ cr_sent (sh_rest w') = cr_sent (sh_rest w)
  | Panic w' => cr_sent (sh_rest w') = cr_sent (sh_rest w)
  | Blocked _ => False
  end.
Proof.
  intros B. unfold IdNonce_default, rand_fill. simpl. unfold world_rng.
  destruct (rand_fill 16 (cr_rng (sh_rest w))) as [[bs|] r]; [|done]. by case_decide.
Qed.

Lemma then_panics {A B} w w1 (p : prog W A) (k : A -> prog W B) a :
  p w = Done a w1 -> cr_sent (sh_rest w1) = cr_sent (sh_rest w) ->
  panics_unsent w1 (k a w1) -> panics_unsent w ((p ≫= k) w).
Proof.
  intros E S (w' & E' & S'). exists w'. unfold mbind, prog_bind. rewrite E. split; congruence.
Qed.

Lemma ack_panics fuel (f : Fsm (V:=V) Handshaking) u w : backed_up w ->
  o_reply (react_ack (Phase_Handshaking (hs_nonce (fsm_state f))) u) <> None ->
  panics_unsent w (Handshaking_process (Datatypes.S fuel) f (ClientHelloAck u) w).
Proof.
  intros B Hr. pose proof (nonce_backed_up w B) as N. unfold Handshaking_process.
  destruct (IdNonce_default w) as [p w1|w1|w1] eqn:E; [destruct N as [B1 S1] | | done].
  - eapply then_panics; [exact E | done |].
    unfold Handshaking_verify. rewrite verify_outcome. cbn [react_ack] in Hr.
    destruct (decide (ConnectionId_as_bytes _ = uci_id u)) as [D|D]; [done|].
    rewrite decide_True by done. cbn [of_panics].
    eapply then_panics; [reflexivity | done |]. by apply protocol_error_panics.
  - apply bind_panics. by exists w1.
Qed.

Lemma process_impl_panics fuel (s : State (V:=V)) msg w : backed_up w ->
  o_reply (reaction (phase_of s) msg) <> None ->
  panics_unsent w (MessageDelegate_process_impl (S fuel) s msg w).
Proof.
  intros B.
  destruct s as [f|f|f|f], msg as [[|certs|id payload sig|u|d]|e]; intros Hr; try done;
    cbn [MessageDelegate_process_impl State_process State_protocol_error
         PreHandshake_process Handshaking_process Active_process];
    try (by apply protocol_error_panics); try (by apply bind_panics, retry_panics).
  - by apply ack_panics.
  - unfold Active_handle_dispatch. revert Hr. cbn [phase_of reaction react_dispatch].
    destruct sig as [[cert_id [|b sig]]|]; simpl admissible; intros Hr;
      try (by apply protocol_error_panics).
    revert Hr. unfold CertId.CertId_try_from, CertId.MIN_LENGTH, CertId.MAX_LENGTH.
    destruct (decide (16 <= length cert_id /\ length cert_id <= 64)); [done|]. intros _.
    rewrite decide_True by lia. by apply protocol_error_panics.
Qed.

End BackedUp.

(** ** Properties *)

(** C37. On the runtime [Ctx::new] builds, a connection whose outgoing queue is
    full panics on the first message from the server that calls for a reply - in
    every phase, for pings and protocol violations alike, and whether or not
    the connection is being stopped - and the reply is lost. *)
Theorem full_queue_panics `{ProtoTypes} `{AwsDigestLaws} `{UuidLib} `{MpscLaws} {R Host V : Type}
  `{!Rng R} (yield : World (R:=R) (Host:=Host) -> World) n fuel
  (d : MessageDelegate (ConnEnv0:=world_env yield n) (V:=V)) msg w
  (B : backed_up w) (Hr : o_reply (reaction (phase_of (delegate_state d)) msg) <> None) :
  exists w', MessageDelegate_process (ConnEnv0:=world_env yield n) (S fuel) d msg w = Panic w' /\
    cr_sent (sh_rest w') = cr_sent (sh_rest w).
Proof.
  exact (bind_panics w _ _ (process_impl_panics yield n fuel (delegate_state d) msg w B Hr)).
Qed.

(** *** Witness *)

#[export] Instance byte_rng : Rng u8 := fun k b => (Some (replicate k b), b).

Lemma byte_rng_laws : RngLaws u8.
Proof. constructor. intros k r bs [= <-]. apply length_replicate. Qed.

(** One pong waits in a queue of one place; the connection was not stopped. *)
Definition toy_backed_up : @World toy_proto fifo_mpsc u8 unit :=
  @mk_shared toy_proto fifo_mpsc _ (chan_new 1) (chan_new 1)
    (@mk_conn_rest toy_proto fifo_mpsc u8 unit (mk_chan [Pong] 1 true 1) false Ctx_runtime
      (InstanceMetrics_default toy_version) x05 tt [Pong] []).

Lemma full_queue_panics_witness :
  exists w', @MessageDelegate_process toy_proto toy_digest toy_uuid _
    (@world_env toy_proto fifo_mpsc u8 unit _ id 3) unit 2
    (@MessageDelegate_new toy_proto toy_uuid _ (@world_env toy_proto fifo_mpsc u8 unit _ id 3)
      unit tt tt toy_publisher toy_info tt) (Ok Ping) toy_backed_up = Panic w' /\
    cr_sent (sh_rest w') = [Pong].
Proof.
  apply (@full_queue_panics toy_proto toy_digest toy_digest_laws toy_uuid fifo_mpsc fifo_mpsc_laws
    u8 unit unit byte_rng id 3 1 _ (Ok Ping) toy_backed_up).
  - split_and!; [reflexivity | reflexivity | apply le_n].
  - discriminate.
Defined.
