(* ===== verification/Entrypoint.v ===== *)
(** * The library's main task

    Models [rc-x509-client/src/entrypoint.rs]: [Main::entrypoint], the loop
    [handle_connection_events] that turns the host's connection events into
    connection actors, and [ActiveConn::stop].  Spawning, joining, cancellation
    and the [select!] on the event stream and the shutdown signal are added to
    the environment interface ([EntryEnv]); its log is the sequence of these
    actions, which the theorems judge by an automaton. *)

From stdpp Require Import base option list strings sets.
From Stdlib Require Import Strings.Byte NArith Lia.
From S2P Require Import Prelude Hash Certificate ConnectionId Codec TrustStore Mpsc Dispatch Runtime Fsm Actor Ffi.

(** What the [select!] of the loop resolves to; the branches are polled in
    random order, so the environment chooses among those that are ready. *)
Inductive selected : Type :=
| Sel_Event (e : ConnectionEvent)
| Sel_Closed
| Sel_Shutdown.

Inductive JoinError : Type := mk_join_error.

Class EntryEnv `{ProtoTypes} `{AwsDigest} `{UuidLib} (W V : Type) `{!ConnEnv W} : Type := {
  Task : Type;
  (** [select! { incoming.next(), shutdown.wait_for_shutdown() }] *)
  env_select : prog W selected;
  (** [shutdown.child_token()] *)
  env_child_token : prog W CancellationToken;
  (** [tokio::spawn(conn.run())] *)
  env_spawn : IOHandle -> ConnectionActor (W:=W) (V:=V) -> prog W Task;
  (** [token.cancel()] *)
  env_cancel : CancellationToken -> prog W ();
  (** [task.await] *)
  env_join : Task -> prog W (result () JoinError);
  (** [shutdown.wait_for_shutdown()] *)
  env_wait_shutdown : prog W ()
}.

Section Entrypoint.
Context `{ProtoTypes} `{AwsDigest} `{UuidLib} {W V : Type} `{!ConnEnv W} `{!EntryEnv W V}.

Record ActiveConn : Type := mk_active_conn { ac_task : Task; ac_stop : CancellationToken }.

(** [ActiveConn::stop]: a panic of the actor is logged. *)
Definition ActiveConn_stop (self : ActiveConn) : prog W () :=
  env_cancel (ac_stop self) ;;
  r ← env_join (ac_task self);
  match r with Err _ => mret tt | Ok _ => mret tt end.

(** [if let Some(v) = active_conn.take() { v.stop().await }]. *)
Definition stop_active (active_conn : option ActiveConn) : prog W () :=
  match active_conn with Some v => ActiveConn_stop v | None => mret tt end.

(** The [Connected] branch, up to replacing the active connection. *)
Definition spawn_connection (metrics : MetricsRef) (app_info : AppInfo) (trust_store : V)
  (io : IOHandle) (dispatch : DispatchPublisher) : prog W ActiveConn :=
  stop ← env_child_token;
  let '(stream, dispatch) := DispatchPublisher_take_recv_stream dispatch in
  dispatch_stream ← of_panics stream;
  let delegate := MessageDelegate_new stop metrics dispatch app_info trust_store in
  let conn := ConnectionActor_new stop delegate dispatch_stream metrics in
  task ← env_spawn io conn;
  mret (mk_active_conn task stop).

(** The loop, at most [n] events. *)
Fixpoint handle_connection_events (n : nat) (metrics : MetricsRef) (app_info : AppInfo)
  (trust_store : V) (active_conn : option ActiveConn) : prog W () :=
  match n with
  | 0 => fun w => Blocked w
  | S n =>
      event ← env_select;
      match event with
      | Sel_Shutdown | Sel_Closed => stop_active active_conn
      | Sel_Event Event_Init | Sel_Event Event_Release =>
          handle_connection_events n metrics app_info trust_store active_conn
      | Sel_Event (Event_Connected io dispatch _) =>
          conn ← spawn_connection metrics app_info trust_store io dispatch;
          stop_active active_conn ;;
          handle_connection_events n metrics app_info trust_store (Some conn)
      | Sel_Event Event_Disconnected =>
          stop_active active_conn ;;
          handle_connection_events n metrics app_info trust_store None
      end
  end.

(** [Main::entrypoint] after its set-up: the loop runs as a task of its own, its
    panic is logged, and the entrypoint returns once the shutdown is signalled
    and the loop has ended.  Waiting for the signal has no effect, so it is
    placed after the loop. *)
Definition run_events (n : nat) (metrics : MetricsRef) (app_info : AppInfo) (trust_store : V) :
  prog W () := fun w =>
  match handle_connection_events n metrics app_info trust_store None w with
  | Done _ w' | Panic w' => env_wait_shutdown w'
  | Blocked w' => Blocked w'
  end.

End Entrypoint.

Definition APPROX_MAX_CACHE_BYTES : N := 2 * (1024 * 1024).

Record Main : Type := Main_new { main_app_info : AppInfo }.

Section MainTask.
Context `{ProtoTypes} `{AwsDigest} `{UuidLib} `{X509Lib} {C : Type}.
Context {W : Type} `{!ConnEnv W} `{!EntryEnv W (TrustStore C)}.

(** [R1] and [R2] as PEM, and [MemoryCertCache::new]. *)
Variables (r1_pem r2_pem : list u8) (cache_new : N -> C).
(** [Arc::new(InstanceMetrics::default())] *)
Variable metrics_new : prog W MetricsRef.

(** [Main::entrypoint]: the roots are parsed on first use. *)
Definition Main_entrypoint (n : nat) (self : Main) : prog W () :=
  metrics ← metrics_new;
  r1 ← of_panics (load_root r1_pem);
  r2 ← of_panics (load_root r2_pem);
  let trust_store := TrustStore_new [r1; r2] (cache_new APPROX_MAX_CACHE_BYTES) in
  run_events n metrics (main_app_info self) trust_store.

End MainTask.

(** ** Specification: the discipline of the loop *)

Section Discipline.
Context {K T : Type} `{!EqDecision K} `{!EqDecision T}.

(** What the loop does that others can see. *)
Inductive action : Type :=
| Received (s : selected)
| Spawned (t : T) (k : K)
| Cancelled (k : K)
| Joined (t : T).

(** A connection that was started and not yet awaited. *)
Record live_conn : Type := mk_live { lc_task : T; lc_token : K; lc_cancelled : bool }.

(** The live connections, oldest first; how many may remain when the next event
    is taken; whether a connection may be started now; what was ever started. *)
Record ledger : Type := mk_ledger {
  lg_live : list live_conn;
  lg_limit : nat;
  lg_spawn : bool;
  lg_used : list (T * K)
}.

Definition ledger_init : ledger := mk_ledger [] 0 false [].

(** Every event but a disconnection and the end lets one connection live on. *)
Definition limit_of (s : selected) : nat :=
  match s with Sel_Event Event_Disconnected | Sel_Closed | Sel_Shutdown => 0 | _ => 1 end.

Definition starts (s : selected) : bool :=
  match s with Sel_Event (Event_Connected _ _ _) => true | _ => false end.

(** An action the discipline allows:
    - an event is taken only when no connection above the limit is left;
    - only a [Connected] event starts a connection, one, with a task and a token
      never used before;
    - only a connection above the limit is cancelled, the oldest;
    - only a cancelled connection is awaited, the oldest. *)
Definition ledger_step (g : ledger) (a : action) : option ledger :=
  match a with
  | Received s =>
      if decide (length (lg_live g) <= lg_limit g)
      then Some (mk_ledger (lg_live g) (limit_of s) (starts s) (lg_used g)) else None
  | Spawned t k =>
      if decide (lg_spawn g = true /\ (t ∉ (lg_used g).*1) /\ (k ∉ (lg_used g).*2))
      then Some (mk_ledger (lg_live g ++ [mk_live t k false]) (lg_limit g) false
        (lg_used g ++ [(t, k)])) else None
  | Cancelled k =>
      match lg_live g with
      | c :: cs =>
          if decide (lc_token c = k /\ lg_limit g < length (lg_live g))
          then Some (mk_ledger (mk_live (lc_task c) k true :: cs) (lg_limit g) (lg_spawn g) (lg_used g))
          else None
      | [] => None
      end
  | Joined t =>
      match lg_live g with
      | c :: cs =>
          if decide (lc_task c = t /\ lc_cancelled c = true)
          then Some (mk_ledger cs (lg_limit g) (lg_spawn g) (lg_used g)) else None
      | [] => None
      end
  end.

Fixpoint audit (g : ledger) (tr : list action) : option ledger :=
  match tr with
  | [] => Some g
  | a :: tr => g' ← ledger_step g a; audit g' tr
  end.

Lemma audit_app g tr1 tr2 : audit g (tr1 ++ tr2) = (g' ← audit g tr1; audit g' tr2).
Proof.
  revert g. induction tr1 as [|a tr1 IH]; intros g; simpl; [done|].
  destruct (ledger_step g a); simpl; [apply IH | done].
Qed.

Lemma audit_snoc g tr g1 a : audit g tr = Some g1 -> audit g (tr ++ [a]) = ledger_step g1 a.
Proof. intros E. rewrite audit_app, E. simpl. by destruct (ledger_step g1 a). Qed.

(** The connections a log has started. *)
Definition started (tr : list action) : list (T * K) :=
  omap (fun a => match a with Spawned t k => Some (t, k) | _ => None end) tr.

Lemma started_app tr1 tr2 : started (tr1 ++ tr2) = started tr1 ++ started tr2.
Proof. apply omap_app. Qed.

(** The ledger's account of what was started is the log's. *)
Lemma audit_used g tr g' : audit g tr = Some g' -> lg_used g' = lg_used g ++ started tr.
Proof.
  revert g. induction tr as [|a tr IH]; intros g; cbn [audit].
  { intros [= ->]. by rewrite app_nil_r. }
  destruct (ledger_step g a) as [g1|] eqn:E; [|done]. intros A. cbn in A. apply IH in A.
  rewrite A. destruct a as [s|t k|k|t]; simpl in E.
  - case_decide; by simplify_eq.
  - case_decide; simplify_eq. simpl. by rewrite <- app_assoc.
  - destruct (lg_live g); [done|]. case_decide; by simplify_eq.
  - destruct (lg_live g); [done|]. case_decide; by simplify_eq.
Qed.

(** A live connection was started. *)
Lemma audit_live g tr g' :
  Forall (fun c => (lc_task c, lc_token c) ∈ lg_used g) (lg_live g) -> audit g tr = Some g' ->
  Forall (fun c => (lc_task c, lc_token c) ∈ lg_used g') (lg_live g').
Proof.
  revert g. induction tr as [|a tr IH]; intros g F; cbn [audit]; [by intros [= <-]|].
  destruct (ledger_step g a) as [g1|] eqn:E; [|done]. apply IH. clear IH.
  destruct a as [s|t k|k|t]; simpl in E.
  - case_decide; by simplify_eq.
  - case_decide; simplify_eq. simpl. apply Forall_app. split.
    + eapply Forall_impl; [exact F|]. intros c Hc. apply elem_of_app. by left.
    + apply Forall_singleton, elem_of_app. right. by apply list_elem_of_singleton.
  - destruct (lg_live g) as [|c cs]; [done|]. case_decide as D; simplify_eq. simpl.
    destruct D as [<- _]. by apply Forall_cons in F as [Fc F]; apply Forall_cons.
  - destruct (lg_live g) as [|c cs]; [done|]. case_decide; simplify_eq. by apply Forall_cons in F as [_ F].
Qed.

End Discipline.
Arguments action K T : clear implicits.
Arguments ledger K T : clear implicits.

(** ** What the environment logs *)

(** [entry_inv] is what the environment keeps of its own; [issued] are the tokens
    that [child_token] handed out. *)
Class EntryEnvLaws `{ProtoTypes} `{AwsDigest} `{UuidLib} (W V : Type) `{!ConnEnv W}
  `{!EntryEnv W V} : Type := {
  Token_eq_dec :: EqDecision CancellationToken;
  Task_eq_dec :: EqDecision Task;
  trace : W -> list (action CancellationToken Task);
  entry_inv : W -> Prop;
  issued : CancellationToken -> W -> Prop;
  select_log : forall w, entry_inv w -> entry_inv (final (env_select w)) /\
    trace (final (env_select w)) = trace w ++
      match env_select w with Done s _ => [Received s] | _ => [] end;
  (** a child token can be cancelled independently of all others *)
  child_token_log : forall w, entry_inv w -> entry_inv (final (env_child_token w)) /\
    trace (final (env_child_token w)) = trace w /\
    match env_child_token w with
    | Done k w' => issued k w' /\ k ∉ (started (trace w)).*2
    | _ => True
    end;
  spawn_log : forall io a w, entry_inv w -> issued (ca_stop a) w ->
    entry_inv (final (env_spawn io a w)) /\
    match env_spawn io a w with
    | Done t w' => trace w' = trace w ++ [Spawned t (ca_stop a)] /\ (t ∉ (started (trace w)).*1)
    | Panic w' | Blocked w' => trace w' = trace w
    end;
  cancel_log : forall k w, entry_inv w -> k ∈ (started (trace w)).*2 ->
    entry_inv (final (env_cancel k w)) /\
    trace (final (env_cancel k w)) = trace w ++
      match env_cancel k w with Done _ _ => [Cancelled k] | _ => [] end;
  join_log : forall t w, entry_inv w -> entry_inv (final (env_join t w)) /\
    trace (final (env_join t w)) = trace w ++
      match env_join t w with Done _ _ => [Joined t] | _ => [] end;
  wait_log : forall w, entry_inv w -> trace (final (env_wait_shutdown w)) = trace w
}.

Section Audited.
Context `{ProtoTypes} `{AwsDigest} `{UuidLib} {W V : Type} `{!ConnEnv W} `{!EntryEnv W V}
  `{!EntryEnvLaws W V}.

(** The log passes the audit with ledger [g]. *)
Definition ledger_of (w : W) (g : ledger CancellationToken Task) : Prop :=
  entry_inv w /\ audit ledger_init (trace w) = Some g.

(** The token of a live connection was handed out with it. *)
Lemma live_started w g c : ledger_of w g -> c ∈ lg_live g -> lc_token c ∈ (started (trace w)).*2.
Proof.
  intros [_ A] Hc. pose proof (audit_live ledger_init (trace w) g (Forall_nil_2 _) A) as F.
  rewrite Forall_forall in F. specialize (F c Hc). rewrite (audit_used _ _ _ A) in F. simpl in F.
  by apply (list_elem_of_fmap_2 snd) in F.
Qed.

(** However the run ends, the log passes, and at most two connections are live;
    if it completes, [P] holds of the result and the ledger. *)
Definition disciplined {A} (P : A -> ledger CancellationToken Task -> Prop) (e : exec W A) : Prop :=
  exists g, ledger_of (final e) g /\ length (lg_live g) <= 2 /\
    match e with Done a _ => P a g | _ => True end.

Lemma disciplined_bind {A B} (P : A -> _ -> Prop) (Q : B -> _ -> Prop) (p : prog W A)
  (k : A -> prog W B) w : disciplined P (p w) ->
  (forall a w' g, ledger_of w' g -> length (lg_live g) <= 2 -> P a g -> disciplined Q (k a w')) ->
  disciplined Q ((p ≫= k) w).
Proof.
  intros (g & A1 & L & HP) K. unfold mbind, prog_bind.
  destruct (p w) as [a w'|w'|w']; [by eapply K | by exists g..].
Qed.

Lemma disciplined_ret {A} (P : A -> _ -> Prop) a (w : W) g :
  ledger_of w g -> length (lg_live g) <= 2 -> P a g -> disciplined P (mret (M:=prog W) a w).
Proof. intros. by exists g. Qed.

(** An operation that logs [f a] when it completes. *)
Lemma disciplined_log {A} (P : A -> _ -> Prop) (f : A -> action CancellationToken Task) (e : exec W A) w g :
  entry_inv (final e) /\
  trace (final e) = trace w ++ match e with Done a _ => [f a] | _ => [] end ->
  ledger_of w g -> length (lg_live g) <= 2 ->
  (forall a, exists g', ledger_step g (f a) = Some g' /\ length (lg_live g') <= 2 /\ P a g') ->
  disciplined P e.
Proof.
  intros [I E] [I1 A1] L K. unfold disciplined, ledger_of. destruct e as [a w'|w'|w']; simpl in I, E.
  - destruct (K a) as (g' & S & L' & HP). exists g'. simpl. split_and!; [done | | done..].
    rewrite E. by erewrite audit_snoc.
  - exists g. rewrite app_nil_r in E. simpl. by rewrite E.
  - exists g. rewrite app_nil_r in E. simpl. by rewrite E.
Qed.

Definition live_of (c : ActiveConn) : live_conn := mk_live (ac_task c) (ac_stop c) false.

(** Stopping the oldest connection, when it is above the limit. *)
Lemma stop_disciplined active w g rest :
  ledger_of w g -> lg_live g = option_list (live_of <$> active) ++ rest ->
  length (lg_live g) <= 2 -> (active <> None -> lg_limit g < length (lg_live g)) ->
  disciplined (fun _ g' => g' = mk_ledger rest (lg_limit g) (lg_spawn g) (lg_used g))
    (stop_active active w).
Proof.
  intros A1 E L Lim. destruct active as [c|]; simpl in E.
  2: { exists g. split_and!; [done..|]. destruct g; simpl in *. by subst. }
  assert (Lim' : lg_limit g < length (lg_live g)) by by apply Lim.
  unfold stop_active, ActiveConn_stop. eapply disciplined_bind.
  - eapply (disciplined_log (fun _ g' => g' = mk_ledger
      (mk_live (ac_task c) (ac_stop c) true :: rest) (lg_limit g) (lg_spawn g) (lg_used g))
      (fun _ => Cancelled (ac_stop c))); [| exact A1 | exact L |].
    1: { apply cancel_log; [apply A1|]. apply (live_started w g (live_of c) A1). rewrite E. by left. }
    intros _. eexists. split; [|split; [|reflexivity]].
    + simpl. rewrite E in *. simpl. by rewrite decide_True.
    + rewrite E in L. exact L.
  - intros _ w1 g1 A2 L2 ->. eapply disciplined_bind.
    + eapply (disciplined_log _ (fun _ => Joined (ac_task c))); [apply join_log, A2 | exact A2 | exact L2 |].
      intros r. eexists. split; [|split; [|exact (eq_refl : (fun _ g' => g' = mk_ledger rest
        (lg_limit g) (lg_spawn g) (lg_used g)) r _)]].
      * simpl. by rewrite decide_True.
      * simpl in *. lia.
    + intros r w2 g2 A3 L3 ->. destruct r; by eapply disciplined_ret.
Qed.

(** Starting a connection, when the ledger allows one. *)
Lemma spawn_disciplined metrics app_info (trust_store : V) io dispatch w g :
  ledger_of w g -> length (lg_live g) <= 1 -> lg_spawn g = true ->
  disciplined (fun c g' => lg_live g' = lg_live g ++ [live_of c] /\ lg_limit g' = lg_limit g)
    (spawn_connection metrics app_info trust_store io dispatch w).
Proof.
  intros [I1 A1] L Sp. unfold spawn_connection. pose proof (child_token_log w I1) as (I2 & E & F).
  unfold mbind at 1, prog_bind at 1.
  destruct (env_child_token w) as [k w1|w1|w1]; simpl in I2, E;
    [|exists g; unfold ledger_of; simpl; rewrite E; split_and!; [done.. | lia | done]..].
  destruct F as [Is Fk]. rewrite <- E in A1, Fk.
  destruct (DispatchPublisher_take_recv_stream dispatch) as [[rx|] d].
  2: { exists g. split_and!; [done | lia | done]. }
  cbv zeta. unfold of_panics, mbind at 1, prog_bind at 1. eapply disciplined_bind.
  2: { intros t w2 g2 A3 L3 HP. eapply disciplined_ret; [exact A3 | exact L3 | exact HP]. }
  set (conn := ConnectionActor_new _ _ _ _). pose proof (spawn_log io conn w1 I2 Is) as [I3 E3].
  destruct (env_spawn io conn w1) as [t w2|w2|w2]; [destruct E3 as [E3 Ft] | ..].
  - eexists. unfold ledger_of. simpl in *. rewrite E3. erewrite audit_snoc by exact A1. simpl.
    rewrite decide_True by (rewrite (audit_used _ _ _ A1); done).
    split; [split; [exact I3 | reflexivity]|]. simpl. rewrite length_app. simpl. split; [lia | done].
  - exists g. unfold ledger_of. simpl in *. rewrite E3. split_and!; [done.. | lia | done].
  - exists g. unfold ledger_of. simpl in *. rewrite E3. split_and!; [done.. | lia | done].
Qed.

(** The loop's own record agrees with the ledger between two events. *)
Definition settled (active : option ActiveConn) (g : ledger CancellationToken Task) : Prop :=
  lg_live g = option_list (live_of <$> active) /\ length (lg_live g) <= lg_limit g.

Lemma settled_length active g : settled active g -> length (lg_live g) <= 1.
Proof. intros [-> _]. by destruct active; simpl; lia. Qed.

Lemma events_disciplined n metrics app_info (trust_store : V) active w g :
  ledger_of w g -> settled active g ->
  disciplined (fun _ g' => lg_live g' = [])
    (handle_connection_events n metrics app_info trust_store active w).
Proof.
  revert active w g. induction n as [|n IH]; intros active w g A1 S;
    pose proof (settled_length _ _ S) as L; destruct S as [E Lim].
  { exists g. split_and!; [done | lia | done]. }
  cbn [handle_connection_events].
  eapply (disciplined_bind (fun s g' => g' = mk_ledger (lg_live g) (limit_of s) (starts s) (lg_used g))).
  { eapply (disciplined_log _ Received); [apply select_log, A1 | exact A1 | lia |].
    intros s. eexists. split; [simpl; by rewrite decide_True|]. simpl. split; [lia | done]. }
  intros s w1 g1 A2 L2 ->.
  assert (Stop : limit_of s = 0 -> disciplined (fun _ g' => g' = mk_ledger [] 0 (starts s) (lg_used g))
    (stop_active active w1)).
  { intros Z. rewrite <- Z. apply (stop_disciplined active w1 _ [] A2); [| exact L2 |]; simpl.
    - by rewrite app_nil_r.
    - rewrite Z, E. destruct active; simpl; [lia | done]. }
  assert (Next : limit_of s = 1 -> settled active (mk_ledger (lg_live g) (limit_of s) (starts s) (lg_used g))).
  { intros Z. split; simpl; [done | lia]. }
  destruct s as [[|io dispatch host| |]| |].
  - by eapply IH; [exact A2 | apply Next].
  - eapply disciplined_bind; [by eapply spawn_disciplined|].
    intros c w2 g2 A3 L3 [E3 Lim3]. simpl in E3, Lim3. eapply disciplined_bind.
    + eapply (stop_disciplined active w2 g2 [live_of c]); [exact A3 | by rewrite E3, E | exact L3 |].
      rewrite Lim3, E3, E. destruct active; simpl; [lia | done].
    + intros _ w3 g3 A4 _ ->. eapply IH; [exact A4|]. split; simpl; [done | lia].
  - eapply disciplined_bind; [by apply Stop|]. intros _ w2 g2 A3 _ ->. eapply IH; [exact A3 | done].
  - by eapply IH; [exact A2 | apply Next].
  - destruct Stop as (g' & A3 & L3 & HP); [done|]. exists g'. split_and!; [done..|].
    destruct (stop_active active w1); [by subst | done..].
  - destruct Stop as (g' & A3 & L3 & HP); [done|]. exists g'. split_and!; [done..|].
    destruct (stop_active active w1); [by subst | done..].
Qed.

End Audited.

(** ** Shutting down *)

(** The scheduling side: the host has [pending] events and then ends the stream
    or signals the shutdown; an actor whose token was cancelled returns or
    panics, or [never_ends]. *)
Class EntryEnvSched `{ProtoTypes} `{AwsDigest} `{UuidLib} (W V : Type) `{!ConnEnv W}
  `{!EntryEnv W V} `{!EntryEnvLaws W V} : Type := {
  pending : W -> list ConnectionEvent;
  never_ends : Task -> W -> Prop;
  select_event : forall w e es, entry_inv w -> pending w = e :: es ->
    exists w', env_select w = Done (Sel_Event e) w' /\ pending w' = es;
  select_end : forall w, entry_inv w -> pending w = [] ->
    exists s w', env_select w = Done s w' /\ (s = Sel_Closed \/ s = Sel_Shutdown);
  child_token_returns : forall w, entry_inv w ->
    exists k w', env_child_token w = Done k w' /\ pending w' = pending w;
  spawn_returns : forall io a w, entry_inv w -> issued (ca_stop a) w ->
    exists t w', env_spawn io a w = Done t w' /\ pending w' = pending w;
  cancel_returns : forall k w, entry_inv w -> k ∈ (started (trace w)).*2 ->
    exists w', env_cancel k w = Done tt w' /\ pending w' = pending w;
  join_returns : forall t k w, entry_inv w -> Spawned t k ∈ trace w -> Cancelled k ∈ trace w ->
    (exists r w', env_join t w = Done r w' /\ pending w' = pending w) \/
    (exists w', env_join t w = Blocked w' /\ never_ends t w');
  wait_returns : forall w, entry_inv w -> exists w', env_wait_shutdown w = Done tt w'
}.

Section Shutdown.
Context `{ProtoTypes} `{AwsDigest} `{UuidLib} {W V : Type} `{!ConnEnv W} `{!EntryEnv W V}
  `{!EntryEnvLaws W V} `{!EntryEnvSched W V}.

Definition is_connected (e : ConnectionEvent) : bool :=
  match e with Event_Connected _ _ _ => true | _ => false end.

(** A publisher is announced with its response stream. *)
Definition has_stream (e : ConnectionEvent) : Prop :=
  match e with Event_Connected _ dispatch _ => dp_rx dispatch <> None | _ => True end.

(** The active connection was started by this loop. *)
Definition owned (active : option ActiveConn) (w : W) : Prop :=
  match active with Some c => Spawned (ac_task c) (ac_stop c) ∈ trace w | None => True end.

Lemma spawned_started t k (tr : list (action CancellationToken Task)) :
  Spawned t k ∈ tr -> k ∈ (started tr).*2.
Proof.
  intros Hs. apply (list_elem_of_fmap_2 snd (started tr) (t, k)). unfold started.
  apply list_elem_of_omap. by exists (Spawned t k).
Qed.

(** The run waits for an actor that never ends. *)
Definition stranded {A} (e : exec W A) : Prop := exists t w', e = Blocked w' /\ never_ends t w'.

Lemma stranded_bind {A B} (p : prog W A) (k : A -> prog W B) w :
  stranded (p w) -> stranded ((p ≫= k) w).
Proof. intros (t & w' & E & N). exists t, w'. unfold mbind, prog_bind. by rewrite E. Qed.

Lemma stop_returns active w : entry_inv w -> owned active w -> stranded (stop_active active w) \/ exists w',
  stop_active active w = Done tt w' /\ entry_inv w' /\
  pending w' = pending w /\ started (trace w') = started (trace w) /\
  (forall a, a ∈ trace w -> a ∈ trace w').
Proof.
  intros I0. destruct active as [c|]; simpl; [|right; by exists w]. intros O. unfold ActiveConn_stop.
  assert (Hk : ac_stop c ∈ (started (trace w)).*2) by by eapply spawned_started.
  destruct (cancel_returns (ac_stop c) w I0 Hk) as (w1 & E1 & P1).
  pose proof (cancel_log (ac_stop c) w I0 Hk) as [I1 T1]. rewrite E1 in I1, T1. simpl in I1, T1.
  destruct (join_returns (ac_task c) (ac_stop c) w1 I1) as [(r & w2 & E2 & P2)|(w2 & E2 & N2)];
    [clear Hk; rewrite T1; set_solver..| |]; clear Hk.
  2: { left. exists (ac_task c), w2. unfold mbind, prog_bind. by rewrite E1, E2. }
  pose proof (join_log (ac_task c) w1 I1) as [I2 T2]. rewrite E2 in I2, T2. simpl in I2, T2.
  right. exists w2. rewrite (prog_bind_done _ _ _ _ _ E1), (prog_bind_done _ _ _ _ _ E2).
  split_and!; [by destruct r | done | congruence | | rewrite T2, T1; set_solver].
  by rewrite T2, T1, !started_app, !app_nil_r.
Qed.

Lemma spawn_connection_returns metrics app_info (trust_store : V) io dispatch w :
  entry_inv w -> dp_rx dispatch <> None -> exists c w',
  spawn_connection metrics app_info trust_store io dispatch w = Done c w' /\ entry_inv w' /\
  pending w' = pending w /\ trace w' = trace w ++ [Spawned (ac_task c) (ac_stop c)].
Proof.
  intros I0 D. unfold spawn_connection, DispatchPublisher_take_recv_stream.
  destruct (dp_rx dispatch) as [rx|]; [|done].
  destruct (child_token_returns w I0) as (k & w1 & E1 & P1). rewrite (prog_bind_done _ _ _ _ _ E1).
  pose proof (child_token_log w I0) as (I1 & T1 & Is). rewrite E1 in I1, T1, Is. simpl in I1, T1, Is.
  cbv zeta. unfold of_panics, mbind at 1, prog_bind at 1. set (conn := ConnectionActor_new _ _ _ _).
  assert (Hi : issued (ca_stop conn) w1) by apply Is.
  destruct (spawn_returns io conn w1 I1 Hi) as (t & w2 & E2 & P2). rewrite (prog_bind_done _ _ _ _ _ E2).
  pose proof (spawn_log io conn w1 I1 Hi) as [I2 T2]. rewrite E2 in I2, T2. destruct T2 as [T2 _].
  exists (mk_active_conn t k), w2. split_and!; [done | done | congruence | by rewrite T2, T1].
Qed.

(** One iteration for an event: one started connection if it is [Connected], and
    the loop goes on with a connection of its own, unless it is stranded. *)
Lemma events_complete metrics app_info (trust_store : V) es n active w :
  entry_inv w -> pending w = es -> Forall has_stream es -> length es < n -> owned active w ->
  stranded (handle_connection_events n metrics app_info trust_store active w) \/
  exists w', handle_connection_events n metrics app_info trust_store active w = Done tt w' /\
    entry_inv w' /\
    length (started (trace w')) = length (started (trace w)) + length (List.filter is_connected es).
Proof.
  revert n active w. induction es as [|e es IH]; intros [|n] active w I0 P F Hn O;
    [simpl in Hn; lia| |simpl in Hn; lia|];
    cbn [handle_connection_events]; pose proof (select_log w I0) as [I1 T0].
  - destruct (select_end w I0 P) as (s & w1 & E & Hs). rewrite (prog_bind_done _ _ _ _ _ E).
    rewrite E in I1, T0. simpl in I1, T0.
    destruct (stop_returns active w1 I1) as [St|(w2 & E2 & I2 & _ & S2 & _)].
    { destruct active; [|done]. unfold owned. rewrite T0. apply elem_of_app. by left. }
    { left. destruct Hs as [Hs|Hs]; by rewrite Hs. }
    right. exists w2. rewrite S2, T0, started_app, app_nil_r. simpl. split; [|split; [done | lia]].
    destruct Hs as [Hs|Hs]; by rewrite Hs.
  - apply Forall_cons in F as [Fe F]. simpl in Hn.
    destruct (select_event w e es I0 P) as (w1 & E & P1). rewrite (prog_bind_done _ _ _ _ _ E).
    rewrite E in I1, T0. simpl in I1, T0.
    assert (S1 : started (trace w1) = started (trace w)) by by (rewrite T0, started_app; apply app_nil_r).
    assert (O1 : owned active w1) by (destruct active; [|done]; simpl in *; rewrite T0; set_solver).
    destruct e as [|io dispatch host| |]; simpl in Fe.
    + destruct (IH n active w1 I1 P1 F) as [St|(w' & E' & I' & S')]; [lia | done | by left|].
      right. exists w'. by rewrite S', S1.
    + destruct (spawn_connection_returns metrics app_info trust_store io dispatch w1 I1 Fe)
        as (c & w2 & E2 & I2 & P2 & T2).
      rewrite (prog_bind_done _ _ _ _ _ E2).
      destruct (stop_returns active w2 I2) as [St|(w3 & E3 & I3 & P3 & S3 & M3)].
      { destruct active; [|done]. simpl in *. rewrite T2. set_solver. }
      { left. by apply stranded_bind. }
      rewrite (prog_bind_done _ _ _ _ _ E3).
      destruct (IH n (Some c) w3 I3) as [St|(w' & E' & I' & S')]; [congruence | done | lia | | by left|].
      { apply M3. rewrite T2. set_solver. }
      right. exists w'. split_and!; [done | done |]. rewrite S', S3, T2, started_app, S1, length_app. simpl. lia.
    + destruct (stop_returns active w1 I1 O1) as [St|(w3 & E3 & I3 & P3 & S3 & M3)];
        [left; by apply stranded_bind|].
      rewrite (prog_bind_done _ _ _ _ _ E3).
      destruct (IH n None w3 I3) as [St|(w' & E' & I' & S')]; [congruence | done | lia | done | by left|].
      right. exists w'. by rewrite S', S3, S1.
    + destruct (IH n active w1 I1 P1 F) as [St|(w' & E' & I' & S')]; [lia | done | by left|].
      right. exists w'. by rewrite S', S1.
Qed.

End Shutdown.

(** ** A scripted environment for concrete evaluation

    Tasks and tokens are numbered; actors end as soon as they are cancelled. *)
Record toy_entry_world : Type := mk_toy_entry {
  te_pending : list ConnectionEvent;
  te_trace : list (action nat nat)
}.

#[export] Instance toy_entry_conn : @ConnEnv toy_proto toy_entry_world := {|
  CancellationToken := nat;
  MetricsRef := unit;
  env_send _ w := Done (Ok tt) w;
  env_stop_or_sleep _ w := Done false w;
  env_dispatch _ _ w := Done (Ok tt) w;
  env_rng n w := (Some (replicate n x05), w);
  env_metrics _ _ := InstanceMetrics_default toy_version
|}.

Definition te_log (a : action nat nat) (w : toy_entry_world) : toy_entry_world :=
  mk_toy_entry (te_pending w) (te_trace w ++ [a]).

Definition fresh_nat (l : list nat) : nat := S (foldr Nat.max 0 l).

Lemma fresh_nat_fresh l : fresh_nat l ∉ l.
Proof.
  assert (B : forall x, x ∈ l -> x <= foldr Nat.max 0 l).
  { induction l as [|y l IH]; intros x; [by intros ?%not_elem_of_nil|].
    intros I. simpl. apply elem_of_cons in I as [->|I]; [lia|]. specialize (IH x I). lia. }
  intros I. apply B in I. unfold fresh_nat in I. lia.
Qed.

#[export] Instance toy_entry_env :
  @EntryEnv toy_proto toy_digest toy_uuid toy_entry_world unit toy_entry_conn := {|
  Task := nat;
  env_select w := match te_pending w with
    | e :: es => Done (Sel_Event e) (mk_toy_entry es (te_trace w ++ [Received (Sel_Event e)]))
    | [] => Done Sel_Shutdown (te_log (Received Sel_Shutdown) w)
    end;
  env_child_token w := Done (fresh_nat (started (te_trace w)).*2 : @CancellationToken _ _ toy_entry_conn) w;
  env_spawn _ a w := let t := fresh_nat (started (te_trace w)).*1 in
    Done t (te_log (Spawned t (ca_stop a)) w);
  env_cancel k w := Done tt (te_log (Cancelled k) w);
  env_join t w := Done (Ok tt) (te_log (Joined t) w);
  env_wait_shutdown w := Done tt w
|}.

#[export] Instance toy_entry_laws :
  @EntryEnvLaws toy_proto toy_digest toy_uuid toy_entry_world unit toy_entry_conn toy_entry_env.
Proof.
  refine (Build_EntryEnvLaws toy_proto toy_digest toy_uuid toy_entry_world unit toy_entry_conn
    toy_entry_env Nat.eq_dec Nat.eq_dec te_trace (fun _ => True) (fun _ _ => True) _ _ _ _ _ _).
  - intros [[|e es] tr]; done.
  - intros w _. split; [done|]. split; [done|]. split; [done | apply fresh_nat_fresh].
  - intros io a w _ _. split; [done|]. split; [done | apply fresh_nat_fresh].
  - done.
  - done.
  - done.
Defined.

#[export] Instance toy_entry_sched : @EntryEnvSched toy_proto toy_digest toy_uuid toy_entry_world
  unit toy_entry_conn toy_entry_env toy_entry_laws.
Proof.
  refine {| pending := te_pending; never_ends _ _ := False |}; try (intros; by do 2 eexists); try (intros; by eexists).
  - intros w e es _ E. exists (mk_toy_entry es (te_trace w ++ [Received (Sel_Event e)])).
    split; [|done]. cbn. by rewrite E.
  - intros w _ E. exists Sel_Shutdown, (te_log (Received Sel_Shutdown) w). split; [|auto]. cbn. by rewrite E.
  - intros t k w _ _ _. left. by do 2 eexists.
Defined.

(** ** Properties *)

Section EntryProperties.
Context `{ProtoTypes} `{AwsDigest} `{UuidLib} {W V : Type} `{!ConnEnv W} `{!EntryEnv W V}
  `{!EntryEnvLaws W V}.

(** C25. Whatever events arrive and however the environment answers, the main
    task keeps the discipline of [ledger_step]: every connection is started by
    its own [Connected] event with a token of its own, is cancelled only when
    superseded, disconnected or at shutdown, is awaited only after it was
    cancelled, and is gone before the next event is taken; at most two are live
    at a time, and none is left when the task returns. *)
Theorem main_task_disciplined n metrics app_info (trust_store : V) w (Start : trace w = [])
  (Inv : entry_inv w) :
  exists g, audit ledger_init (trace (final (run_events n metrics app_info trust_store w))) = Some g /\
    length (lg_live g) <= 2 /\
    (completed (handle_connection_events n metrics app_info trust_store None w) = true ->
     lg_live g = []).
Proof.
  destruct (events_disciplined n metrics app_info trust_store None w ledger_init) as (g & A & L & D);
    [unfold ledger_of; by rewrite Start | done|].
  exists g. unfold run_events, ledger_of in *. destruct A as [I A].
  destruct (handle_connection_events n metrics app_info trust_store None w) as [[] w1|w1|w1];
    simpl in *; try rewrite wait_log by done; done.
Qed.

(** Shutdown terminates: when the host's events end (or it signals the
    shutdown) and every connection came with its response stream, the main task
    returns, having started exactly one actor per [Connected] event and stopped
    them all, unless it waits for a cancelled actor that never ends; one more
    iteration than there are events suffices. *)
Lemma main_task_returns `{!EntryEnvSched W V} n metrics app_info (trust_store : V) w
  (Start : trace w = []) (Inv : entry_inv w) (Streams : Forall has_stream (pending w)) (Hn : length (pending w) < n) :
  stranded (run_events n metrics app_info trust_store w) \/
  exists w' g, run_events n metrics app_info trust_store w = Done tt w' /\
    audit ledger_init (trace w') = Some g /\ lg_live g = [] /\
    length (started (trace w')) = length (List.filter is_connected (pending w)).
Proof.
  destruct (events_complete metrics app_info trust_store (pending w) n None w Inv eq_refl Streams Hn I)
    as [(t & w1 & E & N)|(w1 & E & I1 & S)].
  { left. exists t, w1. unfold run_events. by rewrite E. }
  right. destruct (events_disciplined n metrics app_info trust_store None w ledger_init) as (g & A & L & D);
    [unfold ledger_of; by rewrite Start | done|].
  unfold run_events. rewrite E in *. destruct A as [_ A]. destruct (wait_returns w1 I1) as (w2 & E2).
  pose proof (wait_log w1 I1) as T. rewrite E2 in T. simpl in T.
  exists w2, g. rewrite T, S, Start. done.
Qed.

End EntryProperties.

(** *** Witnesses *)

Definition toy_connected : ConnectionEvent :=
  Event_Connected IOHandle_new (mk_publisher request_tx (Some response_rx) response_weak)
    (EndpointHostname_from "rc.example").

(** Two connections, the second announced before the first is disconnected. *)
Definition toy_entry_start : toy_entry_world :=
  mk_toy_entry [Event_Init; toy_connected; toy_connected; Event_Disconnected; Event_Release] [].

Definition toy_main (n : nat) : exec toy_entry_world () :=
  @run_events toy_proto toy_digest toy_uuid toy_entry_world unit toy_entry_conn toy_entry_env
    n tt toy_info tt toy_entry_start.

(** The discipline holds, and after the second [Connected] event both
    connections are live: the old one is stopped after the new one is started. *)
Lemma main_task_disciplined_witness :
  (exists g, audit ledger_init (te_trace (final (toy_main 10))) = Some g /\ length (lg_live g) <= 2) /\
  (length ∘ lg_live <$> audit ledger_init (take 5 (te_trace (final (toy_main 10))))) = Some 2.
Proof.
  split; [|vm_compute; reflexivity].
  destruct (@main_task_disciplined toy_proto toy_digest toy_uuid toy_entry_world unit toy_entry_conn
    toy_entry_env toy_entry_laws 10 tt toy_info tt toy_entry_start eq_refl I) as (g & A & L & _).
  exists g. split; [exact A | exact L].
Defined.

Lemma main_task_returns_witness :
  exists w', toy_main 6 = Done tt w' /\ length (started (te_trace w')) = 2.
Proof.
  destruct (@main_task_returns toy_proto toy_digest toy_uuid toy_entry_world unit toy_entry_conn
    toy_entry_env toy_entry_laws toy_entry_sched 6 tt toy_info tt toy_entry_start)
    as [(t & w' & _ & [])|(w' & g & E & _ & _ & S)].
  - reflexivity.
  - exact I.
  - repeat constructor; discriminate.
  - apply le_n.
  - exists w'. split; [exact E | exact S].
Defined.
