(* ===== verification/Ctx.v ===== *)
(** * The library context

    Models [rc-x509-ffi/src/ctx.rs], and the shutdown signal and the task handle
    it rests on ([rc-x509-client/src/shutdown_signal.rs], [abort_on_drop.rs]).
    The context starts a worker thread that runs the main task ([Entrypoint])
    and ends it when it is freed.  The host acts, in batches that a schedule
    fixes, whenever the worker waits for an event, and finally frees the context;
    [CancellationToken] of [tokio_util] is a parameter.  The environment this
    makes discharges the interface of the main task.  How the actors that it joins
    end is a parameter; [worker_returns] says that the worker ends, whatever the
    host did before, unless a cancelled actor does not, and [Shutdown] runs the
    actors. *)

From stdpp Require Import base option list strings sets.
From Stdlib Require Import Strings.Byte NArith Lia.
From S2P Require Import Prelude Utf8 Hash Certificate ConnectionId Codec TrustStore Mpsc Dispatch Runtime Fsm Actor Ffi Entrypoint.

(** ** [tokio_util::sync::CancellationToken] *)

Class TokenLib : Type := {
  token : Type;
  token_eq_dec :: EqDecision token;
  (** the state of all tokens of the process *)
  tokens : Type;
  token_new : tokens -> token * tokens;
  token_child : token -> tokens -> token * tokens;
  token_cancel : token -> tokens -> tokens;
  token_cancelled : token -> tokens -> bool
}.

(** What is documented: a new token is not cancelled; a child is cancelled when
    its parent is; cancelling a token cancels its descendants and nothing else.
    [below s x y]: [x] is [y] or a descendant of it. *)
Class TokenLaws `{TokenLib} : Type := {
  known : token -> tokens -> Prop;
  below : tokens -> token -> token -> bool;
  below_self : forall x s, known x s -> below s x x = true;
  token_new_law : forall s, let '(k, s') := token_new s in
    ~ known k s /\ known k s' /\ token_cancelled k s' = false /\
    (forall x, known x s -> known x s' /\ token_cancelled x s' = token_cancelled x s) /\
    (forall x y, known x s -> known y s -> below s' x y = below s x y);
  token_child_law : forall t s, known t s -> let '(k, s') := token_child t s in
    ~ known k s /\ known k s' /\ token_cancelled k s' = token_cancelled t s /\
    (forall x, known x s -> known x s' /\ token_cancelled x s' = token_cancelled x s) /\
    (forall x y, known x s -> known y s -> below s' x y = below s x y) /\
    (forall x, known x s -> below s' x k = false /\ below s' k x = below s t x);
  token_cancel_law : forall t s, known t s ->
    (forall x, known x (token_cancel t s) <-> known x s) /\
    (forall x, known x s -> token_cancelled x (token_cancel t s) = token_cancelled x s || below s x t) /\
    (forall x y, below (token_cancel t s) x y = below s x y)
}.

(** ** [shutdown_signal.rs] *)

Section Shutdown.
Context `{TokenLib}.

Record ShutdownSignal : Type := mk_shutdown_signal { ss_token : token }.
Record ShutdownCtl : Type := mk_shutdown_ctl { sc_token : token }.

Definition ShutdownSignal_new (s : tokens) : (ShutdownSignal * ShutdownCtl) * tokens :=
  let '(t, s) := token_new s in ((mk_shutdown_signal t, mk_shutdown_ctl t), s).

Definition ShutdownSignal_child_token (self : ShutdownSignal) (s : tokens) : token * tokens :=
  token_child (ss_token self) s.

(** [wait_for_shutdown], polled. *)
Definition ShutdownSignal_poll_shutdown (self : ShutdownSignal) (s : tokens) : poll () :=
  if token_cancelled (ss_token self) s then Ready tt else Pending.

(** [impl Drop for ShutdownCtl]. *)
Definition ShutdownCtl_drop (self : ShutdownCtl) (s : tokens) : tokens := token_cancel (sc_token self) s.

(** [shutdown_now] consumes, and so drops, the handle. *)
Definition ShutdownCtl_shutdown_now (self : ShutdownCtl) (s : tokens) : tokens :=
  ShutdownCtl_drop self (token_cancel (sc_token self) s).

Definition ShutdownCtl_get_signal (self : ShutdownCtl) : ShutdownSignal :=
  mk_shutdown_signal (sc_token self).

End Shutdown.

(** ** [abort_on_drop.rs] *)

Section Abort.
Context {T : Type}.

Record AbortOnDrop : Type := mk_abort_on_drop { aod_task : option T }.

Definition AbortOnDrop_from (value : T) : AbortOnDrop := mk_abort_on_drop (Some value).

(** The handle, and what is left to drop. *)
Definition AbortOnDrop_into_inner (self : AbortOnDrop) : panics (T * AbortOnDrop) :=
  t ← aod_task self; Some (t, mk_abort_on_drop None).

(** The task that dropping aborts. *)
Definition AbortOnDrop_drop (self : AbortOnDrop) : option T := aod_task self.

(** A handle is either given out or aborted. *)
Lemma AbortOnDrop_disarm value : exists rest,
  AbortOnDrop_into_inner (AbortOnDrop_from value) = Some (value, rest) /\
  AbortOnDrop_drop rest = None /\ AbortOnDrop_drop (AbortOnDrop_from value) = Some value.
Proof. by eexists. Qed.

End Abort.
Arguments AbortOnDrop T : clear implicits.

(** ** The world of a context *)

Section Ctx.
Context `{ProtoTypes} `{AwsDigest} `{UuidLib} `{TokenLib} {C V : Type}.

(** What the host does with a context: a connection holds a sender of the event
    stream from its creation to its release, and publishes through it. *)
Inductive host_act : Type :=
| New_connection
| Publish (e : ConnectionEvent)
| Release_connection.

(** The tokens and the two ends of the shutdown signal; the event stream and its
    number of senders; the choices of [select!] among ready branches; what the
    host has still to do before it frees the context; the log of the main task;
    the state of the connections. *)
Record CtxWorld : Type := mk_ctx_world {
  cw_tokens : tokens;
  cw_signal : ShutdownSignal;
  cw_ctl : option ShutdownCtl;
  cw_events : list ConnectionEvent;
  cw_senders : nat;
  cw_choices : list bool;
  cw_host : list (list host_act);
  cw_trace : list (action token nat);
  cw_conns : C
}.

Definition set_tokens (s : tokens) (ctl : option ShutdownCtl) (w : CtxWorld) : CtxWorld :=
  mk_ctx_world s (cw_signal w) ctl (cw_events w) (cw_senders w) (cw_choices w) (cw_host w) (cw_trace w)
    (cw_conns w).
Definition set_stream (es : list ConnectionEvent) (n : nat) (w : CtxWorld) : CtxWorld :=
  mk_ctx_world (cw_tokens w) (cw_signal w) (cw_ctl w) es n (cw_choices w) (cw_host w) (cw_trace w)
    (cw_conns w).
Definition set_host (h : list (list host_act)) (w : CtxWorld) : CtxWorld :=
  mk_ctx_world (cw_tokens w) (cw_signal w) (cw_ctl w) (cw_events w) (cw_senders w) (cw_choices w) h
    (cw_trace w) (cw_conns w).
Definition took (s : selected) (l : list bool) (w : CtxWorld) : CtxWorld :=
  mk_ctx_world (cw_tokens w) (cw_signal w) (cw_ctl w) (cw_events w) (cw_senders w) l (cw_host w)
    (cw_trace w ++ [Received s]) (cw_conns w).
Definition log (a : action token nat) (w : CtxWorld) : CtxWorld :=
  mk_ctx_world (cw_tokens w) (cw_signal w) (cw_ctl w) (cw_events w) (cw_senders w) (cw_choices w)
    (cw_host w) (cw_trace w ++ [a]) (cw_conns w).

(** ** The host *)

(** [Ctx::new_connection]: the connection gets a clone of the sender. *)
Definition Ctx_new_connection (w : CtxWorld) : CtxWorld :=
  set_stream (cw_events w) (S (cw_senders w)) w.

(** Publishing needs a sender. *)
Definition act (w : CtxWorld) (a : host_act) : CtxWorld :=
  match a with
  | New_connection => Ctx_new_connection w
  | Publish e => if decide (cw_senders w = 0) then w
                 else set_stream (cw_events w ++ [e]) (cw_senders w) w
  | Release_connection => set_stream (cw_events w) (pred (cw_senders w)) w
  end.

(** [Ctx::shutdown] up to the join: the signal first, then the sender. *)
Definition Ctx_shutdown (w : CtxWorld) : CtxWorld :=
  match cw_ctl w with
  | Some ctl =>
      let w := set_tokens (ShutdownCtl_shutdown_now ctl (cw_tokens w)) None w in
      set_stream (cw_events w) (pred (cw_senders w)) w
  | None => w
  end.

(** [rc_free] up to the join: a null pointer panics. *)
Definition rc_free (ctx : option CtxWorld) : panics CtxWorld :=
  ctx ← ctx; Some (Ctx_shutdown ctx).

(** The host's next batch; with nothing left to do it frees the context. *)
Definition host_turn (w : CtxWorld) : CtxWorld :=
  match cw_host w with
  | batch :: rest => foldl act (set_host rest w) batch
  | [] => default w (rc_free (Some w))
  end.

Definition shut (w : CtxWorld) : bool :=
  match ShutdownSignal_poll_shutdown (cw_signal w) (cw_tokens w) with Ready _ => true | Pending => false end.

(** One of the branches of the [select!] can be taken. *)
Definition ready (w : CtxWorld) : bool :=
  negb (bool_decide (cw_events w = [])) || bool_decide (cw_senders w = 0) || shut w.

(** The worker sleeps while [p] does not hold; the host goes on. *)
Fixpoint sleep_until (p : CtxWorld -> bool) (n : nat) (w : CtxWorld) : CtxWorld :=
  if p w then w else match n with 0 => w | S n => sleep_until p n (host_turn w) end.

(** ** The environment of the main task *)

(** [select! { incoming.next(), shutdown.wait_for_shutdown() }]: the host may
    have acted since the last event; if both branches are ready, either is
    taken. *)
Definition select (w : CtxWorld) : exec CtxWorld selected :=
  let w := host_turn w in
  let w := sleep_until ready (S (length (cw_host w))) w in
  let incoming := match cw_events w with
    | e :: es => Some (Sel_Event e, set_stream es (cw_senders w) w)
    | [] => if decide (cw_senders w = 0) then Some (Sel_Closed, w) else None
    end in
  match incoming, shut w with
  | Some (s, w'), true =>
      if default false (head (cw_choices w)) then Done s (took s (tail (cw_choices w)) w')
      else Done Sel_Shutdown (took Sel_Shutdown (tail (cw_choices w)) w)
  | Some (s, w'), false => Done s (took s (cw_choices w) w')
  | None, true => Done Sel_Shutdown (took Sel_Shutdown (cw_choices w) w)
  | None, false => Blocked w
  end.

Definition wait_shutdown (w : CtxWorld) : exec CtxWorld () :=
  let w := sleep_until shut (S (length (cw_host w))) w in
  if shut w then Done tt w else Blocked w.

Definition child_token (w : CtxWorld) : exec CtxWorld token :=
  let '(k, s) := ShutdownSignal_child_token (cw_signal w) (cw_tokens w) in
  Done k (set_tokens s (cw_ctl w) w).

(** The operations of a connection, which the main task does not use; how an
    actor ends, if it does, given whether it was cancelled. *)
Context (send : ClientToServer -> prog CtxWorld (result () ConnectionErr))
  (stop_or_sleep : token -> prog CtxWorld bool)
  (dispatch : DispatchPublisher -> Dispatch -> prog CtxWorld (result () DispatchError))
  (rng : Rng CtxWorld) (metrics : CtxWorld -> InstanceMetrics)
  (actor_ends : nat -> bool -> C -> option (result () JoinError)).

Definition token_of (t : nat) (tr : list (action token nat)) : option token :=
  snd <$> List.find (fun p => bool_decide (p.1 = t)) (started tr).

Definition join (t : nat) (w : CtxWorld) : exec CtxWorld (result () JoinError) :=
  let cancelled := from_option (fun k => token_cancelled k (cw_tokens w)) false (token_of t (cw_trace w)) in
  match actor_ends t cancelled (cw_conns w) with
  | Some r => Done r (log (Joined t) w)
  | None => Blocked w
  end.

#[local] Instance ctx_conn : ConnEnv CtxWorld := {|
  CancellationToken := token;
  MetricsRef := unit;
  env_send := send;
  env_stop_or_sleep := stop_or_sleep;
  env_dispatch := dispatch;
  env_rng := rng;
  env_metrics _ := metrics
|}.

#[local] Instance ctx_entry : EntryEnv CtxWorld V := {|
  Task := nat;
  env_select := select;
  env_child_token := child_token;
  env_spawn _ a w := let t := fresh_nat (started (cw_trace w)).*1 in
    Done t (log (Spawned t (ca_stop a)) w);
  env_cancel k w := Done tt (log (Cancelled k) (set_tokens (token_cancel k (cw_tokens w)) (cw_ctl w) w));
  env_join := join;
  env_wait_shutdown := wait_shutdown
|}.

End Ctx.

(** ** The laws of the interface hold *)

Section Tokens.
Context `{TokenLaws}.

(** Tokens persist, stay cancelled, and keep their place. *)
Definition evolves (s s' : tokens) : Prop :=
  (forall x, known x s -> known x s' /\ (token_cancelled x s = true -> token_cancelled x s' = true)) /\
  (forall x y, known x s -> known y s -> below s' x y = below s x y).

Lemma evolves_refl s : evolves s s.
Proof. by split. Qed.

Lemma evolves_trans s1 s2 s3 : evolves s1 s2 -> evolves s2 s3 -> evolves s1 s3.
Proof.
  intros [K1 B1] [K2 B2]. split.
  - intros x Kx. destruct (K1 x Kx) as [Kx2 C1]. destruct (K2 x Kx2) as [Kx3 C2]. auto.
  - intros x y Kx Ky. rewrite B2 by (by apply K1). by apply B1.
Qed.

Lemma evolves_child t s : known t s -> evolves s (snd (token_child t s)).
Proof.
  intros K. pose proof (token_child_law t s K) as L. destruct (token_child t s) as [k s'].
  destruct L as (_ & _ & _ & Kx & B & _). split; [|done]. simpl. intros x Hx. destruct (Kx x Hx) as [K' E].
  by rewrite E.
Qed.

Lemma evolves_cancel t s : known t s -> evolves s (token_cancel t s).
Proof.
  intros K. destruct (token_cancel_law t s K) as (Kx & C & B). split; [|by intros].
  intros x Hx. split; [by apply Kx|]. rewrite C by done. by intros ->.
Qed.

Lemma cancel_cancels t s : known t s -> token_cancelled t (token_cancel t s) = true.
Proof.
  intros K. destruct (token_cancel_law t s K) as (_ & C & _). rewrite C, below_self by done. apply orb_true_r.
Qed.

Lemma shutdown_now_spec c s : known (sc_token c) s ->
  evolves s (ShutdownCtl_shutdown_now c s) /\
  token_cancelled (sc_token c) (ShutdownCtl_shutdown_now c s) = true.
Proof.
  intros K. unfold ShutdownCtl_shutdown_now, ShutdownCtl_drop.
  assert (K' : known (sc_token c) (token_cancel (sc_token c) s)) by by apply token_cancel_law.
  split; [|by apply cancel_cancels]. eapply evolves_trans; by apply evolves_cancel.
Qed.

End Tokens.

Section CtxLaws.
Context `{ProtoTypes} `{AwsDigest} `{UuidLib} `{TokenLaws} {C V : Type}.
Abbreviation W := (CtxWorld (C:=C)).

Definition root (w : W) : token := ss_token (cw_signal w).

(** Tokens of connections are below the context's, never above; a cancelled token
    is cancelled; the context's own is, once its handle is gone. *)
Record ctx_inv (w : W) : Prop := {
  ci_root : known (root w) (cw_tokens w);
  ci_ctl : match cw_ctl w with
    | Some c => sc_token c = root w
    | None => token_cancelled (root w) (cw_tokens w) = true
    end;
  ci_started : forall k, k ∈ (started (cw_trace w)).*2 ->
    known k (cw_tokens w) /\ below (cw_tokens w) (root w) k = false;
  ci_tasks : NoDup (started (cw_trace w)).*1;
  ci_cancelled : forall k, Cancelled k ∈ cw_trace w ->
    known k (cw_tokens w) /\ token_cancelled k (cw_tokens w) = true
}.

Lemma inv_tokens w s ctl : ctx_inv w -> evolves (cw_tokens w) s ->
  match ctl with Some c => sc_token c = root w | None => token_cancelled (root w) s = true end ->
  ctx_inv (set_tokens s ctl w).
Proof.
  intros [I1 I2 I3 I4 I5] [K B] Hc. split; unfold root in *; simpl; try done.
  - by apply K.
  - intros k Hk. destruct (I3 k Hk) as [Kk Bk]. split; [by apply K|]. by rewrite B.
  - intros k Hk. destruct (I5 k Hk) as [Kk Ck]. destruct (K k Kk). auto.
Qed.

(** Parts of the world that the invariant does not speak of. *)
Lemma inv_same w w' : cw_tokens w' = cw_tokens w -> cw_signal w' = cw_signal w -> cw_ctl w' = cw_ctl w ->
  started (cw_trace w') = started (cw_trace w) ->
  (forall k, Cancelled k ∈ cw_trace w' -> Cancelled k ∈ cw_trace w) -> ctx_inv w -> ctx_inv w'.
Proof.
  intros E1 E2 E3 E4 E5 [I1 I2 I3 I4 I5]. unfold root in *.
  split; unfold root; rewrite ?E1, ?E2, ?E3, ?E4; try done. intros k Hk. apply I5. auto.
Qed.

Lemma inv_acts l w : ctx_inv w -> ctx_inv (foldl act w l).
Proof.
  revert w. induction l as [|a l IH]; intros w I; [done|]. simpl. apply IH.
  destruct a; simpl; try case_decide; try done; by eapply inv_same; [..|exact I].
Qed.

Lemma inv_shutdown w : ctx_inv w -> ctx_inv (Ctx_shutdown w).
Proof.
  intros I. unfold Ctx_shutdown. pose proof (ci_ctl w I) as Ec. destruct (cw_ctl w) as [c|]; [|done].
  pose proof (ci_root w I) as Kr. rewrite <- Ec in Kr.
  destruct (shutdown_now_spec c (cw_tokens w) Kr) as [Ev Cn]. rewrite Ec in Cn.
  eapply inv_same; [..|exact (inv_tokens w _ None I Ev Cn)]; done.
Qed.

Lemma inv_turn w : ctx_inv w -> ctx_inv (host_turn w).
Proof.
  intros I. unfold host_turn. destruct (cw_host w) as [|b r]; [by apply inv_shutdown|].
  apply inv_acts. by eapply inv_same; [..|exact I].
Qed.

Lemma inv_sleep p n (w : W) : ctx_inv w -> ctx_inv (sleep_until p n w).
Proof.
  revert w. induction n as [|n IH]; intros w I; simpl; destruct (p w); try done. by apply IH, inv_turn.
Qed.

Lemma inv_took s l w : ctx_inv w -> ctx_inv (took s l w).
Proof.
  intros I. eapply inv_same; [..|exact I]; try done.
  - simpl. by rewrite started_app, app_nil_r.
  - simpl. intros k [Hk|Hk]%elem_of_app; [done|]. by apply list_elem_of_singleton in Hk.
Qed.

(** The host does not touch the log. *)
Lemma turn_trace (w : W) : cw_trace (host_turn w) = cw_trace w.
Proof.
  unfold host_turn, rc_free, Ctx_shutdown; simpl. destruct (cw_host w) as [|b r]; [by destruct (cw_ctl w)|].
  change (cw_trace w) with (cw_trace (set_host r w)). generalize (set_host r w).
  induction b as [|a b IH]; intros w'; [done|]. simpl. rewrite IH. destruct a; simpl; by try case_decide.
Qed.

Lemma sleep_trace p n (w : W) : cw_trace (sleep_until p n w) = cw_trace w.
Proof.
  revert w. induction n as [|n IH]; intros w; simpl; destruct (p w); try done. by rewrite IH, turn_trace.
Qed.

Lemma select_spec (w : W) : ctx_inv w -> ctx_inv (final (select w)) /\
  cw_trace (final (select w)) = cw_trace w ++ match select w with Done s _ => [Received s] | _ => [] end.
Proof.
  intros I. unfold select. set (w1 := sleep_until _ _ _).
  assert (I1 : ctx_inv w1) by by apply inv_sleep, inv_turn.
  assert (T1 : cw_trace w1 = cw_trace w) by (unfold w1; by rewrite sleep_trace, turn_trace).
  assert (I2 : forall es n, ctx_inv (set_stream es n w1)) by (intros; by eapply inv_same; [..|exact I1]).
  destruct (cw_events w1) as [|e es]; [case_decide|]; destruct (shut w1);
    try (destruct (default false (head (cw_choices w1)))); simpl; rewrite ?T1, ?app_nil_r;
    (split; [|done]); by try apply inv_took.
Qed.

(** *** Other operations of the main task *)

Lemma inv_child w : ctx_inv w -> exists k w', child_token w = Done k w' /\ ctx_inv w' /\
  cw_trace w' = cw_trace w /\ known k (cw_tokens w') /\ below (cw_tokens w') (root w') k = false /\
  k ∉ (started (cw_trace w)).*2.
Proof.
  intros I. pose proof (ci_root w I) as Kr. unfold child_token, ShutdownSignal_child_token.
  pose proof (evolves_child _ _ Kr) as Ev. pose proof (token_child_law _ _ Kr) as L. unfold root in *.
  destruct (token_child (ss_token (cw_signal w)) (cw_tokens w)) as [k s].
  destruct L as (Nk & Kk & _ & Kx & _ & B). exists k. eexists. split; [done|].
  split; [|split_and!; [done | done | by apply B |]].
  - apply inv_tokens; [done | done|]. pose proof (ci_ctl w I) as Ec.
    destruct (cw_ctl w); [done|]. unfold root in *. destruct (Kx _ Kr) as [_ E]. congruence.
  - intros Hk. by apply (ci_started w I) in Hk as [Hk _].
Qed.

Lemma inv_spawned t k w : ctx_inv w -> known k (cw_tokens w) -> below (cw_tokens w) (root w) k = false ->
  t ∉ (started (cw_trace w)).*1 -> ctx_inv (log (Spawned t k) w).
Proof.
  intros [I1 I2 I3 I4 I5] Kk Bk Ft. split; simpl; try done.
  - intros k'. rewrite started_app. change (started [Spawned t k]) with [(t, k)].
    rewrite fmap_app, elem_of_app. intros [Hk|Hk]; [by apply I3|].
    by apply list_elem_of_singleton in Hk as ->.
  - rewrite started_app. change (started [Spawned t k]) with [(t, k)]. rewrite fmap_app. apply NoDup_app. split_and!; [done | | apply NoDup_singleton].
    intros x Hx E. apply list_elem_of_singleton in E as ->. done.
  - intros k' [Hk|Hk]%elem_of_app; [by apply I5|]. by apply list_elem_of_singleton in Hk.
Qed.

Lemma inv_logged a w : ctx_inv w -> match a with Received _ | Joined _ => True | _ => False end ->
  ctx_inv (log a w).
Proof.
  intros I Ha. eapply inv_same; [..|exact I]; try done; simpl.
  - rewrite started_app. destruct a; try done; apply app_nil_r.
  - intros k [Hk|Hk]%elem_of_app; [done|]. apply list_elem_of_singleton in Hk. by subst a.
Qed.

Lemma inv_cancel k w : ctx_inv w -> k ∈ (started (cw_trace w)).*2 ->
  ctx_inv (log (Cancelled k) (set_tokens (token_cancel k (cw_tokens w)) (cw_ctl w) w)) /\
  token_cancelled (root w) (token_cancel k (cw_tokens w)) = token_cancelled (root w) (cw_tokens w).
Proof.
  intros I Hk. destruct (ci_started w I k Hk) as [Kk Bk]. pose proof (ci_root w I) as Kr.
  assert (Er : token_cancelled (root w) (token_cancel k (cw_tokens w)) = token_cancelled (root w) (cw_tokens w)).
  { destruct (token_cancel_law k _ Kk) as (_ & Ck & _). by rewrite Ck, Bk, orb_false_r. }
  split; [|exact Er].
  assert (ctx_inv (set_tokens (token_cancel k (cw_tokens w)) (cw_ctl w) w)) as [I1 I2 I3 I4 I5].
  { apply inv_tokens; [done | by apply evolves_cancel|]. pose proof (ci_ctl w I) as Ec.
    destruct (cw_ctl w); [done | congruence]. }
  split; simpl; try done.
  - intros k'. rewrite started_app, app_nil_r. apply I3.
  - by rewrite started_app, app_nil_r.
  - intros k' [Hk'|Hk']%elem_of_app; [by apply I5|]. apply list_elem_of_singleton in Hk' as [= ->].
    split; [by apply token_cancel_law | by apply cancel_cancels].
Qed.

Lemma token_of_started t k (tr : list (action token nat)) :
  NoDup (started tr).*1 -> Spawned t k ∈ tr -> token_of t tr = Some k.
Proof.
  intros N S. unfold token_of. assert (In : (t, k) ∈ started tr).
  { unfold started. apply list_elem_of_omap. by exists (Spawned t k). }
  revert N In. induction (started tr) as [|[t' k'] l IH]; [by intros _ ?%not_elem_of_nil|].
  simpl. intros [Nt N]%NoDup_cons [[= -> ->]|In]%elem_of_cons; case_bool_decide as D; simpl in *; try done.
  - subst t'. destruct Nt. by apply (list_elem_of_fmap_2 fst) in In.
  - by apply IH.
Qed.

(** *** What the stream will deliver *)

(** All that [select] looks at. *)
Definition stream_of (w : W) :=
  (cw_events w, cw_senders w, cw_choices w, cw_host w, bool_decide (cw_ctl w = None), shut w).

Definition similar (w w' : W) : Prop := ctx_inv w /\ ctx_inv w' /\ stream_of w = stream_of w'.

Lemma shut_cancelled (w : W) : shut w = token_cancelled (root w) (cw_tokens w).
Proof. unfold shut, ShutdownSignal_poll_shutdown, root. by destruct (token_cancelled _ _). Qed.

Lemma shutdown_shut w : ctx_inv w -> shut (Ctx_shutdown w) = true.
Proof.
  intros I. rewrite shut_cancelled. unfold Ctx_shutdown, root. pose proof (ci_ctl w I) as Ec.
  destruct (cw_ctl w) as [c|]; simpl; [|exact Ec]. unfold root in Ec. rewrite <- Ec.
  apply shutdown_now_spec. rewrite Ec. apply (ci_root w I).
Qed.

Lemma stream_acts l (w w' : W) : stream_of w = stream_of w' ->
  stream_of (foldl act w l) = stream_of (foldl act w' l).
Proof.
  revert w w'. induction l as [|a l IH]; intros w w' E; [done|]. simpl. apply IH.
  unfold stream_of in *. injection E as E1 E2 E3 E4 E5 E6.
  destruct a; simpl; rewrite E2; try case_decide; simpl; unfold shut in *; simpl; congruence.
Qed.

Lemma similar_turn w w' : similar w w' -> similar (host_turn w) (host_turn w').
Proof.
  intros (I & I' & E). split; [by apply inv_turn|]. split; [by apply inv_turn|].
  pose proof E as E0. unfold stream_of in E0. injection E0 as E1 E2 E3 E4 E5 E6.
  unfold host_turn. rewrite <- E4. destruct (cw_host w) as [|b r] eqn:Eh; simpl.
  - pose proof (shutdown_shut w I) as S. pose proof (shutdown_shut w' I') as S'. unfold stream_of.
    rewrite S, S'. unfold Ctx_shutdown.
    destruct (cw_ctl w) eqn:Q1, (cw_ctl w') eqn:Q2; try done; simpl; rewrite ?Q1, ?Q2; congruence.
  - apply stream_acts. unfold stream_of, shut in *. simpl. congruence.
Qed.

(** A condition that the stream decides. *)
Lemma similar_sleep p n w w' : (forall v v', stream_of v = stream_of v' -> p v = p v') ->
  similar w w' -> similar (sleep_until p n w) (sleep_until p n w').
Proof.
  intros Hp. revert w w'. induction n as [|n IH]; intros w w' S; simpl;
    rewrite (Hp w w') by apply S; destruct (p w'); try done. by apply IH, similar_turn.
Qed.

Lemma ready_stream (v v' : W) : stream_of v = stream_of v' -> ready v = ready v'.
Proof. unfold stream_of, ready. intros E. injection E as E1 E2 E3 E4 E5 E6. by rewrite E1, E2, E6. Qed.

Lemma similar_select w w' : similar w w' ->
  match select w, select w' with
  | Done s v, Done s' v' => s = s' /\ similar v v'
  | Blocked _, Blocked _ => True
  | _, _ => False
  end.
Proof.
  intros S. pose proof (select_spec w (proj1 S)) as [J _].
  pose proof (select_spec w' (proj1 (proj2 S))) as [J' _]. revert J J'. unfold select.
  apply similar_turn in S. assert (length (cw_host (host_turn w)) = length (cw_host (host_turn w'))) as ->.
  { destruct S as (_ & _ & E). unfold stream_of in E. congruence. }
  apply (similar_sleep ready (Datatypes.S (length (cw_host (host_turn w'))))) in S; [|apply ready_stream].
  revert S. set (v := sleep_until ready _ (host_turn w)). set (v' := sleep_until ready _ (host_turn w')).
  intros (I & I' & E). pose proof E as E0. unfold stream_of in E0. injection E0 as E1 E2 E3 E4 E5 E6.
  rewrite <- E1, <- E2, <- E3, <- E6. unfold similar, stream_of, shut in *.
  destruct (cw_events v) as [|e es] eqn:Ev; [case_decide|];
    destruct (match ShutdownSignal_poll_shutdown (cw_signal v) (cw_tokens v) with
              | Ready _ => true | Pending => false end) eqn:Sv;
    try (destruct (default false (head (cw_choices v)))); simpl; intros J J'; try done;
    (split; [done|]); (split; [done|]); (split; [done|]); simpl; rewrite ?Sv, ?Ev; congruence.
Qed.

(** Events queued and events the host has still to publish. *)
Definition publishes (l : list host_act) : nat :=
  length (List.filter (fun a => match a with Publish _ => true | _ => false end) l).
Definition weight (w : W) : nat := length (cw_events w) + sum_list (publishes <$> cw_host w).

Lemma weight_acts l (w : W) : weight (foldl act w l) <= weight w + publishes l.
Proof.
  revert w. induction l as [|a l IH]; intros w; simpl; [lia|]. specialize (IH (act w a)).
  enough (weight (act w a) <= weight w + match a with Publish _ => 1 | _ => 0 end).
  { destruct a; unfold publishes in *; simpl in *; lia. }
  destruct a; simpl; try case_decide; unfold weight; simpl; rewrite ?length_app; simpl; lia.
Qed.

Lemma weight_turn (w : W) : weight (host_turn w) <= weight w.
Proof.
  unfold host_turn, rc_free, Ctx_shutdown; simpl. destruct (cw_host w) as [|b r] eqn:E; [by destruct (cw_ctl w)|].
  etrans; [apply weight_acts|]. unfold weight. rewrite E, fmap_cons. cbn [cw_events cw_host set_host].
  change (sum_list (publishes b :: (publishes <$> r))) with (publishes b + sum_list (publishes <$> r)). lia.
Qed.

Lemma weight_sleep p n (w : W) : weight (sleep_until p n w) <= weight w.
Proof.
  revert w. induction n as [|n IH]; intros w; simpl; destruct (p w); try done.
  etrans; [apply IH | apply weight_turn].
Qed.

(** The host comes to an end: the context is freed. *)
Lemma acts_host l (w : W) : cw_host (foldl act w l) = cw_host w.
Proof.
  revert w. induction l as [|a l IH]; intros w; [done|]. simpl. rewrite IH.
  destruct a; simpl; by try case_decide.
Qed.

Lemma turn_host (w : W) : cw_host (host_turn w) = tail (cw_host w).
Proof.
  unfold host_turn, rc_free, Ctx_shutdown; simpl. destruct (cw_host w) as [|b r] eqn:E; [by destruct (cw_ctl w)|].
  by rewrite acts_host.
Qed.

Lemma sleep_wakes p n w : ctx_inv w -> (forall v, shut v = true -> p v = true) ->
  length (cw_host w) < n -> p (sleep_until p n w) = true.
Proof.
  intros I Hp. revert w I. induction n as [|n IH]; intros w I L; [lia|]. simpl.
  destruct (p w) eqn:E; [done|]. destruct (cw_host w) as [|b r] eqn:Eh.
  - assert (p (host_turn w) = true) as Ep.
    { apply Hp. unfold host_turn. rewrite Eh. by apply shutdown_shut. }
    destruct n; simpl; by rewrite Ep.
  - apply IH; [by apply inv_turn|]. rewrite turn_host, Eh. simpl in *. lia.
Qed.

Lemma select_returns w : ctx_inv w -> exists s w', select w = Done s w' /\
  match s with Sel_Event _ => weight w' < weight w | Sel_Closed | Sel_Shutdown => True end.
Proof.
  intros I. unfold select. set (w1 := sleep_until _ _ _).
  assert (R : ready w1 = true).
  { apply sleep_wakes; [by apply inv_turn | | lia]. unfold ready. intros v ->. by rewrite orb_true_r. }
  assert (L : weight w1 <= weight w) by (etrans; [apply weight_sleep | apply weight_turn]).
  unfold ready in R. destruct (cw_events w1) as [|e es] eqn:E.
  - case_decide as D; [|rewrite (bool_decide_eq_false_2 _ D) in R]; destruct (shut w1);
      try (discriminate R); try (destruct (default false (head (cw_choices w1))));
      (eexists _, _; split; [reflexivity | done]).
  - destruct (shut w1); try (destruct (default false (head (cw_choices w1))));
      (eexists _, _; split; [reflexivity|]); try done; unfold weight in *; simpl in *; rewrite E in L; simpl in L; lia.
Qed.

Fixpoint deliver (n : nat) (w : W) : list ConnectionEvent :=
  match n with
  | 0 => []
  | S n => match select w with Done (Sel_Event e) w' => e :: deliver n w' | _ => [] end
  end.

Lemma deliver_similar n w w' : similar w w' -> deliver n w = deliver n w'.
Proof.
  revert w w'. induction n as [|n IH]; intros w w' S; [done|]. simpl. apply similar_select in S.
  destruct (select w) as [s v|v|v], (select w') as [s' v'|v'|v']; try done.
  destruct S as [<- S]. destruct s; try done. f_equal. by apply IH.
Qed.

Lemma deliver_enough n m w : ctx_inv w -> weight w < n -> weight w < m -> deliver n w = deliver m w.
Proof.
  revert m w. induction n as [|n IH]; intros m w I Ln Lm; [lia|]. destruct m as [|m]; [lia|]. simpl.
  pose proof (select_spec w I) as [J _]. destruct (select_returns w I) as (s & w' & E & Ws).
  rewrite E in *. destruct s; try done. f_equal. apply IH; [done | lia..].
Qed.

Definition to_come (w : W) : list ConnectionEvent := deliver (S (weight w)) w.

Lemma to_come_similar w w' : similar w w' -> to_come w = to_come w'.
Proof.
  intros S. unfold to_come. assert (weight w = weight w') as ->; [|by apply deliver_similar].
  destruct S as (_ & _ & E). unfold stream_of in E. unfold weight. congruence.
Qed.

Lemma to_come_length w : ctx_inv w -> length (to_come w) <= weight w.
Proof.
  unfold to_come. intros I. remember (weight w) as k eqn:Ek. assert (weight w <= k) as L by lia. clear Ek.
  revert w I L. induction k as [|k IH]; intros w I L; cbn [deliver];
    pose proof (select_spec w I) as [J _]; destruct (select_returns w I) as (s & w' & E & Ws);
    rewrite E in *; destruct s; simpl; try lia. apply le_n_S, IH; [done | lia].
Qed.

(** What is delivered was published. *)
Definition published (P : ConnectionEvent -> Prop) (w : W) : Prop :=
  Forall P (cw_events w) /\
  Forall (Forall (fun a => match a with Publish e => P e | _ => True end)) (cw_host w).

Lemma published_acts P l (w : W) : published P w ->
  Forall (fun a => match a with Publish e => P e | _ => True end) l -> published P (foldl act w l).
Proof.
  intros Hw F. revert w Hw. induction F as [|a l Ha F IH]; intros w Hw; [done|]. simpl. apply IH.
  destruct Hw as [E Hh]. destruct a; simpl; try case_decide; split; simpl; try done.
  apply Forall_app. by split; [|apply Forall_singleton].
Qed.

Lemma published_turn P (w : W) : published P w -> published P (host_turn w).
Proof.
  intros [E Hh]. unfold host_turn, rc_free, Ctx_shutdown; simpl.
  destruct (cw_host w) as [|b r] eqn:Eh; [destruct (cw_ctl w); split; simpl; by rewrite ?Eh|].
  apply Forall_cons in Hh as [Hb Hr]. by apply published_acts.
Qed.

Lemma published_sleep P p n (w : W) : published P w -> published P (sleep_until p n w).
Proof.
  revert w. induction n as [|n IH]; intros w Hw; simpl; destruct (p w); try done.
  by apply IH, published_turn.
Qed.

Lemma published_select P (w : W) : published P w -> match select w with
  | Done (Sel_Event e) w' => P e /\ published P w'
  | _ => True
  end.
Proof.
  intros Hw. unfold select. set (w1 := sleep_until _ _ _).
  assert (Pw : published P w1) by by apply published_sleep, published_turn.
  destruct Pw as [E Hh]. destruct (cw_events w1) as [|e es]; [case_decide|]; destruct (shut w1);
    try (destruct (default false (head (cw_choices w1)))); try done; by apply Forall_cons in E as [Pe E].
Qed.

Lemma deliver_published P n (w : W) : published P w -> Forall P (deliver n w).
Proof.
  revert w. induction n as [|n IH]; intros w Hw; simpl; [done|]. pose proof (published_select P w Hw) as S.
  destruct (select w) as [[e| |] w'|w'|w']; try done. destruct S as [Pe Hw']. constructor; [done | by apply IH].
Qed.

(** *** The interface of the main task *)

Context (send : ClientToServer -> prog W (result () ConnectionErr)) (stop_or_sleep : token -> prog W bool)
  (dispatch : DispatchPublisher -> Dispatch -> prog W (result () DispatchError))
  (rng : Rng W) (metrics : W -> InstanceMetrics) (actor_ends : nat -> bool -> C -> option (result () JoinError)).
#[local] Instance ctx_conn' : ConnEnv W := ctx_conn send stop_or_sleep dispatch rng metrics.
#[local] Instance ctx_entry' : EntryEnv W V :=
  ctx_entry send stop_or_sleep dispatch rng metrics actor_ends.

#[export] Instance ctx_laws : EntryEnvLaws W V.
Proof.
  refine (Build_EntryEnvLaws _ _ _ W V ctx_conn' ctx_entry' token_eq_dec Nat.eq_dec cw_trace ctx_inv
    (fun k w => known k (cw_tokens w) /\ below (cw_tokens w) (root w) k = false) _ _ _ _ _ _).
  - apply select_spec.
  - intros w I. destruct (inv_child w I) as (k & w' & E & I' & T & K & B & F).
    cbn [env_child_token ctx_entry' ctx_entry]. rewrite E. done.
  - intros io a w I [K B]. split; [|split; [done | apply fresh_nat_fresh]].
    apply inv_spawned; [done.. | apply fresh_nat_fresh].
  - intros k w I Hk. split; [by apply inv_cancel | done].
  - intros t w I. cbn [env_join ctx_entry' ctx_entry]. unfold join.
    destruct (actor_ends _ _ _); simpl; rewrite ?app_nil_r; split; try done. by apply inv_logged.
  - intros w I. cbn [env_wait_shutdown ctx_entry' ctx_entry]. unfold wait_shutdown.
    set (w1 := sleep_until _ _ _). assert (cw_trace w1 = cw_trace w) as E by apply sleep_trace.
    by destruct (shut w1).
Defined.

(** A started and cancelled actor that does not end. *)
Definition outlives (t : nat) (w : W) : Prop := exists k,
  Spawned t k ∈ cw_trace w /\ Cancelled k ∈ cw_trace w /\ actor_ends t true (cw_conns w) = None.

#[export] Instance ctx_sched : EntryEnvSched W V.
Proof.
  refine {| pending := to_come; never_ends := outlives |}.
  - intros w e es I E. pose proof (select_spec w I) as [J _]. destruct (select_returns w I) as (s & w' & Es & Ws).
    unfold to_come in E. cbn [deliver] in E. rewrite Es in E, J. destruct s as [e'| |]; try done.
    injection E as -> E. exists w'. split; [exact Es|]. rewrite <- E. unfold to_come.
    apply deliver_enough; [done | lia..].
  - intros w I E. destruct (select_returns w I) as (s & w' & Es & _). exists s, w'. split; [exact Es|].
    unfold to_come in E. cbn [deliver] in E. rewrite Es in E. destruct s; auto. done.
  - intros w I. pose proof (inv_child w I) as (k & w' & E & I' & _). exists k, w'. split; [exact E|].
    apply to_come_similar. split_and!; [done | done |]. revert E. unfold child_token, ShutdownSignal_child_token.
    pose proof (token_child_law _ _ (ci_root w I)) as L. unfold root in L.
    destruct (token_child _ _) as [k' s]. intros [= <- <-]. unfold stream_of. rewrite !shut_cancelled.
    unfold root. simpl. destruct L as (_ & _ & _ & Kx & _). destruct (Kx _ (ci_root w I)) as [_ Ex].
    unfold root in Ex. by rewrite Ex.
  - intros io a w I [K B]. eexists _, _. split; [reflexivity|]. apply to_come_similar.
    split_and!; [|done|done]. apply inv_spawned; [done.. | apply fresh_nat_fresh].
  - intros k w I Hk. eexists. split; [reflexivity|]. destruct (inv_cancel k w I Hk) as [I' Er].
    apply to_come_similar. split_and!; [done | done |]. unfold stream_of. rewrite !shut_cancelled.
    unfold root in *. simpl. by rewrite Er.
  - intros t k w I St Ca. cbn [env_join ctx_entry' ctx_entry]. unfold join.
    rewrite (token_of_started t k) by (done || apply (ci_tasks w I)). simpl.
    destruct (ci_cancelled w I k Ca) as [_ ->].
    destruct (actor_ends t true (cw_conns w)) as [r|] eqn:En; [left | right; eexists; split; [reflexivity | by exists k]].
    eexists _, _. split; [reflexivity|].
    apply to_come_similar. split_and!; [by apply inv_logged | done | done].
  - intros w I. cbn [env_wait_shutdown ctx_entry' ctx_entry]. unfold wait_shutdown.
    rewrite sleep_wakes by (done || lia). by eexists.
Defined.

End CtxLaws.

(** ** [rc_init], [Ctx::new] and the worker *)

(** [rc_init] up to [Ctx::new]: null pointers and invalid UTF-8 panic. *)
Definition rc_init (app_name version : option (list u8)) : panics Main :=
  app_name ← app_name;
  version ← version;
  app_name ← from_utf8 app_name;
  version ← from_utf8 version;
  Some (Main_new (AppInfo_new (AppName_from app_name) (AppVersion_from version))).

Section Worker.
Context `{ProtoTypes} `{AwsDigest} `{UuidLib} `{TokenLib} `{X509Lib} {C K : Type}.
Abbreviation W := (CtxWorld (C:=C)).

(** [Ctx::new]: the signal and the event stream, whose sender it keeps.  The host
    will do [host] and then free the context. *)
Definition Ctx_new (s : tokens) (choices : list bool) (host : list (list host_act)) (conns : C) : W :=
  let '((signal, shutdown), s) := ShutdownSignal_new s in
  mk_ctx_world s signal (Some shutdown) [] 1 choices host [] conns.

Context (send : ClientToServer -> prog W (result () ConnectionErr)) (stop_or_sleep : token -> prog W bool)
  (dispatch : DispatchPublisher -> Dispatch -> prog W (result () DispatchError))
  (rng : Rng W) (metrics : W -> InstanceMetrics) (actor_ends : nat -> bool -> C -> option (result () JoinError))
  (r1_pem r2_pem : list u8) (cache_new : N -> K).
#[local] Instance worker_conn : ConnEnv W := ctx_conn send stop_or_sleep dispatch rng metrics.
#[local] Instance worker_entry : EntryEnv W (TrustStore K) :=
  ctx_entry send stop_or_sleep dispatch rng metrics actor_ends.

(** The thread's closure: [block_on(main.entrypoint(..))], then the runtime's
    shutdown.  [rc_free] joins the thread: it returns when this returns and
    panics when this panics. *)
Definition Ctx_worker (n : nat) (main : Main) : prog W () :=
  Main_entrypoint r1_pem r2_pem cache_new (fun w => Done tt w) n main.

End Worker.

(** ** Properties *)

Section CtxProperties.
Context `{ProtoTypes} `{AwsDigest} `{UuidLib} `{TokenLaws} `{X509Lib} {C K : Type}.
Abbreviation W := (CtxWorld (C:=C)).
Context (send : ClientToServer -> prog W (result () ConnectionErr)) (stop_or_sleep : token -> prog W bool)
  (dispatch : DispatchPublisher -> Dispatch -> prog W (result () DispatchError))
  (rng : Rng W) (metrics : W -> InstanceMetrics) (actor_ends : nat -> bool -> C -> option (result () JoinError))
  (r1_pem r2_pem : list u8) (cache_new : N -> K).

Lemma new_inv s choices host (conns : C) : ctx_inv (Ctx_new s choices host conns).
Proof.
  unfold Ctx_new, ShutdownSignal_new. pose proof (token_new_law s) as L. destruct (token_new s) as [k s'].
  destruct L as (_ & Kk & _). split; unfold root; simpl; try done.
  - intros k' Hk. by apply not_elem_of_nil in Hk.
  - apply NoDup_nil_2.
  - intros k' Hk. by apply not_elem_of_nil in Hk.
Qed.

Lemma wait_shut (w w' : W) : wait_shutdown w = Done tt w' -> shut w' = true.
Proof.
  unfold wait_shutdown. set (w1 := sleep_until _ _ _). destruct (shut w1) eqn:E; [|done]. by intros [= <-].
Qed.

(** The worker of a context: whatever connections the host created, whatever
    events it published and released or not released before, in any interleaving
    with the main task and with any choice of [select!], it ends after the
    shutdown signal, having cancelled and awaited every connection it had started,
    unless it waits for a cancelled actor that does not end. *)
Lemma worker_returns n name version s choices host (conns : C)
  (Name : utf8_valid name = true) (Version : utf8_valid version = true)
  (R1 : is_Some (load_root r1_pem)) (R2 : is_Some (load_root r2_pem))
  (Streams : Forall (Forall (fun a => match a with Publish e => has_stream e | _ => True end)) host)
  (Fuel : sum_list (publishes <$> host) < n) :
  exists main, rc_init (Some name) (Some version) = Some main /\
    let e := Ctx_worker send stop_or_sleep dispatch rng metrics actor_ends r1_pem r2_pem cache_new n main
      (Ctx_new s choices host conns) in
    (exists w' g, e = Done tt w' /\ audit ledger_init (cw_trace w') = Some g /\ lg_live g = [] /\ shut w' = true) \/
    (exists w' t, e = Blocked w' /\ outlives actor_ends t w').
Proof.
  pose proof (new_inv s choices host conns) as I. set (w0 := Ctx_new s choices host conns) in *.
  assert (Ew : cw_events w0 = [] /\ cw_host w0 = host /\ cw_trace w0 = []).
  { unfold w0, Ctx_new. by destruct (ShutdownSignal_new s) as [[sig ctl] s']. }
  destruct Ew as (Ee & Eh & Et), R1 as [r1 E1], R2 as [r2 E2].
  set (info := AppInfo_new (AppName_from (String.string_of_list_byte name))
    (AppVersion_from (String.string_of_list_byte version))).
  exists (Main_new info). split.
  { unfold rc_init, from_utf8. simpl. rewrite Name. simpl. by rewrite Version. }
  cbv zeta. unfold Ctx_worker, Main_entrypoint. rewrite E1, E2.
  destruct (main_task_returns (V:=TrustStore K) (ConnEnv0:=ctx_conn send stop_or_sleep dispatch rng metrics)
    (EntryEnv0:=ctx_entry send stop_or_sleep dispatch rng metrics actor_ends)
    (EntryEnvLaws0:=ctx_laws send stop_or_sleep dispatch rng metrics actor_ends)
    (EntryEnvSched0:=ctx_sched send stop_or_sleep dispatch rng metrics actor_ends) n tt info
    (TrustStore_new [r1; r2] (cache_new APPROX_MAX_CACHE_BYTES)) w0)
    as [(t & w' & E & N)|(w' & g & E & A & L & _)]; [exact Et | exact I | | | |].
  - apply deliver_published. unfold published. by rewrite Ee, Eh.
  - apply Nat.le_lt_trans with (weight w0); [by apply to_come_length|].
    unfold weight. rewrite Ee, Eh. exact Fuel.
  - right. by exists w', t.
  - left. exists w', g. split_and!; [exact E | exact A | exact L|].
    revert E. unfold run_events. simpl.
    destruct (handle_connection_events _ _ _ _ _ _) as [u w1|w1|w1]; intros E; [| |done];
      by eapply wait_shut.
Qed.

End CtxProperties.

(** *** Witness *)

(** A forest: each token with itself and its ancestors, and whether it was
    cancelled. *)
Definition toy_tokens : TokenLib := {|
  token := nat;
  tokens := list (list nat * bool);
  token_new s := (length s, s ++ [([length s], false)]);
  token_child t s := let '(up, c) := default ([], false) (s !! t) in
    (length s, s ++ [(length s :: up, c)]);
  token_cancel t s := (fun '(up, c) => (up, c || bool_decide (t ∈ up))) <$> s;
  token_cancelled x s := from_option snd false (s !! x)
|}.

Definition toy_known (x : nat) (s : list (list nat * bool)) : Prop :=
  exists up c, s !! x = Some (up, c) /\ x ∈ up /\ Forall (fun y => y < length s) up.

Lemma toy_known_app x s n : toy_known x s -> toy_known x (s ++ [n]) /\ (s ++ [n]) !! x = s !! x.
Proof.
  intros (up & c & E & I & F). assert (x < length s) as L by by eapply lookup_lt_Some.
  rewrite lookup_app_l by done. split; [|done]. exists up, c. rewrite lookup_app_l by done.
  split_and!; [done..|]. eapply Forall_impl; [exact F|]. intros y Hy. simpl in Hy. rewrite length_app. simpl. lia.
Qed.

Lemma toy_lookup_last (s : list (list nat * bool)) n : (s ++ [n]) !! length s = Some n.
Proof. rewrite lookup_app_r by lia. by rewrite Nat.sub_diag. Qed.

Lemma toy_unknown s : ~ toy_known (length s) s.
Proof. intros (up & c & E & _). apply lookup_lt_Some in E. lia. Qed.

Definition toy_below (s : list (list nat * bool)) (x y : nat) : bool :=
  from_option (fun n : list nat * bool => bool_decide (y ∈ n.1)) false (s !! x).

Definition toy_token_laws : @TokenLaws toy_tokens.
Proof.
  refine (@Build_TokenLaws toy_tokens toy_known toy_below _ _ _ _).
  - intros x s (up & c & E & I & F). unfold toy_below. rewrite E. by apply bool_decide_eq_true.
  - intros s. cbn. split_and!.
    + apply toy_unknown.
    + eexists _, _. split; [apply toy_lookup_last|]. split; [by left|].
      rewrite length_app. simpl. repeat constructor. lia.
    + by rewrite toy_lookup_last.
    + intros x K. destruct (toy_known_app x s ([length s], false) K) as [K' ->]. done.
    + intros x y K _. unfold toy_below. by destruct (toy_known_app x s ([length s], false) K) as [_ ->].
  - intros t s (up & c & E & I & F). cbn. rewrite E. simpl. split_and!.
    + apply toy_unknown.
    + eexists _, _. split; [apply toy_lookup_last|]. split; [by left|]. rewrite length_app. simpl.
      constructor; [lia|]. eapply Forall_impl; [exact F|]. intros y Hy. simpl in Hy. lia.
    + by rewrite toy_lookup_last.
    + intros x K. destruct (toy_known_app x s (length s :: up, c) K) as [K' ->]. done.
    + intros x y K _. unfold toy_below. by destruct (toy_known_app x s (length s :: up, c) K) as [_ ->].
    + intros x K. pose proof K as (upx & cx & Ex & Ix & Fx). unfold toy_below.
      destruct (toy_known_app x s (length s :: up, c) K) as [_ ->]. rewrite toy_lookup_last, Ex, E. simpl. split.
      * apply bool_decide_eq_false. intros Hin. rewrite Forall_forall in Fx. specialize (Fx _ Hin). simpl in Fx. lia.
      * apply lookup_lt_Some in Ex. apply bool_decide_ext. rewrite elem_of_cons. split; [|auto].
        intros [->|]; [lia | done].
  - refine (fun t (s : list (list nat * bool)) (K : toy_known t s) => _).
    cbn. unfold toy_known, toy_below. split_and!.
    + intros x. rewrite list_lookup_fmap, length_fmap. split.
      * intros (up & c & E & I & F). apply fmap_Some in E as ([up' c'] & E & Eq).
        injection Eq as -> _. by exists up', c'.
      * intros (up & c & -> & I & F). by eexists up, _.
    + intros x (up & c & E & I & F). rewrite list_lookup_fmap, E. done.
    + intros x y. rewrite list_lookup_fmap. by destruct (s !! x) as [[up c]|].
Defined.

(** Two connections, the first superseded by the second, which the host neither
    disconnects nor releases. *)
Definition toy_host : list (list host_act) :=
  [[New_connection; Publish Event_Init; Publish toy_connected]; [New_connection; Publish toy_connected]].
