(* ===== verification/LogSink.v ===== *)
(** * The log sink

    Models [rc-x509-ffi/src/log_sink.rs]: the process-wide installation of a
    file descriptor as the destination of the library's log events.  Any number
    of host threads may call [rc_enable_log_sink] at once; a call is an atomic
    compare-and-exchange on a process-wide flag and, for the caller that wins
    it, the installation.  A state machine interleaves the two parts of all
    calls.  [tracing] and [tracing_subscriber] are a parameter. *)

From stdpp Require Import base option list strings relations.
From Stdlib Require Import ZArith Lia.
From S2P Require Import Prelude.

(** [enum LogSinkRet]. *)
Inductive LogSinkRet : Type := LogSink_Success | LogSink_AlreadySet | LogSink_Unsupported.

(** [#[repr(i32)]]. *)
Definition LogSinkRet_repr (r : LogSinkRet) : Z :=
  match r with
  | LogSink_Success => 0
  | LogSink_AlreadySet => 1
  | LogSink_Unsupported => 2147483647
  end.

#[export] Instance LogSinkRet_eq_dec : EqDecision LogSinkRet.
Proof. solve_decision. Defined.

(** ** [tracing] *)

Class TracingLib : Type := {
  env_filter : Type;
  (** [EnvFilter::try_from_env], on the variable's value; [EnvFilter::new]. *)
  filter_try_from : option string -> result env_filter ();
  filter_new : string -> env_filter;
  subscriber : Type;
  (** [registry().with(filter).with(fmt::layer().with_writer(..))], the writer
      being a locked line writer on the file of a descriptor. *)
  registry_with : env_filter -> Z -> subscriber;
  (** the process's global default *)
  dispatcher : Type;
  set_global_default : subscriber -> dispatcher -> result () () * dispatcher
}.

(** What is documented: the global default can be set once. *)
Class TracingLaws `{TracingLib} : Type := {
  global_default : dispatcher -> option subscriber;
  set_global_default_first : forall s g, global_default g = None ->
    exists g', set_global_default s g = (Ok tt, g') /\ global_default g' = Some s;
  set_global_default_again : forall s s0 g, global_default g = Some s0 ->
    exists g', set_global_default s g = (Err tt, g') /\ global_default g' = Some s0
}.

Section LogSink.
Context `{TracingLib}.

(** The process: the flag [LOG_SINK_INSTALLED], the global default, the value of
    [RC_LOG], and the descriptors the library owns. *)
Record Process : Type := mk_process {
  LOG_SINK_INSTALLED : bool;
  pr_dispatcher : dispatcher;
  pr_rc_log : option string;
  pr_owned : list Z
}.

(** [compare_exchange(false, true)]: whether it succeeded. *)
Definition claim : prog Process bool := fun p =>
  if LOG_SINK_INSTALLED p then Done false p
  else Done true (mk_process true (pr_dispatcher p) (pr_rc_log p) (pr_owned p)).

(** [raw_to_file], which takes ownership; [File::from_raw_fd] panics on -1. *)
Definition raw_to_file (fd : Z) : prog Process Z := fun p =>
  if decide (fd = -1)%Z then Panic p
  else Done fd (mk_process (LOG_SINK_INSTALLED p) (pr_dispatcher p) (pr_rc_log p) (fd :: pr_owned p)).

(** The filter [install_subscriber] uses. *)
Definition sink_filter (rc_log : option string) : env_filter :=
  match filter_try_from rc_log with
  | Ok f => f
  | Err _ => filter_new "info"
  end.

(** [install_subscriber]: a failure to set the global default panics. *)
Definition install_subscriber (f : Z) : prog Process () := fun p =>
  let subscriber := registry_with (sink_filter (pr_rc_log p)) f in
  let '(r, g) := set_global_default subscriber (pr_dispatcher p) in
  let p := mk_process (LOG_SINK_INSTALLED p) g (pr_rc_log p) (pr_owned p) in
  match r with Ok _ => Done tt p | Err _ => Panic p end.

(** The rest of [enable_log_sink], for the caller that won. *)
Definition install (fd : Z) : prog Process LogSinkRet :=
  file ← raw_to_file fd;
  install_subscriber file ;;
  mret LogSink_Success.

Definition enable_log_sink (fd : Z) : prog Process LogSinkRet :=
  won ← claim;
  if (won : bool) then install fd else mret LogSink_AlreadySet.

Definition rc_enable_log_sink (fd : Z) : prog Process LogSinkRet := enable_log_sink fd.

(** ** Concurrent calls *)

(** Where a call is; a panic that reaches the C boundary aborts. *)
Inductive call : Type :=
| Calling (fd : Z)
| Claimed (fd : Z)
| Returned (fd : Z) (ret : LogSinkRet)
| Aborted (fd : Z).

(** The next atomic action of a call. *)
Definition call_step (c : call) (p : Process) : option (call * Process) :=
  match c with
  | Calling fd =>
      match claim p with
      | Done true p => Some (Claimed fd, p)
      | Done false p => Some (Returned fd LogSink_AlreadySet, p)
      | Panic p | Blocked p => Some (Aborted fd, p)
      end
  | Claimed fd =>
      match install fd p with
      | Done ret p => Some (Returned fd ret, p)
      | Panic p | Blocked p => Some (Aborted fd, p)
      end
  | Returned _ _ | Aborted _ => None
  end.

Definition calls : Type := Process * list call.

Definition step_at (i : nat) (s : calls) : option calls :=
  c ← s.2 !! i;
  '(c, p) ← call_step c s.1;
  Some (p, <[i := c]> s.2).

(** One action of any call; the scheduler is free. *)
Inductive step (s s' : calls) : Prop :=
| step_of i : step_at i s = Some s' -> step s s'.

(** A process in which the library has not been called yet. *)
Definition fresh_process (g : dispatcher) (rc_log : option string) : Process :=
  mk_process false g rc_log [].
Definition start (g : dispatcher) (rc_log : option string) (fds : list Z) : calls :=
  (fresh_process g rc_log, Calling <$> fds).

(** Actions left. *)
Definition remaining (c : call) : nat :=
  match c with Calling _ => 2 | Claimed _ => 1 | _ => 0 end.

Definition call_fd (c : call) : Z :=
  match c with Calling fd | Claimed fd | Returned fd _ | Aborted fd => fd end.

(** A call that has not won. *)
Definition outside (c : call) : Prop :=
  match c with Calling _ | Returned _ LogSink_AlreadySet => True | _ => False end.

End LogSink.

(** ** At most one caller wins *)

Section LogSinkFacts.
Context `{TracingLib} `{!TracingLaws}.

(** The call at [i] won, and either has yet to install or has installed. *)
Definition holder (rc_log : option string) (s : calls) (i : nat) : Prop :=
  exists fd,
    s.2 !! i = Some (Claimed fd) /\ global_default (pr_dispatcher s.1) = None /\ pr_owned s.1 = [] \/
    s.2 !! i = Some (Returned fd LogSink_Success) /\ pr_owned s.1 = [fd] /\
      global_default (pr_dispatcher s.1) = Some (registry_with (sink_filter rc_log) fd).

Definition sink_inv (rc_log : option string) (fds : list Z) (s : calls) : Prop :=
  call_fd <$> s.2 = fds /\ pr_rc_log s.1 = rc_log /\
  (LOG_SINK_INSTALLED s.1 = false /\ s.2 = Calling <$> fds /\
     global_default (pr_dispatcher s.1) = None /\ pr_owned s.1 = [] \/
   LOG_SINK_INSTALLED s.1 = true /\
     exists i, holder rc_log s i /\ forall j c, j <> i -> s.2 !! j = Some c -> outside c).

Lemma start_sink_inv g rc_log fds :
  global_default g = None -> sink_inv rc_log fds (start g rc_log fds).
Proof.
  intros G. split; [|split; [done | by left]].
  cbn. rewrite <- list_fmap_compose. by apply list_fmap_id.
Qed.

(** An installation by a caller with a valid descriptor, with no default set. *)
Lemma install_done fd p :
  fd <> (-1)%Z -> global_default (pr_dispatcher p) = None ->
  exists p', install fd p = Done LogSink_Success p' /\
    LOG_SINK_INSTALLED p' = LOG_SINK_INSTALLED p /\ pr_rc_log p' = pr_rc_log p /\
    pr_owned p' = fd :: pr_owned p /\
    global_default (pr_dispatcher p') = Some (registry_with (sink_filter (pr_rc_log p)) fd).
Proof.
  intros V G.
  destruct (set_global_default_first (registry_with (sink_filter (pr_rc_log p)) fd) _ G)
    as (g' & S & E).
  set (p' := mk_process (LOG_SINK_INSTALLED p) g' (pr_rc_log p) (fd :: pr_owned p)).
  exists p'. split; [|done]. unfold install.
  rewrite (prog_bind_done _ _ _ fd (mk_process (LOG_SINK_INSTALLED p) (pr_dispatcher p)
    (pr_rc_log p) (fd :: pr_owned p))); [|unfold raw_to_file; by rewrite decide_False].
  rewrite (prog_bind_done _ _ _ tt p'); [done|]. unfold install_subscriber. cbn. by rewrite S.
Qed.

Lemma step_at_split i (s s' : calls) :
  step_at i s = Some s' ->
  exists c c', s.2 !! i = Some c /\ call_step c s.1 = Some (c', s'.1) /\ s'.2 = <[i := c']> s.2.
Proof.
  unfold step_at. destruct (s.2 !! i) as [c|]; [cbn|done].
  destruct (call_step c s.1) as [[c' p']|] eqn:E; [|done]. intros [= <-]. by exists c, c'.
Qed.

Lemma call_step_progress c p c' p' :
  call_step c p = Some (c', p') -> call_fd c' = call_fd c /\ remaining c' < remaining c.
Proof.
  destruct c as [fd|fd| |]; cbn; try done.
  - unfold claim. destruct (LOG_SINK_INSTALLED p); intros [= <- <-]; cbn; lia.
  - destruct (install fd p); intros [= <- <-]; cbn; lia.
Qed.

Lemma step_progress i (s s' : calls) :
  step_at i s = Some s' ->
  call_fd <$> s'.2 = call_fd <$> s.2 /\
  sum_list_with remaining s'.2 < sum_list_with remaining s.2.
Proof.
  intros (c & c' & L & C & E)%step_at_split. apply call_step_progress in C as [F R].
  rewrite E. split.
  - rewrite list_fmap_insert, F. apply list_insert_id. by rewrite list_lookup_fmap, L.
  - pose proof (lookup_lt_Some _ _ _ L). rewrite insert_take_drop by done.
    rewrite <- (take_drop_middle _ _ _ L) at 3. rewrite !sum_list_with_app. cbn. lia.
Qed.

Lemma sum_remaining_start fds : sum_list_with remaining (Calling <$> fds) = 2 * length fds.
Proof. induction fds as [|fd fds IH]; [done|]. cbn in *. lia. Qed.

(** The invariant is kept by every action, of whichever call. *)
Lemma step_at_inv rc_log fds i s s' :
  Forall (fun fd => fd <> (-1)%Z) fds ->
  sink_inv rc_log fds s -> step_at i s = Some s' -> sink_inv rc_log fds s'.
Proof.
  destruct s' as [p' ts'].
  intros V (F & L & D) T. pose proof (step_progress _ _ _ T) as [F' _].
  apply step_at_split in T as (c & c' & I & C & E). cbn in E, F', C |- *. subst ts'.
  pose proof (lookup_lt_Some _ _ _ I) as Hi. split; [cbn; congruence|]. cbn.
  destruct D as [(N & A & G & O)|(N & k & Hk & Out)].
  - rewrite A, list_lookup_fmap in I. destruct (fds !! i) as [fd|]; [|done].
    injection I as <-. cbn in C. unfold claim in C. rewrite N in C. injection C as <- <-.
    split; [done|]. right. split; [done|]. exists i. split.
    + exists fd. left. split; [|done]. by apply list_lookup_insert_eq.
    + intros j c Hj. rewrite list_lookup_insert_ne by done. rewrite A, list_lookup_fmap.
      destruct (fds !! j); [|done]. by intros [= <-].
  - destruct (decide (i = k)) as [->|Hne].
    + destruct Hk as [fd [(K & G & O)|(K & _)]]; rewrite K in I; injection I as <-; [|cbn in C; discriminate C].
      assert (Vfd : fd <> (-1)%Z).
      { rewrite Forall_lookup in V. apply (V k). by rewrite <- F, list_lookup_fmap, K. }
      destruct (install_done fd s.1 Vfd G) as (p & P & P1 & P2 & P3 & P4).
      cbn in C. rewrite P in C. injection C as <- <-. split; [congruence|].
      right. split; [congruence|]. exists k. split.
      * exists fd. right. cbn. rewrite list_lookup_insert_eq by done. split_and!; congruence.
      * intros j c Hj. rewrite list_lookup_insert_ne by done. by apply Out.
    + pose proof (Out i c Hne I) as Hc. destruct c as [fd| |fd []|]; try done.
      cbn in C. unfold claim in C. rewrite N in C. injection C as <- <-.
      split; [done|]. right. split; [done|]. exists k. split.
      * destruct Hk as [f Hk]. exists f. cbn. rewrite list_lookup_insert_ne by done. done.
      * intros j c' Hj. destruct (decide (j = i)) as [->|Hji].
        { rewrite list_lookup_insert_eq by done. by intros [= <-]. }
        rewrite list_lookup_insert_ne by done. by apply Out.
Qed.

Lemma steps_inv rc_log fds n s s' :
  Forall (fun fd => fd <> (-1)%Z) fds -> nsteps step n s s' ->
  sink_inv rc_log fds s ->
  sink_inv rc_log fds s' /\ n + sum_list_with remaining s'.2 <= sum_list_with remaining s.2.
Proof.
  intros V R. induction R as [s|n s s1 s' [i T] R IH]; intros I; [split; [done | lia]|].
  destruct (IH (step_at_inv _ _ _ _ _ V I T)) as [I' B]. split; [done|].
  pose proof (step_progress _ _ _ T) as [_ L]. lia.
Qed.

(** A state in which no call can act: every call has ended. *)
Lemma stuck_ended s :
  (forall s', ~ step s s') ->
  forall i c, s.2 !! i = Some c -> exists fd, (exists r, c = Returned fd r) \/ c = Aborted fd.
Proof.
  intros Stuck i c L. destruct (call_step c s.1) as [[c' p']|] eqn:E.
  - destruct (Stuck (p', <[i := c']> s.2)). exists i. unfold step_at. rewrite L. cbn. by rewrite E.
  - destruct c as [fd|fd|fd r|fd]; cbn in E; unfold claim in *; repeat case_match; simplify_eq;
      exists fd; naive_solver.
Qed.

(** A single call, run to its end without interleaving, is [enable_log_sink]. *)
Lemma enable_log_sink_steps fd p :
  rtc step (p, [Calling fd])
    match rc_enable_log_sink fd p with
    | Done ret p' => (p', [Returned fd ret])
    | Panic p' | Blocked p' => (p', [Aborted fd])
    end.
Proof.
  unfold rc_enable_log_sink, enable_log_sink. destruct (claim p) as [won p1|p1|p1] eqn:C.
  2,3: unfold claim in C; by destruct (LOG_SINK_INSTALLED p).
  rewrite (prog_bind_done _ _ _ _ _ C). destruct won.
  - eapply rtc_l; [exists 0; unfold step_at; cbn; rewrite C; reflexivity|].
    apply rtc_once. exists 0. unfold step_at. cbn. by destruct (install fd p1).
  - apply rtc_once. exists 0. unfold step_at. cbn. by rewrite C.
Qed.

(** Whoever returned success is the holder. *)
Lemma success_holds rc_log fds s i fd :
  sink_inv rc_log fds s -> s.2 !! i = Some (Returned fd LogSink_Success) ->
  holder rc_log s i /\ pr_owned s.1 = [fd] /\
  forall j c, j <> i -> s.2 !! j = Some c -> outside c.
Proof.
  intros (_ & _ & [(_ & A & _)|(_ & k & Hk & Out)]) L.
  - rewrite A, list_lookup_fmap in L. by destruct (fds !! i).
  - destruct (decide (i = k)) as [->|Hne]; [|by destruct (Out i _ Hne L)].
    split_and!; [done | | done]. destruct Hk as [f [(K & _)|(K & O & _)]]; congruence.
Qed.

Lemma never_aborted rc_log fds s i fd :
  sink_inv rc_log fds s -> s.2 !! i <> Some (Aborted fd).
Proof.
  intros (_ & _ & [(_ & A & _)|(_ & k & Hk & Out)]) L.
  - rewrite A, list_lookup_fmap in L. by destruct (fds !! i).
  - destruct (decide (i = k)) as [->|Hne]; [|by destruct (Out i _ Hne L)].
    destruct Hk as [f [(K & _)|(K & _)]]; congruence.
Qed.

(** The descriptors the library owns. *)
Lemma owned_returned rc_log fds s fd :
  sink_inv rc_log fds s ->
  fd ∈ pr_owned s.1 <-> exists i, s.2 !! i = Some (Returned fd LogSink_Success).
Proof.
  intros I. split.
  - destruct I as (_ & _ & [(_ & _ & _ & ->)|(_ & k & [f [(_ & _ & ->)|(K & -> & _)]] & _)]).
    1,2: by intros ?%elem_of_nil.
    intros ->%list_elem_of_singleton. by exists k.
  - intros [i L]. destruct (success_holds _ _ _ _ _ I L) as (_ & -> & _). by left.
Qed.

(** Every call has ended, and there was one: it is settled who won. *)
Lemma ended_settled rc_log fds s :
  sink_inv rc_log fds s -> (forall s', ~ step s s') -> fds <> [] ->
  exists i fd, fds !! i = Some fd /\ s.2 !! i = Some (Returned fd LogSink_Success) /\
    global_default (pr_dispatcher s.1) = Some (registry_with (sink_filter rc_log) fd) /\
    forall j fj, j <> i -> fds !! j = Some fj -> s.2 !! j = Some (Returned fj LogSink_AlreadySet).
Proof.
  intros (F & _ & D) Stuck Ne. pose proof (stuck_ended s Stuck) as End.
  destruct D as [(_ & A & _)|(_ & k & [fd Hk] & Out)].
  - destruct fds as [|f fds]; [done|]. destruct (End 0 (Calling f)) as [? [[? ?]|?]]; try done.
    by rewrite A.
  - destruct Hk as [(K & _)|(K & _ & G)].
    { destruct (End k _ K) as [? [[? ?]|?]]; done. }
    exists k, fd. split_and!; [by rewrite <- F, list_lookup_fmap, K | done | done|].
    intros j fj Hj. rewrite <- F, list_lookup_fmap. destruct (s.2 !! j) as [c|] eqn:L; [|done].
    intros [= <-]. pose proof (Out j c Hj L). destruct (End j c L) as [f [[r ->]| ->]]; [|done].
    by destruct r.
Qed.

End LogSinkFacts.

(** ** Properties *)

Section LogSinkProperties.
Context `{TracingLib} `{!TracingLaws}.

(** C28. Any number of concurrent calls, interleaved in any way, in a process
    that has set no default subscriber itself and passes valid descriptors: no
    call aborts, no two succeed, and the library owns exactly the descriptors
    of the calls that returned success.  The calls end after at most two
    actions each; when all have, exactly one has succeeded, events go to its
    descriptor at the level [RC_LOG] names (or "info"), and every other call
    returned that a sink is already set. *)
Theorem one_log_sink g rc_log fds n s
  (Free : global_default g = None) (Valid : Forall (fun fd => fd <> (-1)%Z) fds)
  (R : nsteps step n (start g rc_log fds) s) :
  n <= 2 * length fds /\
  (forall i fd, s.2 !! i <> Some (Aborted fd)) /\
  (forall i j fi fj, s.2 !! i = Some (Returned fi LogSink_Success) ->
     s.2 !! j = Some (Returned fj LogSink_Success) -> i = j) /\
  (forall fd, fd ∈ pr_owned s.1 <-> exists i, s.2 !! i = Some (Returned fd LogSink_Success)) /\
  ((forall s', ~ step s s') -> fds <> [] ->
     exists i fd, fds !! i = Some fd /\ s.2 !! i = Some (Returned fd LogSink_Success) /\
       global_default (pr_dispatcher s.1) = Some (registry_with (sink_filter rc_log) fd) /\
       forall j fj, j <> i -> fds !! j = Some fj -> s.2 !! j = Some (Returned fj LogSink_AlreadySet)).
Proof.
  destruct (steps_inv rc_log fds n _ s Valid R (start_sink_inv g rc_log fds Free)) as [I B].
  split_and!.
  - cbn in B. rewrite sum_remaining_start in B. lia.
  - intros i fd. by apply (never_aborted rc_log fds).
  - intros i j fi fj Li Lj. destruct (decide (i = j)) as [|Hne]; [done|].
    destruct (success_holds _ _ _ _ _ I Lj) as (_ & _ & Out). by destruct (Out i _ Hne Li).
  - intros fd. by apply (owned_returned rc_log fds).
  - by apply ended_settled.
Qed.

End LogSinkProperties.

(** ** A tracing library for concrete evaluation *)

(** Filters are level names; the subscriber is the filter and the descriptor. *)
#[local] Instance toy_tracing : TracingLib := {|
  env_filter := string;
  filter_try_from v := match v with Some l => Ok l | None => Err tt end;
  filter_new l := l;
  subscriber := string * Z;
  registry_with f fd := (f, fd);
  dispatcher := option (string * Z);
  set_global_default s g := match g with None => (Ok tt, Some s) | Some _ => (Err tt, g) end
|}.

#[local] Instance toy_tracing_laws : TracingLaws.
Proof.
  refine {| global_default := fun g : @dispatcher toy_tracing => g |}.
  - intros s g ->. by exists (Some s).
  - intros s s0 g ->. by exists (Some s0).
Defined.

(** *** Witness *)

(** Descriptors 3 and 4: the second caller claims first, the first caller is
    refused, the second installs. *)
Definition toy_end : calls :=
  (mk_process true (Some ("info", 4%Z)) None [4%Z],
   [Returned 3 LogSink_AlreadySet; Returned 4 LogSink_Success]).

Lemma one_log_sink_witness :
  (forall s', ~ step toy_end s') /\
  exists i fd, [3; 4]%Z !! i = Some fd /\ toy_end.2 !! i = Some (Returned fd LogSink_Success) /\
    forall j fj, j <> i -> [3; 4]%Z !! j = Some fj ->
      toy_end.2 !! j = Some (Returned fj LogSink_AlreadySet).
Proof.
  assert (Stuck : forall s', ~ step toy_end s') by (by intros s' [[|[|i]]]).
  split; [exact Stuck|].
  destruct (@one_log_sink toy_tracing toy_tracing_laws None None [3; 4]%Z 3 toy_end) as (_ & _ & _ & _ & W).
  - reflexivity.
  - by repeat constructor.
  - eapply nsteps_l; [by exists 1|]. eapply nsteps_l; [by exists 0|].
    eapply nsteps_l; [by exists 1 | constructor].
  - destruct (W Stuck) as (i & fd & Li & Ls & _ & Rest); [done|]. by exists i, fd.
Defined.
