(* ===== verification/System.v ===== *)
(** * One connection, composed

    Puts the parts of a connection together: the host's calls ([Ffi]), the two
    tasks that call the host ([FfiTasks]), and the actor ([Actor]) with the state
    machine, over the channels that [rc_conn_connected] creates.  The threads of
    the host and of the tasks run between any two channel operations of the
    actor, in an order that a schedule fixes; the theorem holds for every
    schedule, and speaks only of what crosses the boundary to the host: the bytes
    it hands in and the callbacks it receives. *)

From stdpp Require Import base option list strings sets.
From Stdlib Require Import Strings.Byte NArith ZArith Lia.
From S2P Require Import Prelude Utf8 Hash Certificate ConnectionId Codec Mpsc Dispatch Runtime Fsm Actor Ffi FfiTasks World.

Section System.
Context `{ProtoTypes} `{!Prost} `{Mpsc} {R App : Type} `{!Rng R}.

(** ** State *)

(** A step of another thread: a call of the host (polled, when it blocks), one
    iteration of a task, the cancellation of the actor by the main task, the
    passing of time. *)
Inductive thread_step : Type :=
| Host_calls (call : host_call)
| Io_polls
| Dispatch_polls
| Main_cancels
| Clock_ticks (nanos : N).

(** Next to what the actor's world has: the connection object, the rest of what
    it shares ([FfiRest], its outgoing channel being the world's), the tasks and
    the host application's own state.  [sy_report] is the report the dispatch
    task waits to send.  The last six fields are logs, for the specification
    only. *)
Record SysHost : Type := mk_sys {
  sy_conn : option FFIConnection;
  sy_events : list ConnectionEvent;
  sy_events_open : bool;
  sy_in : mpsc (result ServerToClient DecodingError);
  sy_io_stop : bool;
  sy_dispatch_stop : bool;
  sy_tasks : option (pointer * SendCbUserData);
  sy_io_live : bool;
  sy_dispatch_live : bool;
  sy_report : option DispatchResult;
  sy_handle : IOHandle;
  sy_clock : N;
  sy_app : App;
  sy_schedule : list (list thread_step);
  sy_offered : list (result ServerToClient DecodingError);
  sy_results : list DispatchResult;
  sy_send_calls : list send_call;
  sy_dispatch_calls : list dispatch_call;
  sy_acked : list DispatchResult;
  sy_received : list (result ServerToClient DecodingError)
}.

Definition SysWorld : Type := World (R:=R) (Host:=SysHost).

Definition on_host (f : SysHost -> SysHost) : SysWorld -> SysWorld :=
  upd (fun t => mk_conn_rest (cr_out t) (cr_stopped t) (cr_runtime t) (cr_metrics t) (cr_rng t)
    (f (cr_host t)) (cr_sent t) (cr_queued t)).

Definition host (w : SysWorld) : SysHost := cr_host (sh_rest w).

Definition set_out (c : mpsc ClientToServer) : SysWorld -> SysWorld :=
  upd (fun t => mk_conn_rest c (cr_stopped t) (cr_runtime t) (cr_metrics t) (cr_rng t) (cr_host t)
    (cr_sent t) (cr_queued t)).

(** ** The host's calls *)

(** The connection's part of the state. *)
Definition ffi_view (w : SysWorld) : Sys :=
  let h := host w in
  mk_shared (sh_req w) (sh_resp w) (mk_rest (sy_events h) (sy_events_open h) (cr_out (sh_rest w))
    (sy_in h) (sy_io_stop h) (sy_dispatch_stop h) (sy_tasks h)).

Definition ffi_put (s : Sys) (w : SysWorld) : SysWorld :=
  let r := sh_rest s in
  let w := mk_shared (sh_req s) (sh_resp s) (sh_rest w) in
  on_host (fun h => mk_sys (sy_conn h) (fr_events r) (fr_events_open r) (fr_ffi2lib r)
    (fr_io_stop r) (fr_dispatch_stop r) (fr_tasks r) (sy_io_live h) (sy_dispatch_live h)
    (sy_report h) (sy_handle h) (sy_clock h) (sy_app h) (sy_schedule h) (sy_offered h)
    (sy_results h) (sy_send_calls h) (sy_dispatch_calls h) (sy_acked h) (sy_received h))
    (set_out (fr_lib2ffi r) w).

(** [block_on(task)]: waits for the task to end; the tasks do not panic. *)
Definition join_task (live : bool) : prog Sys (result () ()) := fun s =>
  if live then Blocked s else Done (Ok tt) s.

(** What a completed call hands to the library. *)
Definition offered_by (c : FFIConnection) (call : host_call) :
  list (result ServerToClient DecodingError) :=
  match fc_state c, call with
  | Connected _, Call_recv ((_ :: _) as data) => [ServerToClient_try_from data]
  | _, _ => []
  end.

Definition results_by (c : FFIConnection) (call : host_call) : list DispatchResult :=
  match fc_state c, call with
  | Connected _, Call_dispatch_result id ((_ :: _) as data) =>
      [mk_dispatch_result (CorrelationId_new id)
        (map_err ReplyDeserialisation (decode_response_payload data))]
  | Connected _, Call_dispatch_error id e =>
      [mk_dispatch_result (CorrelationId_new id) (Err (DispatchHostError_into e))]
  | _, _ => []
  end.

Definition after_call (c : option FFIConnection) (offered : list (result ServerToClient DecodingError))
  (results : list DispatchResult) : SysWorld -> SysWorld :=
  on_host (fun h => mk_sys c (sy_events h) (sy_events_open h) (sy_in h) (sy_io_stop h)
    (sy_dispatch_stop h) (sy_tasks h) (sy_io_live h) (sy_dispatch_live h) (sy_report h)
    (sy_handle h) (sy_clock h) (sy_app h) (sy_schedule h) (sy_offered h ++ offered)
    (sy_results h ++ results) (sy_send_calls h) (sy_dispatch_calls h) (sy_acked h) (sy_received h)).

(** A poll of a call in a release build.  A call that blocks has done what it
    does before it waits, and is polled again by a later step; a panic leaves
    the library through an [extern "C"] function and ends the host's calls. *)
Definition host_calls (call : host_call) (w : SysWorld) : SysWorld :=
  match sy_conn (host w) with
  | None => w
  | Some c =>
      match host_step false id 1 (join_task (sy_io_live (host w)))
              (join_task (sy_dispatch_live (host w))) c call (ffi_view w) with
      | Done c' s => after_call c' (offered_by c call) (results_by c call) (ffi_put s w)
      | Blocked s => after_call (Some c) [] [] (ffi_put s w)
      | Panic s => after_call None [] [] (ffi_put s w)
      end
  end.

(** ** The tasks *)

Context (send : list u8 -> N -> App -> SendRet * App)
  (dispatch : N -> list u8 -> N -> App -> DispatchRet * App).

Definition set_io (live : bool) (i : IoWorld App) (w : SysWorld) : SysWorld :=
  on_host (fun h => mk_sys (sy_conn h) (sy_events h) (sy_events_open h) (sy_in h) (sy_io_stop h)
    (sy_dispatch_stop h) (sy_tasks h) live (sy_dispatch_live h) (sy_report h) (sy_handle h)
    (sy_clock h) (iw_host i) (sy_schedule h) (sy_offered h) (sy_results h) (iw_calls i)
    (sy_dispatch_calls h) (sy_acked h) (sy_received h)) (set_out (iw_lib2ffi i) w).

(** One iteration of [io_task]; the loop keeps no state between iterations. *)
Definition io_polls (w : SysWorld) : SysWorld :=
  let h := host w in
  if sy_io_live h then
    let e := io_task send id 1
      (mk_io (cr_out (sh_rest w)) (sy_io_stop h) (sy_app h) (sy_send_calls h)) in
    set_io (negb (completed e)) (final e) w
  else w.

Definition dispatch_view (w : SysWorld) : DtWorld (Hst:=App) :=
  let h := host w in
  mk_shared (sh_req w) (sh_resp w) (mk_dt (sy_dispatch_stop h) (sy_app h) (sy_dispatch_calls h) []).

Definition set_dispatch (live : bool) (pending : option DispatchResult) (s : DtWorld (Hst:=App))
  (w : SysWorld) : SysWorld :=
  on_host (fun h => mk_sys (sy_conn h) (sy_events h) (sy_events_open h) (sy_in h) (sy_io_stop h)
    (sy_dispatch_stop h) (sy_tasks h) (sy_io_live h) live pending (sy_handle h)
    (sy_clock h) (dt_host (sh_rest s)) (sy_schedule h) (sy_offered h) (sy_results h)
    (sy_send_calls h) (dt_calls (sh_rest s)) (sy_acked h) (sy_received h))
    (mk_shared (sh_req s) (sh_resp s) (sh_rest w)).

(** One iteration of [dispatch_task], up to the report of a refused delivery,
    which is polled on its own: the task waits there while the response queue is
    full. *)
Definition dispatch_iteration : prog (DtWorld (Hst:=App)) (bool * option DispatchResult) :=
  stopped ← gets (fun s => dt_stop (sh_rest s));
  if (stopped : bool) then dt_exit ;; mret (false, None)
  else
    maybe_payload ← DispatchStream_poll_next (mk_stream request_rx);
    match maybe_payload with
    | Pending => mret (true, None)
    | Ready None => dt_exit ;; mret (false, None)
    | Ready (Some data) =>
        dispatch_ret ← call_dispatch dispatch data;
        mret (true, mk_dispatch_result (d_correlation_id data) ∘ Err <$> DispatchRet_error dispatch_ret)
    end.

Definition report_polls (x : DispatchResult) : prog (DtWorld (Hst:=App)) (bool * option DispatchResult) := fun s =>
  let '(p, c) := mpsc_poll_send x (sh_resp s) in
  let s := set_resp c s in
  match p with
  | Pending => Done (true, Some x) s
  | Ready (Ok _) => Done (true, None) s
  | Ready (Err _) => (dt_exit ;; mret (false, None)) s
  end.

Definition dispatch_step (pending : option DispatchResult) :
  prog (DtWorld (Hst:=App)) (bool * option DispatchResult) :=
  match pending with Some x => report_polls x | None => dispatch_iteration end.

Definition dispatch_polls (w : SysWorld) : SysWorld :=
  let h := host w in
  if sy_dispatch_live h then
    match dispatch_step (sy_report h) (dispatch_view w) with
    | Done (live, pending) s => set_dispatch live pending s w
    | Panic _ | Blocked _ => w
    end
  else w.

(** ** The schedule *)

Definition thread_steps (t : thread_step) (w : SysWorld) : SysWorld :=
  match t with
  | Host_calls call => host_calls call w
  | Io_polls => io_polls w
  | Dispatch_polls => dispatch_polls w
  | Main_cancels => upd (fun t => mk_conn_rest (cr_out t) true (cr_runtime t) (cr_metrics t)
      (cr_rng t) (cr_host t) (cr_sent t) (cr_queued t)) w
  | Clock_ticks nanos => on_host (fun h => mk_sys (sy_conn h) (sy_events h) (sy_events_open h)
      (sy_in h) (sy_io_stop h) (sy_dispatch_stop h) (sy_tasks h) (sy_io_live h)
      (sy_dispatch_live h) (sy_report h) (sy_handle h) (sy_clock h + nanos) (sy_app h)
      (sy_schedule h) (sy_offered h) (sy_results h) (sy_send_calls h) (sy_dispatch_calls h)
      (sy_acked h) (sy_received h)) w
  end.

Definition set_schedule (l : list (list thread_step)) : SysWorld -> SysWorld :=
  on_host (fun h => mk_sys (sy_conn h) (sy_events h) (sy_events_open h) (sy_in h) (sy_io_stop h)
    (sy_dispatch_stop h) (sy_tasks h) (sy_io_live h) (sy_dispatch_live h) (sy_report h)
    (sy_handle h) (sy_clock h) (sy_app h) l (sy_offered h) (sy_results h) (sy_send_calls h)
    (sy_dispatch_calls h) (sy_acked h) (sy_received h)).

(** What the other threads do before the actor continues: the next batch. *)
Definition interfere (w : SysWorld) : SysWorld :=
  match sy_schedule (host w) with
  | [] => w
  | batch :: rest => foldl (fun w t => thread_steps t w) (set_schedule rest w) batch
  end.

(** ** The environment of the actor *)

Context (fuel : nat).

#[export] Instance sys_conn_env : ConnEnv SysWorld := {|
  CancellationToken := unit;
  MetricsRef := unit;
  env_send m := modify interfere ;; world_send m;
  env_stop_or_sleep _ := modify interfere ;; world_stop_or_sleep interfere;
  env_dispatch p d := modify interfere ;; world_dispatch interfere fuel p d;
  env_rng := world_rng;
  env_metrics _ w := cr_metrics (sh_rest w)
|}.

Definition log_received (o : option (result ServerToClient DecodingError)) : SysWorld -> SysWorld :=
  on_host (fun h => mk_sys (sy_conn h) (sy_events h) (sy_events_open h) (sy_in h) (sy_io_stop h)
    (sy_dispatch_stop h) (sy_tasks h) (sy_io_live h) (sy_dispatch_live h) (sy_report h)
    (sy_handle h) (sy_clock h) (sy_app h) (sy_schedule h) (sy_offered h) (sy_results h)
    (sy_send_calls h) (sy_dispatch_calls h) (sy_acked h) (sy_received h ++ option_list o)).

Definition log_acked (o : option DispatchResult) : SysWorld -> SysWorld :=
  on_host (fun h => mk_sys (sy_conn h) (sy_events h) (sy_events_open h) (sy_in h) (sy_io_stop h)
    (sy_dispatch_stop h) (sy_tasks h) (sy_io_live h) (sy_dispatch_live h) (sy_report h)
    (sy_handle h) (sy_clock h) (sy_app h) (sy_schedule h) (sy_offered h) (sy_results h)
    (sy_send_calls h) (sy_dispatch_calls h) (sy_acked h ++ option_list o) (sy_received h)).

Definition set_in (c : mpsc (result ServerToClient DecodingError)) (io : IOHandle) :
  SysWorld -> SysWorld :=
  on_host (fun h => mk_sys (sy_conn h) (sy_events h) (sy_events_open h) c (sy_io_stop h)
    (sy_dispatch_stop h) (sy_tasks h) (sy_io_live h) (sy_dispatch_live h) (sy_report h)
    io (sy_clock h) (sy_app h) (sy_schedule h) (sy_offered h) (sy_results h)
    (sy_send_calls h) (sy_dispatch_calls h) (sy_acked h) (sy_received h)).

Definition poll_incoming : prog SysWorld (poll (option (result ServerToClient DecodingError))) :=
  fun w =>
  let '(p, c) := mpsc_poll_recv (sy_in (host w)) in
  Done p (log_received (yielded p) (set_in c (sy_handle (host w)) w)).

Definition poll_response (rx : ResponseReceiver) : prog SysWorld (poll (option DispatchResult)) :=
  p ← response_poll_next rx;
  modify (log_acked (yielded p)) ;; mret p.

#[export] Instance sys_actor_env : ActorEnv SysWorld := {|
  Incoming := unit;
  actor_stopped _ w := cr_stopped (sh_rest w);
  env_take_recv_stream w :=
    let '(present, io) := IOHandle_take_recv_stream (sy_handle (host w)) in
    Done (if present then Some tt else None) (set_in (sy_in (host w)) io w);
  env_poll_incoming _ := modify interfere ;; poll_incoming;
  env_poll_response rx := modify interfere ;; poll_response rx;
  env_suspend := modify interfere;
  env_now := gets (fun w => sy_clock (host w));
  env_update_metrics _ f := modify (upd (fun t => mk_conn_rest (cr_out t) (cr_stopped t)
    (cr_runtime t) (f (cr_metrics t)) (cr_rng t) (cr_host t) (cr_sent t) (cr_queued t)))
|}.

(** The task is its iterations, and the wait for each report. *)
Lemma dispatch_task_iterates n (s : DtWorld (Hst:=App)) :
  dispatch_task dispatch id fuel (S n) s =
  match dispatch_iteration s with
  | Done (false, _) s' => Done tt s'
  | Done (true, None) s' => dispatch_task dispatch id fuel n s'
  | Done (true, Some x) s' =>
      (r ← report id fuel x; match r with Ok _ => dispatch_task dispatch id fuel n | Err _ => dt_exit end) s'
  | Panic s' => Panic s'
  | Blocked s' => Blocked s'
  end.
Proof.
  unfold dispatch_iteration. cbn [dispatch_task]. unfold mbind, prog_bind, modify, gets, id. simpl.
  destruct (dt_stop (sh_rest s)); [done|].
  destruct (DispatchStream_poll_next (mk_stream request_rx) s) as [[[data|]|] s1|s1|s1]; try done.
  destruct (call_dispatch dispatch data s1) as [ret s2|s2|s2]; try done.
  simpl. by destruct (DispatchRet_error ret).
Qed.

End System.

(** ** The other threads leave the actor's logs alone *)

Section SystemLaws.
Context `{ProtoTypes} `{!Prost} `{MpscLaws} {R App : Type} `{!Rng R} `{!RngLaws R}.
Context (send : list u8 -> N -> App -> SendRet * App)
  (dispatch : N -> list u8 -> N -> App -> DispatchRet * App) (fuel : nat).
Abbreviation W := (SysWorld (R:=R) (App:=App)).
Abbreviation others := (interfere (R:=R) (App:=App) send dispatch).
#[local] Instance sys_conn : ConnEnv W := sys_conn_env send dispatch fuel.
#[local] Instance sys_actor : ActorEnv W := sys_actor_env send dispatch fuel.

Definition actor_logs (w : W) :=
  (cr_sent (sh_rest w), cr_queued (sh_rest w), sy_acked (host w), sy_received (host w)).

(** The logs and the runtime are kept; a cancellation is not undone. *)
Definition aside (w w' : W) : Prop :=
  actor_logs w' = actor_logs w /\ cr_runtime (sh_rest w') = cr_runtime (sh_rest w) /\
  (cr_stopped (sh_rest w) = true -> cr_stopped (sh_rest w') = true).

#[local] Instance aside_preorder : PreOrder aside.
Proof.
  split; [by intros w|]. intros w1 w2 w3 (L1 & R1 & S1) (L2 & R2 & S2).
  split_and!; [congruence | congruence | auto].
Qed.

Lemma thread_aside t w : aside w (thread_steps send dispatch t w).
Proof.
  destruct t as [call| | | |n]; simpl; try done.
  - unfold host_calls. destruct (sy_conn (host w)) as [c|]; [|done]. by destruct (host_step _ _ _ _ _ _ _ _).
  - unfold io_polls. by destruct (sy_io_live (host w)).
  - unfold dispatch_polls. destruct (sy_dispatch_live (host w)); [|done].
    by destruct (dispatch_step dispatch (sy_report (host w)) (dispatch_view w)) as [[]| |].
Qed.

Lemma interfere_aside w : aside w (others w).
Proof.
  unfold interfere. destruct (sy_schedule (host w)) as [|batch rest]; [done|].
  assert (G : forall batch w, aside w (foldl (fun w t => thread_steps send dispatch t w) w batch)).
  { clear. intros batch. induction batch as [|t batch IH]; intros w; simpl; [done|].
    etrans; [apply thread_aside | apply IH]. }
  etrans; [|apply G]. done.
Qed.

Lemma interfere_ok : world_yield_ok (R:=R) (Host:=SysHost (App:=App)) others.
Proof.
  intros w. destruct (interfere_aside w) as (L & Rt & S). unfold actor_logs in L. by simplify_eq.
Qed.

Lemma interfere_logs w : actor_logs (others w) = actor_logs w.
Proof. apply interfere_aside. Qed.

(** ** The laws of the actor's environment *)

Ltac logs_of w := pose proof (interfere_logs w); unfold actor_logs in *; simplify_eq.

#[export] Instance sys_laws : ConnEnvLaws W.
Proof.
  refine {| sent w := cr_sent (sh_rest w); queued w := cr_queued (sh_rest w) |}.
  - intros m w. pose proof (world_send_log m (others w)) as L. logs_of w.
    change (env_send m w) with (world_send m (others w)).
    destruct (world_send m (others w)) as [[[]|]| |]; destruct L; simpl; split; congruence.
  - intros tok w. destruct (world_stop_log others interfere_ok (others w)) as [L1 L2]. logs_of w.
    change (env_stop_or_sleep tok w) with (world_stop_or_sleep others (others w)).
    split; [by etrans; [exact L1|] | by etrans; [exact L2|]].
  - intros p d w. pose proof (world_dispatch_log others fuel interfere_ok p d (others w)) as L. logs_of w.
    change (env_dispatch p d w) with (world_dispatch others fuel p d (others w)).
    destruct (world_dispatch others fuel p d (others w)) as [[[]|]| |]; try done; destruct L; simpl; split; congruence.
  - intros p d w w' E. pose proof (world_dispatch_log others fuel interfere_ok p d (others w)) as L.
    change (env_dispatch p d w) with (world_dispatch others fuel p d (others w)) in E.
    by rewrite E in L.
  - apply world_rng_log.
  - apply world_rng_length.
Defined.

(** ** Assertions that every channel operation keeps *)

Definition set_rng (r : R) : W -> W :=
  upd (fun t => mk_conn_rest (cr_out t) (cr_stopped t) (cr_runtime t) (cr_metrics t) r (cr_host t)
    (cr_sent t) (cr_queued t)).

Definition log_queued (d : Dispatch) : W -> W :=
  upd (fun t => mk_conn_rest (cr_out t) (cr_stopped t) (cr_runtime t) (cr_metrics t) (cr_rng t)
    (cr_host t) (cr_sent t) (cr_queued t ++ [d])).

(** The publisher's own errors. *)
Definition refused_result (x : DispatchResult) : Prop :=
  dr_result x = Err DispatchClosed \/ dr_result x = Err DispatchRequestQueueFull.

Class OpStable (I : W -> Prop) : Prop := {
  op_thread : forall t w, I w -> I (thread_steps send dispatch t w);
  op_schedule : forall l w, I w -> I (set_schedule l w);
  op_send : forall m w, I w -> I (final (world_send m w));
  op_publish : forall d w r c, mpsc_try_send d (sh_req w) = (r, c) -> I w ->
    I (match r with Ok _ => log_queued d (set_req c w) | Err _ => set_req c w end);
  op_upgrade : forall w c, mpsc_upgrade (sh_resp w) = Some c -> I w -> I (set_resp c w);
  op_refuse : forall x w p c, refused_result x -> mpsc_poll_send x (sh_resp w) = (p, c) -> I w ->
    I (set_resp c w);
  op_drop : forall w, I w -> I (set_resp (mpsc_drop_tx (sh_resp w)) w);
  op_rng : forall r w, I w -> I (set_rng r w)
}.

Section Ops.
Context (I : W -> Prop) `{!OpStable I}.

Lemma interfere_keeps w : I w -> I (others w).
Proof.
  unfold interfere. destruct (sy_schedule (host w)) as [|batch rest]; [done|].
  intros Hw. apply (op_schedule rest) in Hw. revert Hw. generalize (set_schedule rest w). clear w.
  induction batch as [|t batch IH]; intros w Hw; simpl; [done|]. by apply IH, op_thread.
Qed.

Lemma refuse_keeps n x w : refused_result x -> I w -> I (final (resp_send others n x w)).
Proof.
  intros Hx. revert w. induction n as [|n IH]; intros w Hw; simpl; [done|].
  destruct (mpsc_poll_send x (sh_resp w)) as [p c] eqn:E.
  apply (op_refuse x w p c Hx E) in Hw. destruct p; simpl; [done|]. by apply IH, interfere_keeps.
Qed.

Lemma world_dispatch_keeps n p d w : I w -> I (final (world_dispatch others n p d w)).
Proof.
  intros Hw. unfold world_dispatch, DispatchPublisher_dispatch, req_try_send, resp_upgrade,
    resp_drop_tx, modify, mbind, prog_bind.
  destruct (mpsc_try_send d (sh_req w)) as [r c] eqn:E. apply (op_publish d w r c E) in Hw.
  destruct r as [u|e]; simpl; [exact Hw|].
  destruct (mpsc_upgrade (sh_resp w)) as [c'|] eqn:U; simpl; [|exact Hw].
  apply (op_upgrade (set_req c w) c' U) in Hw. set (x := mk_dispatch_result _ _).
  assert (Hx : refused_result x) by (destruct e; [by right | by left]).
  apply (refuse_keeps n x _ Hx) in Hw. set (w1 := set_resp c' (set_req c w)) in *.
  destruct (resp_send others n x w1) as [r w2|w2|w2]; simpl in *; [by apply op_drop | done..].
Qed.

#[export] Instance ops_stable : Stable I.
Proof.
  split.
  - intros m w Hw. apply interfere_keeps in Hw. exact (op_send m _ Hw).
  - intros tok w Hw. apply interfere_keeps in Hw.
    change (env_stop_or_sleep tok w) with (world_stop_or_sleep others (others w)).
    unfold world_stop_or_sleep. destruct (rt_time _); [|done].
    destruct (cr_stopped _); [done|]. by apply interfere_keeps.
  - intros p d w Hw. apply interfere_keeps in Hw. exact (world_dispatch_keeps fuel p d _ Hw).
  - intros n w Hw. unfold rand_fill. simpl. unfold world_rng.
    destruct (rand_fill n (cr_rng (sh_rest w))) as [o r]. exact (op_rng r w Hw).
Qed.

End Ops.

(** What the actor has taken from its streams. *)
Lemma taken_op_stable {X} (obs : SysHost (App:=App) -> X) x :
  (forall t (w : W), obs (host (thread_steps send dispatch t w)) = obs (host w)) ->
  (forall l (w : W), obs (host (set_schedule l w)) = obs (host w)) ->
  OpStable (fun w : W => obs (host w) = x).
Proof.
  intros T S. split; intros; rewrite ?T, ?S; try done.
  - unfold world_send. by destruct (IOHandle_send m (cr_out (sh_rest w))).
  - by destruct r.
Qed.

#[export] Instance sys_actor_laws : ActorEnvLaws W.
Proof.
  refine {| acked w := sy_acked (host w); received w := sy_received (host w) |}.
  - intros x. apply ops_stable. apply (taken_op_stable sy_acked); [|done].
    intros t w. destruct (thread_aside t w) as (L & _). unfold actor_logs in L. by simplify_eq.
  - intros x. apply ops_stable. apply (taken_op_stable sy_received); [|done].
    intros t w. destruct (thread_aside t w) as (L & _). unfold actor_logs in L. by simplify_eq.
  - intros rx w. change (env_poll_response rx w) with (poll_response rx (others w)). logs_of w.
    unfold poll_response, response_poll_next, modify, mbind, prog_bind.
    destruct (mpsc_poll_recv (sh_resp (others w))) as [[[v|]|] c]; simpl; split_and!; try done; by f_equal.
  - intros rx w. change (env_poll_incoming rx w) with (poll_incoming (others w)). logs_of w.
    unfold poll_incoming.
    destruct (mpsc_poll_recv (sy_in (host (others w)))) as [[[v|]|] c]; simpl; split_and!; try done; by f_equal.
  - intros w. cbv zeta. change (final (env_suspend w)) with (others w). logs_of w. by split_and!.
  - done.
  - done.
  - done.
Defined.

End SystemLaws.

(** ** What a host call does to the channels *)

Section HostEffect.
Context `{ProtoTypes} `{!Prost} `{MpscLaws}.

(** A connection that was connected once. *)
Definition linked (c : FFIConnection) : Prop :=
  match fc_state c with Connected _ | Disconnected => True | Init | Configured _ _ => False end.

Definition in_queue (s : Sys) : list (result ServerToClient DecodingError) :=
  c_queue (mpsc_view (fr_ffi2lib (sh_rest s))).
Definition resp_queue {E} (s : Shared E) : list DispatchResult := c_queue (resp_view s).

(** Only the incoming and the response channel are written, with at most what is
    offered. *)
Definition host_effect (s s' : Sys) (offered : list (result ServerToClient DecodingError))
  (results : list DispatchResult) : Prop :=
  sh_req s' = sh_req s /\ fr_lib2ffi (sh_rest s') = fr_lib2ffi (sh_rest s) /\
  (exists k, in_queue s' = in_queue s ++ k /\ k `sublist_of` offered) /\
  (exists k, resp_queue s' = resp_queue s ++ k /\ k `sublist_of` results).

Definition call_effect (c : FFIConnection) (call : host_call) (s : Sys)
  (e : exec Sys (option FFIConnection)) : Prop :=
  match e with
  | Done c' s' => host_effect s s' (offered_by c call) (results_by c call) /\
      (forall c1, c' = Some c1 -> linked c1)
  | Panic s' | Blocked s' => host_effect s s' [] []
  end.

Lemma host_effect_same s s' off res :
  sh_req s' = sh_req s -> fr_lib2ffi (sh_rest s') = fr_lib2ffi (sh_rest s) ->
  in_queue s' = in_queue s -> resp_queue s' = resp_queue s -> host_effect s s' off res.
Proof.
  intros Q O I P. split_and!; [done | done |..]; exists []; rewrite app_nil_r;
    split; done || apply sublist_nil_l.
Qed.

Lemma recv_effect c data s : linked c ->
  call_effect c (Call_recv data) s
    ((_ ← rc_conn_recv false id 1 (Some c) (Some data); mret (Some c)) s).
Proof.
  intros L. unfold rc_conn_recv, recv_incoming, mbind, prog_bind. simpl.
  case_decide as D.
  { split; [by apply host_effect_same | by intros c1 [= <-]]. }
  destruct (fc_state c) as [|? ?|r|] eqn:E; unfold linked in L; rewrite E in L; try done; simpl.
  2: { split; [by apply host_effect_same | intros c1 [= <-]; unfold linked; by rewrite E]. }
  destruct (mpsc_poll_send _ (fr_ffi2lib (sh_rest s))) as [p q] eqn:P.
  apply mpsc_poll_send_queue in P. destruct data as [|b data]; [done|].
  destruct p as [[u|u]|]; simpl.
  - split; [|intros c1 [= <-]; unfold linked; by rewrite E].
    split_and!; [done | done | | exists []; rewrite app_nil_r; split; [done | apply sublist_nil_l]].
    exists [ServerToClient_try_from (b :: data)]. split; [exact P|]. unfold offered_by. rewrite E. reflexivity.
  - split; [|intros c1 [= <-]; unfold linked; by rewrite E].
    apply host_effect_same; try done. unfold in_queue. simpl. by rewrite P, app_nil_r.
  - apply host_effect_same; try done. unfold in_queue. simpl. by rewrite P, app_nil_r.
Qed.

(** Reporting a result. *)
Lemma result_effect c x s : linked c ->
  match handle_dispatch_result id 1 c x s with
  | Done _ s' => host_effect s s' [] (match fc_state c with Connected _ => [x] | _ => [] end)
  | Panic s' | Blocked s' => host_effect s s' [] []
  end.
Proof.
  intros L. unfold handle_dispatch_result, DispatchResponder_send_response, mbind, prog_bind.
  destruct (fc_state c) as [|? ?|r|]; simpl; try by apply host_effect_same.
  destruct (mpsc_poll_send x (sh_resp s)) as [p q] eqn:P. apply mpsc_poll_send_queue in P.
  destruct p as [[u|u]|]; simpl.
  - split_and!; [done | done | exists []; rewrite app_nil_r; split; [done | apply sublist_nil_l]|].
    exists [x]. split; [exact P | reflexivity].
  - apply host_effect_same; try done. unfold resp_queue, resp_view. simpl. by rewrite P, app_nil_r.
  - apply host_effect_same; try done. unfold resp_queue, resp_view. simpl. by rewrite P, app_nil_r.
Qed.

Lemma disconnect_effect c s io dt : linked c ->
  call_effect c Call_disconnected s
    ((r ← rc_conn_disconnected false (join_task io) (join_task dt) (Some c); mret (Some (fst r))) s).
Proof.
  intros L. unfold rc_conn_disconnected, set_disconnected, expect_joined, join_task, publish_event,
    mbind, prog_bind. simpl.
  destruct (fc_state c) as [|? ?|r|] eqn:E; unfold linked in L; rewrite E in L; try done; simpl.
  2: { split; [by apply host_effect_same | intros c1 [= <-]; unfold linked; by rewrite E]. }
  destruct io; [by apply host_effect_same|]. simpl. destruct dt; [by apply host_effect_same|]. simpl.
  destruct (fr_events_open (sh_rest s)); simpl; [|by apply host_effect_same].
  split; [|by intros c1 [= <-]].
  apply host_effect_same; try done.
  - unfold in_queue. simpl. by rewrite view_drop_tx.
  - unfold resp_queue, resp_view. simpl. by rewrite view_drop_tx.
Qed.

(** A call that the state of a linked connection refuses. *)
Lemma same_effect c call s c' : (forall c1, c' = Some c1 -> linked c1) ->
  call_effect c call s (Done c' s).
Proof. intros L. by split; [apply host_effect_same|]. Qed.

Lemma free_effect c s : linked c ->
  call_effect c Call_free s ((r ← rc_conn_free false (Some c); mret (fst r)) s).
Proof.
  intros L. unfold rc_conn_free, FFIConnection_free, publish_event, mbind, prog_bind. simpl.
  destruct (fc_state c) as [|? ?|r|] eqn:E; unfold linked in L; rewrite E in L; try done; simpl.
  - apply same_effect. intros c1 [= <-]. unfold linked. by rewrite E.
  - destruct (fr_events_open (sh_rest s)); simpl; [|by apply host_effect_same].
    split; [by apply host_effect_same | done].
Qed.

(** Lifting [result_effect] to the two calls that report results. *)
Lemma report_effect c call x s : linked c -> offered_by c call = [] ->
  results_by c call = match fc_state c with Connected _ => [x] | _ => [] end ->
  call_effect c call s ((handle_dispatch_result id 1 c x ;; mret (Some c)) s).
Proof.
  intros L O Rs. pose proof (result_effect c x s L) as F. unfold mbind, prog_bind.
  destruct (handle_dispatch_result id 1 c x s) as [[] s'|s'|s']; [|done..].
  split; [by rewrite O, Rs | by intros c1 [= <-]].
Qed.

Lemma host_step_effect c call s io dt : linked c ->
  call_effect c call s (host_step false id 1 (join_task io) (join_task dt) c call s).
Proof.
  intros L. assert (Refuse : forall ret : ConnRet, call_effect c call s
    ((r ← (r ← invalid_state false ret; mret (c, r)); mret (Some (fst r))) s)).
  { intros ret. by apply same_effect; intros c1 [= <-]. }
  assert (St : fc_state c = Disconnected \/ exists r, fc_state c = Connected r).
  { unfold linked in L. destruct (fc_state c); try done; eauto. }
  destruct call as [cb ud|h| |data|id data|id e|]; cbn [host_step].
  - unfold rc_conn_send_callback, set_send_callback. unfold mbind at 2, prog_bind at 2. simpl.
    case_decide; [by apply host_effect_same|].
    destruct St as [E|[r E]]; rewrite E; apply Refuse.
  - unfold rc_conn_connected, set_connected. unfold mbind at 2 3 4, prog_bind at 2 3 4. simpl.
    destruct (from_utf8 h) as [name|]; simpl; [|by apply host_effect_same].
    destruct St as [E|[r E]]; rewrite E; apply Refuse.
  - by apply disconnect_effect.
  - by apply recv_effect.
  - unfold rc_conn_dispatch_result. unfold mbind at 2 3, prog_bind at 2 3. simpl.
    case_decide as D; [by apply same_effect; intros c1 [= <-]|].
    destruct data as [|b data]; [done|].
    by apply report_effect; [done | unfold offered_by; destruct (fc_state c) |].
  - by apply report_effect; [done | unfold offered_by; destruct (fc_state c) |].
  - by apply free_effect.
Qed.

End HostEffect.

(** ** Nothing is lost, invented or reordered between the threads *)

Section Conserved.
Context {A B : Type} (P : A -> B -> Prop).

(** The channel holds [rest], unless it was closed and dropped it. *)
Definition chan_holds (c : chan A) (rest : list A) : Prop :=
  c_queue c = rest \/ (c_rx c = false /\ c_queue c = []).

(** Of what was accepted, a first part was taken, one call per element; the rest
    is in the channel. *)
Definition conserved (accepted : list A) (calls : list B) (c : chan A) : Prop :=
  exists taken rest, accepted = taken ++ rest /\ Forall2 P taken calls /\ chan_holds c rest.

Lemma conserved_same l k c c' :
  c_queue c' = c_queue c -> c_rx c' = c_rx c -> conserved l k c -> conserved l k c'.
Proof. intros Q X (t & r & E & F & Hc). exists t, r. unfold chan_holds. by rewrite Q, X. Qed.

Lemma conserved_push x l k c c' :
  c_queue c' = c_queue c ++ [x] -> c_rx c = true -> conserved l k c -> conserved (l ++ [x]) k c'.
Proof.
  intros Q X (t & r & -> & F & [Hc|[Hc _]]); [|congruence].
  exists t, (r ++ [x]). rewrite <- app_assoc. split_and!; [done | done | left; congruence].
Qed.

Lemma conserved_pop x y l k c c' :
  c_queue c = x :: c_queue c' -> P x y -> conserved l k c -> conserved l (k ++ [y]) c'.
Proof.
  intros Q Hy (t & r & -> & F & [Hc|[_ Hc]]); [|congruence].
  exists (t ++ [x]), (c_queue c'). rewrite <- app_assoc. simpl.
  split_and!; [congruence | by apply Forall2_app; [|constructor] | by left].
Qed.

Lemma conserved_close l k c c' :
  c_queue c' = [] -> c_rx c' = false -> conserved l k c -> conserved l k c'.
Proof. intros Q X (t & r & E & F & _). exists t, r. split_and!; [done | done | by right]. Qed.

Lemma conserved_fresh c : c_queue c = [] -> conserved [] [] c.
Proof. intros Q. exists [], []. by split_and!; [| |left]. Qed.

End Conserved.

Section Invariant.
Context `{ProtoTypes} `{!Prost} `{MpscLaws} {R App : Type} `{!Rng R} `{!RngLaws R}.
Context (send : list u8 -> N -> App -> SendRet * App)
  (dispatch : N -> list u8 -> N -> App -> DispatchRet * App) (fuel : nat).
Abbreviation W := (SysWorld (R:=R) (App:=App)).
#[local] Instance sys_conn' : ConnEnv W := sys_conn_env send dispatch fuel.
#[local] Instance sys_actor' : ActorEnv W := sys_actor_env send dispatch fuel.

(** Where a result in the response queue comes from: the host reported it, it is
    the error of a delivery the host refused, or the error of a request the queue
    refused. *)
Definition explained (h : SysHost (App:=App)) (x : DispatchResult) : Prop :=
  x ∈ sy_results h \/ x ∈ omap reported_as (sy_dispatch_calls h) \/ refused_result x.

Record sys_inv (w : W) : Prop := {
  inv_conn : forall c, sy_conn (host w) = Some c -> linked c;
  inv_requests : conserved dispatched_by (cr_queued (sh_rest w)) (sy_dispatch_calls (host w)) (req_view w);
  inv_outgoing : conserved call_for (cr_sent (sh_rest w)) (sy_send_calls (host w))
    (mpsc_view (cr_out (sh_rest w)));
  inv_incoming : sy_received (host w) ++ c_queue (mpsc_view (sy_in (host w)))
    `sublist_of` sy_offered (host w);
  inv_responses : Forall (explained (host w)) (sy_acked (host w) ++ resp_queue w);
  inv_report : forall x, sy_report (host w) = Some x -> explained (host w) x
}.

Lemma explained_grow (h h' : SysHost (App:=App)) x rs ds :
  sy_results h' = sy_results h ++ rs -> sy_dispatch_calls h' = sy_dispatch_calls h ++ ds ->
  explained h x -> explained h' x.
Proof.
  intros Er Ed [E|[E|E]]; unfold explained; rewrite Er, Ed.
  - left. apply elem_of_app. by left.
  - right. left. rewrite omap_app. apply elem_of_app. by left.
  - by right; right.
Qed.

Lemma host_calls_inv call w : sys_inv w -> sys_inv (host_calls call w).
Proof.
  intros V. unfold host_calls. destruct (sy_conn (host w)) as [c|] eqn:Ec; [|done].
  pose proof (host_step_effect c call (ffi_view w) (sy_io_live (host w)) (sy_dispatch_live (host w))
    (inv_conn w V c Ec)) as F.
  assert (G : forall s off res c', host_effect (ffi_view w) s off res ->
    (forall c1, c' = Some c1 -> linked c1) -> sys_inv (after_call c' off res (ffi_put s w))).
  { intros s off res c' (Q & O & (ki & I & Ki) & (kr & Rq & Kr)) L. destruct V as [_ V2 V3 V4 V5 V6].
    assert (M : forall x, explained (host w) x ->
      explained (host (after_call c' off res (ffi_put s w))) x).
    { intros x. apply (explained_grow _ _ x res []); [done|]. simpl. by rewrite app_nil_r. }
    split; simpl; [exact L | | | | |].
    - assert (E : req_view (after_call c' off res (ffi_put s w)) = req_view w)
        by (unfold req_view; simpl; by rewrite Q).
      rewrite E. exact V2.
    - rewrite O. exact V3.
    - change (c_queue (mpsc_view (fr_ffi2lib (sh_rest s)))) with (in_queue s).
      rewrite I, app_assoc. by apply sublist_app.
    - change (resp_queue _) with (resp_queue s). rewrite Rq, app_assoc.
      apply Forall_app. split; [by eapply Forall_impl|].
      apply Forall_forall. intros x Hx. left. apply elem_of_app. right. by eapply elem_of_sublist.
    - intros x Hx. by apply M, V6. }
  destruct (host_step _ _ _ _ _ _ _ _) as [c' s|s|s]; simpl in F;
    [destruct F; by apply G | by apply G |].
  apply G; [done|]. intros c1 [= <-]. by apply (inv_conn w V).
Qed.

(** Leaving a task closes its channel. *)
Lemma conserved_drop_rx {A B} (P : A -> B -> Prop) l k (c : mpsc A) :
  conserved P l k (mpsc_view c) -> conserved P l k (mpsc_view (mpsc_drop_rx c)).
Proof. apply conserved_close; by rewrite view_drop_rx. Qed.

Lemma io_iteration_conserves l (i : IoWorld App) :
  conserved call_for l (iw_calls i) (mpsc_view (iw_lib2ffi i)) ->
  conserved call_for l (iw_calls (final (io_task send id 1 i)))
    (mpsc_view (iw_lib2ffi (final (io_task send id 1 i)))).
Proof.
  intros C. simpl. unfold io_exit, io_poll_recv, call_send, modify, gets, mbind, prog_bind. simpl.
  destruct (iw_stop i); [by apply conserved_drop_rx|].
  destruct (mpsc_poll_recv (iw_lib2ffi i)) as [p c] eqn:E. apply mpsc_poll_recv_queue in E as [Q X].
  destruct p as [[m|]|]; simpl in *.
  - destruct (send _ _ _) as [ret a]. set (call := mk_send_call _ _ _).
    assert (C' : conserved call_for l (iw_calls i ++ [call]) (mpsc_view c))
      by by apply (conserved_pop _ m call _ _ _ _ Q).
    destruct ret; [done | by apply conserved_drop_rx..].
  - apply conserved_drop_rx. by apply (conserved_same _ _ _ _ _ (eq_sym Q) X).
  - by apply (conserved_same _ _ _ _ _ (eq_sym Q) X).
Qed.

Lemma io_polls_inv w : sys_inv w -> sys_inv (io_polls send w).
Proof.
  intros [V1 V2 V3 V4 V5 V6]. unfold io_polls. destruct (sy_io_live (host w)); [|by split].
  split; try done. by apply io_iteration_conserves.
Qed.

(** The dispatch task: requests are taken one by one, responses only added with
    an explanation. *)
Definition dispatch_ok (l : list Dispatch) (ok : DispatchResult -> Prop) (k : list dispatch_call)
  (q : list DispatchResult) (pending : option DispatchResult) (s : DtWorld (Hst:=App)) : Prop :=
  exists k' q', dt_calls (sh_rest s) = k ++ k' /\ resp_queue s = q ++ q' /\
    conserved dispatched_by l (k ++ k') (req_view s) /\ Forall ok q' /\
    (forall x, pending = Some x -> ok x \/ x ∈ omap reported_as k').

Lemma dispatch_iteration_ok l ok s :
  conserved dispatched_by l (dt_calls (sh_rest s)) (req_view s) ->
  match dispatch_iteration dispatch s with
  | Done (_, pending) s' => dispatch_ok l ok (dt_calls (sh_rest s)) (resp_queue s) pending s'
  | Panic _ | Blocked _ => False
  end.
Proof.
  intros C. unfold dispatch_iteration, dt_exit, DispatchStream_poll_next, call_dispatch, gets,
    modify, mbind, prog_bind. simpl.
  assert (Exit : forall c, conserved dispatched_by l (dt_calls (sh_rest s)) (mpsc_view c) ->
    dispatch_ok l ok (dt_calls (sh_rest s)) (resp_queue s) None
      (set_req (mpsc_drop_rx c) (set_resp (mpsc_drop_tx (sh_resp s)) s))).
  { intros c Cc. exists [], []. rewrite !app_nil_r. unfold req_view, resp_queue, resp_view. simpl.
    rewrite view_drop_tx. by split_and!; [| | apply conserved_drop_rx | |]. }
  destruct (dt_stop (sh_rest s)); [by apply Exit|].
  destruct (mpsc_poll_recv (sh_req s)) as [p c] eqn:E. apply mpsc_poll_recv_queue in E as [Q X].
  assert (Same : yielded p = None -> conserved dispatched_by l (dt_calls (sh_rest s)) (mpsc_view c)).
  { intros Y. rewrite Y in Q. by apply (conserved_same _ _ _ _ _ (eq_sym Q) X). }
  destruct p as [[d|]|]; simpl in *; [|by apply Exit, Same|].
  - destruct (dispatch _ _ _ _) as [ret a]. set (call := mk_dispatch_call _ _ _ ret).
    assert (Hc : dispatched_by d call) by done.
    exists [call], []. rewrite app_nil_r. split_and!; [done | done | | done |].
    + by apply (conserved_pop _ d call _ _ _ _ Q).
    + intros x. unfold omap, list_omap. rewrite reported_as_error. simpl.
      destruct (DispatchRet_error ret) as [e|]; simpl; [|done].
      intros [= <-]. right. destruct d as [[n] pl]. by left.
  - exists [], []. rewrite !app_nil_r. by split_and!; [| | apply Same | |].
Qed.

Lemma report_polls_ok l (ok : DispatchResult -> Prop) x (s : DtWorld (Hst:=App)) :
  conserved dispatched_by l (dt_calls (sh_rest s)) (req_view s) -> ok x ->
  match report_polls x s with
  | Done (_, pending) s' => dispatch_ok l ok (dt_calls (sh_rest s)) (resp_queue s) pending s'
  | Panic _ | Blocked _ => False
  end.
Proof.
  intros C Hx. unfold report_polls.
  destruct (mpsc_poll_send x (sh_resp s)) as [p c] eqn:E. apply mpsc_poll_send_queue in E.
  unfold dispatch_ok, resp_queue, resp_view.
  destruct p as [[u|u]|]; simpl; [exists [], [x] | exists [], [] | exists [], []];
    rewrite !app_nil_r in *.
  - by split_and!; [| | | constructor |].
  - rewrite view_drop_tx. by split_and!; [| | apply conserved_drop_rx | |].
  - split_and!; [done | done | done | done |]. intros y [= <-]. by left.
Qed.

Lemma dispatch_polls_inv w : sys_inv w -> sys_inv (dispatch_polls dispatch w).
Proof.
  intros V. unfold dispatch_polls. destruct (sy_dispatch_live (host w)); [|done].
  assert (G : match dispatch_step dispatch (sy_report (host w)) (dispatch_view w) with
    | Done (_, pending) s' => dispatch_ok (cr_queued (sh_rest w)) (explained (host w))
        (sy_dispatch_calls (host w)) (resp_queue w) pending s'
    | Panic _ | Blocked _ => False end).
  { destruct (sy_report (host w)) as [x|] eqn:E.
    - apply (report_polls_ok _ _ x (dispatch_view w)); [apply V | by apply (inv_report w V)].
    - apply (dispatch_iteration_ok _ _ (dispatch_view w)). apply V. }
  destruct (dispatch_step _ _ _) as [[live pending] s| |]; [|done..].
  destruct V as [V1 V2 V3 V4 V5 V6]. destruct G as (k & q & K & Q & C & Fq & Fp).
  assert (M : forall x, explained (host w) x -> explained (host (set_dispatch live pending s w)) x).
  { intros x. apply (explained_grow _ _ x [] k); simpl; [by rewrite app_nil_r | exact K]. }
  split; try done; simpl.
  - by rewrite K.
  - change (resp_queue _) with (resp_queue s). rewrite Q, app_assoc. apply Forall_app.
    split; by eapply Forall_impl.
  - intros x Hx. destruct (Fp x Hx) as [Hok|Hok]; [by apply M|].
    right. left. simpl. rewrite K, omap_app. apply elem_of_app. by right.
Qed.

(** *** The actor's operations *)

Lemma world_send_inv m w : sys_inv w -> sys_inv (final (world_send m w)).
Proof.
  intros [V1 V2 V3 V4 V5 V6]. unfold world_send, IOHandle_send.
  destruct (mpsc_try_send m (cr_out (sh_rest w))) as [r c] eqn:E.
  apply mpsc_try_send_queue in E as (Q & X & O).
  destruct r as [u|[]]; split; try done; simpl in *.
  - exact (conserved_push _ _ _ _ _ _ Q (O eq_refl) V3).
  - rewrite app_nil_r in Q. exact (conserved_same _ _ _ _ _ Q X V3).
  - rewrite app_nil_r in Q. exact (conserved_same _ _ _ _ _ Q X V3).
Qed.

(** A change of the response channel that only adds explained results. *)
Lemma set_resp_inv w c k : c_queue (mpsc_view c) = resp_queue w ++ k ->
  Forall (explained (host w)) k -> sys_inv w -> sys_inv (set_resp c w).
Proof.
  intros Q F [V1 V2 V3 V4 V5 V6]. split; try done. unfold resp_queue, resp_view. simpl.
  rewrite Q, app_assoc. apply Forall_app. by split.
Qed.

#[export] Instance sys_inv_op_stable : OpStable send dispatch sys_inv.
Proof.
  split.
  - intros [call| | | |n] w V; [by apply host_calls_inv | by apply io_polls_inv |
      by apply dispatch_polls_inv | by destruct V; split | by destruct V; split].
  - intros l w V. by destruct V; split.
  - apply world_send_inv.
  - intros d w r c E [V1 V2 V3 V4 V5 V6]. apply mpsc_try_send_queue in E as (Q & X & O).
    destruct r as [u|e]; split; try done; simpl in *.
    + exact (conserved_push _ _ _ _ _ _ Q (O eq_refl) V2).
    + rewrite app_nil_r in Q. exact (conserved_same _ _ _ _ _ Q X V2).
  - intros w c E V. apply (set_resp_inv w c []); [|done|done]. rewrite app_nil_r.
    apply mpsc_upgrade_view in E. unfold chan_upgrade in E. simpl in E.
    case_decide; simplify_eq. by rewrite E.
  - intros x w p c Hx E V. apply mpsc_poll_send_queue in E.
    eapply set_resp_inv; [exact E | | done]. destruct p as [[]|]; try done.
    constructor; [by right; right | done].
  - intros w V. apply (set_resp_inv w _ []); [|done|done]. by rewrite app_nil_r, view_drop_tx.
  - intros r w V. by destruct V; split.
Qed.

#[export] Instance sys_inv_actor_stable : ActorStable sys_inv.
Proof.
  split.
  - exact (ops_stable send dispatch fuel sys_inv).
  - intros rx w V. apply (interfere_keeps send dispatch sys_inv) in V.
    change (env_poll_response rx w) with (poll_response rx (interfere send dispatch w)).
    revert V. generalize (interfere send dispatch w). clear w. intros w [V1 V2 V3 V4 V5 V6].
    unfold poll_response, response_poll_next, modify, mbind, prog_bind.
    destruct (mpsc_poll_recv (sh_resp w)) as [p c] eqn:E. apply mpsc_poll_recv_queue in E as [Q _].
    split; try done. unfold resp_queue, resp_view in *. simpl in *. by rewrite <- app_assoc, <- Q.
  - intros rx w V. apply (interfere_keeps send dispatch sys_inv) in V.
    change (env_poll_incoming rx w) with (poll_incoming (interfere send dispatch w)).
    revert V. generalize (interfere send dispatch w). clear w. intros w [V1 V2 V3 V4 V5 V6].
    unfold poll_incoming. destruct (mpsc_poll_recv (sy_in (host w))) as [p c] eqn:E.
    apply mpsc_poll_recv_queue in E as [Q _]. split; try done. simpl in *. by rewrite <- app_assoc, <- Q.
  - intros w V. exact (interfere_keeps send dispatch sys_inv w V).
  - intros w V. by destruct V; split.
  - intros w V. exact V.
  - intros r f w V. by destruct V; split.
Qed.

End Invariant.

(** ** The start *)

Section Start.
Context `{ProtoTypes} `{!Prost} `{Mpsc} {R App : Type} `{!Rng R}.

(** A connection just connected ([c] and [s] as [rc_conn_connected] leaves them):
    both tasks run, and the main task starts the actor. *)
Definition sys_start (c : FFIConnection) (s : Sys) (rt : RuntimeBuilder) (metrics : InstanceMetrics)
  (rng : R) (app : App) (schedule : list (list thread_step)) : SysWorld :=
  let r := sh_rest s in
  mk_shared (sh_req s) (sh_resp s) (mk_conn_rest (fr_lib2ffi r) false rt metrics rng
    (mk_sys (Some c) (fr_events r) (fr_events_open r) (fr_ffi2lib r) (fr_io_stop r)
      (fr_dispatch_stop r) (fr_tasks r) true true None IOHandle_new 0 app schedule
      [] [] [] [] [] []) [] []).

End Start.

Section EndToEnd.
Context `{ProtoTypes} `{!Prost} `{AwsDigestLaws} `{UuidLib} `{MpscLaws} {R App V : Type}
  `{!Rng R} `{!RngLaws R}.

Lemma start_inv c0 name s0 c s rt metrics (rng : R) (app : App) schedule :
  rc_conn_connected false (Some c0) (Some name) s0 = Done (c, ConnRet_Success) s ->
  sys_inv (sys_start c s rt metrics rng app schedule).
Proof.
  unfold rc_conn_connected, set_connected. intros E.
  apply prog_bind_inv in E as (c1 & s1 & [= <- <-] & E).
  apply prog_bind_inv in E as (bs & s1 & [= <- <-] & E).
  destruct (from_utf8 name) as [h|]; [|discriminate E].
  apply prog_bind_inv in E as (h' & s1 & [= <- <-] & E).
  destruct (fc_state c0) as [|send ud|r|]; try discriminate E.
  apply prog_bind_inv in E as (u & s1 & [= <- <-] & E). cbv zeta in E.
  apply prog_bind_inv in E as (u1 & s1 & P & [= <- <-]).
  unfold publish_event in P. destruct (fr_events_open _); [|discriminate P]. injection P as _ <-.
  split.
  - by intros c1 [= <-].
  - apply conserved_fresh. exact (f_equal c_queue (view_channel _ _)).
  - apply conserved_fresh. exact (f_equal c_queue (view_channel _ _)).
  - change (c_queue (mpsc_view (mpsc_channel (T:=result ServerToClient DecodingError) QUEUE_BUFFER_LEN))
      `sublist_of` []). by rewrite view_channel.
  - change (Forall (explained (App:=App) (host (sys_start (R:=R) c0 s0 rt metrics rng app schedule)))
      (c_queue (mpsc_view (mpsc_clone_tx (mpsc_channel (T:=DispatchResult) (DISPATCH_QUEUE_LEN + 1)))))).
    rewrite view_clone_tx, view_channel. apply Forall_nil_2.
  - intros x E. discriminate E.
Qed.

(** What the host can observe of a run, explained by what it put in. *)
Definition end_to_end (h : SysHost (App:=App)) : Prop :=
  exists nonce hello l msgs acks dispatched delivered,
    nonce_wf nonce /\
    (hello = [] \/ exists ch, hello = [Hello ch] /\ ch_client_nonce ch = IdNonce_as_bytes nonce) /\
    msgs `sublist_of` sy_offered h /\ Forall (explained h) acks /\
    Forall2 dispatched_by dispatched (sy_dispatch_calls h) /\
    dispatched `sublist_of` forwarded (reactions (Phase_Handshaking nonce) msgs) /\
    (forall d, d ∈ dispatched -> exists before after id,
      msgs = before ++ after /\ acknowledged nonce before id /\ requested after d) /\
    Forall2 call_for delivered (sy_send_calls h) /\ delivered `prefix_of` hello ++ l /\
    List.filter is_response l `sublist_of` (response_for <$> acks) /\
    List.filter (negb ∘ is_response) l `sublist_of` replies (reactions (Phase_Handshaking nonce) msgs).

Lemma inv_end_to_end (w : SysWorld (R:=R) (App:=App)) nonce hello l k : sys_inv w -> nonce_wf nonce ->
  (hello = [] \/ exists ch, hello = [Hello ch] /\ ch_client_nonce ch = IdNonce_as_bytes nonce) ->
  cr_sent (sh_rest w) = hello ++ l -> cr_queued (sh_rest w) = k ->
  List.filter is_response l `sublist_of` (response_for <$> sy_acked (host w)) ->
  List.filter (negb ∘ is_response) l `sublist_of`
    replies (reactions (Phase_Handshaking nonce) (sy_received (host w))) ->
  k `sublist_of` forwarded (reactions (Phase_Handshaking nonce) (sy_received (host w))) ->
  end_to_end (host w).
Proof.
  intros [_ (taken & rest & Eq & Ft & _) (delivered & rest' & Es & Fd & _) Vi Vr _] Hn Hh S Q L1 L2 L3.
  exists nonce, hello, l, (sy_received (host w)), (sy_acked (host w)), taken, delivered.
  assert (taken `sublist_of` forwarded (reactions (Phase_Handshaking nonce) (sy_received (host w))))
    as Ls by (etrans; [|exact L3]; rewrite <- Q, Eq; apply sublist_inserts_r; reflexivity).
  split_and!; try done.
  - etrans; [|exact Vi]. apply sublist_inserts_r. reflexivity.
  - by apply Forall_app in Vr as [Vr _].
  - intros d Hd. apply handshake_reactions. by eapply elem_of_sublist.
  - rewrite <- S, Es. by apply prefix_app_r.
Qed.

(** C2. A connection end to end, over every interleaving of the host's calls,
    the two tasks and the actor: the requests the host's dispatch callback
    receives are, in order and at most once each, those that the reaction table
    forwards for messages the host handed in, in the order it handed them in, each
    of them after an acknowledgement whose identifier this client derived; the
    buffers its send callback receives are the encodings of at most one hello and
    then of the table's replies and of the dispatch responses, each response
    carrying a result the host reported, the error of a delivery it refused, or
    the error of a request the queue refused. *)
Theorem connection_end_to_end (send : list u8 -> N -> App -> SendRet * App)
  (dispatch : N -> list u8 -> N -> App -> DispatchRet * App) fuel n publisher info (v : V)
  c0 name s0 c s rt metrics (rng : R) (app : App) schedule
  (Connect : rc_conn_connected false (Some c0) (Some name) s0 = Done (c, ConnRet_Success) s) :
  end_to_end (host (final (run_new_actor (ConnEnv0:=sys_conn_env send dispatch fuel)
    (ActorEnv0:=sys_actor_env send dispatch fuel) fuel n tt tt publisher response_rx info v
    (sys_start c s rt metrics rng app schedule)))).
Proof.
  set (w := sys_start c s rt metrics rng app schedule).
  pose proof (start_inv c0 name s0 c s rt metrics rng app schedule Connect) as V0. fold w in V0.
  pose proof (preserves_run_new_actor (ConnEnv0:=sys_conn_env send dispatch fuel)
    (ActorEnv0:=sys_actor_env send dispatch fuel) sys_inv
    (ActorStable0:=sys_inv_actor_stable send dispatch fuel) fuel n tt tt publisher response_rx info v
    w V0) as V1.
  pose proof (run_new_actor_trace (ConnEnv0:=sys_conn_env send dispatch fuel)
    (ActorEnv0:=sys_actor_env send dispatch fuel) (ConnEnvLaws0:=sys_laws send dispatch fuel)
    (ActorEnvLaws0:=sys_actor_laws send dispatch fuel) fuel n tt tt publisher response_rx info v w) as T.
  cbv zeta in T.
  set (w1 := final _) in V1, T |- *. clearbody w1.
  destruct T as [(S & Q & _)|(nonce & h & hello & acks & msgs & l & k & Hn & Hh & Hhello & A & Rc & S & Q & L1 & L2 & L3)].
  - apply (inv_end_to_end w1 (mk_nonce (replicate 16 x01)) [] [] []);
      [exact V1 | reflexivity | by left | exact S | exact Q |..]; apply sublist_nil_l.
  - change (sy_acked (host w1) = acks) in A. change (sy_received (host w1) = msgs) in Rc.
    apply (inv_end_to_end w1 nonce hello l k); [exact V1 | done | | exact S | exact Q |..].
    + destruct Hhello as [->| ->]; eauto.
    + by rewrite A.
    + by rewrite Rc.
    + by rewrite Rc.
Qed.

End EndToEnd.

(** *** Witness *)

(** The host takes every buffer and refuses the second request. *)
Definition toy_host_send (_ : list u8) (_ : N) (k : nat) : SendRet * nat := (SendRet_Success, k).
Definition toy_host_dispatch (_ : N) (_ : list u8) (_ : N) (k : nat) : DispatchRet * nat :=
  (if decide (k = 0) then DispatchRet_Success else DispatchRet_UnknownPayload, S k).

Definition toy_configured : FFIConnection :=
  mk_ffi_connection 7%N (mk_dispatch_user_data 0%N) (Configured 8%N (mk_send_user_data 0%N)).

(** The acknowledgement of the nonce [byte_rng] gives, and two signed requests. *)
Definition toy_ack_bytes : list u8 :=
  x02 :: replicate 16 x07 ++ toy_v8 (take 16 (@sha256 toy_digest (replicate 16 x07 ++ replicate 16 x05))).
Definition toy_request_bytes (id : u8) : list u8 := x03 :: id :: replicate 16 x09 ++ [x2a].

Definition toy_schedule : list (list thread_step) :=
  [[Host_calls (Call_recv toy_ack_bytes)]; [];
   [Host_calls (Call_recv (toy_request_bytes x01)); Host_calls (Call_recv (toy_request_bytes x02))];
   []; []; [Io_polls; Dispatch_polls; Clock_ticks 9]; [];
   [Dispatch_polls; Host_calls (Call_dispatch_result 1 [x2a])]; []; []; [];
   [Dispatch_polls; Dispatch_polls]; []; []; [Io_polls; Io_polls]; []; []; [Io_polls; Main_cancels]].

Definition toy_run (c : FFIConnection) (s : @Sys toy_proto fifo_mpsc) :=
  host (final (@run_new_actor toy_proto toy_digest toy_uuid _
    (@sys_conn_env toy_proto toy_prost fifo_mpsc u8 nat byte_rng toy_host_send toy_host_dispatch 5)
    (@sys_actor_env toy_proto toy_prost fifo_mpsc u8 nat byte_rng toy_host_send toy_host_dispatch 5)
    unit 5 20 tt tt toy_publisher response_rx toy_info tt
    (@sys_start toy_proto fifo_mpsc u8 nat c s Ctx_runtime (InstanceMetrics_default toy_version) x05 0
      toy_schedule))).

Lemma connection_end_to_end_witness :
  match @rc_conn_connected toy_proto fifo_mpsc false (Some toy_configured) (Some [x61]) toy_sys with
  | Done (c, _) s =>
      length (sy_dispatch_calls (toy_run c s)) = 2 /\ length (sy_send_calls (toy_run c s)) = 3 /\
      @end_to_end toy_proto toy_prost toy_digest toy_uuid fifo_mpsc nat (toy_run c s)
  | _ => False
  end.
Proof.
  split; [vm_compute; reflexivity|]. split; [vm_compute; reflexivity|].
  exact (@connection_end_to_end toy_proto toy_prost toy_digest toy_digest_laws toy_uuid fifo_mpsc
    fifo_mpsc_laws u8 nat unit byte_rng byte_rng_laws toy_host_send toy_host_dispatch 5 20 toy_publisher
    toy_info tt toy_configured [x61] toy_sys _ _ Ctx_runtime (InstanceMetrics_default toy_version) x05 0
    toy_schedule eq_refl).
Defined.
