(* ===== verification/Shutdown.v ===== *)
(** * Freeing a context, with the actors it started

    Puts the worker of a context ([Ctx]) together with the actors of its
    connections ([System]): the main task joins the runs of the actors, each over
    the channels of its own connection and under a schedule of its own.  A
    cancelled actor ends, unless it waits in [DispatchPublisher::dispatch] for a
    slot of its own response queue; so freeing a context returns unless it meets
    such an actor. *)

From stdpp Require Import base option list strings.
From Stdlib Require Import Strings.Byte NArith ZArith Lia.
From S2P Require Import Prelude Utf8 Hash Certificate ConnectionId Codec TrustStore Mpsc Dispatch Runtime Fsm Actor Ffi FfiTasks World Entrypoint Ctx System.

(** ** A cancelled actor *)

Section Cancelled.
Context `{ProtoTypes} `{!Prost} `{AwsDigest} `{UuidLib} `{MpscLaws} {R App V : Type} `{!Rng R}.
Context (send : list u8 -> N -> App -> SendRet * App)
  (dispatch : N -> list u8 -> N -> App -> DispatchRet * App) (fuel : nat).
Abbreviation W := (SysWorld (R:=R) (App:=App)).
Abbreviation others := (interfere (R:=R) (App:=App) send dispatch).
#[local] Instance sd_conn : ConnEnv W := sys_conn_env send dispatch fuel.
#[local] Instance sd_actor : ActorEnv W := sys_actor_env send dispatch fuel.

(** The actor is cancelled, or will be while the schedule lasts. *)
Definition doomed (w : W) : Prop :=
  cr_stopped (sh_rest w) = true \/ Main_cancels ∈ concat (sy_schedule (host w)).

(** ... and at most [k] batches of other threads' steps are left. *)
Definition within (k : nat) (w : W) : Prop := doomed w /\ length (sy_schedule (host w)) <= k.

(** The actor is cancelled and waits for a slot of the response queue, which only
    the actor itself empties. *)
Definition waits_for_slot (w : W) : Prop :=
  cr_stopped (sh_rest w) = true /\ c_rx (resp_view w) = true /\ chan_full (resp_view w).

(** A run that ends in [Q], panics, or waits for a slot. *)
Definition ends {A} (Q : W -> Prop) (e : exec W A) : Prop :=
  match e with Done _ w' => Q w' | Panic _ => True | Blocked w' => waits_for_slot w' end.

Lemma ends_then_ends {A B} P Q (p : prog W A) (c : A -> prog W B) w :
  ends P (p w) -> (forall a w', P w' -> ends Q (c a w')) -> ends Q ((p ≫= c) w).
Proof. intros E K. unfold mbind, prog_bind. destruct (p w); [by apply K | done..]. Qed.

Lemma within_le k k' w : k <= k' -> within k w -> within k' w.
Proof. intros L [D S]. split; [done | lia]. Qed.

Lemma within_0 w : within 0 w -> cr_stopped (sh_rest w) = true.
Proof.
  intros [[S|M] L]; [done|]. destruct (sy_schedule (host w)); [|simpl in L; lia].
  by apply not_elem_of_nil in M.
Qed.

(** What neither cancels nor runs other threads. *)
Definition same_fate (w w' : W) : Prop :=
  cr_stopped (sh_rest w') = cr_stopped (sh_rest w) /\ sy_schedule (host w') = sy_schedule (host w).

Lemma within_same k w w' : same_fate w w' -> within k w -> within k w'.
Proof. intros [S E]. unfold within, doomed. by rewrite S, E. Qed.

(** *** The other threads *)

Lemma thread_schedule t (w : W) : sy_schedule (host (thread_steps send dispatch t w)) = sy_schedule (host w).
Proof.
  destruct t as [call| | | |n]; simpl; try done.
  - unfold host_calls. destruct (sy_conn (host w)) as [c|]; [|done]. by destruct (host_step _ _ _ _ _ _ _ _).
  - unfold io_polls. by destruct (sy_io_live (host w)).
  - unfold dispatch_polls. destruct (sy_dispatch_live (host w)); [|done].
    by destruct (dispatch_step dispatch (sy_report (host w)) (dispatch_view w)) as [[]| |].
Qed.

Lemma batch_fate batch (w : W) : let w' := foldl (fun w t => thread_steps send dispatch t w) w batch in
  sy_schedule (host w') = sy_schedule (host w) /\
  (cr_stopped (sh_rest w) = true \/ Main_cancels ∈ batch -> cr_stopped (sh_rest w') = true).
Proof.
  revert w. induction batch as [|t batch IH]; intros w; simpl.
  { split; [done|]. intros [S|M]; [done | by apply not_elem_of_nil in M]. }
  destruct (IH (thread_steps send dispatch t w)) as [E S]. split; [by rewrite E, thread_schedule|].
  intros D. apply S. destruct D as [D|[<-|M]%elem_of_cons]; [left | by left | by right].
  by apply (thread_aside send dispatch t w).
Qed.

Lemma others_within k w : within k w -> within (pred k) (others w).
Proof.
  intros [D L]. unfold interfere. destruct (sy_schedule (host w)) as [|batch rest] eqn:E.
  { split; [exact D|]. rewrite E. simpl. lia. }
  destruct (batch_fate batch (set_schedule rest w)) as [Es S].
  change (sy_schedule (host (set_schedule rest w))) with rest in Es.
  split; [|rewrite Es; simpl in L; lia]. unfold doomed in *. rewrite Es. rewrite E in D. simpl in D.
  destruct D as [D|[M|M]%elem_of_app]; [left; apply S; by left | left; apply S; by right | by right].
Qed.

Lemma others_idle w : sy_schedule (host w) = [] -> others w = w.
Proof. intros E. unfold interfere. by rewrite E. Qed.

(** *** The operations of the actor *)

Lemma send_within k m w : within k w -> exists r w', env_send m w = Done r w' /\ within (pred k) w'.
Proof.
  intros Hw. apply others_within in Hw. change (env_send m w) with (world_send m (others w)).
  unfold world_send. destruct (IOHandle_send m (cr_out (sh_rest (others w)))) as [r c].
  eexists _, _. split; [reflexivity|]. by eapply within_same; [|exact Hw].
Qed.

Lemma stop_within k tok w : within k w -> match env_stop_or_sleep tok w with
  | Done b w' => within (pred k) w' /\ (k = 0 -> b = true)
  | Panic _ => True
  | Blocked _ => False
  end.
Proof.
  intros Hw. apply others_within in Hw.
  change (env_stop_or_sleep tok w) with (world_stop_or_sleep others (others w)). unfold world_stop_or_sleep.
  destruct (rt_time _); [|done]. destruct (cr_stopped (sh_rest (others w))) eqn:S; [done|].
  split; [eapply within_le; [|by apply others_within]; lia|]. intros ->. by rewrite (within_0 _ Hw) in S.
Qed.

Lemma retry_ends k n m tok w : within k w -> k < n -> ends (within k) (retry_send n m tok w).
Proof.
  revert k w. induction n as [|n IH]; intros k w Hw L; [lia|]. simpl.
  destruct (send_within k m w Hw) as (r & w1 & E & Hw1). rewrite (prog_bind_done _ _ _ _ _ E).
  assert (Hw1' : within k w1) by (eapply within_le; [|exact Hw1]; lia).
  assert (Again : ends (within k) ((stopped ← env_stop_or_sleep tok;
    if (stopped : bool) then mret tt else retry_send n m tok) w1)).
  { pose proof (stop_within _ tok w1 Hw1) as S. unfold mbind, prog_bind.
    destruct (env_stop_or_sleep tok w1) as [b w2|w2|w2]; [|done..]. destruct S as [Hw2 Z].
    assert (Hw2' : within k w2) by (eapply within_le; [|exact Hw2]; lia).
    destruct b; [exact Hw2'|]. destruct k as [|k]; [by specialize (Z eq_refl)|].
    pose proof (IH k w2) as J. destruct (retry_send n m tok w2); simpl in *; [|done|]; [|apply J; [|lia]].
    - eapply within_le; [|apply J; [|lia]]; [lia|]. eapply within_le; [|exact Hw2]. simpl. lia.
    - eapply within_le; [|exact Hw2]. simpl. lia. }
  destruct r as [[]|[]]; [exact Hw1' | exact Again | exact Hw1' | exact Again].
Qed.

(** The wait for a slot, once nobody else acts. *)
Lemma slot_idle n x w : sy_schedule (host w) = [] -> waits_for_slot w ->
  ends (fun _ => False) (resp_send others n x w).
Proof.
  revert w. induction n as [|n IH]; intros w E (S & Rx & F); [done|]. simpl.
  destruct (mpsc_poll_send x (sh_resp w)) as [p c] eqn:P. apply mpsc_poll_send_view in P.
  fold (resp_view w) in P. unfold chan_poll_send in P. rewrite Rx, decide_True in P by done.
  injection P as <- Vw. rewrite (others_idle (set_resp c w) E). apply IH; [exact E|]. unfold waits_for_slot, resp_view. simpl.
  rewrite <- Vw. by split_and!.
Qed.

Lemma slot_ends k n x w : within k w -> k < n -> ends (within k) (resp_send others n x w).
Proof.
  revert k w. induction n as [|n IH]; intros k w Hw L; [lia|]. simpl.
  destruct (mpsc_poll_send x (sh_resp w)) as [p c] eqn:P. apply mpsc_poll_send_view in P.
  fold (resp_view w) in P.
  assert (Hc : within k (set_resp c w)) by (by eapply within_same; [|exact Hw]).
  destruct p as [r|]; [exact Hc|]. apply others_within in Hc.
  destruct k as [|k].
  - unfold chan_poll_send in P. destruct (c_rx (resp_view w)) eqn:Rx; [|done].
    case_decide as F; [|done]. injection P as Vw.
    assert (Es : sy_schedule (host w) = []) by (apply length_zero_iff_nil; destruct Hw; lia).
    rewrite (others_idle (set_resp c w) Es) in *. pose proof (slot_idle n x (set_resp c w) Es) as J.
    destruct (resp_send others n x (set_resp c w)); [destruct J | done | apply J];
      (split_and!; [by apply within_0 | unfold resp_view; simpl; by rewrite <- Vw | unfold resp_view; simpl; by rewrite <- Vw]).
  - pose proof (IH k _ Hc) as J. destruct (resp_send others n x _); simpl in *; [|done | apply J; lia].
    eapply within_le; [|apply J; lia]. lia.
Qed.

Lemma dispatch_ends k p d w : k < fuel -> within k w -> ends (within k) (env_dispatch p d w).
Proof.
  intros L Hw. apply others_within in Hw.
  change (env_dispatch p d w) with (world_dispatch others fuel p d (others w)).
  assert (Hw0 : within k (others w)) by (eapply within_le; [|exact Hw]; lia). clear Hw. revert Hw0.
  generalize (others w). clear w. intros w Hw.
  unfold world_dispatch, DispatchPublisher_dispatch, req_try_send, resp_upgrade, resp_drop_tx, modify, mbind,
    prog_bind.
  destruct (mpsc_try_send d (sh_req w)) as [[[]|e] c]; simpl; [by eapply within_same; [|exact Hw]|].
  destruct (mpsc_upgrade (sh_resp w)) as [c'|]; simpl; [|by eapply within_same; [|exact Hw]].
  set (x := mk_dispatch_result _ _). pose proof (slot_ends k fuel x (set_resp c' (set_req c w))) as J.
  destruct (resp_send others fuel x _) as [r w2|w2|w2]; simpl in *; [|done|].
  - eapply within_same; [|apply J; [|done]]; [done|]. by eapply within_same; [|exact Hw].
  - apply J; [|done]. by eapply within_same; [|exact Hw].
Qed.

Lemma nonce_ends k w : within k w -> ends (within k) (IdNonce_default w).
Proof.
  intros Hw. unfold IdNonce_default, rand_fill. simpl. unfold world_rng.
  destruct (rand_fill 16 (cr_rng (sh_rest w))) as [[bs|] r]; [|done].
  case_decide; [done|]. by eapply within_same; [|exact Hw].
Qed.

(** *** The actor *)

Lemma reply_ends {A} k m tok (a : A) w : k < fuel -> within k w -> ends (within k) ((retry_send fuel m tok ;; mret a) w).
Proof. intros L Hw. eapply ends_then_ends; [by apply retry_ends | done]. Qed.

Lemma process_ends k (s : State (V:=V)) msg w : k < fuel -> within k w ->
  ends (within k) (MessageDelegate_process_impl fuel s msg w).
Proof.
  intros L Hw. destruct s as [f|f|f|f], msg as [[|certs|id payload sig|u|d]|e];
    cbn [MessageDelegate_process_impl State_process State_protocol_error PreHandshake_process
         Handshaking_process Active_process Error_process]; try done; try (by apply reply_ends).
  - eapply ends_then_ends; [by apply nonce_ends|]. intros p w1 Hw1. eapply ends_then_ends.
    { unfold of_panics. by destruct (Handshaking_verify u (hs_nonce (fsm_state f))) as [r|];
        [exact (Hw1 : ends (within k) (Done r w1)) |]. }
    intros [id|er] w2 Hw2; [done | by apply reply_ends].
  - unfold Active_handle_dispatch. destruct sig as [[cert_id [|b sig]]|]; try (by apply reply_ends).
    destruct (CertId.CertId_try_from cert_id); [|by apply reply_ends].
    eapply ends_then_ends; [by apply dispatch_ends | done].
Qed.

Lemma hello_ends k (f : Fsm (V:=V) PreHandshake) w : k < fuel -> within k w ->
  ends (within k) (MessageDelegate_send_hello fuel (mk_delegate (State_PreHandshake f)) w).
Proof.
  intros L Hw. unfold MessageDelegate_send_hello, State_send_hello, PreHandshake_send_hello, build_hello.
  eapply (ends_then_ends (within k)); [|done]. eapply (ends_then_ends (within k)).
  - eapply ends_then_ends; [by apply nonce_ends|]. intros n w1 Hw1. exact Hw1.
  - intros [n h] w1 Hw1. by apply reply_ends.
Qed.

Lemma loop_ends k n rx st (self : ConnectionActor (V:=V)) w : within k w -> k < fuel -> k < n ->
  ends (fun _ => True) (actor_loop fuel n rx st self w).
Proof.
  revert k self w. induction n as [|n IH]; intros k self w Hw L Ln; [lia|]. cbn [actor_loop].
  unfold gets, mbind at 1, prog_bind at 1. cbv beta iota.
  destruct (actor_stopped (ca_stop self) w) eqn:S; [done|].
  destruct k as [|k]; [by pose proof (within_0 w Hw) as Z; unfold actor_stopped in S; simpl in S; rewrite Z in S|].
  apply others_within in Hw. cbn [pred] in Hw.
  assert (Next : forall self w', within k w' -> ends (fun _ => True) (actor_loop fuel n rx st self w'))
    by (intros; apply (IH k); [done | lia..]).
  eapply (ends_then_ends (within k)).
  { change (env_poll_response rx w) with (poll_response rx (others w)).
    unfold poll_response, response_poll_next, modify, mbind, prog_bind.
    destruct (mpsc_poll_recv (sh_resp (others w))) as [p c]. by eapply within_same; [|exact Hw]. }
  intros [[v|]|] w1 Hw1; [|done|].
  - eapply ends_then_ends; [apply (retry_ends k); [exact Hw1 | lia]|]. intros _ w2 Hw2. by apply Next.
  - eapply (ends_then_ends (within k)).
    { change (env_poll_incoming st w1) with (poll_incoming (others w1)). unfold poll_incoming.
      apply others_within in Hw1. destruct (mpsc_poll_recv (sy_in (host (others w1)))) as [p c].
      eapply within_le; [|by eapply within_same; [|exact Hw1]]. lia. }
    intros [[u|]|] w2 Hw2; [|done|].
    + eapply (ends_then_ends (within k)); [|intros self' w3 Hw3; by apply Next].
      unfold server_message, MessageDelegate_process. eapply ends_then_ends; [|intros d w3 Hw3; exact Hw3].
      eapply ends_then_ends; [apply (process_ends k); [lia | exact Hw2] | intros s' w3 Hw3; exact Hw3].
    + eapply (ends_then_ends (within k)); [|intros _ w3 Hw3; by apply Next].
      change (within k (others w2)). apply others_within in Hw2. eapply within_le; [|exact Hw2]. lia.
Qed.

(** A cancelled actor ends, or waits for a slot. *)
Lemma cancelled_actor_ends k n publisher info (v : V) w : within k w -> k < fuel -> k < n ->
  ends (fun _ => True) (run_new_actor fuel n tt tt publisher response_rx info v w).
Proof.
  intros Hw L Ln. unfold run_new_actor, ConnectionActor_run.
  eapply (ends_then_ends (within k)); [exact Hw|]. intros start w1 Hw1.
  eapply (ends_then_ends (fun _ => True)); [|intros _ w2 _; by eapply (ends_then_ends (fun _ => True))].
  unfold run_loop. eapply (ends_then_ends (within k)); [exact Hw1|]. intros rx w2 Hw2.
  eapply (ends_then_ends (within k)); [by eapply within_same; [|exact Hw2]|]. intros st w3 Hw3.
  eapply (ends_then_ends (within k)); [by destruct st|]. intros incoming w4 Hw4.
  eapply (ends_then_ends (within k)); [by apply hello_ends|]. intros d w5 Hw5. by apply (loop_ends k).
Qed.

End Cancelled.

(** ** The actors of a context *)

Section Actors.
Context `{ProtoTypes} `{!Prost} `{AwsDigest} `{UuidLib} `{Mpsc} {R App V : Type} `{!Rng R}.
Context (send : list u8 -> N -> App -> SendRet * App)
  (dispatch : N -> list u8 -> N -> App -> DispatchRet * App).

(** A connection when its actor is spawned: its publisher, its channels, tasks
    and host, and what they do before and after the main task cancels the
    actor. *)
Record connection : Type := mk_connection {
  cn_publisher : DispatchPublisher;
  cn_world : SysWorld (R:=R) (App:=App);
  cn_before : list (list thread_step);
  cn_after : list (list thread_step)
}.

(** The actor's run; one poll more than the schedule has batches is enough, since
    every poll is followed by a batch. *)
Definition actor_run (info : AppInfo) (v : V) (cancelled : bool) (c : connection) :
  exec (SysWorld (R:=R) (App:=App)) () :=
  let schedule := cn_before c ++ (if cancelled then [[Main_cancels]] else []) ++ cn_after c in
  let n := S (length schedule) in
  run_new_actor (ConnEnv0:=sys_conn_env send dispatch n) (ActorEnv0:=sys_actor_env send dispatch n) n n tt tt
    (cn_publisher c) response_rx info v (set_schedule schedule (cn_world c)).

(** What [task.await] gives for the actor of connection [t]. *)
Definition actor_result (info : AppInfo) (v : V) (conns : nat -> connection) (t : nat) (cancelled : bool)
  (_ : ()) : option (result () JoinError) :=
  match actor_run info v cancelled (conns t) with
  | Done _ _ => Some (Ok tt)
  | Panic _ => Some (Err mk_join_error)
  | Blocked _ => None
  end.

End Actors.

Lemma actor_result_none `{ProtoTypes} `{!Prost} `{AwsDigest} `{UuidLib} `{MpscLaws} {R App V : Type} `{!Rng R}
  send dispatch info (v : V) (conns : nat -> connection (R:=R) (App:=App)) t :
  actor_result send dispatch info v conns t true tt = None ->
  exists w, actor_run send dispatch info v true (conns t) = Blocked w /\ waits_for_slot w.
Proof.
  assert (J : ends (fun _ => True) (actor_run send dispatch info v true (conns t))).
  { unfold actor_run. set (l := _ ++ _ ++ _).
    apply (cancelled_actor_ends send dispatch (S (length l)) (length l)); [|lia..]. split; [right|done].
    change (sy_schedule (host (set_schedule l (cn_world (conns t))))) with l. unfold l.
    rewrite !concat_app. apply elem_of_app. right. by left. }
  unfold actor_result. destruct (actor_run _ _ _ _ _ _) as [u w|w|w]; [done..|]. intros _. by exists w.
Qed.

(** ** Properties *)

Section FreeProperties.
Context `{ProtoTypes} `{!Prost} `{AwsDigest} `{UuidLib} `{MpscLaws} `{TokenLaws} `{X509Lib}
  {R App K : Type} `{!Rng R}.
Context (send : list u8 -> N -> App -> SendRet * App)
  (dispatch : N -> list u8 -> N -> App -> DispatchRet * App).
Abbreviation CW := (CtxWorld (C:=())).
Context (main_send : ClientToServer -> prog CW (result () ConnectionErr)) (main_stop : token -> prog CW bool)
  (main_dispatch : DispatchPublisher -> Dispatch -> prog CW (result () DispatchError))
  (main_rng : Rng CW) (main_metrics : CW -> InstanceMetrics)
  (r1_pem r2_pem : list u8) (cache_new : N -> K).

(** C9. Freeing a context returns, or meets one deadlock.  Whatever connections
    the host created, whatever events it published and released or not released
    before, in any interleaving with the main task, with any choice of [select!]
    and with the actor of each connection run over its channels in any
    interleaving with the host's calls and the connection's tasks: the worker
    ends after the shutdown signal, every connection it had started has then been
    cancelled and awaited, and the signal is set.  The one exception is that it
    waits for an actor which it has cancelled and which is waiting for a slot of
    its own full response queue, that only this actor empties. *)
Theorem ctx_free_returns n name version s choices acts (conns : nat -> connection (R:=R) (App:=App)) r1 r2
  (Name : utf8_valid name = true) (Version : utf8_valid version = true)
  (R1 : load_root r1_pem = Some r1) (R2 : load_root r2_pem = Some r2)
  (Streams : Forall (Forall (fun a => match a with Publish e => has_stream e | _ => True end)) acts)
  (Fuel : sum_list (publishes <$> acts) < n) :
  let store := TrustStore_new [r1; r2] (cache_new APPROX_MAX_CACHE_BYTES) in
  exists main, rc_init (Some name) (Some version) = Some main /\
    let e := Ctx_worker main_send main_stop main_dispatch main_rng main_metrics
      (actor_result send dispatch (main_app_info main) store conns) r1_pem r2_pem cache_new n main
      (Ctx_new s choices acts tt) in
    (exists w' g, e = Done tt w' /\ audit ledger_init (cw_trace w') = Some g /\ lg_live g = [] /\
       shut w' = true) \/
    (exists w' t k w, e = Blocked w' /\ Spawned t k ∈ cw_trace w' /\ Cancelled k ∈ cw_trace w' /\
       actor_run send dispatch (main_app_info main) store true (conns t) = Blocked w /\ waits_for_slot w).
Proof.
  intros store. set (info := AppInfo_new (AppName_from (String.string_of_list_byte name))
    (AppVersion_from (String.string_of_list_byte version))).
  destruct (worker_returns main_send main_stop main_dispatch main_rng main_metrics
    (actor_result send dispatch info store conns) r1_pem r2_pem cache_new n name version s choices acts tt)
    as (main & Init & D); [done | done | by eexists | by eexists | done | done |].
  exists main. split; [exact Init|].
  assert (main = Main_new info) as ->.
  { revert Init. unfold rc_init, from_utf8. simpl. rewrite Name. simpl. rewrite Version. by intros [= <-]. }
  destruct D as [D|(w' & t & E & k & Sp & Ca & N)]; [by left|]. right.
  destruct (cw_conns w'). apply actor_result_none in N as (w & Ew & Wt). by exists w', t, k, w.
Qed.

End FreeProperties.

(** *** Witness *)

(** Every connection is acknowledged and gets requests before it is cancelled,
    and the host goes on afterwards. *)
Definition toy_connection (_ : nat) : @connection toy_proto fifo_mpsc u8 nat :=
  @mk_connection toy_proto fifo_mpsc u8 nat toy_publisher
    (@sys_start toy_proto fifo_mpsc u8 nat toy_configured toy_sys Ctx_runtime (InstanceMetrics_default toy_version)
      x05 0 [])
    (take 8 toy_schedule) [[Io_polls; Dispatch_polls]; [Clock_ticks 9]].

Definition toy_root : @RootCertificate toy_lib :=
  default (@RootCertificate_from_trusted_cert toy_lib (toy_certificate x01 x02))
    (@load_root toy_digest toy_lib [x01; x02; x01]).

Definition toy_main : Main := Main_new (AppInfo_new (AppName_from "a") (AppVersion_from "1")).

Lemma toy_actor_ends (v : @TrustStore toy_lib ()) t :
  completed (@actor_run toy_proto toy_prost toy_digest toy_uuid fifo_mpsc u8 nat _ byte_rng toy_host_send
    toy_host_dispatch (main_app_info toy_main) v true (toy_connection t)) = true.
Proof. vm_compute. reflexivity. Qed.

Lemma ctx_free_returns_witness :
  exists main w' g, rc_init (Some [x61]) (Some [x31]) = Some main /\
    @Ctx_worker toy_proto toy_digest toy_uuid toy_tokens toy_lib () ()
      (fun _ w => Done (Ok tt) w) (fun _ w => Done false w) (fun _ _ w => Done (Ok tt) w)
      (fun k w => (Some (replicate k x05), w)) (fun _ => InstanceMetrics_default toy_version)
      (@actor_result toy_proto toy_prost toy_digest toy_uuid fifo_mpsc u8 nat _ byte_rng toy_host_send
        toy_host_dispatch (main_app_info main) (TrustStore_new [toy_root; toy_root] tt) toy_connection)
      [x01; x02; x01] [x01; x02; x01] (fun _ => tt) 4 main
      (@Ctx_new toy_tokens () [] [true] toy_host tt) = Done tt w' /\
    audit ledger_init (cw_trace w') = Some g /\ lg_live g = [] /\ shut w' = true.
Proof.
  destruct (@ctx_free_returns toy_proto toy_prost toy_digest toy_uuid fifo_mpsc fifo_mpsc_laws toy_tokens
    toy_token_laws toy_lib u8 nat () byte_rng toy_host_send toy_host_dispatch
    (fun _ w => Done (Ok tt) w) (fun _ w => Done false w) (fun _ _ w => Done (Ok tt) w)
    (fun k w => (Some (replicate k x05), w)) (fun _ => InstanceMetrics_default toy_version)
    [x01; x02; x01] [x01; x02; x01] (fun _ => tt) 4 [x61] [x31] [] [true] toy_host toy_connection
    toy_root toy_root) as (main & Init & [(w' & g & E & P)|(w' & t & k & w & _ & _ & _ & B & _)]).
  - reflexivity.
  - reflexivity.
  - vm_compute. reflexivity.
  - vm_compute. reflexivity.
  - repeat constructor; discriminate.
  - apply le_n.
  - exists main, w', g. split; [exact Init|]. split; [exact E | exact P].
  - exfalso. assert (main = toy_main) as -> by (injection Init as <-; reflexivity).
    pose proof (toy_actor_ends (TrustStore_new [toy_root; toy_root] tt) t) as C. rewrite B in C. discriminate C.
Defined.
