(* ===== verification/Symbolic.v ===== *)
(** * Symbolic execution of programs

    A rule per construct for runs of a program that are known to complete: the
    state is known only through a view of it, and the rules carry the view
    through the program.  The files that run whole tests ([Harness], [Delivery])
    add a rule per operation of theirs. *)

From stdpp Require Import base option list.
From S2P Require Import Prelude.

Section Symbolic.
Context {W X : Type} (view : W -> X).

(** From every state that looks like [v], [p] completes with [Q]. *)
Definition runs_on {A} (p : prog W A) (v : X) (Q : A -> X -> Prop) : Prop :=
  forall w, view w = v -> exists a w', p w = Done a w' /\ Q a (view w').

Lemma runs_ret {A} (a : A) v (Q : A -> X -> Prop) : Q a v -> runs_on (mret a) v Q.
Proof. intros HQ w <-. by exists a, w. Qed.

Lemma runs_bind {A B} (p : prog W A) (k : A -> prog W B) v Q :
  runs_on p v (fun a v' => runs_on (k a) v' Q) -> runs_on (p ≫= k) v Q.
Proof.
  intros P w E. destruct (P w E) as (a & w1 & E1 & K). destruct (K w1 eq_refl) as (b & w2 & E2 & HQ).
  exists b, w2. by rewrite (prog_bind_done _ _ _ _ _ E1).
Qed.

Lemma runs_some {A} (o : option A) a v (Q : A -> X -> Prop) :
  o = Some a -> Q a v -> runs_on (of_panics o) v Q.
Proof. intros -> HQ w <-. by exists a, w. Qed.

Lemma runs_gets {A} (f : W -> A) (g : X -> A) v (Q : A -> X -> Prop) :
  (forall w, f w = g (view w)) -> Q (g v) v -> runs_on (gets f) v Q.
Proof. intros E HQ w <-. exists (f w), w. split; [done|]. by rewrite E. Qed.

Lemma runs_gets_any {A} (f : W -> A) v (Q : A -> X -> Prop) :
  (forall a, Q a v) -> runs_on (gets f) v Q.
Proof. intros HQ w <-. by exists (f w), w. Qed.

Lemma runs_modify (f : W -> W) (g : X -> X) v (Q : () -> X -> Prop) :
  (forall w, view (f w) = g (view w)) -> Q tt (g v) -> runs_on (modify f) v Q.
Proof. intros E HQ w <-. exists tt, (f w). split; [done|]. by rewrite E. Qed.

Lemma runs_assert b v (Q : () -> X -> Prop) : b = true -> Q tt v -> runs_on (assert b) v Q.
Proof. intros -> HQ. by apply runs_ret. Qed.

Lemma runs_weaken {A} (p : prog W A) v (P Q : A -> X -> Prop) :
  runs_on p v P -> (forall a v', P a v' -> Q a v') -> runs_on p v Q.
Proof. intros R K w E. destruct (R w E) as (a & w' & Ep & HP). exists a, w'. auto. Qed.

End Symbolic.

Arguments runs_ret {W X view A} a v Q.
Arguments runs_bind {W X view A B} p k v Q.
Arguments runs_some {W X view A} o a v Q.
Arguments runs_gets {W X view A} f g v Q.
Arguments runs_gets_any {W X view A} f v Q.
Arguments runs_modify {W X view} f g v Q.
Arguments runs_assert {W X view} b v Q.
Arguments runs_weaken {W X view A} p v P Q.
