(* ===== verification/Delivery.v ===== *)
(** * Delivery of arbitrary messages to the client

    Models the fuzz target
    [rc-x509-client/fuzz/fuzz_targets/message_delivery.rs]: the main task starts
    a connection actor on a transport that yields a fixed list of messages and
    accepts everything that is sent; when all messages have been read the
    library is shut down and awaited.  The fuzzer tries some lists; the theorem
    is about all of them.  Where the fuzzing build accepts every connection
    identifier the code here verifies it, and the list may contain the right
    one.

    The runtime is current-thread: the spawned actor runs when the main task
    next waits, and neither has an effect on the other until then, so it is run
    where it is spawned. *)

From stdpp Require Import base option list strings.
From Stdlib Require Import Strings.Byte NArith ZArith Lia.
From S2P Require Import Prelude Hash Certificate ConnectionId Codec TrustStore Mpsc Dispatch Runtime Fsm Actor Ffi Entrypoint Symbolic.

Section Delivery.
Context `{ProtoTypes} `{AwsDigest} `{UuidLib} `{X509Lib} `{Mpsc} {R C : Type} `{!Rng R}.

(** ** State *)

(** The message stream and whether the transport still holds it; whether [done]
    was signalled; the event channel; the shutdown signal and the connection's
    token; the metrics and the generator; how the actors ended; what was
    sent. *)
Record FuzzRest : Type := mk_fuzz {
  fz_msgs : list ServerToClient;
  fz_from_server : bool;
  fz_done : bool;
  fz_events : list ConnectionEvent;
  fz_shutdown : bool;
  fz_stop : bool;
  fz_metrics : InstanceMetrics;
  fz_rng : R;
  fz_joined : list (result () JoinError);
  fz_sent : list ClientToServer
}.

Definition FuzzWorld : Type := Shared FuzzRest.
Definition fz (w : FuzzWorld) : FuzzRest := sh_rest w.
Definition set_fz (f : FuzzRest -> FuzzRest) (w : FuzzWorld) : FuzzWorld :=
  mk_shared (sh_req w) (sh_resp w) (f (sh_rest w)).

(** ** [FuzzIO] and [MessageStream] *)

(** [FuzzIO::send]. *)
Definition FuzzIO_send (payload : ClientToServer) : prog FuzzWorld (result () ConnectionErr) := fun w =>
  Done (Ok tt) (set_fz (fun t => mk_fuzz (fz_msgs t) (fz_from_server t) (fz_done t) (fz_events t)
    (fz_shutdown t) (fz_stop t) (fz_metrics t) (fz_rng t) (fz_joined t) (fz_sent t ++ [payload])) w).

(** [FuzzIO::take_recv_stream]. *)
Definition FuzzIO_take_recv_stream : prog FuzzWorld (option ()) := fun w =>
  Done (if fz_from_server (fz w) then Some tt else None)
    (set_fz (fun t => mk_fuzz (fz_msgs t) false (fz_done t) (fz_events t) (fz_shutdown t) (fz_stop t)
      (fz_metrics t) (fz_rng t) (fz_joined t) (fz_sent t)) w).

(** [MessageStream::poll_next]: never pending. *)
Definition MessageStream_poll_next :
  prog FuzzWorld (poll (option (result ServerToClient DecodingError))) := fun w =>
  match fz_msgs (fz w) with
  | v :: msgs => Done (Ready (Some (Ok v))) (set_fz (fun t => mk_fuzz msgs (fz_from_server t)
      (fz_done t) (fz_events t) (fz_shutdown t) (fz_stop t) (fz_metrics t) (fz_rng t) (fz_joined t)
      (fz_sent t)) w)
  | [] => Done (Ready None) (set_fz (fun t => mk_fuzz [] (fz_from_server t) true (fz_events t)
      (fz_shutdown t) (fz_stop t) (fz_metrics t) (fz_rng t) (fz_joined t) (fz_sent t)) w)
  end.

(** ** The environment of the actor *)

Definition fuzz_rng : Rng FuzzWorld := fun n w =>
  let '(o, r) := rand_fill n (fz_rng (fz w)) in
  (o, set_fz (fun t => mk_fuzz (fz_msgs t) (fz_from_server t) (fz_done t) (fz_events t) (fz_shutdown t)
    (fz_stop t) (fz_metrics t) r (fz_joined t) (fz_sent t)) w).

(** The clock, and the polls allowed to a publication that waits: nobody else
    reads the response queue. *)
Context (clock : FuzzWorld -> N) (polls : nat).

Definition stopped (w : FuzzWorld) : bool := fz_stop (fz w) || fz_shutdown (fz w).

#[local] Instance fuzz_conn : ConnEnv FuzzWorld := {|
  CancellationToken := unit;
  MetricsRef := unit;
  env_send := FuzzIO_send;
  env_stop_or_sleep _ w := Done (stopped w) w;
  env_dispatch := DispatchPublisher_dispatch id polls;
  env_rng := fuzz_rng;
  env_metrics _ w := fz_metrics (fz w)
|}.

(** Nothing wakes an actor that has to wait: the test only waits for it. *)
#[local] Instance fuzz_actor : ActorEnv FuzzWorld := {|
  Incoming := unit;
  actor_stopped _ := stopped;
  env_take_recv_stream := FuzzIO_take_recv_stream;
  env_poll_incoming _ := MessageStream_poll_next;
  env_poll_response := response_poll_next;
  env_suspend := fun w => Blocked w;
  env_now w := Done (clock w) w;
  env_update_metrics _ f := modify (set_fz (fun t => mk_fuzz (fz_msgs t) (fz_from_server t) (fz_done t)
    (fz_events t) (fz_shutdown t) (fz_stop t) (f (fz_metrics t)) (fz_rng t) (fz_joined t) (fz_sent t)))
|}.

(** ** The main task and the target *)

(** The actor's budget: attempts of a send, polls of the loop. *)
Context (fuel n : nat).

(** A task is how it ended, if it did. *)
Definition fuzz_task : Type := option (result () JoinError).

Definition run_spawned {V} (conn : ConnectionActor (W:=FuzzWorld) (V:=V)) : prog FuzzWorld fuzz_task :=
  fun w =>
  match ConnectionActor_run fuel n conn w with
  | Done _ w => Done (Some (Ok tt)) w
  | Panic w => Done (Some (Err mk_join_error)) w
  | Blocked w => Done None w
  end.

Definition join_task (t : fuzz_task) : prog FuzzWorld (result () JoinError) := fun w =>
  match t with
  | Some r => Done r (set_fz (fun t => mk_fuzz (fz_msgs t) (fz_from_server t) (fz_done t) (fz_events t)
      (fz_shutdown t) (fz_stop t) (fz_metrics t) (fz_rng t) (fz_joined t ++ [r]) (fz_sent t)) w)
  | None => Blocked w
  end.

(** While the main task waits the test goes on: once [done] is signalled it
    shuts the library down; otherwise it waits for ever, or panics because the
    sender is gone. *)
Definition wait_event : prog FuzzWorld selected := fun w =>
  match fz_events (fz w) with
  | e :: es => Done (Sel_Event e) (set_fz (fun t => mk_fuzz (fz_msgs t) (fz_from_server t) (fz_done t) es
      (fz_shutdown t) (fz_stop t) (fz_metrics t) (fz_rng t) (fz_joined t) (fz_sent t)) w)
  | [] =>
      if fz_done (fz w) then Done Sel_Shutdown (set_fz (fun t => mk_fuzz (fz_msgs t) (fz_from_server t)
        (fz_done t) [] true (fz_stop t) (fz_metrics t) (fz_rng t) (fz_joined t) (fz_sent t)) w)
      else Blocked w
  end.

#[local] Instance fuzz_entry {V} : EntryEnv FuzzWorld V := {|
  Task := fuzz_task;
  env_select := wait_event;
  env_child_token w := Done tt w;
  env_spawn _ conn := run_spawned conn;
  env_cancel _ := modify (set_fz (fun t => mk_fuzz (fz_msgs t) (fz_from_server t) (fz_done t)
    (fz_events t) (fz_shutdown t) true (fz_metrics t) (fz_rng t) (fz_joined t) (fz_sent t)));
  env_join := join_task;
  env_wait_shutdown w := if fz_shutdown (fz w) then Done tt w else Blocked w
|}.

Context (r1_pem r2_pem : list u8) (cache_new : N -> C).

(** [run]: the transport over [msgs], the interconnect, and the one event. *)
Definition fuzz_start (msgs : list ServerToClient) (metrics : InstanceMetrics) (rng : R) : FuzzWorld :=
  let '((publisher, _, _), w) := new_dispatcher_interconnect
    (mk_fuzz msgs true false [] false false metrics rng [] []) in
  set_fz (fun t => mk_fuzz (fz_msgs t) (fz_from_server t) (fz_done t)
    [Event_Connected IOHandle_new publisher (EndpointHostname_from "config.datadoghq.com")]
    (fz_shutdown t) (fz_stop t) (fz_metrics t) (fz_rng t) (fz_joined t) (fz_sent t)) w.

(** The entrypoint, which the test awaits. *)
Definition fuzz_run (events : nat) (msgs : list ServerToClient) (metrics : InstanceMetrics) (rng : R) :
  exec FuzzWorld () :=
  Main_entrypoint r1_pem r2_pem cache_new (fun w => Done tt w) events
    (Main_new (AppInfo_new (AppName_from "rc-x509-client-fuzz") (AppVersion_from "0.0.0")))
    (fuzz_start msgs metrics rng).

End Delivery.

(** ** Specification *)

Section Transcript.
Context `{ProtoTypes} `{AwsDigest} `{UuidLib}.

(** The answer to a request that finds the request queue full. *)
Definition refused (d : Dispatch) : DispatchResult :=
  mk_dispatch_result (d_correlation_id d) (Err DispatchRequestQueueFull).

(** What is sent for the outcomes [os] when the request queue has room for
    [room] more requests and nobody takes any: each reply, and in their place
    the refusals of the requests that do not fit. *)
Fixpoint transcript (room : nat) (os : list outcome) : list ClientToServer :=
  match os with
  | [] => []
  | o :: os => option_list (o_reply o) ++
      match o_dispatch o, room with
      | None, _ => transcript room os
      | Some _, S room => transcript room os
      | Some d, 0 => response_for (refused d) :: transcript 0 os
      end
  end.

End Transcript.

(** ** Symbolic execution *)

Section DeliveryFacts.
Context `{ProtoTypes} `{AwsDigestLaws} `{UuidLib} `{MpscLaws} {R V : Type} `{!Rng R}.
Context (clock : FuzzWorld (R:=R) -> N) (polls fuel : nat).
Abbreviation FW := (FuzzWorld (R:=R)).
#[local] Instance fuzz_conn' : ConnEnv FW := fuzz_conn (S polls).
#[local] Instance fuzz_actor' : ActorEnv FW := fuzz_actor clock (S polls).

Record fview : Type := mk_fview {
  v_req : chan Dispatch;
  v_resp : chan DispatchResult;
  v_msgs : list ServerToClient;
  v_from : bool;
  v_done : bool;
  v_events : list ConnectionEvent;
  v_shutdown : bool;
  v_stop : bool;
  v_joined : list (result () JoinError);
  v_sent : list ClientToServer
}.

Definition view (w : FW) : fview :=
  mk_fview (req_view w) (resp_view w) (fz_msgs (fz w)) (fz_from_server (fz w)) (fz_done (fz w))
    (fz_events (fz w)) (fz_shutdown (fz w)) (fz_stop (fz w)) (fz_joined (fz w)) (fz_sent (fz w)).

Abbreviation runs := (runs_on view).

Definition with_queues (req : chan Dispatch) (resp : chan DispatchResult) (v : fview) : fview :=
  mk_fview req resp (v_msgs v) (v_from v) (v_done v) (v_events v) (v_shutdown v) (v_stop v)
    (v_joined v) (v_sent v).
Definition with_sent (l : list ClientToServer) (v : fview) : fview :=
  mk_fview (v_req v) (v_resp v) (v_msgs v) (v_from v) (v_done v) (v_events v) (v_shutdown v) (v_stop v)
    (v_joined v) (v_sent v ++ l).
Definition with_msgs (msgs : list ServerToClient) (v : fview) : fview :=
  mk_fview (v_req v) (v_resp v) msgs (v_from v) (v_done v) (v_events v) (v_shutdown v) (v_stop v)
    (v_joined v) (v_sent v).

Lemma with_sent_nil v : with_sent [] v = v.
Proof. destruct v. unfold with_sent. simpl. by rewrite app_nil_r. Qed.

(** The generator works: no failure, and never sixteen zero bytes. *)
Definition rng_works : Prop := forall r : R, exists bs r',
  rand_fill 16 r = (Some bs, r') /\ bs <> replicate 16 x00.

Context (Works : rng_works).

Lemma runs_nonce v (Q : IdNonce -> fview -> Prop) :
  (forall bs, Q (mk_nonce bs) v) -> runs (IdNonce_default (R:=FW) (H:=fuzz_rng)) v Q.
Proof.
  intros HQ w <-. unfold IdNonce_default, rand_fill at 1, fuzz_rng.
  destruct (Works (fz_rng (fz w))) as (bs & r' & -> & NZ). rewrite decide_False by done.
  eexists _, _. split; [reflexivity|]. apply HQ.
Qed.

Lemma runs_retry_send m tok v (Q : () -> fview -> Prop) :
  Q tt (with_sent [m] v) -> runs (retry_send (S fuel) m tok) v Q.
Proof. intros HQ w <-. by eexists _, _. Qed.

Lemma runs_publish p d v r req resp (Q : result () DispatchError -> fview -> Prop) :
  publish d (v_req v) (v_resp v) = Some (r, (req, resp)) ->
  Q r (with_queues req resp v) -> runs (env_dispatch p d) v Q.
Proof.
  intros P HQ w <-. destruct (dispatch_publish id polls p d w r req resp P) as (w' & E & <- & <- & F).
  exists r, w'. split; [exact E|]. unfold with_queues, view, fz in *. simpl in HQ. by rewrite F.
Qed.

(** The queues while the actor runs: the host keeps its ends, and no response
    is waiting when a message is taken. *)
Definition serving (v : fview) : Prop :=
  c_rx (v_req v) = true /\ c_queue (v_resp v) = [] /\ c_cap (v_resp v) <> 0 /\ c_rx (v_resp v) = true /\
  c_tx (v_resp v) <> 0 /\ v_shutdown v = false /\ v_stop v = false.

(** The effect of an outcome. *)
Definition after (o : outcome) (v : fview) : fview :=
  let v := with_sent (option_list (o_reply o)) v in
  match o_dispatch o with
  | None => v
  | Some d => if decide (chan_full (v_req v))
              then with_queues (v_req v) (chan_push (refused d) (v_resp v)) v
              else with_queues (chan_push d (v_req v)) (v_resp v) v
  end.

Lemma publish_serving d v : serving v ->
  exists r, publish d (v_req v) (v_resp v) = Some (r,
    if decide (chan_full (v_req v)) then (v_req v, chan_push (refused d) (v_resp v))
    else (chan_push d (v_req v), v_resp v)).
Proof.
  intros (Rx & Er & Cap & Rr & Tx & _). unfold publish, refuses, refusal. rewrite Rx.
  destruct (decide (chan_full (v_req v))) as [F|F].
  - rewrite decide_True by (by right). rewrite decide_False by done. rewrite Rr.
    rewrite decide_False by (unfold chan_full; rewrite Er; simpl; lia). by eexists.
  - rewrite decide_False by (intros [?|?]; done). by eexists.
Qed.

Lemma runs_reply m tok (s' : State (V:=V)) v (Q : State -> fview -> Prop) :
  Q s' (with_sent [m] v) -> runs (retry_send (S fuel) m tok ;; mret s') v Q.
Proof. intros HQ. by apply runs_bind, runs_retry_send, runs_ret. Qed.

(** A phase reached with the effect of the outcome [o]. *)
Definition reached (o : outcome) (v : fview) (s : State (V:=V)) (v' : fview) : Prop :=
  phase_of s = o_phase o /\ v' = after o v.

Lemma runs_error {S} (f : Fsm (V:=V) S) b reason v :
  runs (Fsm_protocol_error (Datatypes.S fuel) f b reason) v
    (reached (mk_outcome Phase_Error (Some (ReportProtocolError reason b)) None) v).
Proof. by apply runs_reply. Qed.

Lemma runs_ack (f : Fsm (V:=V) Handshaking) u v :
  runs (Handshaking_process (S fuel) f (ClientHelloAck u)) v
    (reached (react_ack (phase_of (State_Handshaking f)) u) v).
Proof.
  unfold Handshaking_process. apply runs_bind, runs_nonce. intros bs. apply runs_bind.
  eapply runs_some; [apply verify_outcome|]. simpl react_ack.
  destruct (decide (ConnectionId_as_bytes _ = uci_id u)) as [D|D].
  - rewrite decide_False by (intros []; done). apply runs_ret. split; [done|].
    unfold after. simpl. by rewrite with_sent_nil.
  - rewrite decide_True by done. apply runs_error.
Qed.

Lemma runs_request (f : Fsm (V:=V) Active) id payload sig v : serving v ->
  runs (Active_handle_dispatch (S fuel) f id payload sig) v
    (reached (react_dispatch (phase_of (State_Active f)) id payload sig) v).
Proof.
  intros Sv. unfold Active_handle_dispatch. simpl react_dispatch.
  destruct sig as [[cert_id [|b sig]]|]; simpl admissible; [apply runs_error| |apply runs_error].
  unfold CertId.CertId_try_from, CertId.MIN_LENGTH, CertId.MAX_LENGTH.
  destruct (decide (16 <= length cert_id /\ length cert_id <= 64)) as [D|D].
  - rewrite decide_False by lia. destruct (publish_serving (mk_dispatch id payload) v Sv) as [r P].
    apply runs_bind. destruct (decide (chan_full (v_req v))) as [F|F];
      (eapply runs_publish; [exact P|]); apply runs_ret; (split; [done|]); unfold after; simpl;
      rewrite with_sent_nil; by case_decide.
  - rewrite decide_True by lia. apply runs_error.
Qed.

(** One message: exactly the table's outcome. *)
Lemma runs_process (s : State (V:=V)) msg v : serving v ->
  runs (MessageDelegate_process_impl (S fuel) s msg) v (reached (reaction (phase_of s) msg) v).
Proof.
  intros Sv. destruct s as [f|f|f|f], msg as [[|certs|id payload sig|u|d]|e];
    cbn [MessageDelegate_process_impl State_process State_protocol_error
         PreHandshake_process Handshaking_process Active_process Error_process].
  all: try (apply runs_ret; split; [done|]; unfold after; simpl; by rewrite with_sent_nil).
  all: try apply runs_error.
  all: try by apply runs_reply.
  - apply runs_ack.
  - by apply runs_request.
Qed.

(** *** The loop *)

Abbreviation loop := (actor_loop (W:=FW) (V:=V) (S fuel)).

Lemma runs_stopped v (Q : bool -> fview -> Prop) :
  Q (v_stop v || v_shutdown v) v -> runs (gets stopped) v Q.
Proof. intros HQ. by apply (runs_gets _ (fun v => v_stop v || v_shutdown v)). Qed.

Lemma runs_response_poll rx v (Q : poll (option DispatchResult) -> fview -> Prop) :
  (let '(p, c) := chan_poll_recv (v_resp v) in Q p (with_queues (v_req v) c v)) ->
  runs (response_poll_next rx) v Q.
Proof.
  intros HQ w <-. unfold response_poll_next.
  destruct (mpsc_poll_recv (sh_resp w)) as [p c] eqn:P. apply mpsc_poll_recv_view in P.
  simpl in HQ. unfold resp_view in HQ. rewrite P in HQ. eexists _, _. split; [reflexivity | exact HQ].
Qed.

Lemma runs_stream_poll v (Q : poll (option (result ServerToClient DecodingError)) -> fview -> Prop) :
  match v_msgs v with
  | m :: msgs => Q (Ready (Some (Ok m))) (with_msgs msgs v)
  | [] => Q (Ready None) (mk_fview (v_req v) (v_resp v) [] (v_from v) true (v_events v) (v_shutdown v)
            (v_stop v) (v_joined v) (v_sent v))
  end -> runs MessageStream_poll_next v Q.
Proof.
  intros HQ w <-. unfold MessageStream_poll_next. simpl in HQ.
  by destruct (fz_msgs (fz w)); eexists _, _.
Qed.

(** A turn that finds no response takes the next message, or ends. *)
Lemma runs_turn n rx st (self : ConnectionActor) v (Q : () -> fview -> Prop) : serving v ->
  match v_msgs v with
  | m :: msgs => runs (server_message (S fuel) self (Ok m)) (with_msgs msgs v)
      (fun self v' => runs (loop n rx st self) v' Q)
  | [] => Q tt (mk_fview (v_req v) (v_resp v) [] (v_from v) true (v_events v) (v_shutdown v)
            (v_stop v) (v_joined v) (v_sent v))
  end -> runs (loop (S n) rx st self) v Q.
Proof.
  intros (_ & Er & _ & _ & Tx & Sh & St) HQ. cbn [actor_loop]. apply runs_bind, runs_stopped.
  rewrite Sh, St. cbn [orb]. apply runs_bind, runs_response_poll. unfold chan_poll_recv.
  rewrite Er, decide_False by done.
  replace (with_queues (v_req v) (v_resp v) v) with v by (by destruct v).
  apply runs_bind, runs_stream_poll. destruct (v_msgs v) as [|m msgs]; [by apply runs_ret | by apply runs_bind].
Qed.

(** A turn that finds a response sends it. *)
Lemma runs_drain n rx st (self : ConnectionActor) v x q (Q : () -> fview -> Prop) :
  v_shutdown v = false -> v_stop v = false -> c_queue (v_resp v) = x :: q ->
  runs (loop n rx st self) (with_sent [response_for x]
    (with_queues (v_req v) (mk_chan q (c_cap (v_resp v)) (c_rx (v_resp v)) (c_tx (v_resp v))) v)) Q ->
  runs (loop (S n) rx st self) v Q.
Proof.
  intros Sh St E K. cbn [actor_loop]. apply runs_bind, runs_stopped. rewrite Sh, St. cbn [orb].
  apply runs_bind, runs_response_poll. unfold chan_poll_recv. rewrite E.
  apply runs_bind. unfold dispatch_response. rewrite response_message_for. apply runs_retry_send, K.
Qed.

(** What all messages leave behind. *)
Definition delivered (os : list outcome) (v : fview) : fview :=
  let room := c_cap (v_req v) - length (c_queue (v_req v)) in
  mk_fview (mk_chan (c_queue (v_req v) ++ take room (forwarded os)) (c_cap (v_req v)) (c_rx (v_req v))
      (c_tx (v_req v)))
    (v_resp v) [] (v_from v) true (v_events v) (v_shutdown v) (v_stop v) (v_joined v)
    (v_sent v ++ transcript room os).

(** The state after the first message and, if it was refused, its answer. *)
Definition settled (o : outcome) (v : fview) : fview :=
  let v := with_sent (option_list (o_reply o)) v in
  match o_dispatch o with
  | None => v
  | Some d => if decide (chan_full (v_req v)) then with_sent [response_for (refused d)] v
              else with_queues (chan_push d (v_req v)) (v_resp v) v
  end.

Lemma delivered_cons o os msgs v : delivered os (settled o (with_msgs msgs v)) = delivered (o :: os) v.
Proof.
  unfold settled, delivered. rewrite forwarded_cons. cbn [transcript].
  destruct (o_dispatch o) as [d|]; simpl; [|by rewrite app_assoc].
  case_decide as F; unfold chan_full in F; simpl in F; simpl.
  - replace (c_cap (v_req v) - length (c_queue (v_req v))) with 0 by lia. simpl.
    by rewrite <- !app_assoc.
  - rewrite length_app. simpl.
    destruct (c_cap (v_req v) - length (c_queue (v_req v))) as [|room] eqn:E; [lia|].
    replace (c_cap (v_req v) - (length (c_queue (v_req v)) + 1)) with room by lia. simpl.
    by rewrite <- !app_assoc.
Qed.

Lemma serving_settled o msgs v : serving v -> serving (settled o (with_msgs msgs v)).
Proof. intros Sv. unfold settled. destruct (o_dispatch o); [case_decide|]; exact Sv. Qed.

Lemma settled_msgs o msgs v : v_msgs (settled o (with_msgs msgs v)) = msgs.
Proof. unfold settled. destruct (o_dispatch o); [case_decide|]; done. Qed.

(** The turn or two that a message takes. *)
Lemma runs_settle n rx st (self : ConnectionActor) o v (Q : () -> fview -> Prop) : serving v ->
  runs (loop n rx st self) (settled o v) Q -> runs (loop (S n) rx st self) (settled o v) Q ->
  runs (loop (S n) rx st self) (after o v) Q.
Proof.
  intros (_ & Er & _ & _ & _ & Sh & St) K1 K2. unfold settled in K1, K2. unfold after.
  destruct (o_dispatch o) as [d|]; [|done]. case_decide; [|done].
  eapply runs_drain; [done | done | simpl; by rewrite Er|].
  destruct v as [req [q cap rx' tx] ms fr dn ev sh stp jn snt]. simpl in *. by subst q.
Qed.

Lemma runs_loop n rx st (self : ConnectionActor) v (Q : () -> fview -> Prop) : serving v ->
  2 * length (v_msgs v) < n ->
  Q tt (delivered (reactions (phase_of (delegate_state (ca_delegate self))) (Ok <$> v_msgs v)) v) ->
  runs (loop n rx st self) v Q.
Proof.
  remember (v_msgs v) as msgs eqn:E. revert n self v E.
  induction msgs as [|m msgs IH]; intros n self v E Sv L HQ; (destruct n as [|n]; [simpl in L; lia|]).
  { apply runs_turn; [done|]. rewrite <- E. revert HQ. unfold delivered. simpl.
    rewrite take_nil, !app_nil_r. by destruct (v_req v). }
  apply runs_turn; [done|]. rewrite <- E. simpl in L. destruct n as [|n]; [lia|].
  unfold server_message, MessageDelegate_process. do 2 apply runs_bind.
  eapply runs_weaken; [apply runs_process; exact Sv|]. intros s v' [P ->]. apply runs_ret, runs_ret.
  set (o := reaction (phase_of (delegate_state (ca_delegate self))) (Ok m)) in *.
  assert (HQ' : Q tt (delivered (reactions (phase_of s) (Ok <$> msgs)) (settled o (with_msgs msgs v)))).
  { rewrite delivered_cons. revert HQ. cbn [fmap list_fmap reactions]. fold o. by rewrite P. }
  apply runs_settle; [exact Sv | |]; apply IH; rewrite ?settled_msgs; try done;
    try (by apply serving_settled); lia.
Qed.

(** *** The actor and the main task *)

Lemma runs_hello publisher info (ver : V) v (Q : MessageDelegate -> fview -> Prop) :
  (forall bs f h, ch_client_nonce h = bs -> hs_nonce (fsm_state f) = mk_nonce bs ->
    Q (mk_delegate (State_Handshaking f)) (with_sent [Hello h] v)) ->
  runs (MessageDelegate_send_hello (S fuel) (MessageDelegate_new tt tt publisher info ver)) v Q.
Proof.
  intros K. unfold MessageDelegate_send_hello. cbn [delegate_state MessageDelegate_new State_send_hello].
  unfold PreHandshake_send_hello, build_hello. do 3 apply runs_bind. apply runs_nonce. intros bs.
  apply runs_bind, runs_gets_any. intros m.
  apply runs_ret, runs_bind, runs_retry_send, runs_ret, runs_ret. by eapply K.
Qed.

Lemma runs_actor n publisher rx info (ver : V) v (Q : () -> fview -> Prop) : serving v ->
  v_from v = true -> 2 * length (v_msgs v) < n ->
  (forall h, Q tt (delivered (reactions (Phase_Handshaking (mk_nonce (ch_client_nonce h))) (Ok <$> v_msgs v))
    (mk_fview (v_req v) (v_resp v) (v_msgs v) false (v_done v) (v_events v) (v_shutdown v) (v_stop v)
      (v_joined v) (v_sent v ++ [Hello h])))) ->
  runs (run_new_actor (S fuel) n tt tt publisher rx info ver) v Q.
Proof.
  intros Sv Fr L K. unfold run_new_actor, ConnectionActor_run, run_loop.
  apply runs_bind, (runs_gets_any clock). intros t0. do 2 apply runs_bind.
  eapply runs_some; [reflexivity|]. apply runs_bind.
  intros w <-. cbn [env_take_recv_stream fuzz_actor' fuzz_actor]. unfold FuzzIO_take_recv_stream.
  change (fz_from_server (fz w) = true) in Fr. rewrite Fr. eexists _, _. split; [reflexivity|].
  apply runs_bind. eapply runs_some; [reflexivity|]. apply runs_bind, runs_hello. intros bs f h <- En.
  apply runs_loop; [exact Sv | exact L |]. cbn [with_delegate ca_delegate delegate_state phase_of].
  rewrite En. apply runs_bind, (runs_gets_any clock). intros t1.
  apply (runs_modify _ (fun v => v)); [done|]. exact (K h).
Qed.

End DeliveryFacts.

(** ** Properties *)

Section DeliveryProperties.
Context `{ProtoTypes} `{AwsDigestLaws} `{UuidLib} `{X509Lib} `{MpscLaws} {R C : Type} `{!Rng R}.

Abbreviation FW := (FuzzWorld (R:=R)).

Context (clock : FW -> N) (polls fuel n : nat).
#[local] Instance target_conn : ConnEnv FW := fuzz_conn (S polls).
#[local] Instance target_entry : EntryEnv FW (TrustStore C) := fuzz_entry clock (S polls) (S fuel) n.
Abbreviation runs := (runs_on (view (R:=R))).

Lemma runs_event v e es (Q : selected -> fview -> Prop) : v_events v = e :: es ->
  Q (Sel_Event e) (mk_fview (v_req v) (v_resp v) (v_msgs v) (v_from v) (v_done v) es (v_shutdown v)
    (v_stop v) (v_joined v) (v_sent v)) -> runs wait_event v Q.
Proof.
  intros E HQ w <-. unfold wait_event. change (fz_events (fz w) = e :: es) in E. rewrite E.
  by eexists _, _.
Qed.

Lemma runs_shutdown v (Q : selected -> fview -> Prop) : v_events v = [] -> v_done v = true ->
  Q Sel_Shutdown (mk_fview (v_req v) (v_resp v) (v_msgs v) (v_from v) (v_done v) [] true (v_stop v)
    (v_joined v) (v_sent v)) -> runs wait_event v Q.
Proof.
  intros E D HQ w <-. unfold wait_event. change (fz_events (fz w) = []) in E.
  change (fz_done (fz w) = true) in D. rewrite E, D. by eexists _, _.
Qed.

(** The actor and its task. *)
Lemma runs_spawned (conn : ConnectionActor (W:=FW) (V:=TrustStore C)) v (Q : fuzz_task -> fview -> Prop) :
  runs (ConnectionActor_run (ActorEnv0:=fuzz_actor clock (S polls)) (S fuel) n conn) v
    (fun _ v' => Q (Some (Ok tt)) v') ->
  runs (env_spawn IOHandle_new conn) v Q.
Proof.
  intros A w E. destruct (A w E) as (u & w' & Ew & HQ). exists (Some (Ok tt)), w'. split; [|done].
  cbn [env_spawn target_entry fuzz_entry]. unfold run_spawned. by rewrite Ew.
Qed.

Lemma runs_stop v (Q : () -> fview -> Prop) :
  Q tt (mk_fview (v_req v) (v_resp v) (v_msgs v) (v_from v) (v_done v) (v_events v) (v_shutdown v)
    true (v_joined v ++ [Ok tt]) (v_sent v)) ->
  runs (stop_active (V:=TrustStore C) (Some (mk_active_conn (Some (Ok tt)) tt))) v Q.
Proof. intros HQ w <-. by eexists _, _. Qed.

(** The main task's loop on the one event of the target. *)
Lemma runs_target events info (ver : TrustStore C) v publisher name (Q : () -> fview -> Prop) :
  rng_works (R:=R) -> serving v -> v_from v = true -> 2 * length (v_msgs v) < n ->
  v_events v = [Event_Connected IOHandle_new publisher name] -> is_Some (dp_rx publisher) ->
  (forall h, let v' := delivered (reactions (Phase_Handshaking (mk_nonce (ch_client_nonce h)))
       (Ok <$> v_msgs v)) (mk_fview (v_req v) (v_resp v) (v_msgs v) false (v_done v) [] (v_shutdown v)
       (v_stop v) (v_joined v) (v_sent v ++ [Hello h])) in
     Q tt (mk_fview (v_req v') (v_resp v') (v_msgs v') false true [] true true (v_joined v ++ [Ok tt])
       (v_sent v'))) ->
  runs (handle_connection_events (S (S events)) tt info ver None) v Q.
Proof.
  intros Wk Sv Fr L Ev [rx Erx] K. cbn [handle_connection_events].
  apply runs_bind. eapply runs_event; [exact Ev|]. unfold spawn_connection. do 2 apply runs_bind.
  apply (runs_gets_any (fun _ => tt)). intros []. cbn [DispatchPublisher_take_recv_stream].
  apply runs_bind. eapply runs_some; [exact Erx|]. apply runs_bind, runs_spawned.
  apply (runs_actor clock polls fuel Wk n); [exact Sv | exact Fr | exact L |]. intros h.
  apply runs_ret, runs_bind, runs_ret, runs_bind, runs_shutdown; [done | done |].
  apply runs_stop. exact (K h).
Qed.

(** C21. Whatever messages the server sends, and with a random generator that
    works and roots that load, the fuzz target completes: the actor reads them
    all and ends without a panic or a wait, and the main task joins it and
    returns.  What it has sent is its hello and then, message by message, the
    reply of the reaction table and the refusal of a request that the full queue
    does not take; the requests queued for the host are the first ones the table
    forwards. *)
Theorem delivery_completes events r1_pem r2_pem (cache_new : N -> C) msgs metrics (rng : R)
  (Works : rng_works (R:=R))
  (R1 : is_Some (load_root r1_pem)) (R2 : is_Some (load_root r2_pem))
  (Loop : 2 * length msgs < n) (Events : 2 <= events) :
  exists h w', fuzz_run clock (S polls) (S fuel) n r1_pem r2_pem cache_new events msgs metrics rng = Done tt w' /\
    let os := reactions (Phase_Handshaking (mk_nonce (ch_client_nonce h))) (Ok <$> msgs) in
    fz_sent (fz w') = Hello h :: transcript DISPATCH_QUEUE_LEN os /\
    c_queue (req_view w') = take DISPATCH_QUEUE_LEN (forwarded os) /\
    fz_msgs (fz w') = [] /\ fz_joined (fz w') = [Ok tt].
Proof.
  destruct events as [|[|events]]; [lia | lia |]. destruct R1 as [r1 E1], R2 as [r2 E2].
  set (info := AppInfo_new (AppName_from "rc-x509-client-fuzz") (AppVersion_from "0.0.0")).
  set (w0 := fuzz_start msgs metrics rng).
  destruct (runs_target events info (TrustStore_new [r1; r2] (cache_new APPROX_MAX_CACHE_BYTES)) (view w0)
    (mk_publisher request_tx (Some response_rx) response_weak) (EndpointHostname_from "config.datadoghq.com")
    (fun _ v' => v_shutdown v' = true /\ exists h,
      let os := reactions (Phase_Handshaking (mk_nonce (ch_client_nonce h))) (Ok <$> msgs) in
      v_sent v' = Hello h :: transcript DISPATCH_QUEUE_LEN os /\
      c_queue (v_req v') = take DISPATCH_QUEUE_LEN (forwarded os) /\
      v_msgs v' = [] /\ v_joined v' = [Ok tt])) with (w:=w0)
    as ([] & w' & E & Sh & h & P); try done.
  - unfold serving, view, w0, req_view, resp_view. simpl. by rewrite !view_channel.
  - intros h. split; [done|]. exists h. unfold delivered, view, w0, req_view. simpl.
    by rewrite !view_channel.
  - exists h, w'. split; [|exact P]. unfold fuzz_run, Main_entrypoint. rewrite E1, E2.
    change (run_events (W:=FW) (ConnEnv0:=target_conn) (EntryEnv0:=target_entry) (S (S events)) tt info
      (TrustStore_new [r1; r2] (cache_new APPROX_MAX_CACHE_BYTES)) w0 = Done tt w').
    unfold run_events. rewrite E. cbn [env_wait_shutdown target_entry fuzz_entry].
    change (fz_shutdown (fz w') = true) in Sh. by rewrite Sh.
Qed.

End DeliveryProperties.

(** *** Witness *)

(** A ping, an acknowledgement that is not the client's, and another ping. *)
Definition toy_messages : list ServerToClient :=
  [Ping; ClientHelloAck (UntrustedConnectionId_new [] []); Ping].

Definition toy_seed : Rng () := fun k r => (Some (replicate k x05), r).

Lemma delivery_completes_witness :
  exists h w', @fuzz_run toy_proto toy_digest toy_uuid toy_lib fifo_mpsc () () toy_seed (fun _ => 0%N) 1 1 7
      [x01; x02; x01] [x01; x02; x01] (fun _ => tt) 2 toy_messages (InstanceMetrics_default toy_version) tt
      = Done tt w' /\
    fz_sent (fz w') = Hello h :: transcript DISPATCH_QUEUE_LEN
      (@reactions toy_proto toy_digest toy_uuid (Phase_Handshaking (mk_nonce (ch_client_nonce h)))
        (Ok <$> toy_messages)) /\ fz_joined (fz w') = [Ok tt].
Proof.
  destruct (@delivery_completes toy_proto toy_digest toy_digest_laws toy_uuid toy_lib fifo_mpsc fifo_mpsc_laws
    () () toy_seed (fun _ => 0%N) 0 0 7 2 [x01; x02; x01] [x01; x02; x01] (fun _ => tt) toy_messages
    (InstanceMetrics_default toy_version) tt) as (h & w' & E & S & _ & _ & J).
  - intros r. eexists _, _. split; [reflexivity | discriminate].
  - eexists. reflexivity.
  - eexists. reflexivity.
  - simpl. lia.
  - lia.
  - exists h, w'. split; [exact E|]. split; [exact S | exact J].
Defined.
