(* ===== verification/Harness.v ===== *)
(** * The test harness

    Models [rc-x509-test-client-harness/src/]: the mocked transport ([io.rs])
    and the server and application ends of a test connection ([client.rs]), and
    [encode] / [decode] of [rc-x509-proto/src/lib.rs].  A test is a script of
    steps; it runs on a current-thread runtime, so its next step runs when the
    client is suspended, and what the test awaits must then be there: if it is
    not, nothing else can produce it and the test's timeout elapses (a panic).
    The client under test is the library's entrypoint with the connection actors
    it spawns.  The tests themselves, and what they show, are in [Integration]. *)

From stdpp Require Import base option list strings countable.
From Stdlib Require Import Strings.Byte NArith ZArith Lia.
From S2P Require Import Prelude Hash Certificate ConnectionId Codec TrustStore Mpsc Dispatch Runtime Fsm Actor Ffi World Entrypoint Symbolic.

(** ** Messages of the schema crate *)

(** [prost::Message]. *)
Class Serialisable `{ProtoTypes} (T : Type) : Type := {
  encode_to_vec : T -> list u8;
  message_decode : list u8 -> result T DecodeError
}.

Class SerialisableLaws `{ProtoTypes} (T : Type) `{!Serialisable T} : Prop := {
  message_roundtrip : forall v, message_decode (encode_to_vec v) = Ok v
}.

Definition encode `{ProtoTypes} {T} `{!Serialisable T} (value : T) : list u8 := encode_to_vec value.
Definition decode `{ProtoTypes} {T} `{!Serialisable T} (buf : list u8) : result T DecodeError :=
  message_decode buf.

(** The generated types the harness uses. *)
Record V1ConnectionId : Type := mk_v1_connection_id { uuid_v8 : list u8 }.
Record MagicTunnelRequest : Type := mk_magic_tunnel_request { mt_uri : string; mt_request : list u8 }.
Inductive RequestPayload : Type := Request_MagicTunnel (v : MagicTunnelRequest).
Record DispatchRequestPayload : Type := mk_request_payload {
  rp_connection_id : option V1ConnectionId;
  rp_payload : option RequestPayload
}.
Inductive MagicTunnelResult : Type := MT_Response (bytes : list u8) | MT_HandlerError (msg : string).
Record MagicTunnelResponse : Type := mk_magic_tunnel_response { mtr_result : option MagicTunnelResult }.

#[export] Instance V1ConnectionId_eq_dec : EqDecision V1ConnectionId.
Proof. solve_decision. Defined.

(** [v1::DispatchResponsePayload], whose only field is the [oneof]. *)
Class ResponsePayload `{ProtoTypes} : Type := {
  response_payload_new : option MagicTunnelResponse -> DispatchResponsePayload;
  response_payload : DispatchResponsePayload -> option MagicTunnelResponse
}.

Class ResponsePayloadLaws `{ResponsePayload} : Prop := {
  response_payload_field : forall v, response_payload (response_payload_new v) = v
}.

Section Harness.
Context `{ProtoTypes} `{!Serialisable DispatchRequestPayload} `{!ResponsePayload} `{AwsDigest} `{UuidLib}
  `{Mpsc} {R : Type} `{!Rng R}.

(** ** State *)

(** A step of a test: what it does between two suspensions. *)
Inductive test_step : Type :=
| Step_connect
| Step_handshake
| Step_accept (check : ClientHello -> bool)
| Step_send (msg : ServerToClient)
| Step_expect (check : ClientToServer -> bool)
| Step_silence
| Step_dispatch (correlation_id : CorrelationId) (uri : string) (request : list u8)
| Step_answer (result : MagicTunnelResult)
| Step_read (correlation_id : CorrelationId)
| Step_advance (nanos : N)
| Step_close
| Step_shutdown.

(** What a test has seen. *)
Inductive observation : Type :=
| Saw_id (id : ConnectionId)
| Saw_message (msg : ClientToServer)
| Saw_request (correlation_id : CorrelationId) (uri : string) (request : list u8)
| Saw_result (result : MagicTunnelResult).

(** Next to the client's end of the transport and the interconnect ([World]):
    the channel to the client, whether its receiver was taken, the identifier a
    [TestConn] keeps; the event channel and the shutdown signal of the
    [TestClient], and how its tasks ended; the clock; the test. *)
Record Harness : Type := mk_harness {
  hn_to_client : mpsc (result ServerToClient DecodingError);
  hn_from_server : bool;
  hn_connection_id : option V1ConnectionId;
  hn_events : list ConnectionEvent;
  hn_shutdown : bool;
  hn_joined : list (result () JoinError);
  hn_clock : N;
  hn_script : list test_step;
  hn_seen : list observation
}.

Definition HWorld : Type := World (R:=R) (Host:=Harness).
Definition hn (w : HWorld) : Harness := cr_host (sh_rest w).
Definition set_hn (f : Harness -> Harness) : HWorld -> HWorld :=
  upd (fun t => mk_conn_rest (cr_out t) (cr_stopped t) (cr_runtime t) (cr_metrics t) (cr_rng t)
    (f (cr_host t)) (cr_sent t) (cr_queued t)).
Definition set_to_server (c : mpsc ClientToServer) : HWorld -> HWorld :=
  upd (fun t => mk_conn_rest c (cr_stopped t) (cr_runtime t) (cr_metrics t) (cr_rng t) (cr_host t)
    (cr_sent t) (cr_queued t)).
Definition set_stopped (b : bool) : HWorld -> HWorld :=
  upd (fun t => mk_conn_rest (cr_out t) b (cr_runtime t) (cr_metrics t) (cr_rng t) (cr_host t)
    (cr_sent t) (cr_queued t)).
Definition set_to_client (c : mpsc (result ServerToClient DecodingError)) : HWorld -> HWorld :=
  set_hn (fun h => mk_harness c (hn_from_server h) (hn_connection_id h) (hn_events h) (hn_shutdown h)
    (hn_joined h) (hn_clock h) (hn_script h) (hn_seen h)).
Definition set_from_server (b : bool) : HWorld -> HWorld :=
  set_hn (fun h => mk_harness (hn_to_client h) b (hn_connection_id h) (hn_events h) (hn_shutdown h)
    (hn_joined h) (hn_clock h) (hn_script h) (hn_seen h)).
Definition set_connection_id (id : option V1ConnectionId) : HWorld -> HWorld :=
  set_hn (fun h => mk_harness (hn_to_client h) (hn_from_server h) id (hn_events h) (hn_shutdown h)
    (hn_joined h) (hn_clock h) (hn_script h) (hn_seen h)).
Definition set_events (es : list ConnectionEvent) : HWorld -> HWorld :=
  set_hn (fun h => mk_harness (hn_to_client h) (hn_from_server h) (hn_connection_id h) es (hn_shutdown h)
    (hn_joined h) (hn_clock h) (hn_script h) (hn_seen h)).
Definition set_shutdown (b : bool) : HWorld -> HWorld :=
  set_hn (fun h => mk_harness (hn_to_client h) (hn_from_server h) (hn_connection_id h) (hn_events h) b
    (hn_joined h) (hn_clock h) (hn_script h) (hn_seen h)).
Definition set_joined (l : list (result () JoinError)) : HWorld -> HWorld :=
  set_hn (fun h => mk_harness (hn_to_client h) (hn_from_server h) (hn_connection_id h) (hn_events h)
    (hn_shutdown h) l (hn_clock h) (hn_script h) (hn_seen h)).
Definition set_clock (t : N) : HWorld -> HWorld :=
  set_hn (fun h => mk_harness (hn_to_client h) (hn_from_server h) (hn_connection_id h) (hn_events h)
    (hn_shutdown h) (hn_joined h) t (hn_script h) (hn_seen h)).
Definition set_script (l : list test_step) : HWorld -> HWorld :=
  set_hn (fun h => mk_harness (hn_to_client h) (hn_from_server h) (hn_connection_id h) (hn_events h)
    (hn_shutdown h) (hn_joined h) (hn_clock h) l (hn_seen h)).
Definition see (o : observation) : prog HWorld () :=
  modify (set_hn (fun h => mk_harness (hn_to_client h) (hn_from_server h) (hn_connection_id h)
    (hn_events h) (hn_shutdown h) (hn_joined h) (hn_clock h) (hn_script h) (hn_seen h ++ [o]))).

(** ** [io.rs] *)

(** [MockIO::send]. *)
Definition MockIO_send (payload : ClientToServer) (to_server : mpsc ClientToServer) :
  result () ConnectionErr * mpsc ClientToServer :=
  let '(r, c) := mpsc_try_send payload to_server in
  (match r with
   | Ok _ => Ok tt
   | Err TrySend_Closed => Err ConnectionErr_Closed
   | Err TrySend_Full => Err ConnectionErr_QueueFull
   end, c).

(** [MockIO::take_recv_stream]. *)
Definition MockIO_take_recv_stream : prog HWorld (option ()) := fun w =>
  Done (if hn_from_server (hn w) then Some tt else None)
    (set_from_server false w).

(** [timeout(5s, fut).await.expect(..)] while the client is suspended. *)
Definition timeout {A} (p : poll A) : prog HWorld A :=
  match p with Ready a => mret a | Pending => panic end.

(** [MockIOServer::recv]. *)
Definition MockIOServer_recv : prog HWorld (option ClientToServer) := fun w =>
  let '(p, c) := mpsc_poll_recv (cr_out (sh_rest w)) in timeout p (set_to_server c w).

(** [MockIOServer::send]. *)
Definition MockIOServer_send (v : result ServerToClient DecodingError) :
  prog HWorld (result () ConnectionErr) := fun w =>
  let '(p, c) := mpsc_poll_send v (hn_to_client (hn w)) in
  (r ← timeout p; mret (map_err (fun _ => ConnectionErr_Closed) r)) (set_to_client c w).

Definition MOCK_QUEUE_LEN : nat := 10.

(** ** [client.rs] *)

(** [send(v).await.expect(..)]. *)
Definition TestConn_send (v : result ServerToClient DecodingError) : prog HWorld () :=
  r ← MockIOServer_send v;
  match r with Ok _ => mret tt | Err _ => panic end.

(** [TestClientToServer] wraps the message. *)
Definition TestConn_recv : prog HWorld ClientToServer :=
  r ← MockIOServer_recv; of_panics r.

Definition conn_id_to_proto (c : ConnectionId) : V1ConnectionId :=
  mk_v1_connection_id (ConnectionId_as_bytes c).

(** [IdNonce::default()] in the server: the generator of the process. *)
Definition server_nonce_default : prog HWorld IdNonce := IdNonce_default (R:=HWorld) (H:=world_rng).

(** Read the hello, which must pass [check], derive the identifier and
    acknowledge with it. *)
Definition accept_hello (check : ClientHello -> bool) : prog HWorld (ClientHello * ConnectionId) :=
  got ← TestConn_recv;
  h ← of_panics (match got with Hello h => if check h then Some h else None | _ => None end);
  let client_nonce := ch_client_nonce h in
  server_nonce ← server_nonce_default;
  connection_id ← of_panics (ConnectionId_new client_nonce (IdNonce_as_bytes server_nonce));
  TestConn_send (Ok (ClientHelloAck (UntrustedConnectionId_new (IdNonce_as_bytes server_nonce)
    (ConnectionId_as_bytes connection_id)))) ;;
  mret (h, connection_id).

(** [perform_handshake]. *)
Definition perform_handshake : prog HWorld ConnectionId :=
  '(_, connection_id) ← accept_hello (fun _ => true);
  modify (set_connection_id (Some (conn_id_to_proto connection_id))) ;;
  mret connection_id.

(** [dispatch_magic_tunnel]: the certificate identifier is [[42; 16]], the
    signature four zero bytes. *)
Definition dispatch_magic_tunnel (correlation_id : CorrelationId) (uri : string) (request : list u8) :
  prog HWorld () :=
  id ← gets (fun w => hn_connection_id (hn w));
  connection_id ← of_panics id;
  let payload := Payload_from (encode (mk_request_payload (Some connection_id)
    (Some (Request_MagicTunnel (mk_magic_tunnel_request uri request))))) in
  TestConn_send (Ok (ServerDispatch correlation_id payload
    (Some (mk_detached (replicate 16 x2a) [x00; x00; x00; x00])))).

(** [get_application_dispatch]; the responder is cloned. *)
Record TestDispatch : Type := mk_test_dispatch { td_dispatch : Dispatch; td_responder : DispatchResponder }.

Definition get_application_dispatch : prog HWorld TestDispatch :=
  p ← DispatchStream_poll_next (mk_stream request_rx);
  next ← timeout p;
  dispatch ← of_panics next;
  modify (fun w => set_resp (mpsc_clone_tx (sh_resp w)) w) ;;
  mret (mk_test_dispatch dispatch (mk_responder response_tx)).

(** [assume_magic_tunnel]. *)
Definition assume_magic_tunnel (self : TestDispatch) (connection_id : V1ConnectionId) :
  panics (string * list u8) :=
  match decode (Payload_as_bytes (d_payload (td_dispatch self))) with
  | Ok got =>
      id ← rp_connection_id got;
      if decide (id = connection_id) then
        '(Request_MagicTunnel v) ← rp_payload got;
        Some (mt_uri v, mt_request v)
      else None
  | Err _ => None
  end.

(** [respond], and the drop of the cloned responder. *)
Definition TestDispatch_respond (self : TestDispatch)
  (result : result DispatchResponsePayload DispatchError) : prog HWorld () :=
  r ← DispatchResponder_send_response id 1 (td_responder self)
        (mk_dispatch_result (d_correlation_id (td_dispatch self)) result);
  modify (fun w => set_resp (mpsc_drop_tx (sh_resp w)) w) ;;
  match r with Ok _ => mret tt | Err _ => panic end.

Definition respond_magic_tunnel (self : TestDispatch) (result : MagicTunnelResult) : prog HWorld () :=
  TestDispatch_respond self (Ok (response_payload_new (Some (mk_magic_tunnel_response (Some result))))).

(** [assume_magic_tunnel_response]. *)
Definition assume_magic_tunnel_response (self : ClientToServer) (correlation_id : CorrelationId) :
  panics MagicTunnelResult :=
  match self with
  | DispatchResponse got_id result =>
      if decide (got_id = correlation_id) then
        match result with
        | DR_Payload p => v ← response_payload p; mtr_result v
        | DR_Error _ => None
        end
      else None
  | _ => None
  end.

(** [close]: dropping the connection drops both ends of the transport it holds,
    the dispatch stream and the responder. *)
Definition TestConn_close : prog HWorld () :=
  modify (fun w => set_to_client (mpsc_drop_tx (hn_to_client (hn w)))
    (set_to_server (mpsc_drop_rx (cr_out (sh_rest w)))
      (set_req (mpsc_drop_rx (sh_req w)) (set_resp (mpsc_drop_tx (sh_resp w)) w)))).

(** [new_connection]: the channels of [new_io_pair] and the interconnect, then
    the two events; the event channel holds one at a time, so the second [send]
    completes when the main task has taken the first. *)
Definition new_connection : prog HWorld () := fun w =>
  let '((dispatch_publisher, _, _), w) := new_dispatcher_interconnect (sh_rest w) in
  Done tt (set_events (hn_events (hn w) ++ [Event_Init;
      Event_Connected IOHandle_new dispatch_publisher (EndpointHostname_from "config.itsallbroken.com")])
    (set_connection_id None (set_from_server true (set_to_client (mpsc_channel MOCK_QUEUE_LEN)
      (set_to_server (mpsc_channel MOCK_QUEUE_LEN) w))))).

(** ** A test *)

Definition run_step (s : test_step) : prog HWorld () :=
  match s with
  | Step_connect => new_connection
  | Step_handshake => id ← perform_handshake; see (Saw_id id)
  | Step_accept check => '(h, _) ← accept_hello check; see (Saw_message (Hello h))
  | Step_send msg => TestConn_send (Ok msg)
  | Step_expect check =>
      got ← TestConn_recv;
      _ ← of_panics (if check got then Some tt else None);
      see (Saw_message got)
  | Step_silence => fun w =>
      let '(p, c) := mpsc_poll_recv (cr_out (sh_rest w)) in
      match p with Pending => Done tt (set_to_server c w) | Ready _ => Panic w end
  | Step_dispatch correlation_id uri request => dispatch_magic_tunnel correlation_id uri request
  | Step_answer result =>
      dispatch ← get_application_dispatch;
      id ← gets (fun w => hn_connection_id (hn w));
      connection_id ← of_panics id;
      '(uri, request) ← of_panics (assume_magic_tunnel dispatch connection_id);
      see (Saw_request (d_correlation_id (td_dispatch dispatch)) uri request) ;;
      respond_magic_tunnel dispatch result
  | Step_read correlation_id =>
      got ← TestConn_recv;
      result ← of_panics (assume_magic_tunnel_response got correlation_id);
      see (Saw_result result)
  | Step_advance nanos => modify (fun w => set_clock (hn_clock (hn w) + nanos) w)
  | Step_close => TestConn_close
  | Step_shutdown => modify (fun w => set_stopped true (set_shutdown true w))
  end.

(** The client is suspended: the test goes on.  A failed assertion ends the
    test, of which nothing runs any more. *)
Definition next_step : prog HWorld () := fun w =>
  match hn_script (hn w) with
  | [] => Blocked w
  | s :: rest =>
      match run_step s (set_script rest w) with
      | Panic w' => Blocked (set_script [] w')
      | e => e
      end
  end.

(** A connection is suspended.  The state has one transport, so a test opens a
    connection when the actor of the one before has ended. *)
Definition conn_step : prog HWorld () := fun w =>
  match hn_script (hn w) with
  | Step_connect :: _ => Blocked w
  | _ => next_step w
  end.

(** *** The client's environment *)

#[local] Instance harness_conn : ConnEnv HWorld := world_env id 1.

Definition poll_from_server : prog HWorld (poll (option (result ServerToClient DecodingError))) := fun w =>
  let '(p, c) := mpsc_poll_recv (hn_to_client (hn w)) in Done p (set_to_client c w).

#[local] Instance harness_actor : ActorEnv HWorld := {|
  Incoming := unit;
  actor_stopped _ w := cr_stopped (sh_rest w);
  env_take_recv_stream := MockIO_take_recv_stream;
  env_poll_incoming _ := poll_from_server;
  env_poll_response := response_poll_next;
  env_suspend := conn_step;
  env_now w := Done (hn_clock (hn w)) w;
  env_update_metrics _ f := modify (upd (fun t => mk_conn_rest (cr_out t) (cr_stopped t)
    (cr_runtime t) (f (cr_metrics t)) (cr_rng t) (cr_host t) (cr_sent t) (cr_queued t)))
|}.

(** The budget of an actor: attempts of a send, polls of the loop. *)
Context (fuel n : nat).

(** A task is how it ended, if it did; a spawned actor runs when the main task
    next waits, and neither affects the other until then. *)
Definition test_task : Type := option (result () JoinError).

Definition run_spawned {V} (conn : ConnectionActor (W:=HWorld) (V:=V)) : prog HWorld test_task := fun w =>
  match ConnectionActor_run fuel n conn w with
  | Done _ w => Done (Some (Ok tt)) w
  | Panic w => Done (Some (Err mk_join_error)) w
  | Blocked w => Done None w
  end.

Definition join_spawned (t : test_task) : prog HWorld (result () JoinError) := fun w =>
  match t with
  | Some r => Done r (set_joined (hn_joined (hn w) ++ [r]) w)
  | None => Blocked w
  end.

(** The main task waits for an event: at most [k] steps of the test go on. *)
Fixpoint wait_event (k : nat) : prog HWorld selected := fun w =>
  match hn_events (hn w) with
  | e :: es => Done (Sel_Event e) (set_events es w)
  | [] =>
      if hn_shutdown (hn w) then Done Sel_Shutdown w
      else match k with
           | 0 => Blocked w
           | S k => (next_step ;; wait_event k) w
           end
  end.

(** A connection's token is a child of the shutdown's, cancelled with it. *)
#[local] Instance harness_entry {V} : EntryEnv HWorld V := {|
  Task := test_task;
  env_select w := wait_event (length (hn_script (hn w))) w;
  env_child_token := fun w => Done tt (set_stopped (hn_shutdown (hn w)) w);
  env_spawn _ conn := run_spawned conn;
  env_cancel _ := modify (set_stopped true);
  env_join := join_spawned;
  env_wait_shutdown w := if hn_shutdown (hn w) then Done tt w else Blocked w
|}.

(** ** [TestClient] *)

Context `{X509Lib} {C : Type} (r1_pem r2_pem : list u8) (cache_new : N -> C).

(** [TestClient::new]: the client is spawned; no connection yet. *)
Definition TestClient_new (rt : RuntimeBuilder) (version : BuildVersion) (rng : R)
  (script : list test_step) : HWorld :=
  snd (new_dispatcher_interconnect (mk_conn_rest (mpsc_channel MOCK_QUEUE_LEN) false rt
    (InstanceMetrics_default version) rng
    (mk_harness (mpsc_channel MOCK_QUEUE_LEN) false None [] false [] 0 script []) [] [])).

(** The client under the test, to its end; [TestClient::shutdown] awaits it and
    expects that it did not panic. *)
Definition run_test (events : nat) (rt : RuntimeBuilder) (version : BuildVersion) (rng : R)
  (script : list test_step) : exec HWorld () :=
  Main_entrypoint r1_pem r2_pem cache_new (fun w => Done tt w) events
    (Main_new (AppInfo_new (AppName_from "test") (AppVersion_from "0.0.0")))
    (TestClient_new rt version rng script).

(** The mock answers the client as the FFI's transport does. *)
Lemma MockIO_send_is_IOHandle_send m c : MockIO_send m c = IOHandle_send m c.
Proof. done. Qed.

End Harness.

