(* ===== verification/Integration.v ===== *)
(** * The integration tests

    Models [rc-x509-test-client-harness/tests/]: the tests as scripts of the
    harness ([test_step]) against the whole client, from [TestClient::new] to
    [TestClient::shutdown].  Each test is generalised from the values it is
    written with to every value, and shown to pass.  The proofs run the client
    symbolically ([Symbolic]), on a view of the state that the documented
    behaviour of the channels determines. *)

From stdpp Require Import base option list strings countable.
From Stdlib Require Import Strings.Byte NArith ZArith Lia.
From S2P Require Import Prelude Hash Certificate ConnectionId Codec TrustStore Mpsc Dispatch Runtime Fsm Actor Ffi World Entrypoint Symbolic Harness.

(** ** The tests *)

Section Tests.
Context `{ProtoTypes}.

(** [env!]: the variables of the build. *)
Record BuildEnv : Type := mk_build_env {
  CARGO_PKG_VERSION_MAJOR : string;
  CARGO_PKG_VERSION_MINOR : string;
  CARGO_PKG_VERSION_PATCH : string;
  CARGO_PKG_VERSION_PRE : string;
  BUILD_GIT_COMMIT_HASH : string
}.

Definition build_version (b : BuildEnv) : panics BuildVersion :=
  BuildVersion_from_build (CARGO_PKG_VERSION_MAJOR b) (CARGO_PKG_VERSION_MINOR b)
    (CARGO_PKG_VERSION_PATCH b) (CARGO_PKG_VERSION_PRE b) (Some (BUILD_GIT_COMMIT_HASH b)).

Definition is_hello (m : ClientToServer) : bool := match m with Hello _ => true | _ => false end.
Definition is_pong (m : ClientToServer) : bool := match m with Pong => true | _ => false end.
Definition is_rejection (m : ClientToServer) : bool :=
  match m with ReportProtocolError HandshakeConnectionIdRejected false => true | _ => false end.

Definition test_ping_pong : list test_step :=
  [Step_connect; Step_expect is_hello; Step_send Ping; Step_expect is_pong; Step_shutdown].

(** The assertions of [test_handshake] on the hello. *)
Definition handshake_hello (b : BuildEnv) (h : ClientHello) : bool :=
  let version := ch_version_info h in
  bool_decide (length (ch_client_nonce h) = 16)
  && bool_decide (Graceful_as_raw (ch_graceful h) = 0%N)
  && bool_decide (Ungraceful_as_raw (ch_ungraceful h) = 0%N)
  && bool_decide (LastConnected_as_seconds (ch_last_closed h) = 0%N)
  && match ch_reconnection_data h with None => true | Some _ => false end
  && bool_decide (app_name_str (ch_app_name h) = "test")
  && bool_decide (app_version_str (ch_app_version h) = "0.0.0")
  && bool_decide (u32_from_str (CARGO_PKG_VERSION_MAJOR b) = Some (BuildVersion_major version))
  && bool_decide (u32_from_str (CARGO_PKG_VERSION_MINOR b) = Some (BuildVersion_minor version))
  && bool_decide (u32_from_str (CARGO_PKG_VERSION_PATCH b) = Some (BuildVersion_patch version))
  && bool_decide (default "" (BuildVersion_pre version) = CARGO_PKG_VERSION_PRE b)
  && bool_decide (BuildVersion_commit version = Some (BUILD_GIT_COMMIT_HASH b)).

Definition test_handshake (b : BuildEnv) : list test_step :=
  [Step_connect; Step_accept (handshake_hello b); Step_silence; Step_send Ping; Step_expect is_pong;
   Step_shutdown].

(** The test's server nonce and identifier are the parameters. *)
Definition test_handshake_invalid_connection_id (server_nonce replay_friendly_id : list u8) :
  list test_step :=
  [Step_connect; Step_expect is_hello;
   Step_send (ClientHelloAck (UntrustedConnectionId_new server_nonce replay_friendly_id));
   Step_expect is_rejection; Step_send Ping; Step_silence; Step_shutdown].

(** What [test_connection_metrics] asserts of a hello, but for the duration. *)
Definition metrics_hello (seconds : N -> bool) (m : ClientToServer) : bool :=
  match m with
  | Hello h => bool_decide (Graceful_as_raw (ch_graceful h) = 0%N)
      && bool_decide (Ungraceful_as_raw (ch_ungraceful h) = 0%N)
      && seconds (LastConnected_as_seconds (ch_last_closed h))
  | _ => false
  end.

(** The test's delay, in nanoseconds, is the parameter. *)
Definition test_connection_metrics (delay : N) : list test_step :=
  [Step_connect; Step_expect (metrics_hello (fun s => bool_decide (s = 0%N))); Step_advance delay; Step_close;
   Step_connect; Step_expect (metrics_hello (fun s => bool_decide (delay / 1000000000 <= s)%N));
   Step_shutdown].

(** [test_dispatch_happy_path] and [test_dispatch_handler_error], by the result. *)
Definition test_dispatch (cid : CorrelationId) (uri : string) (request : list u8)
  (result : MagicTunnelResult) : list test_step :=
  [Step_connect; Step_handshake; Step_dispatch cid uri request; Step_answer result; Step_read cid;
   Step_shutdown].

End Tests.

(** ** Symbolic execution *)

Section Views.
Context `{ProtoTypes} `{!Serialisable DispatchRequestPayload} `{!ResponsePayload} `{AwsDigest} `{UuidLib}
  `{MpscLaws} {R : Type} `{!Rng R}.
Abbreviation HW := (HWorld (R:=R)).

Record hview : Type := mk_hview {
  hv_req : chan Dispatch;
  hv_resp : chan DispatchResult;
  hv_out : chan ClientToServer;
  hv_in : chan (result ServerToClient DecodingError);
  hv_stopped : bool;
  hv_rng : R;
  hv_fresh : bool;
  hv_id : option V1ConnectionId;
  hv_events : list ConnectionEvent;
  hv_shutdown : bool;
  hv_joined : list (result () JoinError);
  hv_clock : N;
  hv_metrics : InstanceMetrics;
  hv_script : list test_step;
  hv_seen : list observation
}.

Definition test_view (w : HW) : hview :=
  mk_hview (mpsc_view (sh_req w)) (mpsc_view (sh_resp w)) (mpsc_view (cr_out (sh_rest w)))
    (mpsc_view (hn_to_client (hn w))) (cr_stopped (sh_rest w)) (cr_rng (sh_rest w))
    (hn_from_server (hn w)) (hn_connection_id (hn w)) (hn_events (hn w)) (hn_shutdown (hn w))
    (hn_joined (hn w)) (hn_clock (hn w)) (cr_metrics (sh_rest w)) (hn_script (hn w)) (hn_seen (hn w)).

Definition with_req (x : chan Dispatch) (v : hview) : hview :=
  mk_hview x (hv_resp v) (hv_out v) (hv_in v) (hv_stopped v) (hv_rng v) (hv_fresh v) (hv_id v)
    (hv_events v) (hv_shutdown v) (hv_joined v) (hv_clock v) (hv_metrics v) (hv_script v)
    (hv_seen v).
Definition with_resp (x : chan DispatchResult) (v : hview) : hview :=
  mk_hview (hv_req v) x (hv_out v) (hv_in v) (hv_stopped v) (hv_rng v) (hv_fresh v) (hv_id v)
    (hv_events v) (hv_shutdown v) (hv_joined v) (hv_clock v) (hv_metrics v) (hv_script v)
    (hv_seen v).
Definition with_out (x : chan ClientToServer) (v : hview) : hview :=
  mk_hview (hv_req v) (hv_resp v) x (hv_in v) (hv_stopped v) (hv_rng v) (hv_fresh v) (hv_id v)
    (hv_events v) (hv_shutdown v) (hv_joined v) (hv_clock v) (hv_metrics v) (hv_script v)
    (hv_seen v).
Definition with_in (x : chan (result ServerToClient DecodingError)) (v : hview) : hview :=
  mk_hview (hv_req v) (hv_resp v) (hv_out v) x (hv_stopped v) (hv_rng v) (hv_fresh v) (hv_id v)
    (hv_events v) (hv_shutdown v) (hv_joined v) (hv_clock v) (hv_metrics v) (hv_script v)
    (hv_seen v).
Definition with_stopped (x : bool) (v : hview) : hview :=
  mk_hview (hv_req v) (hv_resp v) (hv_out v) (hv_in v) x (hv_rng v) (hv_fresh v) (hv_id v)
    (hv_events v) (hv_shutdown v) (hv_joined v) (hv_clock v) (hv_metrics v) (hv_script v)
    (hv_seen v).
Definition with_rng (x : R) (v : hview) : hview :=
  mk_hview (hv_req v) (hv_resp v) (hv_out v) (hv_in v) (hv_stopped v) x (hv_fresh v) (hv_id v)
    (hv_events v) (hv_shutdown v) (hv_joined v) (hv_clock v) (hv_metrics v) (hv_script v)
    (hv_seen v).
Definition with_fresh (x : bool) (v : hview) : hview :=
  mk_hview (hv_req v) (hv_resp v) (hv_out v) (hv_in v) (hv_stopped v) (hv_rng v) x (hv_id v)
    (hv_events v) (hv_shutdown v) (hv_joined v) (hv_clock v) (hv_metrics v) (hv_script v)
    (hv_seen v).
Definition with_id (x : option V1ConnectionId) (v : hview) : hview :=
  mk_hview (hv_req v) (hv_resp v) (hv_out v) (hv_in v) (hv_stopped v) (hv_rng v) (hv_fresh v) x
    (hv_events v) (hv_shutdown v) (hv_joined v) (hv_clock v) (hv_metrics v) (hv_script v)
    (hv_seen v).
Definition with_events (x : list ConnectionEvent) (v : hview) : hview :=
  mk_hview (hv_req v) (hv_resp v) (hv_out v) (hv_in v) (hv_stopped v) (hv_rng v) (hv_fresh v)
    (hv_id v) x (hv_shutdown v) (hv_joined v) (hv_clock v) (hv_metrics v) (hv_script v) (hv_seen v).
Definition with_shutdown (x : bool) (v : hview) : hview :=
  mk_hview (hv_req v) (hv_resp v) (hv_out v) (hv_in v) (hv_stopped v) (hv_rng v) (hv_fresh v)
    (hv_id v) (hv_events v) x (hv_joined v) (hv_clock v) (hv_metrics v) (hv_script v) (hv_seen v).
Definition with_joined (x : list (result () JoinError)) (v : hview) : hview :=
  mk_hview (hv_req v) (hv_resp v) (hv_out v) (hv_in v) (hv_stopped v) (hv_rng v) (hv_fresh v)
    (hv_id v) (hv_events v) (hv_shutdown v) x (hv_clock v) (hv_metrics v) (hv_script v) (hv_seen v).
Definition with_clock (x : N) (v : hview) : hview :=
  mk_hview (hv_req v) (hv_resp v) (hv_out v) (hv_in v) (hv_stopped v) (hv_rng v) (hv_fresh v)
    (hv_id v) (hv_events v) (hv_shutdown v) (hv_joined v) x (hv_metrics v) (hv_script v) (hv_seen v).
Definition with_metrics (x : InstanceMetrics) (v : hview) : hview :=
  mk_hview (hv_req v) (hv_resp v) (hv_out v) (hv_in v) (hv_stopped v) (hv_rng v) (hv_fresh v)
    (hv_id v) (hv_events v) (hv_shutdown v) (hv_joined v) (hv_clock v) x (hv_script v) (hv_seen v).
Definition with_script (x : list test_step) (v : hview) : hview :=
  mk_hview (hv_req v) (hv_resp v) (hv_out v) (hv_in v) (hv_stopped v) (hv_rng v) (hv_fresh v)
    (hv_id v) (hv_events v) (hv_shutdown v) (hv_joined v) (hv_clock v) (hv_metrics v) x (hv_seen v).
Definition with_seen (x : list observation) (v : hview) : hview :=
  mk_hview (hv_req v) (hv_resp v) (hv_out v) (hv_in v) (hv_stopped v) (hv_rng v) (hv_fresh v)
    (hv_id v) (hv_events v) (hv_shutdown v) (hv_joined v) (hv_clock v) (hv_metrics v) (hv_script v)
    x.

Abbreviation runs := (runs_on (test_view)).

Definition chan_tail {T} (q : list T) (c : chan T) : chan T := mk_chan q (c_cap c) (c_rx c) (c_tx c).
Definition chan_open {T} (c : chan T) : Prop := c_rx c = true /\ ~ chan_full c.

Lemma test_see o v (Q : () -> hview -> Prop) :
  Q tt (with_seen (hv_seen v ++ [o]) v) -> runs (see o) v Q.
Proof. intros HQ w <-. by eexists _, _. Qed.

(** *** The transport *)

Lemma test_server_recv v m q (Q : option ClientToServer -> hview -> Prop) :
  c_queue (hv_out v) = m :: q -> Q (Some m) (with_out (chan_tail q (hv_out v)) v) ->
  runs MockIOServer_recv v Q.
Proof.
  intros E HQ w <-. unfold MockIOServer_recv.
  destruct (mpsc_poll_recv (cr_out (sh_rest w))) as [p c] eqn:P. apply mpsc_poll_recv_view in P.
  unfold chan_poll_recv in P. simpl in E, HQ. rewrite E in P. injection P as <- P.
  eexists _, _. split; [reflexivity|]. unfold test_view. simpl. by rewrite <- P.
Qed.

Lemma test_server_send v m (Q : result () ConnectionErr -> hview -> Prop) :
  chan_open (hv_in v) -> Q (Ok tt) (with_in (chan_push m (hv_in v)) v) ->
  runs (MockIOServer_send m) v Q.
Proof.
  intros [Rx F] HQ w <-. unfold MockIOServer_send.
  destruct (mpsc_poll_send m (hn_to_client (hn w))) as [p c] eqn:P. apply mpsc_poll_send_view in P.
  unfold chan_poll_send in P. simpl in Rx, F, HQ. rewrite Rx, decide_False in P by done.
  injection P as <- P. eexists _, _. split; [reflexivity|]. unfold test_view. simpl. by rewrite <- P.
Qed.

Lemma test_client_recv v (Q : poll (option (result ServerToClient DecodingError)) -> hview -> Prop) :
  (let '(p, c) := chan_poll_recv (hv_in v) in Q p (with_in c v)) -> runs poll_from_server v Q.
Proof.
  intros HQ w <-. unfold poll_from_server.
  destruct (mpsc_poll_recv (hn_to_client (hn w))) as [p c] eqn:P. apply mpsc_poll_recv_view in P.
  simpl in HQ. rewrite P in HQ. eexists _, _. split; [reflexivity | exact HQ].
Qed.

Lemma test_response_recv v rx (Q : poll (option DispatchResult) -> hview -> Prop) :
  (let '(p, c) := chan_poll_recv (hv_resp v) in Q p (with_resp c v)) ->
  runs (response_poll_next rx) v Q.
Proof.
  intros HQ w <-. unfold response_poll_next.
  destruct (mpsc_poll_recv (sh_resp w)) as [p c] eqn:P. apply mpsc_poll_recv_view in P.
  simpl in HQ. rewrite P in HQ. eexists _, _. split; [reflexivity | exact HQ].
Qed.

Lemma test_request_recv v st (Q : poll (option Dispatch) -> hview -> Prop) :
  (let '(p, c) := chan_poll_recv (hv_req v) in Q p (with_req c v)) ->
  runs (DispatchStream_poll_next st) v Q.
Proof.
  intros HQ w <-. unfold DispatchStream_poll_next.
  destruct (mpsc_poll_recv (sh_req w)) as [p c] eqn:P. apply mpsc_poll_recv_view in P.
  simpl in HQ. rewrite P in HQ. eexists _, _. split; [reflexivity | exact HQ].
Qed.

Lemma test_respond v r x (Q : result () DispatchResponseQueueClosed -> hview -> Prop) :
  chan_open (hv_resp v) -> Q (Ok tt) (with_resp (chan_push x (hv_resp v)) v) ->
  runs (DispatchResponder_send_response id 1 r x) v Q.
Proof.
  intros [Rx F] HQ w <-. unfold DispatchResponder_send_response, mbind, prog_bind. simpl.
  destruct (mpsc_poll_send x (sh_resp w)) as [p c] eqn:P. apply mpsc_poll_send_view in P.
  unfold chan_poll_send in P. simpl in Rx, F, HQ. rewrite Rx, decide_False in P by done.
  injection P as <- P. eexists _, _. split; [reflexivity|]. unfold test_view. simpl. by rewrite <- P.
Qed.

(** *** The client's environment *)

#[local] Instance harness_conn' : ConnEnv HW := world_env id 1.
#[local] Instance harness_actor' : ActorEnv HW := harness_actor.

Lemma test_client_send fuel m (tok : CancellationToken) v (Q : () -> hview -> Prop) :
  chan_open (hv_out v) -> Q tt (with_out (chan_push m (hv_out v)) v) ->
  runs (retry_send (S fuel) m tok) v Q.
Proof.
  intros [Rx F] HQ w <-. cbn [retry_send env_send harness_conn' world_env].
  unfold world_send, IOHandle_send, mbind, prog_bind.
  destruct (mpsc_try_send m (cr_out (sh_rest w))) as [r c] eqn:P. apply mpsc_try_send_view in P.
  unfold chan_try_send in P. simpl in Rx, F, HQ. rewrite Rx, decide_False in P by done.
  injection P as <- P. eexists _, _. split; [reflexivity|]. unfold test_view. simpl. by rewrite <- P.
Qed.

Lemma test_client_dispatch p d v (Q : result () DispatchError -> hview -> Prop) :
  chan_open (hv_req v) -> Q (Ok tt) (with_req (chan_push d (hv_req v)) v) ->
  runs (env_dispatch p d) v Q.
Proof.
  intros [Rx F] HQ w <-. cbn [env_dispatch harness_conn' world_env].
  unfold world_dispatch, DispatchPublisher_dispatch, req_try_send, mbind, prog_bind.
  destruct (mpsc_try_send d (sh_req w)) as [r c] eqn:P. apply mpsc_try_send_view in P.
  unfold chan_try_send in P. simpl in Rx, F, HQ. rewrite Rx, decide_False in P by done.
  injection P as <- P. eexists _, _. split; [reflexivity|]. unfold test_view. simpl. by rewrite <- P.
Qed.

Lemma test_take v (Q : option () -> hview -> Prop) : hv_fresh v = true ->
  Q (Some tt) (with_fresh false v) -> runs MockIO_take_recv_stream v Q.
Proof.
  intros T HQ w <-. simpl in T. unfold MockIO_take_recv_stream. rewrite T. by eexists _, _.
Qed.

Context (Works : entropy).

Lemma test_nonce v (Q : IdNonce -> hview -> Prop) :
  (forall bs r', drawn (hv_rng v) bs r' -> Q (mk_nonce bs) (with_rng r' v)) ->
  runs (IdNonce_default (R:=HW) (H:=world_rng)) v Q.
Proof.
  intros HQ w <-. unfold IdNonce_default, rand_fill at 1, world_rng.
  destruct (Works (cr_rng (sh_rest w))) as (bs & r' & E & L & NZ). rewrite E, decide_False by done.
  eexists _, _. split; [reflexivity|]. by apply HQ.
Qed.

(** *** One turn of the loop *)

Context {V : Type} (fuel : nat).
Abbreviation loop := (actor_loop (W:=HW) (V:=V)).

(** Neither the host nor the server has anything for the client. *)
Definition quiet (v : hview) : Prop :=
  hv_stopped v = false /\ c_queue (hv_resp v) = [] /\ c_tx (hv_resp v) <> 0 /\
  c_queue (hv_in v) = [] /\ c_tx (hv_in v) <> 0.

Definition not_connect (s : test_step) : Prop := match s with Step_connect => False | _ => True end.

Lemma test_next s rest v (Q : () -> hview -> Prop) : hv_script v = s :: rest ->
  runs (run_step s) (with_script rest v) Q -> runs next_step v Q.
Proof.
  intros Sc K w <-. unfold next_step. simpl in Sc. rewrite Sc.
  destruct (K (set_script rest w) eq_refl) as ([] & w' & E & HQ). exists tt, w'. by rewrite E.
Qed.

(** Nothing to do: the test goes on. *)
Lemma turn_idle n rx st self v s rest Q : quiet v -> hv_script v = s :: rest -> not_connect s ->
  runs (run_step s) (with_script rest v) (fun _ v' => runs (loop fuel n rx st self) v' Q) ->
  runs (loop fuel (S n) rx st self) v Q.
Proof.
  intros (S & Er & Tr & Ei & Ti) Sc Nc K. cbn [actor_loop].
  apply runs_bind, (runs_gets _ hv_stopped); [done|]. rewrite S.
  apply runs_bind, test_response_recv. unfold chan_poll_recv. rewrite Er, decide_False by done.
  apply runs_bind, test_client_recv. unfold chan_poll_recv. cbn [hv_in with_resp].
  rewrite Ei, decide_False by done.
  apply runs_bind. intros w Ew. cbn [env_suspend harness_actor' harness_actor]. unfold conn_step.
  assert (hn_script (hn w) = s :: rest) as E.
  { change (hv_script (test_view w) = s :: rest). by rewrite Ew. }
  assert (test_view w = v) as Ev.
  { rewrite Ew. destruct v as [[] [] [] []]. simpl in *. by subst. }
  rewrite E. pose proof (test_next s rest v _ Sc K w Ev) as N. by destruct s.
Qed.

(** A result of the host goes to the server first. *)
Lemma turn_result n rx st self v x q Q : hv_stopped v = false -> c_queue (hv_resp v) = x :: q ->
  runs (dispatch_response fuel self x) (with_resp (chan_tail q (hv_resp v)) v)
    (fun _ v' => runs (loop fuel n rx st self) v' Q) ->
  runs (loop fuel (S n) rx st self) v Q.
Proof.
  intros S E K. cbn [actor_loop]. apply runs_bind, (runs_gets _ hv_stopped); [done|]. rewrite S.
  apply runs_bind, test_response_recv. unfold chan_poll_recv. rewrite E. by apply runs_bind.
Qed.

(** Otherwise a message of the server is processed. *)
Lemma turn_message n rx st self v x q Q : hv_stopped v = false ->
  c_queue (hv_resp v) = [] -> c_tx (hv_resp v) <> 0 -> c_queue (hv_in v) = x :: q ->
  runs (server_message fuel self x) (with_in (chan_tail q (hv_in v)) v)
    (fun self v' => runs (loop fuel n rx st self) v' Q) ->
  runs (loop fuel (S n) rx st self) v Q.
Proof.
  intros S Er Tr E K. cbn [actor_loop]. apply runs_bind, (runs_gets _ hv_stopped); [done|]. rewrite S.
  apply runs_bind, test_response_recv. unfold chan_poll_recv. rewrite Er, decide_False by done.
  apply runs_bind, test_client_recv. unfold chan_poll_recv. cbn [hv_in with_resp]. rewrite E.
  apply runs_bind. destruct v. exact K.
Qed.

(** The host's responders are gone: the loop ends. *)
Lemma turn_gone n rx st self v (Q : () -> hview -> Prop) : hv_stopped v = false ->
  c_queue (hv_resp v) = [] -> c_tx (hv_resp v) = 0 -> Q tt v ->
  runs (loop fuel (S n) rx st self) v Q.
Proof.
  intros S E T K. cbn [actor_loop]. apply runs_bind, (runs_gets _ hv_stopped); [done|]. rewrite S.
  apply runs_bind, test_response_recv. unfold chan_poll_recv. rewrite E, decide_True by done.
  apply runs_ret. by destruct v.
Qed.

(** The connection is cancelled: the loop ends. *)
Lemma turn_stopped n rx st self v (Q : () -> hview -> Prop) : hv_stopped v = true -> Q tt v ->
  runs (loop fuel (S n) rx st self) v Q.
Proof.
  intros S K. cbn [actor_loop]. apply runs_bind, (runs_gets _ hv_stopped); [done|]. rewrite S.
  by apply runs_ret.
Qed.

(** *** The steps of a test *)

Context `{!AwsDigestLaws} `{!SerialisableLaws DispatchRequestPayload} `{!ResponsePayloadLaws}.

Definition test_ack (cn sn : list u8) : ServerToClient :=
  ClientHelloAck (UntrustedConnectionId_new sn (ConnectionId_as_bytes (derived_id cn sn))).

Lemma test_send_step v m (Q : () -> hview -> Prop) : chan_open (hv_in v) ->
  Q tt (with_in (chan_push (Ok m) (hv_in v)) v) -> runs (run_step (Step_send m)) v Q.
Proof.
  intros O K. cbn [run_step]. unfold TestConn_send. apply runs_bind, test_server_send; [done|].
  by apply runs_ret.
Qed.

Lemma test_expect_step v check m q (Q : () -> hview -> Prop) : c_queue (hv_out v) = m :: q ->
  check m = true ->
  Q tt (with_seen (hv_seen v ++ [Saw_message m]) (with_out (chan_tail q (hv_out v)) v)) ->
  runs (run_step (Step_expect check)) v Q.
Proof.
  intros E C K. cbn [run_step]. unfold TestConn_recv. do 2 apply runs_bind.
  eapply test_server_recv; [exact E|]. eapply runs_some; [reflexivity|]. apply runs_bind.
  eapply (runs_some _ tt); [by rewrite C|]. by apply test_see.
Qed.

Lemma test_silence_step v (Q : () -> hview -> Prop) : c_queue (hv_out v) = [] ->
  c_tx (hv_out v) <> 0 -> Q tt v -> runs (run_step Step_silence) v Q.
Proof.
  intros E T K w <-. cbn [run_step].
  destruct (mpsc_poll_recv (cr_out (sh_rest w))) as [p c] eqn:P. apply mpsc_poll_recv_view in P.
  unfold chan_poll_recv in P. simpl in E, T. rewrite E, decide_False in P by done.
  injection P as <- P. eexists _, _. split; [reflexivity|].
  unfold test_view in *. simpl. rewrite <- P. exact K.
Qed.

Lemma test_accept v check h q (Q : ClientHello * ConnectionId -> hview -> Prop) :
  c_queue (hv_out v) = Hello h :: q -> check h = true -> chan_open (hv_in v) ->
  (forall sn r', Q (h, derived_id (ch_client_nonce h) sn)
    (with_in (chan_push (Ok (test_ack (ch_client_nonce h) sn)) (hv_in v))
      (with_rng r' (with_out (chan_tail q (hv_out v)) v)))) ->
  runs (accept_hello check) v Q.
Proof.
  intros E C O K. unfold accept_hello, TestConn_recv, TestConn_send.
  do 2 apply runs_bind. eapply test_server_recv; [exact E|]. eapply runs_some; [reflexivity|].
  apply runs_bind. eapply (runs_some _ h); [by rewrite C|]. apply runs_bind, test_nonce. intros sn r' _.
  apply runs_bind. eapply runs_some; [apply ConnectionId_new_spec|]. apply runs_bind, runs_bind.
  apply test_server_send; [exact O|]. apply runs_ret, runs_ret, K.
Qed.

Lemma test_handshake_step v h q (Q : () -> hview -> Prop) : c_queue (hv_out v) = Hello h :: q ->
  chan_open (hv_in v) ->
  (forall sn r', let id := derived_id (ch_client_nonce h) sn in
    Q tt (with_seen (hv_seen v ++ [Saw_id id]) (with_id (Some (conn_id_to_proto id))
      (with_in (chan_push (Ok (test_ack (ch_client_nonce h) sn)) (hv_in v))
        (with_rng r' (with_out (chan_tail q (hv_out v)) v)))))) ->
  runs (run_step Step_handshake) v Q.
Proof.
  intros E O K. cbn [run_step]. unfold perform_handshake. do 2 apply runs_bind.
  eapply test_accept; [exact E | done | exact O |]. intros sn r'.
  apply runs_bind, (runs_modify _ (with_id (Some (conn_id_to_proto (derived_id (ch_client_nonce h) sn)))));
    [done|]. apply runs_ret, test_see, K.
Qed.

Lemma test_accept_step v check h q (Q : () -> hview -> Prop) : c_queue (hv_out v) = Hello h :: q ->
  check h = true -> chan_open (hv_in v) ->
  (forall sn r', Q tt (with_seen (hv_seen v ++ [Saw_message (Hello h)])
      (with_in (chan_push (Ok (test_ack (ch_client_nonce h) sn)) (hv_in v))
        (with_rng r' (with_out (chan_tail q (hv_out v)) v))))) ->
  runs (run_step (Step_accept check)) v Q.
Proof.
  intros E C O K. cbn [run_step]. apply runs_bind. eapply test_accept; [exact E | exact C | exact O |].
  intros sn r'. apply test_see, K.
Qed.

Definition test_signature : option DetachedSignature :=
  Some (mk_detached (replicate 16 x2a) [x00; x00; x00; x00]).

Definition test_request (id : V1ConnectionId) (uri : string) (request : list u8) : Payload :=
  Payload_from (encode (mk_request_payload (Some id)
    (Some (Request_MagicTunnel (mk_magic_tunnel_request uri request))))).

Definition test_result (cid : CorrelationId) (r : MagicTunnelResult) : DispatchResult :=
  mk_dispatch_result cid (Ok (response_payload_new (Some (mk_magic_tunnel_response (Some r))))).

Lemma test_dispatch_step v cid uri request id (Q : () -> hview -> Prop) : hv_id v = Some id ->
  chan_open (hv_in v) ->
  Q tt (with_in (chan_push (Ok (ServerDispatch cid (test_request id uri request) test_signature))
    (hv_in v)) v) ->
  runs (run_step (Step_dispatch cid uri request)) v Q.
Proof.
  intros E O K. cbn [run_step]. unfold dispatch_magic_tunnel, TestConn_send.
  apply runs_bind, (runs_gets _ hv_id); [done|]. apply runs_bind. eapply runs_some; [exact E|].
  apply runs_bind, test_server_send; [done|]. by apply runs_ret.
Qed.

Lemma test_answer_step v cid uri request id r q (Q : () -> hview -> Prop) : hv_id v = Some id ->
  c_queue (hv_req v) = mk_dispatch cid (test_request id uri request) :: q -> chan_open (hv_resp v) ->
  Q tt (with_req (chan_tail q (hv_req v)) (with_resp (chan_push (test_result cid r) (hv_resp v))
    (with_seen (hv_seen v ++ [Saw_request cid uri request]) v))) ->
  runs (run_step (Step_answer r)) v Q.
Proof.
  intros Ei E [Rx F] K. cbn [run_step]. unfold get_application_dispatch.
  repeat apply runs_bind. apply test_request_recv. unfold chan_poll_recv. rewrite E.
  apply runs_bind, runs_ret, runs_bind. eapply runs_some; [reflexivity|]. apply runs_bind.
  eapply (runs_modify _ (fun v => with_resp (chan_clone_tx (hv_resp v)) v)).
  { intros w. unfold test_view. simpl. by rewrite view_clone_tx. }
  apply runs_ret, runs_bind, (runs_gets _ hv_id); [done|]. apply runs_bind. eapply runs_some; [exact Ei|].
  apply runs_bind. unfold assume_magic_tunnel, test_request, decode, encode. simpl d_payload.
  simpl Payload_as_bytes. eapply runs_some; [rewrite message_roundtrip; simpl; by rewrite decide_True|].
  apply runs_bind, test_see. unfold respond_magic_tunnel, TestDispatch_respond.
  apply runs_bind, test_respond; [by split|].
  apply runs_bind. eapply (runs_modify _ (fun v => with_resp (chan_drop_tx (hv_resp v)) v)).
  { intros w. unfold test_view. simpl. by rewrite view_drop_tx. }
  apply runs_ret. simpl. rewrite chan_drop_clone_push. exact K.
Qed.

Lemma test_read_step v cid r q (Q : () -> hview -> Prop) :
  c_queue (hv_out v) = response_message (test_result cid r) :: q ->
  Q tt (with_seen (hv_seen v ++ [Saw_result r]) (with_out (chan_tail q (hv_out v)) v)) ->
  runs (run_step (Step_read cid)) v Q.
Proof.
  intros E K. cbn [run_step]. unfold TestConn_recv. do 2 apply runs_bind.
  eapply test_server_recv; [exact E|]. eapply runs_some; [reflexivity|]. apply runs_bind.
  eapply (runs_some _ r); [|by apply test_see]. unfold assume_magic_tunnel_response, response_message.
  simpl. rewrite decide_True by done. by rewrite response_payload_field.
Qed.

(** The server's and the host's ends are dropped. *)
Definition closed (v : hview) : hview :=
  with_req (chan_drop_rx (hv_req v)) (with_resp (chan_drop_tx (hv_resp v))
    (with_out (chan_drop_rx (hv_out v)) (with_in (chan_drop_tx (hv_in v)) v))).

Lemma test_close_step v (Q : () -> hview -> Prop) : Q tt (closed v) -> runs (run_step Step_close) v Q.
Proof.
  intros K. eapply (runs_modify _ closed); [|exact K].
  intros w. unfold test_view, closed. simpl. by rewrite !view_drop_rx, !view_drop_tx.
Qed.

Lemma test_shutdown_step v (Q : () -> hview -> Prop) : Q tt (with_stopped true (with_shutdown true v)) ->
  runs (run_step Step_shutdown) v Q.
Proof. intros K. by apply (runs_modify _ (fun v => with_stopped true (with_shutdown true v))). Qed.

Lemma test_advance_step nanos v (Q : () -> hview -> Prop) : Q tt (with_clock (hv_clock v + nanos)%N v) ->
  runs (run_step (Step_advance nanos)) v Q.
Proof. intros K. by apply (runs_modify _ (fun v => with_clock (hv_clock v + nanos)%N v)). Qed.

(** *** What the client does with a message *)

(** The client accepts the server's acknowledgement, with the server's identifier. *)
Lemma client_ack (self : ConnectionActor (V:=V)) f cn sn v (Q : ConnectionActor -> hview -> Prop) :
  ca_delegate self = mk_delegate (State_Handshaking f) -> hs_nonce (fsm_state f) = mk_nonce cn ->
  (forall r', Q (with_delegate self
      (mk_delegate (State_Active (Fsm_into_state f (mk_active (derived_id cn sn)))))) (with_rng r' v)) ->
  runs (server_message fuel self (Ok (test_ack cn sn))) v Q.
Proof.
  intros E N K. unfold server_message, MessageDelegate_process. rewrite E.
  cbn [delegate_state MessageDelegate_process_impl State_process Handshaking_process test_ack].
  repeat apply runs_bind. apply test_nonce. intros bs r' _. apply runs_bind.
  eapply runs_some; [apply verify_outcome|]. rewrite N. cbn [IdNonce_as_bytes uci_server_nonce uci_id].
  rewrite decide_False by (intros []; done). apply runs_ret, runs_ret, runs_ret, K.
Qed.

(** It rejects an identifier that is not derived from the nonces. *)
Lemma client_reject (self : ConnectionActor (V:=V)) f cn sn id v (Q : ConnectionActor -> hview -> Prop) :
  ca_delegate self = mk_delegate (State_Handshaking f) -> hs_nonce (fsm_state f) = mk_nonce cn ->
  ConnectionId_as_bytes (derived_id cn sn) <> id -> chan_open (hv_out v) ->
  (forall r' e, Q (with_delegate self (mk_delegate (State_Error e)))
    (with_out (chan_push (ReportProtocolError HandshakeConnectionIdRejected false) (hv_out v)) (with_rng r' v))) ->
  runs (server_message (S fuel) self (Ok (ClientHelloAck (UntrustedConnectionId_new sn id)))) v Q.
Proof.
  intros E N D O K. unfold server_message, MessageDelegate_process. rewrite E.
  cbn [delegate_state MessageDelegate_process_impl State_process Handshaking_process].
  repeat apply runs_bind. apply test_nonce. intros bs r' _. apply runs_bind.
  eapply runs_some; [apply verify_outcome|]. rewrite N. cbn [IdNonce_as_bytes uci_server_nonce uci_id].
  rewrite decide_True by done. unfold Fsm_protocol_error. apply runs_bind, test_client_send; [exact O|].
  apply runs_ret, runs_ret, runs_ret, K.
Qed.

(** It answers a ping unless it is in error. *)
Lemma client_ping (self : ConnectionActor (V:=V)) s v (Q : ConnectionActor -> hview -> Prop) :
  ca_delegate self = mk_delegate s -> match s with State_Error _ => False | _ => True end ->
  chan_open (hv_out v) -> Q self (with_out (chan_push Pong (hv_out v)) v) ->
  runs (server_message (S fuel) self (Ok Ping)) v Q.
Proof.
  intros D S O K. unfold server_message, MessageDelegate_process.
  destruct self as [tok rx d m]; simpl in D; subst d. destruct s as [f|f|f|f]; try done;
    cbn [ca_delegate delegate_state MessageDelegate_process_impl State_process Handshaking_process
      PreHandshake_process Active_process];
    do 3 apply runs_bind; (apply test_client_send; [exact O|]); by apply runs_ret, runs_ret, runs_ret.
Qed.

Lemma client_ignores (self : ConnectionActor (V:=V)) e msg v (Q : ConnectionActor -> hview -> Prop) :
  ca_delegate self = mk_delegate (State_Error e) -> Q self v ->
  runs (server_message fuel self msg) v Q.
Proof.
  intros E K. unfold server_message, MessageDelegate_process. rewrite E.
  cbn [delegate_state MessageDelegate_process_impl]. do 2 apply runs_bind. apply runs_ret, runs_ret, runs_ret.
  by destruct self; simpl in *; subst.
Qed.

(** An active client forwards a request signed like the harness's. *)
Lemma client_forwards (self : ConnectionActor (V:=V)) f id payload v (Q : ConnectionActor -> hview -> Prop) :
  ca_delegate self = mk_delegate (State_Active f) -> chan_open (hv_req v) ->
  Q self (with_req (chan_push (mk_dispatch id payload) (hv_req v)) v) ->
  runs (server_message fuel self (Ok (ServerDispatch id payload test_signature))) v Q.
Proof.
  intros E O K. unfold server_message, MessageDelegate_process. rewrite E.
  cbn [delegate_state MessageDelegate_process_impl State_process Active_process Active_handle_dispatch
    test_signature].
  do 3 apply runs_bind. apply test_client_dispatch; [done|]. apply runs_ret, runs_ret, runs_ret.
  by destruct self; simpl in *; subst.
Qed.

(** *** An actor, from its start to its end *)

(** The hello of a client with these metrics. *)
Definition hello_with (info : AppInfo) (m : InstanceMetrics) (bs : list u8) : ClientHello :=
  mk_client_hello bs (im_graceful_disconnect m) (im_ungraceful_disconnect m)
    (InstanceMetrics_last_conn_duration m) None (im_version m) (AppInfo_name info) (AppInfo_version info).

Lemma client_hello publisher info (ver : V) v (Q : MessageDelegate -> hview -> Prop) :
  chan_open (hv_out v) ->
  (forall f bs r', drawn (hv_rng v) bs r' -> hs_nonce (fsm_state f) = mk_nonce bs ->
    Q (mk_delegate (State_Handshaking f))
      (with_out (chan_push (Hello (hello_with info (hv_metrics v) bs)) (hv_out v)) (with_rng r' v))) ->
  runs (MessageDelegate_send_hello (S fuel) (MessageDelegate_new tt tt publisher info ver)) v Q.
Proof.
  intros O K. unfold MessageDelegate_send_hello.
  cbn [delegate_state MessageDelegate_new State_send_hello]. unfold PreHandshake_send_hello, build_hello.
  do 3 apply runs_bind. apply test_nonce. intros bs r' L. apply runs_bind, (runs_gets _ hv_metrics); [done|].
  apply runs_ret, runs_bind, test_client_send; [done|]. apply runs_ret, runs_ret.
  by eapply (K (mk_fsm _ _ _ _ (mk_handshaking (mk_nonce bs)))).
Qed.

(** It says hello, loops, and records how long it lasted. *)
Definition lasted (start : N) (v : hview) : hview :=
  with_metrics (InstanceMetrics_set_last_conn_duration (hv_clock v - start) (hv_metrics v)) v.

Lemma client_actor n publisher info (ver : V) rx v (Q : () -> hview -> Prop) :
  hv_fresh v = true -> chan_open (hv_out v) ->
  (forall self f bs r', drawn (hv_rng v) bs r' -> ca_delegate self = mk_delegate (State_Handshaking f) ->
    hs_nonce (fsm_state f) = mk_nonce bs ->
    runs (loop (S fuel) n rx tt self)
      (with_out (chan_push (Hello (hello_with info (hv_metrics v) bs)) (hv_out v))
        (with_rng r' (with_fresh false v)))
      (fun _ v' => Q tt (lasted (hv_clock v) v'))) ->
  runs (ConnectionActor_run (W:=HW) (V:=V) (S fuel) n
    (ConnectionActor_new tt (MessageDelegate_new tt tt publisher info ver) rx tt)) v Q.
Proof.
  intros F O K. unfold ConnectionActor_run, run_loop.
  apply runs_bind, (runs_gets _ hv_clock); [done|]. do 2 apply runs_bind.
  eapply runs_some; [reflexivity|]. apply runs_bind, test_take; [done|]. apply runs_bind.
  eapply runs_some; [reflexivity|]. apply runs_bind, client_hello; [exact O|]. intros f bs r' L N.
  eapply runs_weaken; [by eapply K|]. intros [] v' HQ.
  apply runs_bind, (runs_gets _ hv_clock); [done|].
  by apply (runs_modify _ (fun u => with_metrics (InstanceMetrics_set_last_conn_duration
    (hv_clock v' - hv_clock v) (hv_metrics u)) u)).
Qed.

(** *** The main task *)

Context (n : nat).
#[local] Instance harness_entry' : EntryEnv HW V := harness_entry (S fuel) n.
Abbreviation events_loop := (handle_connection_events (W:=HW) (V:=V)).
Abbreviation conn_done := (mk_active_conn (W:=HW) (V:=V) (Some (Ok tt)) tt).

(** A connection was opened: fresh channels, both events taken, a token of its own. *)
Definition opened (v : hview) : hview :=
  mk_hview (chan_new DISPATCH_QUEUE_LEN) (chan_new (DISPATCH_QUEUE_LEN + 1)) (chan_new MOCK_QUEUE_LEN)
    (chan_new MOCK_QUEUE_LEN) (hv_shutdown v) (hv_rng v) true None [] (hv_shutdown v) (hv_joined v)
    (hv_clock v) (hv_metrics v) (tail (hv_script v)) (hv_seen v).

Definition test_publisher : DispatchPublisher := mk_publisher request_tx (Some response_rx) response_weak.
Definition test_events : list ConnectionEvent :=
  [Event_Init; Event_Connected IOHandle_new test_publisher (EndpointHostname_from "config.itsallbroken.com")].

Lemma main_connect_step v (Q : () -> hview -> Prop) :
  Q tt (with_events (hv_events v ++ test_events) (with_id None (with_fresh true
    (with_in (chan_new MOCK_QUEUE_LEN) (with_out (chan_new MOCK_QUEUE_LEN)
      (with_req (chan_new DISPATCH_QUEUE_LEN) (with_resp (chan_new (DISPATCH_QUEUE_LEN + 1)) v))))))) ->
  runs (run_step Step_connect) v Q.
Proof.
  intros K w <-. eexists _, _. split; [reflexivity|]. unfold test_view. simpl. by rewrite !view_channel.
Qed.

Lemma main_event v e es (Q : selected -> hview -> Prop) : hv_events v = e :: es ->
  Q (Sel_Event e) (with_events es v) -> runs env_select v Q.
Proof.
  intros E K w <-. cbn [env_select harness_entry' harness_entry]. simpl in E.
  destruct (length (hn_script (hn w))); simpl; rewrite E; by eexists _, _.
Qed.

Lemma main_shutdown v (Q : selected -> hview -> Prop) : hv_events v = [] -> hv_shutdown v = true ->
  Q Sel_Shutdown v -> runs env_select v Q.
Proof.
  intros E S K w <-. cbn [env_select harness_entry' harness_entry]. simpl in E, S.
  destruct (length (hn_script (hn w))); simpl; rewrite E, S; by eexists _, _.
Qed.

(** Waiting, the main task lets the test open a connection. *)
Lemma main_opens v rest (Q : selected -> hview -> Prop) : hv_events v = [] -> hv_shutdown v = false ->
  hv_script v = Step_connect :: rest ->
  Q (Sel_Event Event_Init) (with_events (tail test_events) (with_stopped (hv_stopped v) (opened v))) ->
  runs env_select v Q.
Proof.
  intros E S Sc K w Ew. cbn [env_select harness_entry' harness_entry].
  assert (hn_events (hn w) = []) as E1 by (change (hv_events (test_view w) = []); by rewrite Ew).
  assert (hn_shutdown (hn w) = false) as E2 by (change (hv_shutdown (test_view w) = false); by rewrite Ew).
  assert (hn_script (hn w) = Step_connect :: rest) as E3
    by (change (hv_script (test_view w) = Step_connect :: rest); by rewrite Ew).
  rewrite E3. cbn [length wait_event]. rewrite E1, E2.
  eapply (runs_bind (view:=test_view) next_step _ v); [|exact Ew].
  apply (test_next Step_connect rest); [exact Sc|]. apply main_connect_step.
  intros w1 Ew1. exists (Sel_Event Event_Init), (set_events (tail test_events) w1).
  assert (hn_events (hn w1) = test_events) as E4.
  { change (hv_events (test_view w1) = test_events). rewrite Ew1. simpl. by rewrite E. }
  split; [destruct (length rest); simpl; by rewrite E4|].
  change (test_view (set_events (tail test_events) w1))
    with (with_events (tail test_events) (test_view w1)). rewrite Ew1.
  unfold opened in K. rewrite Sc in K. exact K.
Qed.

Lemma main_spawned (conn : ConnectionActor (W:=HW) (V:=V)) v (Q : Task -> hview -> Prop) :
  runs (ConnectionActor_run (S fuel) n conn) v (fun _ v' => Q (Some (Ok tt)) v') ->
  runs (env_spawn IOHandle_new conn) v Q.
Proof.
  intros K w Ew. destruct (K w Ew) as ([] & w' & E & HQ). exists (Some (Ok tt)), w'. split; [|exact HQ].
  change (match ConnectionActor_run (S fuel) n conn w with
    | Done _ w => Done (Some (Ok tt)) w
    | Panic w => Done (Some (Err mk_join_error)) w
    | Blocked w => Done None w
    end = Done (Some (Ok ())) w'). by rewrite E.
Qed.

(** A connection that has ended is stopped. *)
Definition reaped (v : hview) : hview := with_joined (hv_joined v ++ [Ok tt]) (with_stopped true v).

Lemma main_stop v (Q : () -> hview -> Prop) : Q tt (reaped v) ->
  runs (stop_active (Some conn_done)) v Q.
Proof.
  intros K. unfold stop_active, ActiveConn_stop. cbn [ac_stop ac_task].
  apply runs_bind, (runs_modify _ (with_stopped true)); [done|]. apply runs_bind.
  intros w Ew. eexists _, _. split; [reflexivity|]. apply runs_ret.
  change (Q tt (with_joined (hv_joined (test_view w) ++ [Ok tt]) (test_view w))). by rewrite Ew.
Qed.

(** A test's next connection runs to its end, then the one before is stopped. *)
Lemma main_connection k info (store : V) active v rest (Q : () -> hview -> Prop) : hv_events v = [] ->
  hv_shutdown v = false -> hv_script v = Step_connect :: rest ->
  (forall self f bs r', drawn (hv_rng v) bs r' -> ca_delegate self = mk_delegate (State_Handshaking f) ->
    hs_nonce (fsm_state f) = mk_nonce bs ->
    runs (loop (S fuel) n response_rx tt self)
      (with_out (chan_push (Hello (hello_with info (hv_metrics v) bs)) (chan_new MOCK_QUEUE_LEN))
        (with_rng r' (with_fresh false (opened v))))
      (fun _ v' => runs (stop_active active ;; events_loop k tt info store (Some conn_done))
        (lasted (hv_clock v) v') Q)) ->
  runs (events_loop (S (S k)) tt info store active) v Q.
Proof.
  intros E S Sc K. cbn [handle_connection_events].
  apply runs_bind. eapply main_opens; [done | done | exact Sc |].
  apply runs_bind. eapply main_event; [reflexivity|].
  apply runs_bind. unfold spawn_connection, test_publisher.
  apply runs_bind. eapply (runs_modify _ (fun u => with_stopped (hv_shutdown u) u)); [done|].
  cbn [DispatchPublisher_take_recv_stream dp_rx]. apply runs_bind. eapply runs_some; [reflexivity|].
  apply runs_bind, main_spawned. apply client_actor; [done | split; [done | unfold chan_full; simpl; unfold MOCK_QUEUE_LEN; lia] |].
  intros self f bs r' L D N. eapply runs_weaken; [exact (K self f bs r' L D N)|].
  intros [] v' HQ. apply runs_ret. exact HQ.
Qed.

(** The shutdown ends the main task when it has stopped the last connection. *)
Lemma main_ends k info (store : V) v (Q : () -> hview -> Prop) : hv_events v = [] ->
  hv_shutdown v = true -> Q tt (reaped v) ->
  runs (events_loop (S k) tt info store (Some conn_done)) v Q.
Proof.
  intros E S K. cbn [handle_connection_events]. apply runs_bind, main_shutdown; [done..|].
  by apply main_stop.
Qed.

End Views.

(** ** Properties *)

Section IntegrationProperties.
Context `{ProtoTypes} `{!Serialisable DispatchRequestPayload} `{!SerialisableLaws DispatchRequestPayload}
  `{!ResponsePayload} `{!ResponsePayloadLaws} `{AwsDigestLaws} `{UuidLib} `{X509Lib} `{MpscLaws}
  {R C : Type} `{!Rng R}.

Abbreviation HW := (HWorld (R:=R)).
Abbreviation V := (TrustStore C).
Abbreviation runs := (runs_on (test_view (R:=R))).
#[local] Existing Instances harness_conn' harness_actor'.

(** The retries and polls of an actor, the compiled-in roots. *)
Context (fuel n k : nat) (r1_pem r2_pem : list u8) (cache_new : N -> C) (rt : RuntimeBuilder) (rng : R).
Context (Works : entropy (R:=R)) (R1 : is_Some (load_root r1_pem)) (R2 : is_Some (load_root r2_pem)).

#[local] Instance harness_entry_env : EntryEnv HW V := harness_entry' fuel n.

Definition test_info : AppInfo := AppInfo_new (AppName_from "test") (AppVersion_from "0.0.0").

(** The view of a client that waits for its first connection. *)
Definition started_view (version : BuildVersion) (script : list test_step) : hview (R:=R) :=
  mk_hview (chan_new DISPATCH_QUEUE_LEN) (chan_new (DISPATCH_QUEUE_LEN + 1)) (chan_new MOCK_QUEUE_LEN)
    (chan_new MOCK_QUEUE_LEN) false rng false None [] false [] 0 (InstanceMetrics_default version) script [].

(** A main loop that returns after the shutdown ends the test. *)
Lemma test_completes events version script (P : hview -> Prop) :
  (forall store, runs (handle_connection_events (W:=HW) (V:=V) events tt test_info store None)
    (started_view version script) (fun _ v' => hv_shutdown v' = true /\ P v')) ->
  exists w', run_test (S fuel) n r1_pem r2_pem cache_new events rt version rng script = Done tt w' /\
    P (test_view w').
Proof.
  intros K. destruct R1 as [r1 E1], R2 as [r2 E2].
  set (store := TrustStore_new [r1; r2] (cache_new APPROX_MAX_CACHE_BYTES)).
  destruct (K store (TestClient_new rt version rng script)) as ([] & w' & E & S & HP).
  { unfold test_view, TestClient_new, started_view. simpl. by rewrite !view_channel. }
  exists w'. split; [|exact HP]. unfold run_test, Main_entrypoint. rewrite E1, E2.
  change (run_events (W:=HW) (ConnEnv0:=harness_conn') (EntryEnv0:=harness_entry_env) events tt test_info
    store (TestClient_new rt version rng script) = Done tt w').
  unfold run_events. rewrite E. cbn [env_wait_shutdown harness_entry_env harness_entry' harness_entry].
  change (hn_shutdown (hn w') = true) in S. by rewrite S.
Qed.

(** The connection's actor has said hello; the rest of the test is to come. *)
Definition said_hello (h : ClientHello) (r : R) (script : list test_step) (v : hview) : hview :=
  with_out (chan_push (Hello h) (chan_new MOCK_QUEUE_LEN)) (with_rng r (with_fresh false
    (with_script script (opened v)))).

(** A test of one connection: what the actor's loop does decides. *)
Lemma single_connection version script (P : list observation -> Prop) :
  (forall self f bs r', drawn rng bs r' -> ca_delegate self = mk_delegate (State_Handshaking f) ->
    hs_nonce (fsm_state f) = mk_nonce bs ->
    runs (actor_loop (W:=HW) (V:=V) (S fuel) n response_rx tt self)
      (said_hello (hello_with test_info (InstanceMetrics_default version) bs) r' script
        (started_view version []))
      (fun _ v' => hv_shutdown v' = true /\ hv_events v' = [] /\ hv_joined v' = [] /\ P (hv_seen v'))) ->
  exists w', run_test (S fuel) n r1_pem r2_pem cache_new (3 + k) rt version rng (Step_connect :: script)
      = Done tt w' /\ hn_joined (hn w') = [Ok tt] /\ P (hn_seen (hn w')).
Proof.
  intros K. apply (test_completes (3 + k) version (Step_connect :: script)
    (fun v => hv_joined v = [Ok tt] /\ P (hv_seen v))). intros store.
  apply (main_connection Works fuel n (S k) test_info store None _ script); [done..|].
  intros self f bs r' L D N. eapply runs_weaken; [exact (K self f bs r' L D N)|].
  intros [] v' (S & E & J & HP). apply runs_bind, runs_ret. apply main_ends; [done..|].
  split; [done|]. split; [|done]. change (hv_joined v' ++ [Ok tt] = [Ok tt]). by rewrite J.
Qed.

Ltac tidy := match goal with
  | |- runs_on ?view ?p ?v ?Q =>
      let v' := eval cbv [said_hello started_view opened closed reaped lasted chan_tail chan_push chan_new
        chan_drop_tx chan_drop_rx c_queue c_cap c_rx c_tx app tail
        hv_req hv_resp hv_out hv_in hv_stopped hv_rng hv_fresh hv_id hv_events hv_shutdown hv_joined
        hv_clock hv_metrics hv_script hv_seen with_req with_resp with_out with_in with_stopped with_rng
        with_fresh with_id with_events with_shutdown with_joined with_clock with_metrics with_script
        with_seen] in v in change (runs_on view p v' Q)
  | _ => idtac
  end.
Ltac has_room := split; [reflexivity | unfold chan_full; simpl; unfold MOCK_QUEUE_LEN, DISPATCH_QUEUE_LEN; lia].
Ltac idle := eapply (turn_idle (R:=R)); [done | reflexivity | exact I |]; tidy.
Ltac message := eapply (turn_message (R:=R)); [done | done | done | reflexivity |]; tidy.
Ltac shut := idle; apply (test_shutdown_step (R:=R)); tidy; apply (turn_stopped (R:=R)); [done|]; tidy.
Ltac polls c := let m := fresh "m" in let E := fresh "E" in
  assert (exists m, n = c + m) as [m E] by (exists (n - c); lia);
  match goal with |- runs_on ?view (actor_loop ?f _ ?rx ?st ?self) ?v ?Q =>
    refine (eq_ind_r (fun j => runs_on view (actor_loop f j rx st self) v Q) _ E) end; cbn [Nat.add].

(** The ping test of the harness passes: the client answers a ping before
    the handshake is complete, and returns on shutdown. *)
Lemma ping_pong_passes version : 6 <= n ->
  exists h w', run_test (S fuel) n r1_pem r2_pem cache_new (3 + k) rt version rng test_ping_pong = Done tt w' /\
    hn_joined (hn w') = [Ok tt] /\ hn_seen (hn w') = [Saw_message (Hello h); Saw_message Pong].
Proof.
  intros Hn. edestruct (single_connection version (tail test_ping_pong)
    (fun l => exists h, l = [Saw_message (Hello h); Saw_message Pong])) as (w' & E & J & h & S);
    [|by exists h, w'].
  intros self f bs r' L D N. polls 6. simpl tail.
  idle. eapply (test_expect_step (R:=R)); [reflexivity | reflexivity |]; tidy.
  idle. apply (test_send_step (R:=R)); [has_room|]; tidy.
  message. eapply (client_ping (R:=R)); [exact D | exact I | has_room |]; tidy.
  idle. eapply (test_expect_step (R:=R)); [reflexivity | reflexivity |]; tidy.
  shut. split_and!; [done..|]. by eexists.
Qed.

(** The first hello passes the assertions of [test_handshake]. *)
Lemma handshake_hello_passes b version bs : build_version b = Some version -> length bs = 16 ->
  handshake_hello b (hello_with test_info (InstanceMetrics_default version) bs) = true.
Proof.
  unfold build_version, BuildVersion_from_build. intros E L.
  destruct (u32_from_str (CARGO_PKG_VERSION_MAJOR b)) as [ma|] eqn:Ma; [|done].
  destruct (u32_from_str (CARGO_PKG_VERSION_MINOR b)) as [mi|] eqn:Mi; [|done].
  destruct (u32_from_str (CARGO_PKG_VERSION_PATCH b)) as [pa|] eqn:Pa; [|done].
  injection E as <-. unfold handshake_hello. simpl. rewrite Ma, Mi, Pa, L.
  rewrite !bool_decide_true; [done | | | done..]; [done|]. by case_decide.
Qed.

(** The handshake test of the harness passes for every build and whatever the
    generator yields: the first hello carries a nonce of sixteen bytes, no
    disconnections, no previous connection, no reconnection data, the
    application's name and version and the version of the build; the client
    accepts the identifier that the server derives, without an answer, and then
    answers a ping; on shutdown it returns. *)
Lemma handshake_passes b version (Build : build_version b = Some version) (Hn : 8 <= n) :
  exists h w', run_test (S fuel) n r1_pem r2_pem cache_new (3 + k) rt version rng (test_handshake b)
      = Done tt w' /\ handshake_hello b h = true /\ hn_joined (hn w') = [Ok tt] /\
    hn_seen (hn w') = [Saw_message (Hello h); Saw_message Pong].
Proof.
  edestruct (single_connection version (tail (test_handshake b))
    (fun l => exists h, handshake_hello b h = true /\ l = [Saw_message (Hello h); Saw_message Pong]))
    as (w' & E & J & h & C1 & S); [|by exists h, w'].
  intros self f bs r' L D N. polls 8. simpl tail.
  pose proof (handshake_hello_passes b version bs Build (proj2 L)) as Hh.
  idle. eapply (test_accept_step Works); [reflexivity | exact Hh | has_room |]; tidy. intros sn r''; tidy.
  message. eapply (client_ack Works); [exact _ | exact D | exact N |]; tidy. intros r3; tidy.
  idle. apply (test_silence_step (R:=R)); [done | done |]; tidy.
  idle. apply (test_send_step (R:=R)); [has_room|]; tidy.
  message. eapply (client_ping (R:=R)); [reflexivity | exact I | has_room |]; tidy.
  idle. eapply (test_expect_step (R:=R)); [reflexivity | reflexivity |]; tidy.
  shut. split_and!; [done..|]. by eexists.
Qed.

(** The replay test of the harness passes for every server nonce and every
    identifier that the client's nonce does not give with it: the client rejects
    the identifier with the protocol error, before the handshake is complete,
    and answers nothing any more, not even a ping; on shutdown it returns. *)
Lemma replay_rejected version server_nonce id
  (Replay : forall bs r', rand_fill 16 rng = (Some bs, r') ->
    ConnectionId_as_bytes (derived_id bs server_nonce) <> id) (Hn : 9 <= n) :
  exists h w', run_test (S fuel) n r1_pem r2_pem cache_new (3 + k) rt version rng
      (test_handshake_invalid_connection_id server_nonce id) = Done tt w' /\
    hn_joined (hn w') = [Ok tt] /\
    hn_seen (hn w') = [Saw_message (Hello h);
      Saw_message (ReportProtocolError HandshakeConnectionIdRejected false)].
Proof.
  edestruct (single_connection version (tail (test_handshake_invalid_connection_id server_nonce id))
    (fun l => exists h, l = [Saw_message (Hello h);
      Saw_message (ReportProtocolError HandshakeConnectionIdRejected false)]))
    as (w' & E & J & h & S); [|by exists h, w'].
  intros self f bs r' L D N. polls 9. simpl tail.
  idle. eapply (test_expect_step (R:=R)); [reflexivity | reflexivity |]; tidy.
  idle. apply (test_send_step (R:=R)); [has_room|]; tidy.
  message. eapply (client_reject Works); [exact _ | exact D | exact N | exact (Replay bs r' (proj1 L)) | has_room |]; tidy.
  intros r3 e; tidy.
  idle. eapply (test_expect_step (R:=R)); [reflexivity | reflexivity |]; tidy.
  idle. apply (test_send_step (R:=R)); [has_room|]; tidy.
  message. eapply (client_ignores (R:=R)); [reflexivity|]; tidy.
  idle. apply (test_silence_step (R:=R)); [done | done |]; tidy.
  shut. split_and!; [done..|]. by eexists.
Qed.

(** C12. The dispatch tests of the harness pass for every request, result and
    correlation identifier, whatever a generator that works - one that never
    fails and never returns sixteen zero bytes - yields: the server derives an
    identifier that the client accepts, the application receives the request the
    server sent, for that connection, and the server receives the result the
    application gave, under the request's correlation identifier; on shutdown
    the whole client returns. *)
Theorem harness_dispatch_roundtrip version cid uri request r (Hn : 9 <= n) :
  exists cn sn w', run_test (S fuel) n r1_pem r2_pem cache_new (3 + k) rt version rng
      (test_dispatch cid uri request r) = Done tt w' /\ hn_joined (hn w') = [Ok tt] /\
    hn_seen (hn w') = [Saw_id (derived_id cn sn); Saw_request cid uri request; Saw_result r].
Proof.
  edestruct (single_connection version (tail (test_dispatch cid uri request r))
    (fun l => exists cn sn, l = [Saw_id (derived_id cn sn); Saw_request cid uri request; Saw_result r]))
    as (w' & E & J & cn & sn & S); [|by exists cn, sn, w'].
  intros self f bs r' L D N. polls 9. simpl tail.
  idle. eapply (test_handshake_step Works); [reflexivity | has_room |]; tidy. intros sn r''; tidy.
  message. eapply (client_ack Works); [exact _ | exact D | exact N |]; tidy. intros r3; tidy.
  idle. eapply (test_dispatch_step (R:=R)); [reflexivity | has_room |]; tidy.
  message. eapply (client_forwards (R:=R)); [reflexivity | has_room |]; tidy.
  idle. eapply (test_answer_step (R:=R)); [reflexivity | reflexivity | has_room |]; tidy.
  eapply (turn_result (R:=R)); [done | reflexivity |]; tidy. unfold dispatch_response.
  eapply (test_client_send (R:=R)); [has_room|]; tidy.
  idle. eapply (test_read_step (R:=R)); [reflexivity|]; tidy.
  shut. split_and!; [done..|]. by eexists _, _.
Qed.

(** The metrics test of the harness passes for every delay: the client's
    first hello reports no previous connection, and the hello of a second
    connection, opened when the server closed the first after the delay, reports
    the delay in whole seconds, and no disconnections; both actors end without a
    panic and on shutdown the client returns. *)
Lemma connection_metrics_passes version delay (Hn : 4 <= n) :
  exists h1 h2 w', run_test (S fuel) n r1_pem r2_pem cache_new (5 + k) rt version rng
      (test_connection_metrics delay) = Done tt w' /\ hn_joined (hn w') = [Ok tt; Ok tt] /\
    hn_seen (hn w') = [Saw_message (Hello h1); Saw_message (Hello h2)] /\
    LastConnected_as_seconds (ch_last_closed h1) = 0%N /\
    LastConnected_as_seconds (ch_last_closed h2) = (delay / 1000000000)%N.
Proof.
  edestruct (test_completes (5 + k) version (test_connection_metrics delay) (fun v => exists h1 h2,
    hv_joined v = [Ok tt; Ok tt] /\ hv_seen v = [Saw_message (Hello h1); Saw_message (Hello h2)] /\
    LastConnected_as_seconds (ch_last_closed h1) = 0%N /\
    LastConnected_as_seconds (ch_last_closed h2) = (delay / 1000000000)%N))
    as (w' & E & h1 & h2 & J & S & L1 & L2); [|by exists h1, h2, w'].
  intros store. unfold test_connection_metrics.
  eapply (main_connection Works fuel n (3 + k)); [done | done | reflexivity |]; tidy.
  intros self f bs r' L D N. polls 4.
  idle. eapply (test_expect_step (R:=R)); [reflexivity | reflexivity |]; tidy.
  idle. apply (test_advance_step (R:=R)); tidy.
  idle. apply (test_close_step (R:=R)); tidy.
  apply (turn_gone (R:=R)); [done..|]; tidy. apply runs_bind, runs_ret.
  eapply (main_connection Works fuel n (S k)); [done | done | reflexivity |]; tidy.
  clear self f L D N m E. intros self f bs' r'' L D N. polls 3.
  assert (LastConnected_as_seconds (InstanceMetrics_last_conn_duration
    (InstanceMetrics_set_last_conn_duration (0 + delay - 0) (InstanceMetrics_default version)))
    = (delay / 1000000000)%N) as Dur.
  { simpl. unfold from_secs. rewrite N.div_mul by done. by rewrite N.sub_0_r. }
  idle. eapply (test_expect_step (R:=R)); [reflexivity | |]; tidy.
  { simpl. rewrite bool_decide_true; [done|]. rewrite <- Dur at 1. done. }
  shut. apply runs_bind, main_stop; tidy. apply main_ends; [done..|].
  split; [done|]. eexists _, _. split_and!; [done | done | done | exact Dur].
Qed.
End IntegrationProperties.

(** *** Witnesses *)

Definition toy_request_code (v : DispatchRequestPayload) : option (list u8) * option (string * list u8) :=
  (uuid_v8 <$> rp_connection_id v,
   (fun '(Request_MagicTunnel m) => (mt_uri m, mt_request m)) <$> rp_payload v).
Definition toy_request_uncode (c : option (list u8) * option (string * list u8)) : DispatchRequestPayload :=
  mk_request_payload (mk_v1_connection_id <$> c.1)
    ((fun '(u, b) => Request_MagicTunnel (mk_magic_tunnel_request u b)) <$> c.2).

Lemma toy_request_coded v : toy_request_uncode (toy_request_code v) = v.
Proof. by destruct v as [[[]|] [[[]]|]]. Qed.

#[export] Instance DispatchRequestPayload_eq_dec : EqDecision DispatchRequestPayload.
Proof. intros a b. refine (cast_if (decide (toy_request_code a = toy_request_code b))).
  - rewrite <- (toy_request_coded a), <- (toy_request_coded b). by f_equal.
  - by intros ->.
Defined.
#[export] Instance toy_request_countable : Countable DispatchRequestPayload :=
  inj_countable' toy_request_code toy_request_uncode toy_request_coded.

Definition toy_serialisable : @Serialisable toy_proto DispatchRequestPayload :=
  @Build_Serialisable toy_proto DispatchRequestPayload (fun v => bits_of (countable.encode v))
    (fun bs => match countable.decode (of_bits bs) with
               | Some v => Ok v | None => Err (tt : @DecodeError toy_proto) end).

Lemma toy_serialisable_laws : @SerialisableLaws toy_proto DispatchRequestPayload toy_serialisable.
Proof. split. intros v. cbn. by rewrite of_bits_of, decode_encode. Qed.

Definition toy_result_code (v : option MagicTunnelResponse) : list u8 :=
  match v with
  | None => []
  | Some (mk_magic_tunnel_response None) => [x00]
  | Some (mk_magic_tunnel_response (Some (MT_Response b))) => x01 :: b
  | Some (mk_magic_tunnel_response (Some (MT_HandlerError m))) => x02 :: String.list_byte_of_string m
  end.
Definition toy_result_uncode (bs : list u8) : option MagicTunnelResponse :=
  match bs with
  | [] => None
  | x01 :: b => Some (mk_magic_tunnel_response (Some (MT_Response b)))
  | x02 :: m => Some (mk_magic_tunnel_response (Some (MT_HandlerError (String.string_of_list_byte m))))
  | _ => Some (mk_magic_tunnel_response None)
  end.

Definition toy_response_payload : @ResponsePayload toy_proto :=
  @Build_ResponsePayload toy_proto toy_result_code toy_result_uncode.

Lemma toy_response_payload_laws : @ResponsePayloadLaws toy_proto toy_response_payload.
Proof.
  split. intros [[[[b|m]|]]|]; try done. cbn. by rewrite String.string_of_list_byte_of_string.
Qed.

Definition toy_build : BuildEnv := mk_build_env "0" "12" "3" "rc1" "c0ffee".
Definition toy_build_version : BuildVersion := mk_build_version (Some "c0ffee") 0 12 3 (Some "rc1").

Definition toy_run_test (n events : nat) (version : BuildVersion) (script : list test_step) :
  exec (@HWorld toy_proto toy_uuid fifo_mpsc ()) () :=
  @run_test toy_proto toy_serialisable toy_response_payload toy_digest toy_uuid fifo_mpsc () toy_fixed_rng 1 n
    toy_lib () [x01; x02; x01] [x01; x02; x01] (fun _ => tt) events Ctx_runtime version tt script.


Lemma handshake_passes_witness :
  exists h w', toy_run_test 8 3 toy_build_version (test_handshake toy_build) = Done tt w' /\
    hn_seen (hn w') = [Saw_message (Hello h); Saw_message Pong].
Proof.
  destruct (@handshake_passes toy_proto toy_serialisable toy_response_payload
    toy_digest toy_digest_laws toy_uuid toy_lib fifo_mpsc fifo_mpsc_laws () ()
    toy_fixed_rng 0 8 0 [x01; x02; x01] [x01; x02; x01] (fun _ => tt) Ctx_runtime tt toy_entropy
    (ex_intro _ _ eq_refl) (ex_intro _ _ eq_refl)
    toy_build toy_build_version eq_refl (le_n 8)) as (h & w' & E & _ & _ & S).
  exists h, w'. split; [exact E | exact S].
Defined.

(** The identifier of the test. *)
Definition REPLAY_FRIENDLY_ID : list u8 :=
  [x01; x02; x03; x04; x05; x06; x07; x08; x09; x0a; x0b; x0c; x0d; x0e; x0f; x10].

Lemma replay_rejected_witness :
  exists h w', toy_run_test 9 3 toy_build_version
      (test_handshake_invalid_connection_id (replicate 16 x2a) REPLAY_FRIENDLY_ID) = Done tt w' /\
    hn_seen (hn w') = [Saw_message (Hello h);
      Saw_message (ReportProtocolError HandshakeConnectionIdRejected false)].
Proof.
  destruct (@replay_rejected toy_proto toy_serialisable toy_response_payload
    toy_digest toy_digest_laws toy_uuid toy_lib fifo_mpsc fifo_mpsc_laws () ()
    toy_fixed_rng 0 9 0 [x01; x02; x01] [x01; x02; x01] (fun _ => tt) Ctx_runtime tt toy_entropy
    (ex_intro _ _ eq_refl) (ex_intro _ _ eq_refl)
    toy_build_version (replicate 16 x2a) REPLAY_FRIENDLY_ID) as (h & w' & E & _ & S).
  - intros bs r' [= <- _]. vm_compute. discriminate.
  - apply le_n.
  - exists h, w'. split; [exact E | exact S].
Defined.

Lemma harness_dispatch_roundtrip_witness :
  exists cn sn w', toy_run_test 9 3 toy_build_version
      (test_dispatch (CorrelationId_new 42) "Ping" [x2a] (MT_Response [x0d])) = Done tt w' /\
    hn_seen (hn w') = [Saw_id (@derived_id toy_digest toy_uuid cn sn);
      Saw_request (CorrelationId_new 42) "Ping" [x2a]; Saw_result (MT_Response [x0d])].
Proof.
  destruct (@harness_dispatch_roundtrip toy_proto toy_serialisable toy_serialisable_laws toy_response_payload
    toy_response_payload_laws
    toy_digest toy_digest_laws toy_uuid toy_lib fifo_mpsc fifo_mpsc_laws () ()
    toy_fixed_rng 0 9 0 [x01; x02; x01] [x01; x02; x01] (fun _ => tt) Ctx_runtime tt toy_entropy
    (ex_intro _ _ eq_refl) (ex_intro _ _ eq_refl)
    toy_build_version (CorrelationId_new 42) "Ping" [x2a] (MT_Response [x0d]) (le_n 9))
    as (cn & sn & w' & E & _ & S).
  exists cn, sn, w'. split; [exact E | exact S].
Defined.

(** A minute, as in the test. *)
Lemma connection_metrics_passes_witness :
  exists h1 h2 w', toy_run_test 4 5 toy_build_version (test_connection_metrics (from_secs 60)) = Done tt w' /\
    hn_seen (hn w') = [Saw_message (Hello h1); Saw_message (Hello h2)] /\
    LastConnected_as_seconds (ch_last_closed h2) = 60%N.
Proof.
  destruct (@connection_metrics_passes toy_proto toy_serialisable toy_response_payload
    toy_digest toy_uuid toy_lib fifo_mpsc fifo_mpsc_laws () ()
    toy_fixed_rng 0 4 0 [x01; x02; x01] [x01; x02; x01] (fun _ => tt) Ctx_runtime tt toy_entropy
    (ex_intro _ _ eq_refl) (ex_intro _ _ eq_refl)
    toy_build_version (from_secs 60) (le_n 4)) as (h1 & h2 & w' & E & _ & S & _ & L).
  exists h1, h2, w'. split; [exact E|]. split; [exact S | rewrite L; reflexivity].
Defined.
