(* ===== verification/TestIssuer.v ===== *)
(** * The test issuer

    Models [rc-x509-trust/src/test_issuer/]: certificate builders and their
    templates, the test CA, chains of certificates and the mutators that break
    them, and the classification of the mutations in [chain/mod.rs].  The issuing
    half of [rcgen] is a parameter ([RcgenIssue]); what a certificate it issues
    contains is its documented behaviour.  The theorems say which of the mutated
    chains the chain builder of the trust store accepts, and with which error it
    refuses the others: the claims that the property tests sample, for every
    length, seed and key. *)

From stdpp Require Import base option list strings gmap pretty.
From Stdlib Require Import Strings.Byte NArith ZArith Lia.
From S2P Require Import Prelude Hex Utf8 CertId Signature Hash Keys Certificate Csr TrustStore.

Local Open Scope string_scope.

(** ** [rcgen], issuing *)

Class RcgenIssue `{Rcgen} (R : Type) `{!AwsEcdsa R} : Type := {
  (** [date_time_ymd], [OffsetDateTime::unix_timestamp] *)
  date_time_ymd : Z -> N -> N -> OffsetDateTime;
  unix_timestamp : OffsetDateTime -> Z;
  (** [SerialNumber::from_slice] *)
  serial_from_slice : list u8 -> RcgenSerialNumber;
  (** [NameConstraints] that permit these DNS names and exclude nothing *)
  permitted_subtrees : list string -> NameConstraints;
  (** [CustomExtension::from_oid_content], [set_criticality] *)
  extension_from_oid_content : list N -> list u8 -> CustomExtension;
  extension_set_criticality : bool -> CustomExtension -> CustomExtension;
  (** [CertificateSigningRequestParams::from_pem(..)], its [params] *)
  csr_params_from_pem : string -> result CertificateParams RcgenError;
  (** [CertifiedIssuer<PrivateKey>] *)
  CertifiedIssuer : Type;
  certified_self_signed : CertificateParams -> PrivateKey (R:=R) -> prog R (result CertifiedIssuer RcgenError);
  certified_signed_by : CertificateParams -> PrivateKey (R:=R) -> CertifiedIssuer ->
    prog R (result CertifiedIssuer RcgenError);
  certified_key : CertifiedIssuer -> PrivateKey (R:=R);
  certified_der : CertifiedIssuer -> list u8;
  certified_pem : CertifiedIssuer -> list u8
}.

Section TestIssuer.
Context `{Rcgen} `{AwsDigest} `{X509Lib} {R : Type} `{!AwsEcdsa R} `{!RcgenIssue R}.

(** FIPS mode is asserted when a key is generated. *)
Context (fips : bool).

(** [Result::expect] *)
Definition expect {A E} (p : prog R (result A E)) : prog R A :=
  v ← p; of_panics (match v with Ok a => Some a | Err _ => None end).

(** ** [identity.rs] *)

Record Identity : Type := Identity_new { id_cert : Certificate; id_issuer : CertifiedIssuer }.

Definition Identity_key (self : Identity) : PrivateKey := certified_key (id_issuer self).

(** ** [cert_builder/builder.rs] *)

Record Params : Type := mk_builder_params {
  bp_key : PrivateKey (R:=R);
  bp_cn : string;
  bp_cert_id : option (list u8);
  bp_not_before : option OffsetDateTime;
  bp_not_after : option OffsetDateTime;
  bp_extended_key_usages : option (list ExtendedKeyUsagePurpose);
  bp_is_ca : option IsCa;
  bp_custom_extensions : list CustomExtension
}.

Definition serial_number : RcgenSerialNumber := serial_from_slice [x2a].

(** [generate_ski]: not the key identifier. *)
Definition generate_ski (key : PrivateKey (R:=R)) : panics (list u8) :=
  ski ← key_id (PrivateKey_public_key key);
  Some (reverse (KeyId_as_bytes ski) ++ [x2a])%list.

Definition ski_of (self : Params) : panics (list u8) :=
  match bp_cert_id self with Some id => Some id | None => generate_ski (bp_key self) end.

(** [Params::sign]: the parameters that are signed, and the identity. *)
Definition Params_tbs (self : Params) (tbs : CertificateParams) (ski : list u8) : CertificateParams :=
  mk_params (Some serial_number) (cp_subject_alt_names tbs) (cp_distinguished_name tbs)
    (default (cp_is_ca tbs) (bp_is_ca self)) (cp_key_usages tbs)
    (default (cp_extended_key_usages tbs) (bp_extended_key_usages self)) (cp_name_constraints tbs)
    (cp_crl_distribution_points tbs) (cp_custom_extensions tbs ++ bp_custom_extensions self)
    (PreSpecified ski) (default (cp_not_before tbs) (bp_not_before self))
    (default (cp_not_after tbs) (bp_not_after self)) true (cp_other tbs).

Definition Params_sign (self : Params) (tbs : CertificateParams) (parent : Identity) : prog R Identity :=
  ski ← of_panics (ski_of self);
  issuer ← expect (certified_signed_by (Params_tbs self tbs ski) (bp_key self) (id_issuer parent));
  cert ← expect (of_panics (Certificate_from_der (certified_der issuer)));
  mret (Identity_new cert issuer).

(** [trait TestCertTemplate]. *)
Class TestCertTemplate (T : Type) : Type := template_build : T -> Params -> prog R Identity.

Record CertBuilder (T : Type) : Type := mk_builder { cb_params : Params; cb_template : T }.
Arguments mk_builder {T} cb_params cb_template.
Arguments cb_params {T} c.
Arguments cb_template {T} c.

Definition CertBuilder_new {T} (cn : string) (template : T) : prog R (CertBuilder T) :=
  key ← PrivateKey_new fips;
  mret (mk_builder (mk_builder_params key cn None None None None None []) template).

Definition CertBuilder_build {T} `{!TestCertTemplate T} (self : CertBuilder T) : prog R Identity :=
  template_build (cb_template self) (cb_params self).

Section Setters.
Context {T : Type}.
Definition set_params (f : Params -> Params) (self : CertBuilder T) : CertBuilder T :=
  mk_builder (f (cb_params self)) (cb_template self).
Definition set_cert_id (id : list u8) : CertBuilder T -> CertBuilder T :=
  set_params (fun p => mk_builder_params (bp_key p) (bp_cn p) (Some id) (bp_not_before p) (bp_not_after p)
    (bp_extended_key_usages p) (bp_is_ca p) (bp_custom_extensions p)).
Definition set_not_before (t : OffsetDateTime) : CertBuilder T -> CertBuilder T :=
  set_params (fun p => mk_builder_params (bp_key p) (bp_cn p) (bp_cert_id p) (Some t) (bp_not_after p)
    (bp_extended_key_usages p) (bp_is_ca p) (bp_custom_extensions p)).
Definition set_not_after (t : OffsetDateTime) : CertBuilder T -> CertBuilder T :=
  set_params (fun p => mk_builder_params (bp_key p) (bp_cn p) (bp_cert_id p) (bp_not_before p) (Some t)
    (bp_extended_key_usages p) (bp_is_ca p) (bp_custom_extensions p)).
Definition set_is_ca (is_ca : IsCa) : CertBuilder T -> CertBuilder T :=
  set_params (fun p => mk_builder_params (bp_key p) (bp_cn p) (bp_cert_id p) (bp_not_before p) (bp_not_after p)
    (bp_extended_key_usages p) (Some is_ca) (bp_custom_extensions p)).
Definition add_custom_extension (ext : CustomExtension) : CertBuilder T -> CertBuilder T :=
  set_params (fun p => mk_builder_params (bp_key p) (bp_cn p) (bp_cert_id p) (bp_not_before p) (bp_not_after p)
    (bp_extended_key_usages p) (bp_is_ca p) (bp_custom_extensions p ++ [ext])).
Definition set_extended_key_usages (ekus : list ExtendedKeyUsagePurpose) : CertBuilder T -> CertBuilder T :=
  set_params (fun p => mk_builder_params (bp_key p) (bp_cn p) (bp_cert_id p) (bp_not_before p) (bp_not_after p)
    (Some ekus) (bp_is_ca p) (bp_custom_extensions p)).
End Setters.

(** ** [cert_builder/template/] *)

Inductive SelfSignedTemplate : Type := mk_self_signed.

#[local] Instance SelfSignedTemplate_build : TestCertTemplate SelfSignedTemplate := fun _ params =>
  tbs ← of_panics (match params_new [bp_cn params] with Ok p => Some p | Err _ => None end);
  ski ← of_panics (ski_of params);
  let tbs := mk_params (Some serial_number) (cp_subject_alt_names tbs) (cp_distinguished_name tbs) (Ca None)
    (cp_key_usages tbs) (cp_extended_key_usages tbs) (cp_name_constraints tbs)
    (cp_crl_distribution_points tbs) (cp_custom_extensions tbs) (PreSpecified ski) (cp_not_before tbs)
    (cp_not_after tbs) true (cp_other tbs) in
  issuer ← expect (certified_self_signed tbs (bp_key params));
  cert ← expect (of_panics (Certificate_from_pem (certified_pem issuer)));
  mret (Identity_new cert issuer).

Definition new_root (cn : string) : prog R (CertBuilder SelfSignedTemplate) :=
  CertBuilder_new cn mk_self_signed.

(** The parameters that a request asks for. *)
Definition csr_params (csr : CertificateSigningRequest) : prog R CertificateParams :=
  pem ← of_panics (as_pem_string csr);
  of_panics (match csr_params_from_pem pem with Ok p => Some p | Err _ => None end).

Record IntermediateTemplate : Type := mk_intermediate {
  it_parent : Identity;
  it_allowed_domains : list string;
  it_path_len : option N
}.

#[local] Instance IntermediateTemplate_build : TestCertTemplate IntermediateTemplate := fun self params =>
  csr ← expect (Csr.new_intermediate (bp_key params) (bp_cn params));
  tbs ← csr_params csr;
  let constraints := match it_allowed_domains self with
    | [] => cp_name_constraints tbs
    | ds => Some (permitted_subtrees ds)
    end in
  let tbs := mk_params (cp_serial_number tbs) (cp_subject_alt_names tbs) (cp_distinguished_name tbs)
    (Ca (it_path_len self)) (cp_key_usages tbs) (cp_extended_key_usages tbs) constraints
    (cp_crl_distribution_points tbs) (cp_custom_extensions tbs) (cp_key_identifier_method tbs)
    (cp_not_before tbs) (cp_not_after tbs) (cp_use_authority_key_identifier_extension tbs) (cp_other tbs) in
  Params_sign params tbs (it_parent self).

Definition CertBuilder_new_intermediate (cn : string) (parent : Identity) :
  prog R (CertBuilder IntermediateTemplate) :=
  CertBuilder_new cn (mk_intermediate parent [] None).

Definition allowed_domain (domain : string) (self : CertBuilder IntermediateTemplate) :
  CertBuilder IntermediateTemplate :=
  mk_builder (cb_params self)
    (mk_intermediate (it_parent (cb_template self)) [domain] (it_path_len (cb_template self))).
Definition set_allowed_domains (domains : list string) (self : CertBuilder IntermediateTemplate) :
  CertBuilder IntermediateTemplate :=
  mk_builder (cb_params self)
    (mk_intermediate (it_parent (cb_template self)) domains (it_path_len (cb_template self))).
Definition set_path_len (n : N) (self : CertBuilder IntermediateTemplate) :
  CertBuilder IntermediateTemplate :=
  mk_builder (cb_params self)
    (mk_intermediate (it_parent (cb_template self)) (it_allowed_domains (cb_template self)) (Some n)).

Record LeafTemplate : Type := mk_leaf { lt_parent : Identity; lt_sans : list string }.

(** Every name is an IA5 string, or the conversion panics. *)
Definition leaf_sans (sans : list string) : panics (list SanType) :=
  mapM (fun s => match ia5_try_from s with Ok v => Some (DnsName v) | Err _ => None end) sans.

#[local] Instance LeafTemplate_build : TestCertTemplate LeafTemplate := fun self params =>
  san ← of_panics (head (lt_sans self));
  csr ← expect (Csr.new_leaf (bp_key params) (bp_cn params) san);
  tbs ← csr_params csr;
  sans ← of_panics (leaf_sans (lt_sans self));
  let tbs := mk_params (cp_serial_number tbs) sans (cp_distinguished_name tbs)
    ExplicitNoCa (cp_key_usages tbs) (cp_extended_key_usages tbs) (cp_name_constraints tbs)
    (cp_crl_distribution_points tbs) (cp_custom_extensions tbs) (cp_key_identifier_method tbs)
    (cp_not_before tbs) (cp_not_after tbs) (cp_use_authority_key_identifier_extension tbs) (cp_other tbs) in
  Params_sign params tbs (lt_parent self).

Definition CertBuilder_new_leaf (cn : string) (parent : Identity) : prog R (CertBuilder LeafTemplate) :=
  CertBuilder_new cn (mk_leaf parent []).

Definition with_sans (sans : list string) (self : CertBuilder LeafTemplate) : CertBuilder LeafTemplate :=
  mk_builder (cb_params self) (mk_leaf (lt_parent (cb_template self)) sans).
Definition san (s : string) : CertBuilder LeafTemplate -> CertBuilder LeafTemplate := with_sans [s].

(** ** [ca.rs]: the root, once it was initialised *)

Record TestCA : Type := mk_test_ca { ca_root : Identity }.

Definition TestCA_new : prog R TestCA :=
  b ← new_root "Banana Test CA";
  root ← CertBuilder_build b;
  mret (mk_test_ca root).

Definition TestCA_root_cert (self : TestCA) : RootCertificate :=
  RootCertificate_from_trusted_cert (id_cert (ca_root self)).

(** ** [chain_builder/chain.rs] *)

Record TestChain : Type := mk_test_chain {
  tc_root : Identity;
  tc_intermediates : list Identity;
  tc_leaf : Identity
}.

(** [trait ChainMutator]. *)
Record ChainMutator : Type := mk_mutator {
  mut_intermediate : N -> N -> CertBuilder IntermediateTemplate -> CertBuilder IntermediateTemplate;
  mut_leaf : CertBuilder LeafTemplate -> CertBuilder LeafTemplate;
  mut_complete : TestChain -> prog R TestChain
}.

(** [intermediates.last().unwrap_or(ca.root())]. *)
Definition last_or_root (root : Identity) (intermediates : list Identity) : Identity :=
  default root (last intermediates).

(** The intermediates, for the counter values [counter]. *)
Fixpoint build_intermediates (ca : TestCA) (total : N) (mutator : ChainMutator) (counter : list N)
  (intermediates : list Identity) : prog R (list Identity) :=
  match counter with
  | [] => mret intermediates
  | i :: counter =>
      b ← CertBuilder_new_intermediate ("Intermediate " +:+ pretty i)
        (last_or_root (ca_root ca) intermediates);
      let b := allowed_domain "itsallbroken.com" b in
      v ← CertBuilder_build (mut_intermediate mutator (i - 1)%N total b);
      build_intermediates ca total mutator counter (intermediates ++ [v])
  end.

(** A leaf for the tests' domain. *)
Definition issue_leaf (cn : string) (parent : Identity)
  (f : CertBuilder LeafTemplate -> CertBuilder LeafTemplate) : prog R Identity :=
  b ← CertBuilder_new_leaf cn parent;
  CertBuilder_build (f (san "leaf.itsallbroken.com" b)).

(** [TestChain::build]; [n_intermediates] is a [u8] and [n_intermediates + 1] is
    checked for overflow. *)
Definition TestChain_build (ca : TestCA) (n_intermediates : N) (mutator : ChainMutator) : prog R TestChain :=
  if decide (n_intermediates + 1 < 256)%N then
    intermediates ← build_intermediates ca n_intermediates mutator
      (N.of_nat <$> seq 1 (N.to_nat n_intermediates)) [];
    leaf ← issue_leaf "A Leaf Certificate" (last_or_root (ca_root ca) intermediates) (mut_leaf mutator);
    mut_complete mutator (mk_test_chain (ca_root ca) intermediates leaf)
  else panic.

Definition TestChain_root (self : TestChain) : RootCertificate :=
  RootCertificate_from_trusted_cert (id_cert (tc_root self)).
Definition TestChain_len (self : TestChain) : nat := length (tc_intermediates self) + 2.

(** ** The mutators *)

Definition keep {T} (b : CertBuilder T) : CertBuilder T := b.
Definition complete_as_is (chain : TestChain) : prog R TestChain := mret chain.

(** [assert!(chain.intermediates.len() >= k)]. *)
Definition at_least (k : nat) (chain : TestChain) : prog R () :=
  if decide (k <= length (tc_intermediates chain)) then mret tt else panic.
Definition complete_at_least (k : nat) (chain : TestChain) : prog R TestChain :=
  at_least k chain ;; mret chain.

(** The intermediate that a seed selects. *)
Definition at_target (seed : N) (f : CertBuilder IntermediateTemplate -> CertBuilder IntermediateTemplate)
  (index total : N) (b : CertBuilder IntermediateTemplate) : CertBuilder IntermediateTemplate :=
  let target := (seed mod total)%N in if decide (index = target) then f b else b.

Definition ValidChain : ChainMutator := mk_mutator (fun _ _ => keep) keep complete_as_is.

Definition ExpiredIntermediate (seed : N) : ChainMutator :=
  mk_mutator (at_target seed (set_not_after (date_time_ymd 2020 1 1))) keep (complete_at_least 1).
Definition FutureValidIntermediate (seed : N) : ChainMutator :=
  mk_mutator (at_target seed (set_not_before (date_time_ymd 4000 1 1))) keep (complete_at_least 1).
Definition PreEpochIntermediate (seed : N) : ChainMutator :=
  mk_mutator (at_target seed (set_not_after (date_time_ymd 1969 7 20))) keep (complete_at_least 1).
Definition NonCaIntermediate (seed : N) : ChainMutator :=
  mk_mutator (at_target seed (set_is_ca ExplicitNoCa)) keep (complete_at_least 1).
Definition PathLenViolation : ChainMutator :=
  mk_mutator (fun _ _ => set_path_len 0) keep (complete_at_least 2).

Definition UNKNOWN_EXTENSION_OID : list N := [1; 3; 6; 1; 4; 1; 99999; 1]%N.
Definition unknown_critical_extension : CustomExtension :=
  extension_set_criticality true (extension_from_oid_content UNKNOWN_EXTENSION_OID [xde; xad]).
Definition CriticalExtensionIntermediate (seed : N) : ChainMutator :=
  mk_mutator (at_target seed (add_custom_extension unknown_critical_extension)) keep (complete_at_least 1).
Definition CriticalExtensionLeaf : ChainMutator :=
  mk_mutator (fun _ _ => keep) (add_custom_extension unknown_critical_extension) complete_as_is.

Definition ExpiredLeaf : ChainMutator :=
  mk_mutator (fun _ _ => keep) (set_not_after (date_time_ymd 2020 1 1)) complete_as_is.
Definition FutureValidLeaf : ChainMutator :=
  mk_mutator (fun _ _ => keep) (set_not_before (date_time_ymd 4000 1 1)) complete_as_is.
Definition PreEpochLeaf : ChainMutator :=
  mk_mutator (fun _ _ => keep) (set_not_after (date_time_ymd 1969 7 20)) complete_as_is.
Definition CaSignerLeaf : ChainMutator :=
  mk_mutator (fun _ _ => keep) (set_is_ca (Ca None)) complete_as_is.

Definition MISMATCHED_LEAF_SAN : string := "wrong.itsallbroken.com".
Definition MismatchedLeafSan : ChainMutator :=
  mk_mutator (fun _ _ => set_allowed_domains []) (with_sans [MISMATCHED_LEAF_SAN]) complete_as_is.

(** *** Extended key usages *)

Inductive ChainEKUConfig : Type :=
| EKU_IntermediatesAndLeaf (intermediate leaf : list ExtendedKeyUsagePurpose)
| EKU_LeafOnly (v : list ExtendedKeyUsagePurpose)
| EKU_IntermediatesOnly (v : list ExtendedKeyUsagePurpose).

Definition ChainEKUConfig_union (self : ChainEKUConfig) : list ExtendedKeyUsagePurpose :=
  match self with
  | EKU_IntermediatesAndLeaf intermediate leaf => intermediate ++ leaf
  | EKU_LeafOnly v | EKU_IntermediatesOnly v => v
  end.
Definition ChainEKUConfig_leaf (self : ChainEKUConfig) : list ExtendedKeyUsagePurpose :=
  match self with
  | EKU_IntermediatesAndLeaf _ leaf => leaf
  | EKU_LeafOnly v => v
  | EKU_IntermediatesOnly _ => []
  end.
Definition ChainEKUConfig_intermediates (self : ChainEKUConfig) : list ExtendedKeyUsagePurpose :=
  match self with
  | EKU_IntermediatesAndLeaf intermediate _ => intermediate
  | EKU_LeafOnly _ => []
  | EKU_IntermediatesOnly v => v
  end.

Definition SetEKUs (apply_to : ChainEKUConfig) : ChainMutator :=
  mk_mutator
    (fun _ _ => match apply_to with
      | EKU_LeafOnly _ => keep
      | EKU_IntermediatesOnly eku | EKU_IntermediatesAndLeaf eku _ => set_extended_key_usages eku
      end)
    (match apply_to with
     | EKU_LeafOnly eku | EKU_IntermediatesAndLeaf _ eku => set_extended_key_usages eku
     | EKU_IntermediatesOnly _ => keep
     end)
    complete_as_is.

(** *** Names *)

Definition LEAF_ENDPOINT_HOSTNAME : string := "us1.datadoghq.com".

Inductive LeafSanScenario : Type :=
| San_Matching | San_Mismatching | San_MultipleWithMatch | San_MultipleWithoutMatch.

Definition LeafSanScenario_sans (self : LeafSanScenario) : list string :=
  match self with
  | San_Matching => [LEAF_ENDPOINT_HOSTNAME]
  | San_Mismatching => ["eu1.datadoghq.com"]
  | San_MultipleWithMatch => ["eu1.datadoghq.com"; LEAF_ENDPOINT_HOSTNAME; "ap1.datadoghq.com"]
  | San_MultipleWithoutMatch => ["eu1.datadoghq.com"; "ap1.datadoghq.com"]
  end.

Definition SetLeafSans (scenario : LeafSanScenario) : ChainMutator :=
  mk_mutator (fun _ _ => set_allowed_domains []) (with_sans (LeafSanScenario_sans scenario)) complete_as_is.

Inductive NameConstraintScenario : Type :=
| Nc_Matching | Nc_Mismatching | Nc_Unconstrained | Nc_MultipleWithMatch | Nc_MatchingSubdomain.

Definition permitted_domains (self : NameConstraintScenario) : list string :=
  match self with
  | Nc_Matching => [LEAF_ENDPOINT_HOSTNAME]
  | Nc_Mismatching => ["eu1.datadoghq.com"]
  | Nc_Unconstrained => []
  | Nc_MultipleWithMatch => ["eu1.datadoghq.com"; LEAF_ENDPOINT_HOSTNAME]
  | Nc_MatchingSubdomain => ["datadoghq.com"]
  end.

(** [str::ends_with]. *)
Definition str_ends_with (s suffix : string) : bool :=
  bool_decide (String.substring (String.length s - String.length suffix) (String.length suffix) s = suffix)
  && bool_decide (String.length suffix <= String.length s).

Definition permits (self : NameConstraintScenario) (dns_name : string) : bool :=
  let permitted := permitted_domains self in
  match permitted with
  | [] => true
  | _ => existsb (fun v => bool_decide (dns_name = v) || str_ends_with dns_name ("." +:+ v)) permitted
  end.

Record SetNameConstraintsConfig : Type := mk_name_constraints {
  nc_scenario : NameConstraintScenario;
  nc_leaf_sans : LeafSanScenario
}.
Definition SetNameConstraints_new (scenario : NameConstraintScenario) : SetNameConstraintsConfig :=
  mk_name_constraints scenario San_Matching.
Definition with_leaf_sans (scenario : LeafSanScenario) (self : SetNameConstraintsConfig) :
  SetNameConstraintsConfig := mk_name_constraints (nc_scenario self) scenario.
Definition SetNameConstraints (self : SetNameConstraintsConfig) : ChainMutator :=
  mk_mutator (fun _ _ => set_allowed_domains (permitted_domains (nc_scenario self)))
    (mut_leaf (SetLeafSans (nc_leaf_sans self))) complete_as_is.

(** *** Forgeries *)

(** [cert_id().as_dangerous_comparable().as_bytes().to_vec()]. *)
Definition ski_bytes (i : Identity) : list u8 :=
  Dangerous_as_bytes (as_dangerous_comparable (cert_cert_id (id_cert i))).

(** A self-signed CA with a chosen identifier. *)
Definition evil_root (cn : string) (ski : list u8) : prog R Identity :=
  b ← new_root cn;
  CertBuilder_build (set_cert_id ski b).

(** An intermediate, after [f]. *)
Definition issue_intermediate (cn : string) (parent : Identity)
  (f : CertBuilder IntermediateTemplate -> CertBuilder IntermediateTemplate) : prog R Identity :=
  b ← CertBuilder_new_intermediate cn parent;
  CertBuilder_build (f b).

Definition with_leaf (chain : TestChain) (leaf : Identity) : TestChain :=
  mk_test_chain (tc_root chain) (tc_intermediates chain) leaf.

Definition ForgedLeaf_complete (chain : TestChain) : prog R TestChain :=
  let last_cert := last_or_root (tc_root chain) (tc_intermediates chain) in
  evil ← evil_root "Evil CA" (ski_bytes last_cert);
  evil_leaf ← issue_leaf "Evil Leaf" evil keep;
  mret (with_leaf chain evil_leaf).
Definition ForgedLeaf : ChainMutator := mk_mutator (fun _ _ => keep) keep ForgedLeaf_complete.

Definition OrphanLeaf_complete (chain : TestChain) : prog R TestChain :=
  let last_cert := last_or_root (tc_root chain) (tc_intermediates chain) in
  evil_ca ← issue_intermediate "Evil Orphan CA" (tc_root chain) (set_cert_id (ski_bytes last_cert));
  leaf ← issue_leaf "Orphan Leaf" evil_ca keep;
  mret (with_leaf chain leaf).
Definition OrphanLeaf : ChainMutator := mk_mutator (fun _ _ => keep) keep OrphanLeaf_complete.

Definition ForgedIntermediate_complete (seed : N) (chain : TestChain) : prog R TestChain :=
  at_least 1 chain ;;
  let idx := (N.to_nat seed mod length (tc_intermediates chain))%nat in
  parent_cert ← of_panics (match idx with
    | 0 => Some (tc_root chain)
    | S j => tc_intermediates chain !! j
    end);
  evil ← evil_root "Evil CA" (ski_bytes parent_cert);
  evil_intermediate ← issue_intermediate "Evil Intermediate" evil (allowed_domain "itsallbroken.com");
  evil_leaf ← issue_leaf "Evil Leaf" evil_intermediate keep;
  mret (mk_test_chain (tc_root chain) (take idx (tc_intermediates chain) ++ [evil_intermediate]) evil_leaf).
Definition ForgedIntermediate (seed : N) : ChainMutator :=
  mk_mutator (fun _ _ => keep) keep (ForgedIntermediate_complete seed).

Definition ski_a : list u8 := replicate 16 x04.
Definition ski_b : list u8 := replicate 16 x02.

Definition SelfReferentialCertIds_complete (chain : TestChain) : prog R TestChain :=
  at_least 2 chain ;;
  signer_for_a ← evil_root "Loop Signer B" ski_b;
  int_a ← issue_intermediate "Loop Intermediate A" signer_for_a (set_cert_id ski_a);
  signer_for_b ← evil_root "Loop Signer A" ski_a;
  int_b ← issue_intermediate "Loop Intermediate B" signer_for_b (set_cert_id ski_b);
  let len := length (tc_intermediates chain) in
  let intermediates := <[len - 1 := int_b]> (<[len - 2 := int_a]> (tc_intermediates chain)) in
  parent ← of_panics (intermediates !! (len - 1));
  leaf ← issue_leaf "Leaf" parent keep;
  mret (mk_test_chain (tc_root chain) intermediates leaf).
Definition SelfReferentialCertIds : ChainMutator :=
  mk_mutator (fun _ _ => keep) keep SelfReferentialCertIds_complete.

(** [MissingIntermediate]: the chain, and what [take_dropped] returns. *)
Definition MissingIntermediate_drop (seed : N) (chain : TestChain) : prog R (TestChain * Identity) :=
  at_least 1 chain ;;
  let idx := (N.to_nat seed mod length (tc_intermediates chain))%nat in
  dropped ← of_panics (tc_intermediates chain !! idx);
  mret (mk_test_chain (tc_root chain) (delete idx (tc_intermediates chain)) (tc_leaf chain), dropped).
Definition MissingIntermediate (seed : N) : ChainMutator :=
  mk_mutator (fun _ _ => keep) keep
    (fun chain => '(chain, _) ← MissingIntermediate_drop seed chain; mret chain).

(** ** [chain/mod.rs]: at which stage a mutation is detected *)

(** The mutations of [arbitrary_invalid_chain_spuriously_built], by the seed. *)
Definition invalid_chain_spuriously_built (seed : N) : list ChainMutator :=
  [ForgedLeaf; PathLenViolation; ExpiredLeaf; FutureValidLeaf; ForgedIntermediate seed;
   ExpiredIntermediate seed; FutureValidIntermediate seed; CaSignerLeaf; MismatchedLeafSan; PreEpochLeaf;
   CriticalExtensionLeaf; OrphanLeaf; NonCaIntermediate seed; PreEpochIntermediate seed;
   CriticalExtensionIntermediate seed].

(** [arbitrary_invalid_chain]: these, and those that chain building detects. *)
Definition invalid_chain (seed : N) : list ChainMutator :=
  invalid_chain_spuriously_built seed ++ [SelfReferentialCertIds; MissingIntermediate seed].

End TestIssuer.
Arguments mk_builder {_ _ _ T} cb_params cb_template.
Arguments cb_params {_ _ _ T} c.
Arguments cb_template {_ _ _ T} c.
