(* ===== verification/TestChains.v ===== *)
(** * Chains of the test issuer against the chain builder

    What the documented behaviour of [rcgen] makes of the builders of
    [TestIssuer], and the property tests of [chain/build_unverified.rs] over the
    classification of [chain/mod.rs]: every chain that the tests call spuriously
    built is accepted by [build_unverified_chain_for], forged and orphaned ones
    included, and the two other mutations are refused with the errors the tests
    name, for every number of intermediates, seed and key. *)

From stdpp Require Import base option list strings gmap pretty.
From Stdlib Require Import Strings.Byte NArith ZArith Lia.
From S2P Require Import Prelude Hex Utf8 CertId Signature Hash Keys Certificate Csr TrustStore TestIssuer.

Local Open Scope string_scope.

(** ** What an issued certificate contains *)

Section Contents.
Context `{Rcgen} `{X509Lib} {R : Type} `{!AwsEcdsa R} `{!RcgenIssue R}.

(** A date that the certificate parser's clock represents. *)
Definition representable (d : OffsetDateTime) : Prop :=
  exists t, timestamp_from_second (unix_timestamp d) = Ok t.
Definition datable (p : CertificateParams) : Prop :=
  representable (cp_not_before p) /\ representable (cp_not_after p).

(** An extension under the private enterprise arc. *)
Definition private_extension (e : CustomExtension) : Prop := exists arc content critical,
  e = extension_set_criticality critical
        (extension_from_oid_content ([1; 3; 6; 1; 4; 1]%N ++ arc) content).

(** [der] parses to a certificate with these identifiers and the parameters'
    serial number and validity. *)
Definition carries (p : CertificateParams) (serial ski aki der : list u8) : Prop := exists x,
  x509_parse true der = Ok ([], x) /\ x_raw_serial x = serial /\
  x_not_before x = unix_timestamp (cp_not_before p) /\ x_not_after x = unix_timestamp (cp_not_after p) /\
  omap sel_ski (x_extensions x) = [ski] /\ omap sel_aki (x_extensions x) = [aki].

(** The parameters ask for a serial number, both identifiers, and no extension
    of a standard kind. *)
Definition identified (p : CertificateParams) (serial ski : list u8) : Prop :=
  cp_serial_number p = Some (serial_from_slice serial) /\
  cp_use_authority_key_identifier_extension p = true /\
  cp_key_identifier_method p = PreSpecified ski /\
  Forall private_extension (cp_custom_extensions p).

(** A DER integer is written as it is when it is positive and minimal. *)
Definition positive_minimal (serial : list u8) : Prop :=
  match serial with b :: _ => (0 < Byte.to_N b < 128)%N | [] => False end.

End Contents.

(** What [rcgen] documents of issuing: names become parameters, and a request it
    serialised it parses; a key that signs issues a certificate; the certificate
    carries what the parameters say, the key identifier of its issuer, and
    parses.  [issuer_key_id] is the identifier that an issuer refers to itself by. *)
Class RcgenIssueLaws `{RcgenIssue} `{X509Lib} : Type := {
  issuer_key_id : CertifiedIssuer -> list u8;
  ymd_representable : forall y m d, (1900 <= y <= 5000)%Z -> (1 <= m <= 12)%N -> (1 <= d <= 28)%N ->
    representable (date_time_ymd y m d);
  params_new_name : forall cn, str_is_ascii cn = true ->
    exists p, params_new [cn] = Ok p /\ datable p /\ cp_custom_extensions p = [];
  request_parses : forall p (k : SigningKey R) r c r', serialize_request p k r = Done (Ok c) r' ->
    exists s q, csr_pem c = Ok s /\ csr_params_from_pem s = Ok q /\ datable q /\
      (cp_custom_extensions p = [] -> cp_custom_extensions q = []);
  self_signed_issues : forall p key r, can_sign key -> datable p ->
    exists i r', certified_self_signed p key r = Done (Ok i) r';
  signed_by_issues : forall p key parent r, can_sign (certified_key parent) -> datable p ->
    exists i r', certified_signed_by p key parent r = Done (Ok i) r';
  self_signed_contents : forall p key r i r' serial ski,
    certified_self_signed p key r = Done (Ok i) r' -> identified p serial ski -> positive_minimal serial ->
    carries p serial ski ski (certified_der i) /\ issuer_key_id i = ski /\ certified_key i = key /\
    pem_iter (certified_pem i) = [Ok (certified_der i)];
  signed_by_contents : forall p key parent r i r' serial ski,
    certified_signed_by p key parent r = Done (Ok i) r' -> identified p serial ski ->
    positive_minimal serial ->
    carries p serial ski (issuer_key_id parent) (certified_der i) /\ issuer_key_id i = ski /\
    certified_key i = key
}.

(** ** Issuing *)

Section Issuing.
Context `{RcgenLaws} `{AwsDigestLaws} `{X509Lib} {R : Type} `{!AwsEcdsa R} `{!AwsEcdsaLaws R}
  `{!RcgenIssue R} `{!RcgenIssueLaws}.

(** The identifiers of an identity, as bytes. *)
Definition ski (i : Identity) : list u8 := id_bytes (cert_cert_id (id_cert i)).
Definition aki (i : Identity) : list u8 := id_bytes (cert_issuer_cert_id (id_cert i)).

(** An identity that issues certificates in its own name. *)
Definition identity_ok (i : Identity) : Prop :=
  issuer_key_id (id_issuer i) = ski i /\ can_sign (certified_key (id_issuer i)) /\
  16 <= length (ski i) <= 64.

Definition id_fits (id : list u8) : Prop := 16 <= length id <= 64.

(** The overrides of a builder are in range. *)
Definition params_ok (p : Params) : Prop :=
  can_sign (bp_key p) /\
  (forall id, bp_cert_id p = Some id -> id_fits id) /\
  (forall d, bp_not_before p = Some d -> representable d) /\
  (forall d, bp_not_after p = Some d -> representable d) /\
  Forall private_extension (bp_custom_extensions p).

(** The identifier that a builder's certificate gets. *)
Definition built_ski (p : Params) : list u8 :=
  default (reverse (spki_hash (bp_key p)) ++ [x2a])%list (bp_cert_id p).

Lemma ski_of_built p : ski_of p = Some (built_ski p).
Proof.
  unfold ski_of, built_ski, generate_ski. destruct (bp_cert_id p); [done|]. by rewrite key_id_hash.
Qed.

Lemma built_ski_fits p : params_ok p -> id_fits (built_ski p).
Proof.
  intros (_ & I & _). unfold built_ski, id_fits. destruct (bp_cert_id p) as [id|]; [by apply I|].
  simpl. rewrite length_app, length_reverse. unfold spki_hash. rewrite sha256_length. simpl. lia.
Qed.

Lemma find_map_omap {A B} (f : A -> option B) l b : omap f l = [b] -> find_map f l = Some b.
Proof.
  induction l as [|a l IH]; simpl; [done|]. destruct (f a) eqn:E; [by intros [= -> _] | done].
Qed.

(** The certificate that the code reads out of what was issued. *)
Lemma carries_certificate p ski0 aki0 der : carries p [x2a] ski0 aki0 der -> datable p ->
  id_fits ski0 -> id_fits aki0 -> exists c, Certificate_from_der der = Some (Ok c) /\
    id_bytes (cert_cert_id c) = ski0 /\ id_bytes (cert_issuer_cert_id c) = aki0.
Proof.
  intros (x & P & Sn & Nb & Na & Es & Ea) [[t1 D1] [t2 D2]] F1 F2.
  rewrite (from_der_parsed der x P). rewrite decide_True by (unfold serial_in_range; rewrite Sn; simpl; lia).
  unfold Validity_try_from, Validity_new, asn1_to_timestamp. rewrite Nb, Na, D1, D2.
  unfold CertId_try_from_x509, IssuerCertId_try_from_x509.
  change (find_map _ (x_extensions x)) with (find_map sel_ski (x_extensions x)) at 1.
  change (find_map (fun v => match v with AuthorityKeyIdentifier kid => kid | _ => None end) (x_extensions x))
    with (find_map sel_aki (x_extensions x)).
  rewrite (find_map_omap _ _ _ Es), (find_map_omap _ _ _ Ea). simpl.
  rewrite !CertId_try_from_ok by done. simpl. by eexists.
Qed.

(** [p] completes with a result that satisfies [Q], whatever the randomness. *)
Definition yields {A} (p : prog R A) (Q : A -> Prop) : Prop := forall r, exists a r', p r = Done a r' /\ Q a.

Lemma yields_ret {A} (a : A) (Q : A -> Prop) : Q a -> yields (mret a) Q.
Proof. intros HQ r. by exists a, r. Qed.

Lemma yields_bind {A B} (p : prog R A) (k : A -> prog R B) P Q :
  yields p P -> (forall a, P a -> yields (k a) Q) -> yields (p ≫= k) Q.
Proof.
  intros Hp Hk r. destruct (Hp r) as (a & r1 & E & HP). destruct (Hk a HP r1) as (b & r2 & E2 & HQ).
  exists b, r2. by rewrite (prog_bind_done _ _ _ _ _ E).
Qed.

Lemma yields_some {A} (o : option A) a (Q : A -> Prop) : o = Some a -> Q a -> yields (of_panics o) Q.
Proof. intros -> HQ r. by exists a, r. Qed.

Lemma yields_bind_some {A B} (o : option A) a (k : A -> prog R B) Q :
  o = Some a -> yields (k a) Q -> yields (of_panics o ≫= k) Q.
Proof. intros -> K r. exact (K r). Qed.

Lemma yields_expect {A E} (p : prog R (result A E)) (Q : A -> Prop) :
  yields p (fun v => exists a, v = Ok a /\ Q a) -> yields (expect p) Q.
Proof.
  intros Hp. unfold expect. eapply yields_bind; [exact Hp|]. intros v (a & -> & HQ).
  by eapply yields_some.
Qed.

Lemma yields_weaken {A} (p : prog R A) (P Q : A -> Prop) :
  yields p P -> (forall a, P a -> Q a) -> yields p Q.
Proof. intros Hp K r. destruct (Hp r) as (a & r' & E & HP). exists a, r'. auto. Qed.

(** The identity that parameters [p] give under the issuer identified by [id]. *)
Definition issued (p : Params) (id : list u8) (i : Identity) : Prop :=
  identity_ok i /\ ski i = built_ski p /\ aki i = id.

(** What every template hands to [sign]. *)
Definition plain (tbs : CertificateParams) : Prop := datable tbs /\ cp_custom_extensions tbs = [].

Lemma default_holds {A} (P : A -> Prop) (o : option A) a : (forall x, o = Some x -> P x) -> P a ->
  P (default a o).
Proof. destruct o; simpl; auto. Qed.

Lemma sign_yields p tbs parent : params_ok p -> plain tbs -> identity_ok parent ->
  yields (Params_sign p tbs parent) (issued p (ski parent)).
Proof.
  intros Pok [Dt Ex] (Pk & Ps & Pf). unfold Params_sign.
  eapply yields_bind_some; [apply ski_of_built|].
  set (t := Params_tbs p tbs (built_ski p)).
  pose proof Pok as (Cs & _ & Nb & Na & Cx).
  assert (Td : datable t) by (split; apply (default_holds representable); try done; apply Dt).
  assert (Ti : identified t [x2a] (built_ski p)).
  { split_and!; try done. simpl. by rewrite Ex. }
  apply yields_bind with (P := fun i => carries t [x2a] (built_ski p) (ski parent) (certified_der i) /\
    issuer_key_id i = built_ski p /\ certified_key i = bp_key p).
  { apply yields_expect. intros r. destruct (signed_by_issues t (bp_key p) (id_issuer parent) r Ps Td)
      as (i & r' & E). exists (Ok i), r'. split; [done|]. exists i. split; [done|].
    rewrite <- Pk. by eapply signed_by_contents. }
  intros i (Ca & Ik & Ck).
  destruct (carries_certificate t _ _ _ Ca Td (built_ski_fits p Pok) Pf) as (c & E & Es & Ea).
  apply yields_bind with (P := eq c); [eapply yields_expect, yields_some; [exact E|]; by exists c|].
  intros ? <-. apply yields_ret. unfold issued, identity_ok, ski, aki. simpl. rewrite Es, Ea, Ik, Ck.
  split_and!; try done; by apply built_ski_fits.
Qed.

(** *** The templates *)

#[local] Existing Instances SelfSignedTemplate_build IntermediateTemplate_build LeafTemplate_build.

Lemma root_yields p : params_ok p -> str_is_ascii (bp_cn p) = true ->
  yields (template_build mk_self_signed p) (issued p (built_ski p)).
Proof.
  intros Pok As. unfold template_build, SelfSignedTemplate_build.
  destruct (params_new_name (bp_cn p) As) as (tbs & Et & Dt & Ex).
  eapply yields_bind_some; [by rewrite Et|]. eapply yields_bind_some; [apply ski_of_built|].
  set (t := mk_params _ _ _ _ _ _ _ _ _ _ _ _ _ _). pose proof Pok as (Cs & _).
  assert (Ti : identified t [x2a] (built_ski p)).
  { split_and!; try done. simpl. by rewrite Ex. }
  apply yields_bind with (P := fun i => carries t [x2a] (built_ski p) (built_ski p) (certified_der i) /\
    issuer_key_id i = built_ski p /\ certified_key i = bp_key p /\
    pem_iter (certified_pem i) = [Ok (certified_der i)]).
  { apply yields_expect. intros r. destruct (self_signed_issues t (bp_key p) r Cs Dt) as (i & r' & E).
    exists (Ok i), r'. split; [done|]. exists i. split; [done|]. by eapply self_signed_contents. }
  intros i (Ca & Ik & Ck & Pem).
  destruct (carries_certificate t _ _ _ Ca Dt (built_ski_fits p Pok) (built_ski_fits p Pok))
    as (c & E & Es & Ea).
  apply yields_bind with (P := eq c).
  { eapply yields_expect, yields_some; [unfold Certificate_from_pem; by rewrite Pem, E|]. by exists c. }
  intros ? <-. apply yields_ret. unfold issued, identity_ok, ski, aki. simpl. rewrite Es, Ea, Ik, Ck.
  split_and!; try done; by apply built_ski_fits.
Qed.

(** A request is made, and read back without extensions. *)
Lemma request_plain key profile p0 : can_sign key -> params_new [] = Ok p0 ->
  (forall kid, params_supported p0 (profile kid) /\ cp_custom_extensions (profile kid) = []) ->
  yields (request key profile) (fun v => exists csr, v = Ok csr /\ yields (csr_params csr) plain).
Proof.
  intros C P S. unfold request. rewrite key_id_hash.
  eapply yields_bind_some; [reflexivity|]. cbv zeta. intros r.
  destruct (S (spki_hash key)) as [Su Ex].
  destruct (request_total R (profile (spki_hash key)) (PrivateKey_signing_key key) p0 r P Su
    (signing_key_total key C)) as (c & r' & E).
  destruct (request_parses _ _ _ _ _ E) as (pem & q & Ep & Eq & Dq & Eq').
  eexists _, r'. split; [by erewrite prog_bind_done by exact E|]. eexists. split; [reflexivity|].
  unfold csr_params, as_pem_string. simpl. eapply yields_bind_some; [by rewrite Ep|].
  eapply yields_some; [by rewrite Eq|]. split; [done|]. by apply Eq'.
Qed.

Definition nonblank (s : string) : bool := negb (bool_decide (str_trim s = [])).

Lemma nonblank_trim s : nonblank s = true -> bool_decide (str_trim s = []) = false.
Proof. apply negb_true_iff. Qed.

Lemma intermediate_yields t p : params_ok p -> nonblank (bp_cn p) = true -> identity_ok (it_parent t) ->
  yields (template_build t p) (issued p (ski (it_parent t))).
Proof.
  intros Pok Nb Iok. unfold template_build, IntermediateTemplate_build.
  destruct params_new_empty as (p0 & P & _).
  apply yields_bind with (P := fun csr => yields (csr_params csr) plain).
  { apply yields_expect. unfold new_intermediate. rewrite (nonblank_trim _ Nb), P. simpl.
    apply request_plain with p0; [apply Pok | done | done]. }
  intros csr Hp. eapply yields_bind; [exact Hp|]. intros tbs [Dt Ex]. by apply sign_yields.
Qed.

(** Names that a leaf may have: at least one, ASCII, the first not blank. *)
Definition names_ok (sans : list string) : bool :=
  match sans with
  | [] => false
  | s :: _ => nonblank s && forallb str_is_ascii sans
  end.

Lemma leaf_sans_some sans : forallb str_is_ascii sans = true -> is_Some (leaf_sans sans).
Proof.
  unfold leaf_sans. induction sans as [|s sans IH]; intros E; [by eexists|].
  apply andb_true_iff in E as [E1 E2]. destruct (IH E2) as [vs Ev]. simpl.
  pose proof (ia5_ascii s) as A. destruct (ia5_try_from s); [|congruence]. simpl in *. rewrite Ev. by eexists.
Qed.

Lemma leaf_yields t p : params_ok p -> nonblank (bp_cn p) = true -> names_ok (lt_sans t) = true ->
  identity_ok (lt_parent t) -> yields (template_build t p) (issued p (ski (lt_parent t))).
Proof.
  intros Pok Nb Nm Iok. unfold template_build, LeafTemplate_build.
  destruct (lt_sans t) as [|s sans] eqn:Es; [done|]. apply andb_true_iff in Nm as [Ns As].
  destruct params_new_empty as (p0 & P & _), (leaf_sans_some _ As) as [vs Ev].
  eapply yields_bind_some; [reflexivity|].
  apply yields_bind with (P := fun csr => yields (csr_params csr) plain).
  { apply yields_expect. unfold new_leaf. rewrite (nonblank_trim _ Nb), (nonblank_trim _ Ns), P. simpl.
    apply andb_true_iff in As as [A1 _]. pose proof (ia5_ascii s) as A.
    destruct (ia5_try_from s) as [v|]; [|congruence]. simpl.
    apply request_plain with p0; [apply Pok | done | done]. }
  intros csr Hp. eapply yields_bind; [exact Hp|]. intros tbs [Dt Ex].
  eapply yields_bind_some; [exact Ev|]. by apply sign_yields.
Qed.

(** *** Builders *)

Context (fips : bool).
(** The provider generates keys, and they sign. *)
Definition keys_work : Prop := yields (PrivateKey_new fips) can_sign.
Context (Keys : keys_work).

(** The state of a new builder. *)
Definition fresh (cn : string) (p : Params) : Prop :=
  can_sign (bp_key p) /\ p = mk_builder_params (bp_key p) cn None None None None None [].

Lemma fresh_ok cn p : fresh cn p -> params_ok p.
Proof. intros [C ->]. split_and!; simpl; try done. Qed.

Lemma builder_new_yields {T} cn (t : T) :
  yields (CertBuilder_new fips cn t) (fun b => fresh cn (cb_params b) /\ cb_template b = t).
Proof.
  unfold CertBuilder_new. eapply yields_bind; [exact Keys|]. intros k C. by apply yields_ret.
Qed.

(** A change to a builder that leaves its role alone. *)
Definition gentle_intermediate (f : CertBuilder IntermediateTemplate -> CertBuilder IntermediateTemplate) : Prop :=
  forall b, params_ok (cb_params b) -> params_ok (cb_params (f b)) /\
    bp_cn (cb_params (f b)) = bp_cn (cb_params b) /\ it_parent (cb_template (f b)) = it_parent (cb_template b).
Definition gentle_leaf (f : CertBuilder LeafTemplate -> CertBuilder LeafTemplate) : Prop :=
  forall b, params_ok (cb_params b) -> names_ok (lt_sans (cb_template b)) = true ->
    params_ok (cb_params (f b)) /\ bp_cn (cb_params (f b)) = bp_cn (cb_params b) /\
    lt_parent (cb_template (f b)) = lt_parent (cb_template b) /\
    names_ok (lt_sans (cb_template (f b))) = true.

Lemma evil_root_yields cn id : id_fits id -> str_is_ascii cn = true ->
  yields (evil_root fips cn id) (fun i => identity_ok i /\ ski i = id).
Proof.
  intros F A. unfold evil_root. eapply yields_bind; [apply builder_new_yields|].
  intros [p []] [Fr _]. simpl in Fr. pose proof (fresh_ok _ _ Fr) as (C & _). destruct Fr as [_ ->].
  eapply yields_weaken; [apply root_yields|]; simpl; [|done|].
  - split_and!; simpl; try done. by intros ? [= <-].
  - by intros i (I & S & _).
Qed.

Lemma issue_intermediate_yields cn parent f : identity_ok parent -> nonblank cn = true ->
  gentle_intermediate f ->
  yields (issue_intermediate fips cn parent f) (fun i => identity_ok i /\ aki i = ski parent).
Proof.
  intros I N G. unfold issue_intermediate. eapply yields_bind; [apply builder_new_yields|].
  intros b [Fr Et]. destruct (G b (fresh_ok _ _ Fr)) as (Po & Cn & Pa). rewrite Et in Pa. simpl in Pa.
  destruct Fr as [_ E]. rewrite E in Cn. simpl in Cn.
  eapply yields_weaken; [apply intermediate_yields; [done | by rewrite Cn | by rewrite Pa]|].
  rewrite Pa. by intros i (? & _ & ?).
Qed.

(** The same, with the identifier chosen. *)
Lemma issue_identified_yields cn parent id : identity_ok parent -> nonblank cn = true -> id_fits id ->
  yields (issue_intermediate fips cn parent (set_cert_id id))
    (fun i => identity_ok i /\ ski i = id /\ aki i = ski parent).
Proof.
  intros I N F. unfold issue_intermediate. eapply yields_bind; [apply builder_new_yields|].
  intros [p t] [Fr Et]. simpl in *. subst t. pose proof (fresh_ok _ _ Fr) as (C & _). destruct Fr as [_ ->].
  eapply yields_weaken; [apply intermediate_yields; [|done..]|]; simpl.
  - split_and!; simpl; try done. by intros ? [= <-].
  - by intros i (? & ? & ?).
Qed.

Lemma issue_leaf_yields cn parent f : identity_ok parent -> nonblank cn = true -> gentle_leaf f ->
  yields (issue_leaf fips cn parent f) (fun i => aki i = ski parent).
Proof.
  intros I N G. unfold issue_leaf. eapply yields_bind; [apply builder_new_yields|].
  intros [p t] [Fr Et]. simpl in *. subst t.
  destruct (G (san "leaf.itsallbroken.com" (mk_builder p (mk_leaf parent []))) (fresh_ok _ _ Fr))
    as (Po & Cn & Pa & Nm); [by vm_compute|]. simpl in Cn, Pa. destruct Fr as [_ E].
  apply (f_equal bp_cn) in E. simpl in E. rewrite E in Cn.
  eapply yields_weaken; [apply leaf_yields; [done | by rewrite Cn | done | by rewrite Pa]|].
  rewrite Pa. by intros i (_ & _ & ?).
Qed.

(** ** Paths of identifiers *)

(** Each certificate names the one before it as its issuer. *)
Fixpoint path (id : list u8) (l : list Identity) (id' : list u8) : Prop :=
  match l with
  | [] => id = id'
  | i :: l => aki i = id /\ path (ski i) l id'
  end.

Lemma path_app id l1 l2 id' : path id (l1 ++ l2) id' <-> exists b, path id l1 b /\ path b l2 id'.
Proof.
  revert id. induction l1 as [|i l1 IH]; intros id; simpl.
  - split; [by exists id | by intros (b & -> & ?)].
  - rewrite IH. split; [intros (? & b & ? & ?); by exists b | intros (b & [? ?] & ?); by split; [|exists b]].
Qed.

Lemma path_snoc id l i id' : path id (l ++ [i]) id' <-> path id l (aki i) /\ ski i = id'.
Proof. rewrite path_app. simpl. split; [by intros (b & ? & <- & ?) | intros [? ?]; by exists (aki i)]. Qed.

(** The intermediates lead from the root to the leaf. *)
Definition linked_chain (c : TestChain) : Prop := path (ski (tc_root c)) (tc_intermediates c) (aki (tc_leaf c)).

(** Issued so far: each from the one before, all able to issue. *)
Definition growing (root : Identity) (l : list Identity) : Prop :=
  path (ski root) l (ski (last_or_root root l)) /\ identity_ok root /\ Forall identity_ok l.

Lemma growing_last root l : growing root l -> identity_ok (last_or_root root l).
Proof.
  intros (_ & R0 & F). unfold last_or_root. destruct l as [|x l _] using rev_ind; [done|].
  rewrite last_snoc. by apply Forall_app in F as [_ F]; inversion F.
Qed.

Lemma growing_snoc root l i : growing root l -> identity_ok i -> aki i = ski (last_or_root root l) ->
  growing root (l ++ [i]).
Proof.
  intros (P & R0 & F) I E. unfold growing, last_or_root. rewrite last_snoc. split_and!; [|done|].
  - apply path_snoc. by rewrite E.
  - apply Forall_app. by split; [|constructor].
Qed.

(** ** [TestChain::build] *)

(** What a mutator does to the builders leaves their roles alone. *)
Definition gentle (m : ChainMutator) : Prop :=
  (forall index total, gentle_intermediate (mut_intermediate m index total)) /\ gentle_leaf (mut_leaf m).

(** The names of the intermediates of a chain are not blank. *)
Lemma counter_nonblank i : 1 <= i < 256 -> nonblank ("Intermediate " +:+ pretty (N.of_nat i)) = true.
Proof.
  intros Hi. assert (A : forallb (fun i => nonblank ("Intermediate " +:+ pretty (N.of_nat i))) (seq 1 255) = true)
    by (vm_compute; reflexivity).
  rewrite forallb_forall in A. apply A, in_seq. lia.
Qed.

Lemma intermediates_yield ca total m k j l : gentle m -> 1 <= j -> j + k <= 256 -> growing (ca_root ca) l ->
  yields (build_intermediates fips ca total m (N.of_nat <$> seq j k) l)
    (fun l' => growing (ca_root ca) l' /\ length l' = length l + k).
Proof.
  intros [G _]. revert j l. induction k as [|k IH]; intros j l Hj Hk Gr; cbn [seq fmap list_fmap build_intermediates].
  { apply yields_ret. split; [done | lia]. }
  apply yields_bind with (P := fun b => fresh ("Intermediate " +:+ pretty (N.of_nat j)) (cb_params b) /\
    cb_template b = mk_intermediate (last_or_root (ca_root ca) l) [] None); [apply builder_new_yields|].
  intros b [Fr Et]. cbv zeta.
  destruct (G (N.of_nat j - 1)%N total (allowed_domain "itsallbroken.com" b) (fresh_ok _ _ Fr)) as (Po & Cn & Pa).
  simpl in Cn, Pa. rewrite Et in Pa. simpl in Pa. destruct Fr as [_ E]. rewrite E in Cn. simpl in Cn.
  eapply yields_bind.
  { apply intermediate_yields; [exact Po | rewrite Cn; apply counter_nonblank; lia |].
    rewrite Pa. by apply growing_last. }
  intros i (I & _ & A). rewrite Pa in A. eapply yields_weaken.
  - apply (IH (S j)); [lia | lia | by apply growing_snoc].
  - intros l' [Gr' L]. split; [done|]. rewrite L, length_app. simpl. lia.
Qed.

(** A chain as issued, before the mutator completes it. *)
Definition issued_chain (ca : TestCA) (n : nat) (c : TestChain) : Prop :=
  tc_root c = ca_root ca /\ growing (tc_root c) (tc_intermediates c) /\
  length (tc_intermediates c) = n /\ linked_chain c.

Lemma chain_yields ca n m (Q : TestChain -> Prop) : gentle m -> identity_ok (ca_root ca) -> n < 255 ->
  (forall c, issued_chain ca n c -> yields (mut_complete m c) Q) ->
  yields (TestChain_build fips ca (N.of_nat n) m) Q.
Proof.
  intros G I Hn K. unfold TestChain_build. rewrite decide_True by lia. rewrite Nat2N.id.
  eapply yields_bind; [apply (intermediates_yield ca _ m n 1 [] G); [lia | lia |]|].
  { split_and!; [done | done | constructor]. }
  intros l [Gr L]. eapply yields_bind.
  { apply issue_leaf_yields; [by apply growing_last | by vm_compute | apply G]. }
  intros leaf A. apply K. split_and!; [done | done | done |].
  unfold linked_chain. simpl. rewrite A. apply Gr.
Qed.

(** *** The mutators leave the roles alone *)

Lemma private_unknown : private_extension unknown_critical_extension.
Proof. by exists [99999; 1]%N, [xde; xad], true. Qed.

Ltac in_range := intros [[] []] Hp; simpl in *; unfold params_ok in *; simpl in *;
  destruct Hp as (? & ? & ? & ? & ?); intros; split_and!; simpl; try done.

Lemma gentle_keep_i : gentle_intermediate keep.
Proof. by in_range. Qed.
Lemma gentle_keep_l : gentle_leaf keep.
Proof. by in_range. Qed.

Lemma gentle_not_after y m d : (1900 <= y <= 5000)%Z -> (1 <= m <= 12)%N -> (1 <= d <= 28)%N ->
  gentle_intermediate (set_not_after (date_time_ymd y m d)) /\ gentle_leaf (set_not_after (date_time_ymd y m d)).
Proof. intros; split; in_range; intros ? [= <-]; by apply ymd_representable. Qed.

Lemma gentle_not_before y m d : (1900 <= y <= 5000)%Z -> (1 <= m <= 12)%N -> (1 <= d <= 28)%N ->
  gentle_intermediate (set_not_before (date_time_ymd y m d)) /\ gentle_leaf (set_not_before (date_time_ymd y m d)).
Proof. intros; split; in_range; intros ? [= <-]; by apply ymd_representable. Qed.

Lemma gentle_is_ca v : gentle_intermediate (set_is_ca v) /\ gentle_leaf (set_is_ca v).
Proof. split; by in_range. Qed.

Lemma gentle_ekus v : gentle_intermediate (set_extended_key_usages v) /\ gentle_leaf (set_extended_key_usages v).
Proof. split; by in_range. Qed.

Lemma gentle_unknown : gentle_intermediate (add_custom_extension unknown_critical_extension) /\
  gentle_leaf (add_custom_extension unknown_critical_extension).
Proof. split; in_range; apply Forall_app; split; try done; by constructor; [apply private_unknown|]. Qed.

Lemma gentle_domains ds : gentle_intermediate (set_allowed_domains ds).
Proof. by in_range. Qed.
Lemma gentle_domain d : gentle_intermediate (allowed_domain d).
Proof. by in_range. Qed.
Lemma gentle_path_len n : gentle_intermediate (set_path_len n).
Proof. by in_range. Qed.

Lemma gentle_sans ss : names_ok ss = true -> gentle_leaf (with_sans ss).
Proof. intros N. by in_range. Qed.

Lemma gentle_target seed f index total : gentle_intermediate f -> gentle_intermediate (at_target seed f index total).
Proof. intros G b Hb. unfold at_target. case_decide; [by apply G | by apply gentle_keep_i]. Qed.

(** *** What the completed chains are *)

(** The names of every scenario are names of a leaf. *)
Lemma scenario_names s : names_ok (LeafSanScenario_sans s) = true.
Proof. by destruct s. Qed.

Lemma gentle_spurious seed m : m ∈ invalid_chain_spuriously_built fips seed -> gentle m.
Proof.
  unfold invalid_chain_spuriously_built. intros E.
  repeat (apply elem_of_cons in E as [->|E]; [split; [intros index total; simpl|simpl]; try apply gentle_target;
    first [apply gentle_keep_i | apply gentle_keep_l | apply gentle_path_len | apply gentle_domains
      | apply gentle_is_ca | apply gentle_unknown | by apply gentle_sans
      | apply gentle_not_after; lia | apply gentle_not_before; lia]|]).
  by apply not_elem_of_nil in E.
Qed.

Lemma path_last root l id : path (ski root) l id -> id = ski (last_or_root root l).
Proof.
  destruct l as [|i l _] using rev_ind; [by intros <-|]. intros P. apply path_snoc in P as [_ <-].
  unfold last_or_root. by rewrite last_snoc.
Qed.

(** A prefix of what was issued was issued so. *)
Lemma growing_take root l k : growing root l -> growing root (take k l).
Proof.
  intros (P & I & F). rewrite <- (take_drop k l) in P. apply path_app in P as (b & P & _).
  split_and!; [|done | by apply Forall_take]. by rewrite <- (path_last _ _ _ P).
Qed.

Lemma last_take root l j x : l !! j = Some x -> last_or_root root (take (S j) l) = x.
Proof. intros E. unfold last_or_root. by rewrite (take_S_r l j x E), last_snoc. Qed.

(** A chain that the chain builder follows to the root. *)
Definition walkable (ca : TestCA) (n : nat) (c : TestChain) : Prop :=
  tc_root c = ca_root ca /\ linked_chain c /\ length (tc_intermediates c) <= n.

Lemma forged_leaf_walkable ca n c : issued_chain ca n c -> yields (ForgedLeaf_complete fips c) (walkable ca n).
Proof.
  intros (Er & Gr & L & _). unfold ForgedLeaf_complete. cbv zeta.
  eapply yields_bind; [apply evil_root_yields; [apply (growing_last _ _ Gr) | done]|]. intros e [I E].
  eapply yields_bind; [apply issue_leaf_yields; [done | by vm_compute | apply gentle_keep_l]|].
  intros leaf A. apply yields_ret. split_and!; [done | | simpl; lia].
  unfold linked_chain. simpl. rewrite A, E. apply Gr.
Qed.

Lemma orphan_leaf_walkable ca n c : issued_chain ca n c -> yields (OrphanLeaf_complete fips c) (walkable ca n).
Proof.
  intros (Er & Gr & L & _). unfold OrphanLeaf_complete. cbv zeta.
  eapply yields_bind; [apply issue_identified_yields; [apply Gr | by vm_compute | apply (growing_last _ _ Gr)]|].
  intros e (I & E & _).
  eapply yields_bind; [apply issue_leaf_yields; [done | by vm_compute | apply gentle_keep_l]|].
  intros leaf A. apply yields_ret. split_and!; [done | | simpl; lia].
  unfold linked_chain. simpl. rewrite A, E. apply Gr.
Qed.

Lemma at_least_yields k c : k <= length (tc_intermediates c) -> yields (at_least k c) (fun _ => True).
Proof. intros L r. unfold at_least. rewrite decide_True by done. by exists tt, r. Qed.

Lemma forged_intermediate_walkable ca n c seed : issued_chain ca n c -> 1 <= n ->
  yields (ForgedIntermediate_complete fips seed c) (walkable ca n).
Proof.
  intros (Er & Gr & L & _) Hn. unfold ForgedIntermediate_complete.
  eapply yields_bind; [apply at_least_yields; lia|]. intros _ _. cbv zeta.
  set (l := tc_intermediates c) in *. set (idx := N.to_nat seed mod length l).
  assert (Hi : idx < length l) by (apply Nat.mod_upper_bound; lia).
  pose proof (growing_take _ _ idx Gr) as Gt. set (parent := last_or_root (tc_root c) (take idx l)).
  eapply yields_bind_some with (a := parent).
  { unfold parent. destruct idx as [|j]; [done|]. destruct (lookup_lt_is_Some_2 l j) as [x Ex]; [lia|].
    by rewrite Ex, (last_take _ _ _ _ Ex). }
  eapply yields_bind; [apply evil_root_yields; [apply (growing_last _ _ Gt) | done]|]. intros e [I E].
  eapply yields_bind; [apply issue_intermediate_yields; [done | by vm_compute | apply gentle_domain]|].
  intros v [Iv Av].
  eapply yields_bind; [apply issue_leaf_yields; [done | by vm_compute | apply gentle_keep_l]|].
  intros leaf A. apply yields_ret. split_and!; [done | |].
  - unfold linked_chain. simpl. apply path_snoc. rewrite Av, E, A. split; [apply Gt | done].
  - simpl. rewrite length_app, length_take. simpl. lia.
Qed.

Lemma spurious_walkable ca n c seed m : m ∈ invalid_chain_spuriously_built fips seed -> issued_chain ca n c ->
  2 <= n -> yields (mut_complete m c) (walkable ca n).
Proof.
  unfold invalid_chain_spuriously_built. intros E Ic Hn. pose proof Ic as (Er & Gr & L & Lk).
  assert (W : walkable ca n c) by (split_and!; [done | done | lia]).
  assert (As : forall k, k <= 2 -> yields (complete_at_least k c) (walkable ca n)).
  { intros k Hk. unfold complete_at_least. eapply yields_bind; [apply at_least_yields; lia|].
    intros _ _. by apply yields_ret. }
  repeat (apply elem_of_cons in E as [->|E]; [simpl; first [by apply yields_ret | by apply As; lia
    | by apply forged_leaf_walkable | by apply orphan_leaf_walkable | apply forged_intermediate_walkable; [done | lia]]|]).
  by apply not_elem_of_nil in E.
Qed.

(** ** The chain builder on a path *)

Definition untrusted (i : Identity) : UntrustedCert := mk_untrusted (id_cert i).

(** The set has a root with this identifier. *)
Definition is_root (rs : RootSet) (id : list u8) : Prop :=
  Exists (fun v => id_bytes (cert_cert_id (root_cert v)) = id) (roots rs).

Lemma not_root_find rs (id : IssuerCertId) : ~ is_root rs (id_bytes id) ->
  RootSet_find rs (as_dangerous_comparable id) = None.
Proof.
  intros N. apply find_first_None. intros v Hv. apply not_true_iff_false. intros E.
  apply as_dangerous_eq_true in E. apply N, Exists_exists. by exists v.
Qed.

Lemma find_by_bytes rs (a b : IssuerCertId) : id_bytes a = id_bytes b ->
  RootSet_find rs (as_dangerous_comparable a) = RootSet_find rs (as_dangerous_comparable b).
Proof. intros E. unfold RootSet_find, Dangerous_eq, Dangerous_as_bytes. simpl. by rewrite E. Qed.

(** The cache has the certificate, under an identifier that is not a root's. *)
Definition held (rs : RootSet) (m : gmap (list u8) UntrustedCert) (i : Identity) : Prop :=
  m !! ski i = Some (untrusted i) /\ ~ is_root rs (ski i).

(** The root is the one that the set has under its identifier. *)
Definition anchored (rs : RootSet) (root : Identity) : Prop :=
  RootSet_find rs (as_dangerous_comparable (mk_issuer_cert_id (cert_cert_id (id_cert root)))) =
    Some (RootCertificate_from_trusted_cert (id_cert root)).

Lemma path_reach rs m id l (iid : IssuerCertId) : path id l (id_bytes iid) -> Forall (held rs m) l ->
  exists iid', id_bytes iid' = id /\ reach rs m iid (rev (untrusted <$> l)) iid'.
Proof.
  revert iid. induction l as [|i l IH] using rev_ind; intros iid P F.
  { exists iid. split; [by simpl in P|]. constructor. }
  apply path_snoc in P as [P E]. apply Forall_app in F as [F [[M N] _]%Forall_cons].
  destruct (IH (cert_issuer_cert_id (id_cert i)) P F) as (iid' & Eid & Rc). exists iid'. split; [done|].
  rewrite fmap_app, rev_app_distr. simpl. rewrite E in M, N. econstructor; [|exact M | exact Rc].
  by apply not_root_find.
Qed.

Lemma reach_take rs m id l id' k : reach rs m id l id' -> k < length l ->
  exists id'', reach rs m id (take k l) id'' /\ RootSet_find rs (as_dangerous_comparable id'') = None.
Proof.
  intros Rc. revert k. induction Rc as [id|id v l id' E M Rc IH]; simpl; intros k Hk; [lia|].
  destruct k as [|k]; [by exists id; split; [constructor|]|].
  destruct (IH k) as (id'' & Rk & Ek); [lia|]. exists id''. split; [by econstructor | done].
Qed.

(** A path to a root is followed, unless it is too long. *)
Lemma linked_answer rs m c : linked_chain c -> Forall (held rs m) (tc_intermediates c) ->
  anchored rs (tc_root c) ->
  chain_answer rs m (cert_issuer_cert_id (id_cert (tc_leaf c)))
    (if decide (length (tc_intermediates c) <= MAX_INTERMEDIATES)
     then Ok (UntrustedChain_new (TestChain_root c) (rev (untrusted <$> tc_intermediates c)))
     else Err ExcessivelyLongChain).
Proof.
  intros P F A.
  destruct (path_reach rs m _ _ (cert_issuer_cert_id (id_cert (tc_leaf c))) P F) as (iid & E & Rc).
  case_decide as D; simpl.
  - exists iid. rewrite length_rev, length_fmap. split_and!; [done | | done].
    rewrite <- A. by apply find_by_bytes.
  - destruct (reach_take _ _ _ _ _ MAX_INTERMEDIATES Rc) as (iid' & Rk & Ek).
    { rewrite length_rev, length_fmap. lia. }
    eexists _, iid'. split_and!; [exact Rk | done|].
    rewrite length_take, length_rev, length_fmap. lia.
Qed.

(** Against every cache that keeps its entries and every set of roots, set up as
    [setup] says, the chain builder answers [leaf] with [a]. *)
Definition answers (leaf : Identity) (setup : RootSet -> gmap (list u8) UntrustedCert -> Prop)
  (a : result UntrustedChain ChainBuildError -> Prop) : Prop :=
  forall (C : Type) (K : CertCache C) (S : @StableCache _ C K) rs c cached,
    @serves _ C K S c cached -> setup rs cached ->
    exists v c', build_unverified_chain_for rs (untrusted leaf) c = Done v c' /\ a v.

Lemma answers_intro (leaf : Identity) (setup : RootSet -> gmap (list u8) UntrustedCert -> Prop)
  (a : result UntrustedChain ChainBuildError -> Prop)
  (v : RootSet -> gmap (list u8) UntrustedCert -> result UntrustedChain ChainBuildError) :
  (forall rs cached, setup rs cached ->
    chain_answer rs cached (cert_issuer_cert_id (id_cert leaf)) (v rs cached) /\ a (v rs cached)) ->
  answers leaf setup a.
Proof.
  intros Sp C K S rs c cached Sv Se. destruct (Sp rs cached Se) as [A Ha].
  destruct (build_answer_returned rs _ c cached _ Sv A) as (c' & _ & E). by exists (v rs cached), c'.
Qed.

(** The set-up of the tests: the intermediates are cached, the root is trusted. *)
Definition trusting (chain : TestChain) (rs : RootSet) (cached : gmap (list u8) UntrustedCert) : Prop :=
  Forall (held rs cached) (tc_intermediates chain) /\ anchored rs (tc_root chain).

(** The chain as it was issued, or that it is too long. *)
Definition found (chain : TestChain) (v : result UntrustedChain ChainBuildError) : Prop :=
  v = if decide (length (tc_intermediates chain) <= 6)
      then Ok (UntrustedChain_new (TestChain_root chain) (rev (untrusted <$> tc_intermediates chain)))
      else Err ExcessivelyLongChain.

Lemma linked_answers chain : linked_chain chain -> answers (tc_leaf chain) (trusting chain) (found chain).
Proof.
  intros L. eapply answers_intro with (v := fun _ _ => if decide (length (tc_intermediates chain) <= 6)
      then Ok (UntrustedChain_new (TestChain_root chain) (rev (untrusted <$> tc_intermediates chain)))
      else Err ExcessivelyLongChain).
  intros rs cached [F A]. split; [by apply (linked_answer rs cached chain) | done].
Qed.

(** *** The two mutations that chain building detects *)

(** Two certificates that name each other are followed round and round. *)
Lemma reach_cycle rs m i j k iid : held rs m i -> held rs m j -> aki i = ski j -> aki j = ski i ->
  id_bytes iid = ski i \/ id_bytes iid = ski j ->
  exists l iid', length l = k /\ reach rs m iid l iid' /\ ~ is_root rs (id_bytes iid').
Proof.
  intros Hi Hj Ai Aj. revert iid. induction k as [|k IH]; intros iid E.
  { exists [], iid. split_and!; [done | constructor|]. destruct E as [->| ->]; [apply Hi | apply Hj]. }
  assert (exists v, held rs m v /\ id_bytes iid = ski v /\ (aki v = ski i \/ aki v = ski j)) as (v & [M N] & Ev & A).
  { destruct E; [exists i | exists j]; auto. }
  destruct (IH (cert_issuer_cert_id (id_cert v)) A) as (l & iid' & L & Rc & N').
  exists (untrusted v :: l), iid'. split_and!; [simpl; lia | | done]. rewrite <- Ev in M, N.
  econstructor; [by apply not_root_find | exact M | exact Rc].
Qed.

(** The set-up without a root: only the intermediates matter. *)
Definition caching (chain : TestChain) (rs : RootSet) (cached : gmap (list u8) UntrustedCert) : Prop :=
  Forall (held rs cached) (tc_intermediates chain).

Lemma cyclic_answers chain i j : i ∈ tc_intermediates chain -> j ∈ tc_intermediates chain ->
  aki i = ski j -> aki j = ski i -> aki (tc_leaf chain) = ski j ->
  answers (tc_leaf chain) (caching chain) (fun v => v = Err ExcessivelyLongChain).
Proof.
  intros Ei Ej Ai Aj Al. eapply answers_intro with (v := fun _ _ => Err ExcessivelyLongChain).
  intros rs cached F. split; [|done]. unfold caching in F. rewrite Forall_forall in F.
  destruct (reach_cycle rs cached i j MAX_INTERMEDIATES (cert_issuer_cert_id (id_cert (tc_leaf chain))))
    as (l & iid & L & Rc & N); auto.
  exists l, iid. split_and!; [done | by apply not_root_find | done].
Qed.

Lemma self_referential_yields ca n c : issued_chain ca n c -> 2 <= n ->
  yields (SelfReferentialCertIds_complete fips c) (fun c' => length (tc_intermediates c') = n /\
    answers (tc_leaf c') (caching c') (fun v => v = Err ExcessivelyLongChain)).
Proof.
  intros (_ & _ & L & _) Hn. unfold SelfReferentialCertIds_complete.
  eapply yields_bind; [apply at_least_yields; lia|]. intros _ _.
  eapply yields_bind; [apply evil_root_yields; [vm_compute; lia | done]|]. intros sa [Ia Ea].
  eapply yields_bind; [apply issue_identified_yields; [done | by vm_compute | vm_compute; lia]|].
  intros a (_ & Sa & Aa).
  eapply yields_bind; [apply evil_root_yields; [vm_compute; lia | done]|]. intros sb [Ib Eb].
  eapply yields_bind; [apply issue_identified_yields; [done | by vm_compute | vm_compute; lia]|].
  intros b (Ob & Sb & Ab). cbv zeta. set (l := tc_intermediates c) in *.
  set (l' := <[length l - 1:=b]> (<[length l - 2:=a]> l)).
  assert (Lb : l' !! (length l - 1) = Some b)
    by (apply list_lookup_insert_eq; rewrite length_insert; lia).
  assert (La : l' !! (length l - 2) = Some a).
  { unfold l'. rewrite list_lookup_insert_ne by lia. apply list_lookup_insert_eq. lia. }
  eapply yields_bind_some; [exact Lb|].
  eapply yields_bind; [apply issue_leaf_yields; [done | by vm_compute | apply gentle_keep_l]|].
  intros leaf Al. apply yields_ret. split; [simpl; unfold l'; by rewrite !length_insert|].
  apply (cyclic_answers (mk_test_chain (tc_root c) l' leaf) a b); simpl;
    [by eapply list_elem_of_lookup_2 .. | congruence | congruence | done].
Qed.

(** The walk stops at the certificate that is not there. *)
Lemma missing_answers chain before after dropped : tc_intermediates chain = (before ++ after)%list ->
  path (ski (tc_root chain)) (before ++ dropped :: after)%list (aki (tc_leaf chain)) -> length after < 6 ->
  answers (tc_leaf chain)
    (fun rs cached => caching chain rs cached /\ cached !! ski dropped = None /\ ~ is_root rs (ski dropped))
    (fun v => exists id, v = Err (TrustStore.MissingIntermediate id) /\ id_bytes id = ski dropped).
Proof.
  intros E P L C K S rs c cached Sv (F & M & N). unfold caching in F. rewrite E in F.
  apply Forall_app in F as [_ F]. apply path_app in P as (b & _ & _ & P).
  destruct (path_reach rs cached _ _ (cert_issuer_cert_id (id_cert (tc_leaf chain))) P F) as (iid & Ei & Rc).
  destruct (build_answer_returned rs (cert_issuer_cert_id (id_cert (tc_leaf chain))) c cached
    (Err (TrustStore.MissingIntermediate iid)) Sv) as (c' & _ & E').
  { eexists. split_and!; [exact Rc | by apply not_root_find; rewrite Ei | by rewrite Ei|].
    by rewrite length_rev, length_fmap. }
  eexists _, c'. split; [exact E'|]. by exists iid.
Qed.

(** The tests' mutator [seed] dropped [dropped] from a chain as issued. *)
Definition was_dropped (ca : TestCA) (n : nat) (seed : N) (chain : TestChain) (dropped : Identity) : Prop :=
  exists c, issued_chain ca n c /\ forall r, MissingIntermediate_drop seed c r = Done (chain, dropped) r.

Lemma missing_yields ca n c seed : issued_chain ca n c -> 1 <= n <= 6 ->
  yields (mut_complete (TestIssuer.MissingIntermediate seed) c) (fun c' => exists dropped,
    was_dropped ca n seed c' dropped /\ answers (tc_leaf c')
      (fun rs cached => caching c' rs cached /\ cached !! ski dropped = None /\ ~ is_root rs (ski dropped))
      (fun v => exists id, v = Err (TrustStore.MissingIntermediate id) /\ id_bytes id = ski dropped)).
Proof.
  intros Ic Hn r. pose proof Ic as (_ & _ & L & Lk). set (l := tc_intermediates c) in *.
  set (idx := N.to_nat seed mod length l). assert (Hi : idx < length l) by (apply Nat.mod_upper_bound; lia).
  destruct (lookup_lt_is_Some_2 l idx Hi) as [d Ed].
  set (c' := mk_test_chain (tc_root c) (delete idx l) (tc_leaf c)).
  assert (Dr : forall r, MissingIntermediate_drop seed c r = Done (c', d) r).
  { intros r0. unfold MissingIntermediate_drop, at_least. rewrite decide_True by (fold l; lia).
    cbv zeta. fold l. fold idx. by rewrite Ed. }
  exists c', r. split; [simpl; by rewrite (prog_bind_done _ _ _ _ _ (Dr r))|].
  exists d. split; [by exists c|].
  apply missing_answers with (take idx l) (drop (S idx) l).
  - simpl. apply delete_take_drop.
  - simpl. rewrite (take_drop_middle l idx d Ed). exact Lk.
  - rewrite length_drop. lia.
Qed.

(** ** Properties *)

(** C23. Every mutation that the tests call spuriously built, and so every
    forgery, is: for each of the fifteen, every seed and number of intermediates
    from two on, the chain is issued, and building it from a cache with its
    intermediates succeeds up to the true root (longer chains are refused as too
    long).  Links of identifiers alone do not show who signed. *)
Theorem spuriously_built seed m ca n r (Hm : m ∈ invalid_chain_spuriously_built fips seed)
  (Hca : identity_ok (ca_root ca)) (Hn : 2 <= n < 255) :
  exists chain r', TestChain_build fips ca (N.of_nat n) m r = Done chain r' /\
    tc_root chain = ca_root ca /\ length (tc_intermediates chain) <= n /\
    answers (tc_leaf chain) (trusting chain) (found chain).
Proof.
  destruct (chain_yields ca n m (walkable ca n) (gentle_spurious seed m Hm) Hca ltac:(lia)
    (fun c Ic => spurious_walkable ca n c seed m Hm Ic ltac:(lia)) r) as (chain & r' & E & Er & Lk & Ln).
  exists chain, r'. split_and!; [done..|]. by apply linked_answers.
Qed.

(** The mutators of valid and of policy-violating chains. *)
Definition issues_as_asked (m : ChainMutator) : Prop :=
  m = ValidChain \/ (exists v, m = SetEKUs v) \/ (exists v, m = SetLeafSans v) \/
  exists v, m = SetNameConstraints v.

Lemma issues_as_asked_gentle m : issues_as_asked m ->
  gentle m /\ forall ca n c, issued_chain ca n c -> yields (mut_complete m c) (fun c' => c' = c).
Proof.
  intros [->|[[v ->]|[[v ->]|[v ->]]]]; (split; [|by intros; apply yields_ret]).
  - split; [intros index total; apply gentle_keep_i | apply gentle_keep_l].
  - split; [intros index total|]; destruct v; simpl;
      first [apply gentle_ekus | apply gentle_keep_i | apply gentle_keep_l].
  - split; [intros index total; apply gentle_domains | apply gentle_sans, scenario_names].
  - split; [intros index total; apply gentle_domains | apply gentle_sans, scenario_names].
Qed.

(** C24. Chain building finds every chain that was issued: for every number of
    intermediates, extended key usages, names and name constraints, the test
    issuer makes a chain of exactly that many intermediates, and building it from
    a cache that holds them returns them, from the leaf's issuer up, under the
    root - or, with more than six, that the chain is too long. *)
Theorem valid_chain_builds m ca n r (Hm : issues_as_asked m) (Hca : identity_ok (ca_root ca)) (Hn : n < 255) :
  exists chain r', TestChain_build fips ca (N.of_nat n) m r = Done chain r' /\
    tc_root chain = ca_root ca /\ length (tc_intermediates chain) = n /\
    answers (tc_leaf chain) (trusting chain) (found chain).
Proof.
  destruct (issues_as_asked_gentle m Hm) as [G K].
  destruct (chain_yields ca n m (issued_chain ca n) G Hca Hn
    (fun c Ic => yields_weaken _ _ _ (K ca n c Ic) ltac:(by intros ? ->)) r)
    as (chain & r' & E & Er & _ & Ln & Lk).
  exists chain, r'. split_and!; [done..|]. by apply linked_answers.
Qed.

(** C22. The two mutations that chain building does detect: certificates that
    name each other as issuers end in the error for an excessive length, for
    every number of intermediates (the walk does not go on for ever); an absent
    intermediate ends in the error that names exactly the certificate that was
    dropped, whichever the seed selected, for up to six intermediates. *)
Theorem detected_while_building seed ca n r (Hca : identity_ok (ca_root ca)) (Hn : n < 255) :
  (2 <= n -> exists chain r', TestChain_build fips ca (N.of_nat n) (SelfReferentialCertIds fips) r = Done chain r' /\
    length (tc_intermediates chain) = n /\
    answers (tc_leaf chain) (caching chain) (fun v => v = Err ExcessivelyLongChain)) /\
  (1 <= n <= 6 -> exists chain r' dropped,
    TestChain_build fips ca (N.of_nat n) (TestIssuer.MissingIntermediate seed) r = Done chain r' /\
    was_dropped ca n seed chain dropped /\
    answers (tc_leaf chain)
      (fun rs cached => caching chain rs cached /\ cached !! ski dropped = None /\ ~ is_root rs (ski dropped))
      (fun v => exists id, v = Err (TrustStore.MissingIntermediate id) /\ id_bytes id = ski dropped)).
Proof.
  assert (G : forall g, gentle (mk_mutator (fun _ _ => keep) keep g))
    by (intros g; split; [intros index total; apply gentle_keep_i | apply gentle_keep_l]).
  split; intros H'.
  - destruct (chain_yields ca n (SelfReferentialCertIds fips) _ (G _) Hca Hn
      (fun c Ic => self_referential_yields ca n c Ic H') r) as (chain & r' & E & L & A).
    by exists chain, r'.
  - destruct (chain_yields ca n (TestIssuer.MissingIntermediate seed) _ (G _) Hca Hn
      (fun c Ic => missing_yields ca n c seed Ic H') r) as (chain & r' & E & d & D & A).
    by exists chain, r', d.
Qed.

(** The test CA's root is such an identity. *)
Lemma test_ca_yields : yields (TestCA_new fips) (fun ca => identity_ok (ca_root ca) /\
  aki (ca_root ca) = ski (ca_root ca)).
Proof.
  unfold TestCA_new. eapply yields_bind; [apply builder_new_yields|]. intros [p []] [Fr _]. simpl in Fr.
  eapply yields_bind; [apply (root_yields p); [by eapply fresh_ok|]|].
  { destruct Fr as [_ ->]. by vm_compute. }
  intros i (I & S & A). apply yields_ret. simpl. split; [done | congruence].
Qed.

End Issuing.

(** ** An issuer for concrete evaluation

    A key is a byte, new for every key; a certificate is its serial number and
    its two identifiers, the first two preceded by their lengths in unary. *)

#[local] Instance toy_keys : AwsEcdsa N := {|
  EcdsaKeyPair := u8;
  try_fips_mode _ := true;
  generate_pkcs8 r := (Some [default x00 (Byte.of_N r)], (r + 1)%N);
  from_pkcs8 d := head d;
  kp_public_key k := [k];
  kp_sign k m r := (Some (k :: take 8 m), r);
  ecdsa_verify pk m s := bool_decide (s = (pk ++ take 8 m)%list)
|}.

#[local] Instance toy_keys_laws : AwsEcdsaLaws N.
Proof.
  split.
  - intros r d r' [= <- _]. by eexists.
  - intros k m r s r' [= <- _]. by apply bool_decide_eq_true.
  - intros k m r s r' [= <- _]. simpl. rewrite length_take. lia.
Qed.

Definition toy_field (l rest : list u8) : list u8 := (replicate (length l) x01 ++ x00 :: l ++ rest)%list.

Fixpoint toy_length (bs : list u8) : nat * list u8 :=
  match bs with
  | x01 :: bs => let '(n, rest) := toy_length bs in (S n, rest)
  | _ :: bs => (0, bs)
  | [] => (0, [])
  end.
Definition toy_split (bs : list u8) : list u8 * list u8 :=
  let '(n, rest) := toy_length bs in (take n rest, drop n rest).

Lemma toy_split_field l rest : toy_split (toy_field l rest) = (l, rest).
Proof.
  assert (E : forall n r, toy_length (replicate n x01 ++ x00 :: r)%list = (n, r)).
  { induction n as [|n IH]; intros r; simpl; [done|]. by rewrite IH. }
  unfold toy_split, toy_field. rewrite E. by rewrite take_app_length, drop_app_length.
Qed.

Definition toy_issued (serial ski0 aki0 : list u8) : list u8 := toy_field serial (toy_field ski0 aki0).

Definition toy_issuing_lib : X509Lib := {|
  X509Error := unit; PEMError := unit; JiffError := unit; Timestamp := Z;
  x509_parse := fun _ der =>
    let '(serial, rest) := toy_split der in
    let '(ski0, aki0) := toy_split rest in
    Ok ([], mk_x509 der serial 0 0 [SubjectKeyIdentifier ski0; AuthorityKeyIdentifier (Some aki0)]
      false [] "CN=toy");
  pem_iter := fun pem => [Ok pem];
  pem_encode := fun der => der;
  timestamp_from_second := fun z => Ok z;
  timestamp_display := fun _ => "t"
|}.

Section ToyIssuer.
#[local] Existing Instances toy_rcgen_types toy_issuing_lib toy_digest toy_digest_laws.

Definition toy_serial (p : CertificateParams) : list u8 := default [] (cp_serial_number p : option (list u8)).
Definition toy_ski (p : CertificateParams) : list u8 :=
  match cp_key_identifier_method p with PreSpecified id => id | _ => [] end.

Record toy_certified : Type := mk_toy_certified {
  tf_key : PrivateKey (R:=N);
  tf_der : list u8;
  tf_id : list u8
}.

#[local] Instance toy_issuer : RcgenIssue N := {|
  date_time_ymd y _ _ := (y : OffsetDateTime);
  unix_timestamp _ := 0%Z;
  serial_from_slice bs := (bs : RcgenSerialNumber);
  permitted_subtrees ds := (ds : NameConstraints);
  extension_from_oid_content oid content := ((oid, content, false) : CustomExtension);
  extension_set_criticality c e := ((e.1, c) : CustomExtension);
  csr_params_from_pem _ := params_new [];
  CertifiedIssuer := toy_certified;
  certified_self_signed p k r :=
    Done (Ok (mk_toy_certified k (toy_issued (toy_serial p) (toy_ski p) (toy_ski p)) (toy_ski p))) r;
  certified_signed_by p k parent r :=
    Done (Ok (mk_toy_certified k (toy_issued (toy_serial p) (toy_ski p) (tf_id parent)) (toy_ski p))) r;
  certified_key := tf_key;
  certified_der := tf_der;
  certified_pem := tf_der
|}.

Lemma toy_carries p serial ski0 aki0 : carries p serial ski0 aki0 (toy_issued serial ski0 aki0).
Proof.
  eexists. split.
  { cbn [x509_parse toy_issuing_lib]. unfold toy_issued. by rewrite !toy_split_field. }
  by split_and!.
Qed.

Lemma toy_datable p : datable p.
Proof. split; by exists 0%Z. Qed.

Definition toy_issuer_laws : RcgenIssueLaws (H1:=toy_issuer).
Proof.
  refine {| issuer_key_id := tf_id |}.
  - intros. by exists 0%Z.
  - intros cn _. eexists. split; [reflexivity|]. split; [apply toy_datable | done].
  - intros p k r c r' _. eexists _, _. split_and!; [reflexivity | reflexivity | apply toy_datable | done].
  - intros. by eexists _, _.
  - intros. by eexists _, _.
  - intros p key r i r' serial ski0 [= <- _] (Es & _ & Ei & _) _. unfold toy_serial, toy_ski.
    rewrite Es, Ei. split_and!; try done. apply toy_carries.
  - intros p key parent r i r' serial ski0 [= <- _] (Es & _ & Ei & _) _. unfold toy_serial, toy_ski.
    rewrite Es, Ei. split_and!; try done. apply toy_carries.
Defined.


Lemma toy_keys_work : keys_work true.
Proof. intros r. eexists _, _. split; [reflexivity|]. intros m r'. by eexists _, _. Qed.

(** A test CA and a chain of it. *)
Definition toy_chain (n : N) (m : ChainMutator) : option (TestChain (R:=N)) :=
  match (ca ← TestCA_new true; TestChain_build true ca n m) 0%N with
  | Done chain _ => Some chain
  | _ => None
  end.

(** The tests: the intermediates go into a cache, and a chain is built for the leaf. *)
Definition toy_test (n : N) (m : ChainMutator) : option (result UntrustedChain ChainBuildError) :=
  chain ← toy_chain n m;
  let cache := mk_memory_cache (list_to_map ((fun i => (ski i, untrusted i)) <$> tc_intermediates chain)
    : gmap (list u8) UntrustedCert) in
  match build_unverified_chain_for (RootSet_new [TestChain_root chain]) (untrusted (tc_leaf chain)) cache with
  | Done v _ => Some v
  | _ => None
  end.

End ToyIssuer.

#[local] Existing Instances toy_rcgen_types toy_issuing_lib toy_digest toy_digest_laws toy_issuer toy_issuer_laws.

(** A forged leaf under two true intermediates is accepted. *)
Lemma spuriously_built_witness :
  match toy_test 2 (ForgedLeaf true) with
  | Some (Ok ch) => length (chain_certs ch) = 2
  | _ => False
  end /\
  exists ca r chain r', TestCA_new true 0%N = Done ca r /\
    TestChain_build true ca 2 (ForgedLeaf true) r = Done chain r' /\
    answers (tc_leaf chain) (trusting chain) (found chain).
Proof.
  split; [vm_compute; reflexivity|].
  destruct (test_ca_yields true toy_keys_work 0%N) as (ca & r & E & I & _).
  destruct (spuriously_built true toy_keys_work 7
    (ForgedLeaf true) ca 2 r (list_elem_of_here _ _) I ltac:(lia)) as (chain & r' & Eb & _ & _ & A).
  by exists ca, r, chain, r'.
Defined.

(** Three intermediates, as issued. *)
Lemma valid_chain_builds_witness :
  match toy_test 3 ValidChain with
  | Some (Ok ch) => length (chain_certs ch) = 3
  | _ => False
  end /\
  match toy_test 7 ValidChain with Some (Err ExcessivelyLongChain) => True | _ => False end /\
  exists ca r chain r', TestCA_new true 0%N = Done ca r /\
    TestChain_build true ca 3 ValidChain r = Done chain r' /\ length (tc_intermediates chain) = 3 /\
    answers (tc_leaf chain) (trusting chain) (found chain).
Proof.
  split; [vm_compute; reflexivity|]. split; [vm_compute; exact I|].
  destruct (test_ca_yields true toy_keys_work 0%N) as (ca & r & E & I & _).
  destruct (valid_chain_builds true toy_keys_work ValidChain ca 3 r (or_introl eq_refl) I ltac:(lia))
    as (chain & r' & Eb & _ & L & A).
  by exists ca, r, chain, r'.
Defined.

(** The cycle in place of the last two of four; the first of three is dropped. *)
Lemma detected_while_building_witness :
  match toy_test 4 (SelfReferentialCertIds true) with
  | Some (Err ExcessivelyLongChain) => True
  | _ => False
  end /\
  match toy_test 3 (TestIssuer.MissingIntermediate 6) with
  | Some (Err (TrustStore.MissingIntermediate _)) => True
  | _ => False
  end /\
  exists ca r chain r', TestCA_new true 0%N = Done ca r /\
    TestChain_build true ca 4 (SelfReferentialCertIds true) r = Done chain r' /\
    answers (tc_leaf chain) (caching chain) (fun v => v = Err ExcessivelyLongChain).
Proof.
  split; [vm_compute; exact I|]. split; [vm_compute; exact I|].
  destruct (test_ca_yields true toy_keys_work 0%N) as (ca & r & E & I & _).
  destruct (detected_while_building true toy_keys_work 6 ca 4 r I ltac:(lia)) as [D _].
  destruct (D ltac:(lia)) as (chain & r' & Eb & _ & A).
  by exists ca, r, chain, r'.
Defined.
