(* ===== verification/DelegateTests.v ===== *)
(** * The unit tests of the message delegate

    Models the tests of [rc-x509-client/src/connection/handler/delegate/
    message_delegate.rs] with what they are built from: the mocked transport
    ([mocks/io.rs]), the mocked verifier ([handler/mock_verifier.rs]) and the
    helpers and message generators of [delegate/fsm/test_helpers.rs].  A test is
    a program on a connection's world; a failed assertion panics, and so does a
    wait for a message that nothing can send any more.  A generator is the
    predicate of the messages it can draw, and the theorem is that every test
    passes on every draw. *)

From stdpp Require Import base option list strings.
From Stdlib Require Import Strings.Byte NArith ZArith Lia.
From S2P Require Import Prelude Signature CertId Hash Certificate TrustStore Verifier ConnectionId Codec Mpsc Dispatch Runtime Fsm Ffi World Symbolic.

(** ** Mocks *)

Inductive MockVerifier : Type := MockVerifier_default.

(** [unimplemented!()]. *)
#[export] Instance MockVerifier_verifier `{X509Lib} {C} : AttestationVerifier MockVerifier C :=
  fun _self _signing_cert_id _signature _payload => panic.

#[local] Instance BuildVersion_eq_dec : EqDecision BuildVersion.
Proof. solve_decision. Defined.

Section Tests.
Context `{ProtoTypes} `{AwsDigest} `{UuidLib} `{Mpsc} {R : Type} `{!Rng R}.

(** The world of a connection; the rest of it is the channel to the client. *)
Definition TestWorld : Type := World (R:=R) (Host:=mpsc (result ServerToClient DecodingError)).

(** [MockIO::send]. *)
Definition MockIO_send (payload : ClientToServer) (to_server : mpsc ClientToServer) :
  result () ConnectionErr * mpsc ClientToServer :=
  match mpsc_try_send payload to_server with
  | (Ok _, c) => (Ok tt, c)
  | (Err TrySend_Closed, c) => (Err ConnectionErr_Closed, c)
  | (Err TrySend_Full, c) => (Err ConnectionErr_QueueFull, c)
  end.

Definition set_to_server (c : mpsc ClientToServer) : TestWorld -> TestWorld :=
  upd (fun t => mk_conn_rest c (cr_stopped t) (cr_runtime t) (cr_metrics t) (cr_rng t) (cr_host t)
    (cr_sent t) (cr_queued t)).

(** The environment of the client: the mock, and what [World] has of it. *)
#[local] Instance test_env : ConnEnv TestWorld := {|
  CancellationToken := unit;
  MetricsRef := unit;
  env_send m w := let '(r, c) := MockIO_send m (cr_out (sh_rest w)) in Done r (set_to_server c w);
  env_stop_or_sleep _ := world_stop_or_sleep id;
  env_dispatch := world_dispatch id 1;
  env_rng := world_rng;
  env_metrics _ w := cr_metrics (sh_rest w)
|}.

(** [server.recv()], polled once. *)
Definition MockIOServer_poll_recv : prog TestWorld (poll (option ClientToServer)) := fun w =>
  let '(p, c) := mpsc_poll_recv (cr_out (sh_rest w)) in Done p (set_to_server c w).

(** [server.recv().await]: the client is not running, so what is not there will
    not arrive before the timeout. *)
Definition MockIOServer_recv : prog TestWorld (option ClientToServer) :=
  p ← MockIOServer_poll_recv;
  match p with Ready m => mret m | Pending => panic end.

Definition is_connection_closed (w : TestWorld) : bool :=
  mpsc_tx_is_closed (cr_host (sh_rest w)) || mpsc_rx_is_closed (cr_out (sh_rest w)).

(** [new_io_pair] and [new_dispatcher_interconnect], on the runtime of a test. *)
Definition new_io_pair : mpsc (result ServerToClient DecodingError) * mpsc ClientToServer :=
  (mpsc_channel 10, mpsc_channel 10).

Definition test_runtime : RuntimeBuilder :=
  mk_runtime true "tokio-rt-worker" 10 true.

Definition new_test (version : BuildVersion) (rng : R) : DispatchPublisher * TestWorld :=
  let '(to_client, to_server) := new_io_pair in
  let '((publisher, _, _), w) := new_dispatcher_interconnect
    (mk_conn_rest to_server false test_runtime (InstanceMetrics_default version) rng to_client [] []) in
  (publisher, w).

(** ** Helpers *)

Abbreviation Delegate := (MessageDelegate (W:=TestWorld) (V:=MockVerifier)).

Definition is_pre_handshake (d : Delegate) : bool :=
  match delegate_state d with State_PreHandshake _ => true | _ => false end.
Definition is_handshaking (d : Delegate) : bool :=
  match delegate_state d with State_Handshaking _ => true | _ => false end.
Definition is_active (d : Delegate) : bool :=
  match delegate_state d with State_Active _ => true | _ => false end.
Definition is_error (d : Delegate) : bool :=
  match delegate_state d with State_Error _ => true | _ => false end.

(** Attempts allowed to each [retry_send]. *)
Context (fuel : nat).

(** [assert_matches!(server.recv().await, Some(ClientHello { client_nonce, .. }))]. *)
Definition expect_hello (check : ClientHello -> bool) : prog TestWorld (list u8) :=
  got ← MockIOServer_recv;
  match got with
  | Some (Hello h) => assert (check h) ;; mret (ch_client_nonce h)
  | _ => panic
  end.

(** [assert_matches!(server.recv().await, Some(ProtocolError { .. }))]. *)
Definition expect_protocol_error (complete : bool) (check : ProtocolError -> bool) :
  prog TestWorld () :=
  got ← MockIOServer_recv;
  match got with
  | Some (ReportProtocolError reason is_handshake_complete) =>
      assert (Bool.eqb is_handshake_complete complete) ;; assert (check reason)
  | _ => panic
  end.

(** [assert_matches!(server.recv().now_or_never(), None)]. *)
Definition expect_silence : prog TestWorld () :=
  p ← MockIOServer_poll_recv;
  match p with Pending => mret tt | Ready _ => panic end.

(** Derives the identifier from the client's nonce, and delivers it. *)
Definition deliver_ack (d : Delegate) (client_nonce : list u8) : prog TestWorld Delegate :=
  server_nonce ← IdNonce_default;
  connection_id ← of_panics (ConnectionId_new client_nonce (IdNonce_as_bytes server_nonce));
  MessageDelegate_process fuel d (Ok (ClientHelloAck (UntrustedConnectionId_new
    (IdNonce_as_bytes server_nonce) (ConnectionId_as_bytes connection_id)))).

Definition do_handshake (d : Delegate) : prog TestWorld Delegate :=
  d ← MessageDelegate_send_hello fuel d;
  client_nonce ← expect_hello (fun _ => true);
  deliver_ack d client_nonce.

(** ** Generators *)

(** [arbitrary_bytes(lo..hi)]. *)
Definition arbitrary_bytes (lo hi : nat) (v : list u8) : bool :=
  bool_decide (lo <= length v /\ length v < hi).

Definition arbitrary_valid_dispatch_request (m : ServerToClient) : bool :=
  match m with
  | ServerDispatch (CorrelationId_new id) (Payload_from payload) (Some (mk_detached cert_id signature)) =>
      (id <? 2 ^ 64)%N && arbitrary_bytes 0 1028 payload
      && arbitrary_bytes MIN_LENGTH (S MAX_LENGTH) cert_id && arbitrary_bytes 1 1028 signature
  | _ => false
  end.

(** A valid request without signature, with a certificate identifier that is too
    short or too long, or with an empty signature. *)
Definition arbitrary_invalid_dispatch_request (m : ServerToClient) : bool :=
  match m with
  | ServerDispatch (CorrelationId_new id) (Payload_from payload) detached_signature =>
      (id <? 2 ^ 64)%N && arbitrary_bytes 0 1028 payload
      && match detached_signature with
         | None => true
         | Some (mk_detached cert_id signature) =>
             (arbitrary_bytes 0 MIN_LENGTH cert_id || arbitrary_bytes (S MAX_LENGTH) 1028 cert_id)
               && arbitrary_bytes 1 1028 signature
             || arbitrary_bytes MIN_LENGTH (S MAX_LENGTH) cert_id && bool_decide (signature = [])
         end
  | _ => false
  end.

(** [SAMPLE_CERT_DER] is the argument. *)
Definition any_server_to_client (sample_cert_der : list u8) (m : ServerToClient) : bool :=
  match m with
  | ServerDispatch _ _ _ => arbitrary_valid_dispatch_request m
  | Ping => true
  | CertificatePush [UntrustedCertBytes_new der] => bool_decide (der = sample_cert_der)
  | CertificatePush _ => false
  | ClientHelloAck (UntrustedConnectionId_new server_nonce id) =>
      bool_decide (server_nonce = [x01; x02; x03; x04]) && bool_decide (id = [x05; x06; x07; x08])
  | SetReconnectionData (ReconnectionData_new v) => arbitrary_bytes 0 1028 v
  end.

Definition filter_implemented (input : ServerToClient -> bool) (v : ServerToClient) : bool :=
  input v && match v with CertificatePush _ | SetReconnectionData _ => false | _ => true end.

Definition filter_allowed_at_any_time (input : ServerToClient -> bool) (v : ServerToClient) : bool :=
  filter_implemented input v
  && match v with ServerDispatch _ _ _ | ClientHelloAck _ => false | _ => true end.

Definition filter_allowed_after_handshake (input : ServerToClient -> bool) (v : ServerToClient) :
  bool :=
  input v && match v with ClientHelloAck _ => false | _ => true end.

Definition has_reply (v : ServerToClient) : bool :=
  match v with
  | Ping | ServerDispatch _ _ _ => true
  | CertificatePush _ | ClientHelloAck _ | SetReconnectionData _ => false
  end.

(** ** The tests *)

Context (version : BuildVersion) (publisher : DispatchPublisher).

Definition new_delegate (app_version : string) : Delegate :=
  MessageDelegate_new tt tt publisher
    (AppInfo_new (AppName_from "bananas") (AppVersion_from app_version)) MockVerifier_default.

Definition test_ping_pong : prog TestWorld () :=
  _ ← MessageDelegate_process fuel (new_delegate "1.0.0") (Ok Ping);
  got ← MockIOServer_recv;
  match got with Some Pong => mret tt | _ => panic end.

(** The assertions of [test_handshake] on the hello. *)
Definition bananas_hello (h : ClientHello) : bool :=
  bool_decide (Graceful_as_raw (ch_graceful h) = 0%N)
  && bool_decide (Ungraceful_as_raw (ch_ungraceful h) = 0%N)
  && bool_decide (LastConnected_as_seconds (ch_last_closed h) = 0%N)
  && match ch_reconnection_data h with None => true | Some _ => false end
  && bool_decide (ch_version_info h = version)
  && bool_decide (app_name_str (ch_app_name h) = "bananas")
  && bool_decide (app_version_str (ch_app_version h) = "opaque 1.0.0")
  && bool_decide (length (ch_client_nonce h) = 16).

Definition test_handshake : prog TestWorld () :=
  let d := new_delegate "opaque 1.0.0" in
  assert (is_pre_handshake d) ;;
  d ← MessageDelegate_send_hello fuel d;
  assert (is_handshaking d) ;;
  client_nonce ← expect_hello bananas_hello;
  d ← deliver_ack d client_nonce;
  assert (is_active d).

Definition is_no_message (reason : ProtocolError) : bool :=
  match reason with
  | DeserialisationFailed msg => bool_decide (msg = DecodingError_display DecodingError_NoMessage)
  | _ => false
  end.

Definition test_decode_error : prog TestWorld () :=
  d ← MessageDelegate_process fuel (new_delegate "1.0.0") (Err DecodingError_NoMessage);
  expect_protocol_error false is_no_message ;;
  assert (is_error d).

(** In the error state, [msg] has no effect. *)
Definition expect_ignored (d : Delegate) (msg : ServerToClient) : prog TestWorld Delegate :=
  d ← MessageDelegate_process fuel d (Ok msg);
  expect_silence ;;
  assert (is_error d) ;;
  mret d.

Definition expect_open : prog TestWorld () :=
  closed ← gets is_connection_closed;
  assert (negb closed).

Definition prop_deserialisation_error_rejects_messages (msg : ServerToClient) : prog TestWorld () :=
  d ← do_handshake (new_delegate "1.0.0");
  expect_silence ;;
  d ← MessageDelegate_process fuel d (Err DecodingError_NoMessage);
  expect_protocol_error true is_no_message ;;
  assert (is_error d) ;;
  _ ← expect_ignored d msg;
  mret tt.

Definition is_ack_before_hello (reason : ProtocolError) : bool :=
  match reason with HandshakeAckBeforeHello => true | _ => false end.

Definition prop_handshake_ack_before_hello (post_ack_msg : ServerToClient) : prog TestWorld () :=
  let d := new_delegate "1.0.0" in
  client_nonce ← IdNonce_default;
  server_nonce ← IdNonce_default;
  connection_id ← of_panics (ConnectionId_new (IdNonce_as_bytes client_nonce)
    (IdNonce_as_bytes server_nonce));
  assert (is_pre_handshake d) ;;
  d ← MessageDelegate_process fuel d (Ok (ClientHelloAck (UntrustedConnectionId_new
    (IdNonce_as_bytes server_nonce) (ConnectionId_as_bytes connection_id))));
  expect_protocol_error false is_ack_before_hello ;;
  assert (is_error d) ;;
  _ ← expect_ignored d post_ack_msg;
  expect_open.

Definition is_duplicate_ack (reason : ProtocolError) : bool :=
  match reason with HandshakeDuplicateAck => true | _ => false end.

Definition prop_handshake_duplicate_ack (post_ack_msg : ServerToClient) : prog TestWorld () :=
  d ← do_handshake (new_delegate "1.0.0");
  assert (is_active d) ;;
  d ← MessageDelegate_process fuel d
    (Ok (ClientHelloAck (UntrustedConnectionId_new (replicate 16 x00) (replicate 16 x00))));
  assert (is_error d) ;;
  expect_protocol_error true is_duplicate_ack ;;
  _ ← expect_ignored d post_ack_msg;
  expect_open.

Definition prop_any_message_after_handshake (msg : ServerToClient) : prog TestWorld () :=
  d ← do_handshake (new_delegate "1.0.0");
  expect_silence ;;
  d ← MessageDelegate_process fuel d (Ok msg);
  assert (is_active d).

Definition is_dispatch_violation (reason : ProtocolError) : bool :=
  match reason with
  | DispatchBeforeHandshake _ | DispatchMissingSignature _ | CertIdInvalidLength _ => true
  | _ => false
  end.

Definition prop_invalid_dispatch_raises_protocol_error (invalid_dispatch valid_msg : ServerToClient) :
  prog TestWorld () :=
  d ← do_handshake (new_delegate "1.0.0");
  assert (is_active d) ;;
  d ← MessageDelegate_process fuel d (Ok invalid_dispatch);
  expect_protocol_error true is_dispatch_violation ;;
  assert (is_error d) ;;
  _ ← expect_ignored d valid_msg;
  mret tt.

Definition is_rejection (reason : ProtocolError) : bool :=
  match reason with HandshakeConnectionIdRejected => true | _ => false end.

Definition prop_handshake_connection_id_rejected (server_nonce proposed_id : list u8)
  (post_error_msg : ServerToClient) : prog TestWorld () :=
  let d := new_delegate "1.0.0" in
  assert (is_pre_handshake d) ;;
  d ← MessageDelegate_send_hello fuel d;
  assert (is_handshaking d) ;;
  _ ← expect_hello (fun _ => true);
  d ← MessageDelegate_process fuel d
    (Ok (ClientHelloAck (UntrustedConnectionId_new server_nonce proposed_id)));
  assert (is_error d) ;;
  expect_protocol_error false is_rejection ;;
  _ ← expect_ignored d post_error_msg;
  expect_open.

(** Delivers the message, if there is one, and drains its reply. *)
Definition deliver_optional (d : Delegate) (msg : option ServerToClient) : prog TestWorld Delegate :=
  match msg with
  | Some msg =>
      d ← MessageDelegate_process fuel d (Ok msg);
      (if has_reply msg then got ← MockIOServer_recv; _ ← of_panics got; mret tt else mret tt) ;;
      mret d
  | None => mret d
  end.

Definition prop_message_types_allowed_during_handshake
  (pre_handshake during_handshake post_handshake : option ServerToClient) : prog TestWorld () :=
  d ← deliver_optional (new_delegate "1.0.0") pre_handshake;
  d ← MessageDelegate_send_hello fuel d;
  client_nonce ← expect_hello (fun _ => true);
  d ← deliver_optional d during_handshake;
  d ← deliver_ack d client_nonce;
  d ← deliver_optional d post_handshake;
  assert (is_active d) ;;
  _ ← MessageDelegate_process fuel d (Ok Ping);
  got ← MockIOServer_recv;
  match got with Some Pong => mret tt | _ => panic end.

End Tests.

(** A test with the messages drawn for it. *)
Inductive delegate_test `{ProtoTypes} : Type :=
| Test_ping_pong
| Test_handshake
| Test_decode_error
| Prop_deserialisation_error_rejects_messages (msg : ServerToClient)
| Prop_handshake_ack_before_hello (post_ack_msg : ServerToClient)
| Prop_handshake_duplicate_ack (post_ack_msg : ServerToClient)
| Prop_any_message_after_handshake (msg : ServerToClient)
| Prop_invalid_dispatch_raises_protocol_error (invalid_dispatch valid_msg : ServerToClient)
| Prop_message_types_allowed_during_handshake (pre_handshake during_handshake post_handshake :
    option ServerToClient)
| Prop_handshake_connection_id_rejected (server_nonce proposed_id : list u8)
    (post_error_msg : ServerToClient).

(** What the generators of the test can draw. *)
Definition generated `{ProtoTypes} (sample_cert_der : list u8) (t : delegate_test) : bool :=
  let any := any_server_to_client sample_cert_der in
  let option_of (s : ServerToClient -> bool) (o : option ServerToClient) :=
    match o with Some m => s m | None => true end in
  match t with
  | Test_ping_pong | Test_handshake | Test_decode_error => true
  | Prop_deserialisation_error_rejects_messages msg | Prop_any_message_after_handshake msg =>
      filter_allowed_after_handshake (filter_implemented any) msg
  | Prop_handshake_ack_before_hello msg | Prop_handshake_duplicate_ack msg => any msg
  | Prop_invalid_dispatch_raises_protocol_error invalid_dispatch valid_msg =>
      arbitrary_invalid_dispatch_request invalid_dispatch && any valid_msg
  | Prop_message_types_allowed_during_handshake pre_handshake during_handshake post_handshake =>
      let s := option_of (filter_allowed_at_any_time any) in
      s pre_handshake && s during_handshake && s post_handshake
  | Prop_handshake_connection_id_rejected server_nonce proposed_id msg =>
      bool_decide (length server_nonce = 16) && bool_decide (length proposed_id = 16) && any msg
  end.

Definition run_delegate_test `{ProtoTypes} `{AwsDigest} `{UuidLib} `{Mpsc} {R : Type} `{!Rng R}
  (fuel : nat) (version : BuildVersion) (rng : R) (t : delegate_test) : exec (TestWorld (R:=R)) () :=
  let '(publisher, w) := new_test version rng in
  match t with
  | Test_ping_pong => test_ping_pong fuel publisher
  | Test_handshake => test_handshake fuel version publisher
  | Test_decode_error => test_decode_error fuel publisher
  | Prop_deserialisation_error_rejects_messages msg =>
      prop_deserialisation_error_rejects_messages fuel publisher msg
  | Prop_handshake_ack_before_hello msg => prop_handshake_ack_before_hello fuel publisher msg
  | Prop_handshake_duplicate_ack msg => prop_handshake_duplicate_ack fuel publisher msg
  | Prop_any_message_after_handshake msg => prop_any_message_after_handshake fuel publisher msg
  | Prop_invalid_dispatch_raises_protocol_error invalid_dispatch valid_msg =>
      prop_invalid_dispatch_raises_protocol_error fuel publisher invalid_dispatch valid_msg
  | Prop_message_types_allowed_during_handshake pre_handshake during_handshake post_handshake =>
      prop_message_types_allowed_during_handshake fuel publisher pre_handshake during_handshake
        post_handshake
  | Prop_handshake_connection_id_rejected server_nonce proposed_id msg =>
      prop_handshake_connection_id_rejected fuel publisher server_nonce proposed_id msg
  end w.

(** ** Symbolic execution *)

Section Passing.
Context `{ProtoTypes} `{AwsDigestLaws} `{UuidLib} `{MpscLaws} {R : Type} `{!Rng R}.
Abbreviation TW := (TestWorld (R:=R)).
Abbreviation Dg := (MessageDelegate (W:=TW) (V:=MockVerifier)).
#[local] Existing Instance test_env.

Definition test_view (w : TW) :=
  (mpsc_view (sh_req w), mpsc_view (cr_out (sh_rest w)), mpsc_view (cr_host (sh_rest w)),
   cr_rng (sh_rest w), cr_metrics (sh_rest w)).

Context (metrics : InstanceMetrics).

(** The client has replied [out], which the test has not read, and forwarded
    [req]. *)
Definition at_rest (out : list ClientToServer) (req : list Dispatch) (r : R) :=
  (mk_chan req DISPATCH_QUEUE_LEN true 1, mk_chan out 10 true 1,
   chan_new (T:=result ServerToClient DecodingError) 10, r, metrics).

Abbreviation runs p out req r := (runs_on test_view p (at_rest out req r)).

Context (Works : entropy (R:=R)).

Lemma play_nonce out req r (Q : IdNonce -> _ -> Prop) :
  (forall bs r', drawn r bs r' -> Q (mk_nonce bs) (at_rest out req r')) ->
  runs IdNonce_default out req r Q.
Proof.
  intros HQ w Ew. injection Ew as Eq Eo Ei Er Em.
  unfold IdNonce_default, rand_fill at 1. cbn [env_rng test_env]. unfold world_rng.
  destruct (Works (cr_rng (sh_rest w))) as (bs & r' & E & L & NZ). rewrite E, decide_False by done.
  eexists _, _. split; [reflexivity|]. unfold test_view. simpl. rewrite Eq, Eo, Ei, Em.
  apply HQ. split; [by rewrite <- Er | done].
Qed.

Lemma runs_send fuel m (tok : CancellationToken) out req r (Q : () -> _ -> Prop) :
  length out < 10 -> Q tt (at_rest (out ++ [m]) req r) ->
  runs (retry_send (S fuel) m tok) out req r Q.
Proof.
  intros L HQ w Ew. injection Ew as Eq Eo Ei Er Em.
  cbn [retry_send env_send test_env].
  unfold MockIO_send, mbind, prog_bind.
  destruct (mpsc_try_send m (cr_out (sh_rest w))) as [x c] eqn:P. apply mpsc_try_send_view in P.
  unfold chan_try_send in P. rewrite Eo in P. simpl in P.
  rewrite decide_False in P by (unfold chan_full; simpl; lia). injection P as <- P.
  eexists _, _. split; [reflexivity|]. unfold test_view. simpl. by rewrite Eq, <- P, Ei, Er, Em.
Qed.

Lemma runs_dispatch p d out req r (Q : result () DispatchError -> _ -> Prop) :
  length req < DISPATCH_QUEUE_LEN -> Q (Ok tt) (at_rest out (req ++ [d]) r) ->
  runs (env_dispatch p d) out req r Q.
Proof.
  intros L HQ w Ew. injection Ew as Eq Eo Ei Er Em. cbn [env_dispatch test_env].
  unfold world_dispatch, DispatchPublisher_dispatch, req_try_send, mbind, prog_bind.
  destruct (mpsc_try_send d (sh_req w)) as [x c] eqn:P. apply mpsc_try_send_view in P.
  unfold chan_try_send in P. rewrite Eq in P. simpl in P.
  rewrite decide_False in P by (unfold chan_full; simpl; lia). injection P as <- P.
  eexists _, _. split; [reflexivity|]. unfold test_view. simpl. by rewrite <- P, Eo, Ei, Er, Em.
Qed.

Lemma runs_poll_recv out req r (Q : poll (option ClientToServer) -> _ -> Prop) :
  match out with
  | m :: out => Q (Ready (Some m)) (at_rest out req r)
  | [] => Q Pending (at_rest [] req r)
  end -> runs MockIOServer_poll_recv out req r Q.
Proof.
  intros HQ w Ew. injection Ew as Eq Eo Ei Er Em. unfold MockIOServer_poll_recv.
  destruct (mpsc_poll_recv (cr_out (sh_rest w))) as [p c] eqn:P. apply mpsc_poll_recv_view in P.
  rewrite Eo in P. eexists _, _. split; [reflexivity|]. unfold test_view. simpl.
  rewrite Eq, Ei, Er, Em. destruct out as [|m out]; injection P as <- P; by rewrite <- P.
Qed.

Lemma runs_recv m out req r (Q : option ClientToServer -> _ -> Prop) :
  Q (Some m) (at_rest out req r) -> runs MockIOServer_recv (m :: out) req r Q.
Proof. intros HQ. by apply runs_bind, runs_poll_recv, runs_ret. Qed.

Lemma runs_silence req r (Q : () -> _ -> Prop) :
  Q tt (at_rest [] req r) -> runs expect_silence [] req r Q.
Proof. intros HQ. by apply runs_bind, runs_poll_recv, runs_ret. Qed.

Lemma runs_open out req r (Q : () -> _ -> Prop) :
  Q tt (at_rest out req r) -> runs expect_open out req r Q.
Proof.
  intros HQ w Ew. injection Ew as Eq Eo Ei Er Em. unfold expect_open, mbind, prog_bind, gets.
  unfold is_connection_closed. rewrite view_tx_is_closed, view_rx_is_closed, Eo, Ei. simpl.
  eexists _, _. split; [reflexivity|]. unfold test_view. by rewrite Eq, Eo, Ei, Er, Em.
Qed.

Lemma runs_expect_error b check reason out req r (Q : () -> _ -> Prop) :
  check reason = true -> Q tt (at_rest out req r) ->
  runs (expect_protocol_error b check) (ReportProtocolError reason b :: out) req r Q.
Proof.
  intros C HQ. apply runs_bind, runs_recv, runs_bind, runs_assert; [by destruct b|].
  by apply runs_assert.
Qed.

Lemma runs_expect_hello check h out req r (Q : list u8 -> _ -> Prop) :
  check h = true -> Q (ch_client_nonce h) (at_rest out req r) ->
  runs (expect_hello check) (Hello h :: out) req r Q.
Proof. intros C HQ. by apply runs_bind, runs_recv, runs_bind, runs_assert, runs_ret. Qed.

(** *** The delegate *)

(** The test goes on with a delegate in the phase of [o], its reply and its
    request appended. *)
Definition continues (o : outcome) (out : list ClientToServer) (req : list Dispatch)
  (Q : State (W:=TW) (V:=MockVerifier) -> _ -> Prop) : Prop :=
  forall s r', phase_of s = o_phase o ->
    Q s (at_rest (out ++ option_list (o_reply o)) (req ++ option_list (o_dispatch o)) r').

Lemma runs_quiet (s : State (W:=TW) (V:=MockVerifier)) out req r Q :
  continues (quiet (phase_of s)) out req Q -> runs (mret s) out req r Q.
Proof. intros K. apply runs_ret. specialize (K s r eq_refl). simpl in K. by rewrite !app_nil_r in K. Qed.

Lemma play_reply fuel m tok (s : State (W:=TW) (V:=MockVerifier)) out req r Q : length out < 10 ->
  continues (mk_outcome (phase_of s) (Some m) None) out req Q ->
  runs (retry_send (S fuel) m tok ;; mret s) out req r Q.
Proof.
  intros L K. apply runs_bind, runs_send, runs_ret; [done|]. specialize (K s r eq_refl).
  simpl in K. by rewrite app_nil_r in K.
Qed.

Lemma play_ack fuel (f : Fsm (W:=TW) (V:=MockVerifier) Handshaking) u out req r Q : length out < 10 ->
  continues (react_ack (phase_of (State_Handshaking f)) u) out req Q ->
  runs (Handshaking_process (S fuel) f (ClientHelloAck u)) out req r Q.
Proof.
  intros L K. apply runs_bind, play_nonce. intros bs r' _. unfold Handshaking_verify.
  rewrite verify_outcome. apply runs_bind. eapply runs_some; [reflexivity|]. cbn [phase_of react_ack] in K.
  destruct (decide (ConnectionId_as_bytes _ = uci_id u)) as [D|D].
  - rewrite decide_False by (intros []; done). by apply runs_quiet.
  - rewrite decide_True by done. by apply (play_reply fuel).
Qed.

Lemma play_request fuel (f : Fsm (W:=TW) (V:=MockVerifier) Active) id payload sig out req r Q :
  length out < 10 -> length req < DISPATCH_QUEUE_LEN ->
  continues (react_dispatch (phase_of (State_Active f)) id payload sig) out req Q ->
  runs (Active_handle_dispatch (S fuel) f id payload sig) out req r Q.
Proof.
  intros L Lq K. unfold Active_handle_dispatch. cbn [phase_of react_dispatch] in K.
  destruct sig as [[cert_id [|b sig]]|]; cbn [admissible] in K;
    [by apply (play_reply fuel)| |by apply (play_reply fuel)].
  unfold CertId_try_from, MIN_LENGTH, MAX_LENGTH. rewrite decide_False in K by done.
  destruct (decide (16 <= length cert_id /\ length cert_id <= 64)) as [D|D].
  - rewrite decide_False by lia. apply runs_bind, runs_dispatch, runs_ret; [done|].
    specialize (K (State_Active f) r eq_refl). simpl in K. by rewrite app_nil_r in K.
  - rewrite decide_True by lia. by apply (play_reply fuel).
Qed.

Lemma runs_process_impl fuel s msg out req r Q :
  length out < 10 -> length req < DISPATCH_QUEUE_LEN ->
  continues (reaction (phase_of s) msg) out req Q ->
  runs (MessageDelegate_process_impl (S fuel) s msg) out req r Q.
Proof.
  intros L Lq K. destruct s as [f|f|f|f], msg as [[|certs|id payload sig|u|d]|e];
    cbn [MessageDelegate_process_impl State_process State_protocol_error
         PreHandshake_process Active_process Error_process].
  all: try exact (runs_quiet _ _ _ _ _ K).
  all: try exact (play_reply fuel _ (fsm_stop f)
         (State_Error (Fsm_into_state f mk_error_phase)) _ _ _ _ L K).
  - exact (play_reply fuel Pong (fsm_stop f) (State_PreHandshake f) _ _ _ _ L K).
  - exact (play_reply fuel Pong (fsm_stop f) (State_Handshaking f) _ _ _ _ L K).
  - by apply play_ack.
  - exact (play_reply fuel Pong (fsm_stop f) (State_Active f) _ _ _ _ L K).
  - by apply play_request.
Qed.

Abbreviation phase_d d := (phase_of (delegate_state d)).

Lemma in_error (d : Dg) : phase_d d = Phase_Error -> is_error d = true.
Proof. unfold is_error. by destruct (delegate_state d). Qed.
Lemma in_active (d : Dg) id : phase_d d = Phase_Active id -> is_active d = true.
Proof. unfold is_active. by destruct (delegate_state d). Qed.
Lemma in_handshaking (d : Dg) n : phase_d d = Phase_Handshaking n -> is_handshaking d = true.
Proof. unfold is_handshaking. by destruct (delegate_state d). Qed.

(** One message, as the table of [Fsm] says. *)
Lemma play_process fuel (d : Dg) p msg out req r (Q : Dg -> _ -> Prop) :
  phase_d d = p -> length out < 10 -> length req < DISPATCH_QUEUE_LEN ->
  (forall d' r', phase_d d' = o_phase (reaction p msg) ->
     Q d' (at_rest (out ++ option_list (o_reply (reaction p msg)))
             (req ++ option_list (o_dispatch (reaction p msg))) r')) ->
  runs (MessageDelegate_process (S fuel) d msg) out req r Q.
Proof.
  intros <- L Lq K. apply runs_bind, runs_process_impl; [done..|].
  intros s r' P. by apply runs_ret, (K (mk_delegate s)).
Qed.

Definition hello_of (info : AppInfo) (bs : list u8) : ClientHello :=
  mk_client_hello bs (im_graceful_disconnect metrics) (im_ungraceful_disconnect metrics)
    (InstanceMetrics_last_conn_duration metrics) None (im_version metrics)
    (AppInfo_name info) (AppInfo_version info).

Lemma runs_send_hello fuel (d : Dg) f req r (Q : Dg -> _ -> Prop) :
  delegate_state d = State_PreHandshake f ->
  (forall d' bs r', drawn r bs r' -> phase_d d' = Phase_Handshaking (mk_nonce bs) ->
     Q d' (at_rest [Hello (hello_of (ph_app_info (fsm_state f)) bs)] req r')) ->
  runs (MessageDelegate_send_hello (S fuel) d) [] req r Q.
Proof.
  intros E K. apply runs_bind. rewrite E. apply runs_bind, runs_bind, play_nonce. intros bs r' D.
  apply runs_bind, (runs_gets _ snd); [done|]. apply runs_ret, runs_bind, runs_send; [simpl; lia|].
  by apply runs_ret, runs_ret, (K _ bs).
Qed.

Lemma runs_deliver_ack fuel (d : Dg) bs req r (Q : Dg -> _ -> Prop) :
  phase_d d = Phase_Handshaking (mk_nonce bs) ->
  (forall d' id r', phase_d d' = Phase_Active id -> Q d' (at_rest [] req r')) ->
  length req < DISPATCH_QUEUE_LEN ->
  runs (deliver_ack (S fuel) d bs) [] req r Q.
Proof.
  intros P K L. apply runs_bind, play_nonce. intros sn r' D. rewrite ConnectionId_new_spec.
  apply runs_bind. eapply runs_some; [reflexivity|].
  apply (play_process _ _ _ _ _ _ _ _ P); [simpl; lia | done |]. intros d' r2. simpl.
  rewrite decide_True by done. simpl. rewrite app_nil_r. apply K.
Qed.

Lemma runs_handshake fuel publisher app_version r (Q : Dg -> _ -> Prop) :
  (forall d id r', phase_d d = Phase_Active id -> Q d (at_rest [] [] r')) ->
  runs (do_handshake (S fuel) (new_delegate publisher app_version)) [] [] r Q.
Proof.
  intros K. apply runs_bind. eapply runs_send_hello; [reflexivity|]. intros d bs r1 D P.
  apply runs_bind, runs_expect_hello; [done|].
  apply (runs_deliver_ack _ _ bs); [done | exact K |]. unfold DISPATCH_QUEUE_LEN. simpl. lia.
Qed.

(** What follows a protocol error. *)
Lemma runs_ignored fuel (d : Dg) msg req r (Q : Dg -> _ -> Prop) :
  phase_d d = Phase_Error -> length req < DISPATCH_QUEUE_LEN ->
  (forall d' r', Q d' (at_rest [] req r')) ->
  runs (expect_ignored (S fuel) d msg) [] req r Q.
Proof.
  intros P L K. apply runs_bind, (play_process _ _ _ _ _ _ _ _ P); [simpl; lia | done |].
  intros d' r1 P1. simpl in *. rewrite app_nil_r. apply runs_bind, runs_silence, runs_bind, runs_assert.
  { by apply in_error. }
  by apply runs_ret.
Qed.

(** *** The tests *)

(** Passing, from the initial state of the mocks. *)
Abbreviation passes p r := (runs p [] [] r (fun _ _ => True)).

Ltac room := unfold DISPATCH_QUEUE_LEN; simpl; lia.
Ltac handshake d P :=
  let c := fresh "c" in apply runs_bind, runs_handshake; intros d c ? P; try (apply runs_bind, runs_silence).
Ltac deliver P d' P' :=
  apply runs_bind; eapply play_process; [exact P | room | room |]; intros d' ? P'; simpl in P' |- *.
Ltac in_phase :=
  apply runs_bind, runs_assert; [first [done | by apply in_error | by eapply in_active | by eapply in_handshaking]|].
Ltac finish P := apply runs_bind, runs_ignored; [exact P | room |]; intros.

Context (fuel : nat) (publisher : DispatchPublisher).

Lemma ping_pong_test_passes r : passes (test_ping_pong (S fuel) publisher) r.
Proof.
  apply runs_bind. eapply play_process; [reflexivity | room | room |]. intros d r1 _. simpl.
  by apply runs_bind, runs_recv, runs_ret.
Qed.

Lemma handshake_test_passes version r : metrics = InstanceMetrics_default version ->
  passes (test_handshake (S fuel) version publisher) r.
Proof.
  intros E. in_phase. apply runs_bind. eapply runs_send_hello; [reflexivity|].
  intros d bs r1 [_ L] P. in_phase. apply runs_bind, runs_expect_hello.
  { unfold bananas_hello, hello_of. rewrite E, !andb_true_iff, !bool_decide_eq_true. by split_and!. }
  apply runs_bind, (runs_deliver_ack _ _ bs); [done | | room]. intros d1 id r2 P1.
  apply runs_assert; [by eapply in_active | done].
Qed.

Lemma decode_error_passes r : passes (test_decode_error (S fuel) publisher) r.
Proof.
  apply runs_bind. eapply play_process; [reflexivity | room | room |]. intros d r1 P. simpl in *.
  apply runs_bind, runs_expect_error; [by apply bool_decide_eq_true|].
  apply runs_assert; [by apply in_error | done].
Qed.

Lemma deserialisation_error_passes msg r :
  passes (prop_deserialisation_error_rejects_messages (S fuel) publisher msg) r.
Proof.
  handshake d P. deliver P d1 P1. apply runs_bind, runs_expect_error; [by apply bool_decide_eq_true|].
  in_phase. finish P1. by apply runs_ret.
Qed.

Lemma ack_before_hello_passes msg r :
  passes (prop_handshake_ack_before_hello (S fuel) publisher msg) r.
Proof.
  apply runs_bind, play_nonce. intros cn r1 _. apply runs_bind, play_nonce. intros sn r2 _.
  rewrite ConnectionId_new_spec. apply runs_bind. eapply runs_some; [reflexivity|]. in_phase.
  apply runs_bind. eapply play_process; [reflexivity | room | room |]. intros d r3 P. simpl in *.
  apply runs_bind, runs_expect_error; [done|]. in_phase. finish P. by apply runs_open.
Qed.

Lemma duplicate_ack_passes msg r : passes (prop_handshake_duplicate_ack (S fuel) publisher msg) r.
Proof.
  handshake d P. in_phase. deliver P d1 P1. in_phase.
  apply runs_bind, runs_expect_error; [done|]. finish P1. by apply runs_open.
Qed.

Lemma invalid_inadmissible m : arbitrary_invalid_dispatch_request m = true ->
  exists id payload sig e, m = ServerDispatch id payload sig /\ admissible sig = Err e.
Proof.
  destruct m as [| |[id] [payload] [[cert_id signature]|]| |]; try done; simpl; [|by eauto 6].
  unfold arbitrary_bytes, MIN_LENGTH, MAX_LENGTH. rewrite !andb_true_iff, orb_true_iff, !andb_true_iff,
    orb_true_iff, !bool_decide_eq_true. intros [_ G].
  destruct (decide (signature = [])) as [->|]; do 4 eexists; (split; [reflexivity|]); simpl; [done|].
  rewrite decide_False by done. rewrite decide_False; [done|].
  destruct G as [[G _]|[_ G]]; [lia | done].
Qed.

Lemma valid_admissible id payload sig :
  arbitrary_valid_dispatch_request (ServerDispatch id payload sig) = true -> admissible sig = Ok tt.
Proof.
  destruct id as [id], payload as [payload], sig as [[cert_id signature]|]; try done. simpl.
  unfold arbitrary_bytes, MIN_LENGTH, MAX_LENGTH. rewrite !andb_true_iff, !bool_decide_eq_true.
  intros [[_ C] S]. rewrite decide_False, decide_True; [done | lia |]. intros ->. simpl in S. lia.
Qed.

Lemma invalid_dispatch_passes invalid msg r : arbitrary_invalid_dispatch_request invalid = true ->
  passes (prop_invalid_dispatch_raises_protocol_error (S fuel) publisher invalid msg) r.
Proof.
  intros (id & payload & sig & e & -> & A)%invalid_inadmissible. handshake d P. in_phase.
  deliver P d1 P1. rewrite A in *. destruct e as [n|]; simpl in P1 |- *.
  all: apply runs_bind, runs_expect_error; [done|]; in_phase; finish P1; by apply runs_ret.
Qed.

Lemma after_handshake_passes sample msg r :
  filter_allowed_after_handshake (filter_implemented (any_server_to_client sample)) msg = true ->
  passes (prop_any_message_after_handshake (S fuel) publisher msg) r.
Proof.
  unfold filter_allowed_after_handshake, filter_implemented. rewrite !andb_true_iff.
  intros [[G I] A]. handshake d P. deliver P d1 P1.
  destruct msg as [| |id payload sig| |]; try done; simpl in P1 |- *.
  - apply runs_assert; [by eapply in_active | done].
  - rewrite (valid_admissible _ _ _ G) in *. apply runs_assert; [by eapply in_active | done].
Qed.

(** Only pings pass the filter: a ping and its answer change nothing. *)
Lemma any_time_ping sample m :
  filter_allowed_at_any_time (any_server_to_client sample) m = true -> m = Ping.
Proof.
  unfold filter_allowed_at_any_time, filter_implemented. rewrite !andb_true_iff.
  by destruct m; intros [[]].
Qed.

Definition at_any_time (sample : list u8) (o : option ServerToClient) : Prop :=
  forall m, o = Some m -> filter_allowed_at_any_time (any_server_to_client sample) m = true.

Lemma runs_deliver_optional sample (d : Dg) p o r (Q : Dg -> _ -> Prop) out :
  at_any_time sample o -> phase_d d = p -> p <> Phase_Error -> out = [] ->
  (forall d' r', phase_d d' = p -> Q d' (at_rest [] [] r')) ->
  runs (deliver_optional (S fuel) d o) out [] r Q.
Proof.
  intros A P NE -> K. destruct o as [m|]; [|by apply runs_ret, K].
  rewrite (any_time_ping _ _ (A m eq_refl)). deliver P d1 P1.
  destruct p; try done; simpl in P1 |- *;
    by apply runs_bind, runs_bind, runs_recv, runs_bind, (runs_some _ Pong), runs_ret, runs_ret, K.
Qed.

Lemma at_any_time_passes sample pre during post r :
  at_any_time sample pre -> at_any_time sample during -> at_any_time sample post ->
  passes (prop_message_types_allowed_during_handshake (S fuel) publisher pre during post) r.
Proof.
  intros A1 A2 A3.
  apply runs_bind, (runs_deliver_optional sample _ Phase_Pre); [done.. |]. intros d r1 P.
  destruct (delegate_state d) as [f| | |] eqn:E; try discriminate P.
  apply runs_bind. eapply runs_send_hello; [exact E|]. intros d1 bs r2 D P1.
  apply runs_bind, runs_expect_hello; [done|].
  apply runs_bind, (runs_deliver_optional sample _ _ _ _ _ _ A2 P1); [done..|]. intros d2 r3 P2.
  apply runs_bind, (runs_deliver_ack _ _ bs); [done | | room]. intros d3 id r4 P3.
  apply runs_bind, (runs_deliver_optional sample _ _ _ _ _ _ A3 P3); [done..|]. intros d4 r5 P4.
  in_phase. deliver P4 d5 P5. by apply runs_bind, runs_recv, runs_ret.
Qed.

Lemma connection_id_rejected_passes server_nonce proposed_id msg r :
  (forall bs r', drawn r bs r' -> ConnectionId_as_bytes (derived_id bs server_nonce) <> proposed_id) ->
  passes (prop_handshake_connection_id_rejected (S fuel) publisher server_nonce proposed_id msg) r.
Proof.
  intros N. in_phase. apply runs_bind. eapply runs_send_hello; [reflexivity|]. intros d bs r1 D P.
  in_phase. apply runs_bind, runs_expect_hello; [done|]. deliver P d1 P1.
  rewrite decide_False in * by by eapply N. simpl in *. in_phase.
  apply runs_bind, runs_expect_error; [done|]. finish P1. by apply runs_open.
Qed.

End Passing.

(** ** Properties *)

Section DelegateTestProperties.
Context `{ProtoTypes} `{AwsDigestLaws} `{UuidLib} `{MpscLaws} {R : Type} `{!Rng R}.

(** The identifier drawn for the rejection test is the one derived from the
    client's nonce. *)
Definition lucky_guess (rng : R) (t : delegate_test) : Prop :=
  match t with
  | Prop_handshake_connection_id_rejected server_nonce proposed_id _ =>
      exists bs r', drawn rng bs r' /\ ConnectionId_as_bytes (derived_id bs server_nonce) = proposed_id
  | _ => False
  end.

Lemma new_test_view version (rng : R) :
  test_view (snd (new_test version rng)) = at_rest (InstanceMetrics_default version) [] [] rng.
Proof. unfold test_view, new_test, at_rest. simpl. by rewrite !view_channel. Qed.

(** C18. The unit tests of the message delegate pass, whatever their generators
    draw, for a client whose random generator works - it never fails and never
    returns sixteen zero bytes - whatever else it returns: no assertion fails,
    nothing panics and no reply is missing.  This covers every message order
    they exercise - decoding errors, acknowledgements too early or twice,
    malformed dispatch requests, messages before, during and after the handshake
    - and that a client which has reported a protocol error ignores every
    further message and keeps the connection open.  Excluded besides is that the
    identifier drawn at random is the one derived from the client's nonce. *)
Theorem delegate_tests_pass fuel version (rng : R) sample_cert_der t : entropy (R:=R) ->
  generated sample_cert_der t = true -> ~ lucky_guess rng t ->
  completed (run_delegate_test (S fuel) version rng t) = true.
Proof.
  intros Works G N. pose proof (new_test_view version rng) as V.
  unfold run_delegate_test. destruct (new_test version rng) as [publisher w]. simpl in V.
  assert (Pass : forall p : prog _ (), runs_on test_view p (at_rest (InstanceMetrics_default version) [] [] rng)
    (fun _ _ => True) -> completed (p w) = true).
  { intros p P. by destruct (P w V) as (a & w' & -> & _). }
  destruct t as [| | |msg|msg|msg|msg|invalid msg|pre during post|server_nonce id msg]; apply Pass.
  - by apply ping_pong_test_passes.
  - by apply handshake_test_passes.
  - by apply decode_error_passes.
  - by apply deserialisation_error_passes.
  - by apply ack_before_hello_passes.
  - by apply duplicate_ack_passes.
  - by eapply after_handshake_passes.
  - apply andb_true_iff in G as [G _]. by apply invalid_dispatch_passes.
  - simpl in G. rewrite !andb_true_iff in G. destruct G as [[G1 G2] G3].
    by eapply at_any_time_passes; [done|..]; intros m ->.
  - apply connection_id_rejected_passes; [done|]. intros bs r' D E. apply N. simpl. eauto.
Qed.

End DelegateTestProperties.

Lemma delegate_tests_pass_witness :
  completed (@run_delegate_test toy_proto toy_digest toy_uuid fifo_mpsc () toy_fixed_rng 1
    (mk_build_version None 1 2 3 None) tt
    (Prop_handshake_connection_id_rejected (replicate 16 x2a) (replicate 16 x07) Ping)) = true.
Proof.
  apply (@delegate_tests_pass toy_proto toy_digest toy_digest_laws toy_uuid fifo_mpsc fifo_mpsc_laws ()
    toy_fixed_rng 0 (mk_build_version None 1 2 3 None) tt [x30]).
  - exact toy_entropy.
  - reflexivity.
  - intros (bs & r' & [[= <- _] _] & E). revert E. vm_compute. discriminate.
Defined.
