(* ===== verification/TrustTests.v ===== *)
(** * The tests of the certificate cache, of chain building and of the trust store

    The property tests of [rc-x509-trust/src/trust_store/cache.rs],
    [trust_store/store.rs] and [chain/build_unverified.rs], on the in-memory cache
    of [TrustStore] and the chains of [TestIssuer].  The cache is one that evicts
    nothing while everything it holds fits its capacity, which is what
    [mini_moka] documents; within that, it is a map: [prop_ops] holds of every
    sequence of operations, and the tests of chains hold of every chain, in both
    orders of the roots. *)

From stdpp Require Import base option list strings gmap pretty.
From Stdlib Require Import Strings.Byte NArith ZArith Lia.
From S2P Require Import Prelude Hex Utf8 CertId Signature Hash Keys Certificate Csr TrustStore TestIssuer TestChains.

Local Open Scope string_scope.

(** ** A cache with room *)

Section Roomy.
Context `{X509Lib} {M : Type} `{!Moka M}.

(** The values of [m] fit: the weigher puts their sum at [cap] at most. *)
Definition fits (cap : N) (weigh : UntrustedCert -> panics Z) (m : gmap (list u8) UntrustedCert) : Prop :=
  exists weight : UntrustedCert -> nat,
    map_Forall (fun _ v => weigh v = Some (Z.of_nat (weight v))) m /\
    (Z.of_nat (sum_list_with weight (map_to_list m).*2) <= Z.of_N cap)%Z.

(** What is documented of evictions: an entry is evicted to make room for
    another one, so a cache in use (within the idle time) holds exactly what was
    put into it for as long as that fits.  [roomy cap weigh c m]: so far it has
    been so, and the entries of [c] are [m]. *)
Class MokaRoomy : Type := {
  moka_iter : M -> list (DangerousComparableId CertId * UntrustedCert);
  roomy : N -> (UntrustedCert -> panics Z) -> M -> gmap (list u8) UntrustedCert -> Prop;
  roomy_build : forall cap idle weigh, roomy cap weigh (moka_build cap idle (fun _ => weigh)) ∅;
  roomy_insert : forall cap weigh c m k v, roomy cap weigh c m ->
    fits cap weigh (<[Dangerous_as_bytes k := v]> m) ->
    roomy cap weigh (moka_insert k v c) (<[Dangerous_as_bytes k := v]> m);
  roomy_get : forall cap weigh c m k, roomy cap weigh c m ->
    exists c', moka_get k c = (m !! Dangerous_as_bytes k, c') /\ roomy cap weigh c' m;
  roomy_invalidate : forall cap weigh c m k, roomy cap weigh c m ->
    roomy cap weigh (moka_invalidate k c) (delete (Dangerous_as_bytes k) m);
  roomy_iter : forall cap weigh c m, roomy cap weigh c m ->
    (fun e => (Dangerous_as_bytes e.1, e.2)) <$> moka_iter c ≡ₚ map_to_list m
}.

End Roomy.

Arguments MokaRoomy {_} M {_}.

(** ** [cache.rs] *)

Section CacheTests.
Context `{X509Lib} {M : Type} `{!Moka M} `{!MokaRoomy M} (debug : bool) (w : Z).

(** The string that [as_hex_str] returns.  (What it leaves in the identifier is
    the rendering alone, which nothing here compares.) *)
Definition hex_str (id : CertId) : panics string := snd <$> CertId_as_hex_str id.

(** The [HashMap] of the test beside the cache. *)
Record OpsWorld : Type := mk_ops_world {
  ow_control : gmap string UntrustedCert;
  ow_cache : MemoryCertCache M
}.

Definition on_cache {A} (p : prog (MemoryCertCache M) A) : prog OpsWorld A := fun o =>
  match p (ow_cache o) with
  | Done a c => Done a (mk_ops_world (ow_control o) c)
  | Panic c => Panic (mk_ops_world (ow_control o) c)
  | Blocked c => Blocked (mk_ops_world (ow_control o) c)
  end.

Definition control_update (f : gmap string UntrustedCert -> gmap string UntrustedCert) : prog OpsWorld () :=
  modify (fun o => mk_ops_world (f (ow_control o)) (ow_cache o)).

(** [==] on the optional fingerprints of the two sides. *)
Definition same_fingerprint (a b : option UntrustedCert) : bool :=
  match a, b with
  | Some a, Some b => Fingerprint_eq (UntrustedCert_fingerprint a) (UntrustedCert_fingerprint b)
  | None, None => true
  | _, _ => false
  end.

(** The body of the loop of [prop_ops]. *)
Definition prop_op (op : cache_op) : prog OpsWorld () :=
  match op with
  | OpInsert cert =>
      key ← of_panics (hex_str (UntrustedCert_cert_id cert));
      control_update <[key := cert]> ;;
      on_cache (cache_insert cert)
  | OpGet cert_id =>
      key ← of_panics (hex_str cert_id);
      want ← gets (fun o => ow_control o !! key);
      got ← on_cache (cache_get cert_id);
      assert (same_fingerprint want got)
  | OpRemove cert_id =>
      existed ← on_cache (cache_get cert_id);
      on_cache (cache_remove cert_id) ;;
      key ← of_panics (hex_str cert_id);
      removed ← gets (fun o => ow_control o !! key);
      control_update (delete key) ;;
      assert (Bool.eqb (bool_decide (is_Some removed)) (bool_decide (is_Some existed)))
  end.

(** What is checked of every entry of the cache at the end. *)
Definition check_entry (e : DangerousComparableId CertId * UntrustedCert) : prog OpsWorld () :=
  assert (Dangerous_eq e.1 (as_dangerous_comparable (UntrustedCert_cert_id e.2))) ;;
  key ← of_panics (hex_str (UntrustedCert_cert_id e.2));
  control ← gets (fun o => ow_control o !! key);
  match control with
  | None => panic
  | Some control => assert (same_fingerprint (Some control) (Some e.2))
  end.

(** [prop_ops], from the creation of the two maps on. *)
Definition prop_ops (ops : list cache_op) : exec OpsWorld () :=
  (for_each prop_op ops ;;
   entries ← gets (fun o => moka_iter (mcc_certs (ow_cache o)));
   control_len ← gets (fun o => size (ow_control o));
   assert (Nat.eqb control_len (length entries)) ;;
   for_each check_entry entries)
    (mk_ops_world ∅ (MemoryCertCache_new debug w (5 * 1024 * 1024))).

End CacheTests.

(** [test_cert_cache_bounds]. *)
Definition test_cert_cache_bounds (debug : bool) (w : Z) : panics bool :=
  let APPROX_CERT_SIZE := 500%Z in
  let CAPACITY_BYTES := (1024 * 1024 * 2)%Z in
  weight ← weight_estimator debug w APPROX_CERT_SIZE;
  if (weight =? 0)%Z then None else Some (CAPACITY_BYTES / weight =? 3355)%Z.

(** ** The cache as a map *)

(** A certificate's weight, where it does not saturate. *)
Definition der_weight `{X509Lib} (c : UntrustedCert) : nat := length (UntrustedCert_as_der_slice c) * 5 / 4.

Section CacheFacts.
Context `{X509Lib} {M : Type} `{!Moka M} `{!MokaRoomy M} (debug : bool) (w : Z).

Definition weigher (v : UntrustedCert) : panics Z :=
  weight_estimator debug w (Z.of_nat (length (UntrustedCert_as_der_slice v))).

Lemma weigher_plain v : (32 <= w)%Z -> (Z.of_nat (der_weight v) <= 5 * 1024 * 1024)%Z ->
  weigher v = Some (Z.of_nat (der_weight v)).
Proof.
  unfold weigher, weight_estimator, der_weight. generalize (length (UntrustedCert_as_der_slice v)) as n.
  intros n Hw Hn. assert (2 ^ 32 <= 2 ^ w)%Z by (apply Z.pow_le_mono_r; lia).
  rewrite Nat2Z.inj_div, Nat2Z.inj_mul in *.
  assert (Z.of_nat n * Z.of_nat 5 < 2 ^ 32)%Z.
  { pose proof (Z.div_mod (Z.of_nat n * Z.of_nat 5) 4). pose proof (Z.mod_pos_bound (Z.of_nat n * Z.of_nat 5) 4).
    change (Z.of_nat 4) with 4%Z in Hn. lia. }
  change (Z.of_nat 5) with 5%Z in *. change (Z.of_nat 4) with 4%Z in *.
  rewrite decide_True by lia. simpl. unfold u32_max. by rewrite decide_True by lia.
Qed.

Definition map_weight (m : gmap (list u8) UntrustedCert) : nat := sum_list_with der_weight (map_to_list m).*2.

Lemma map_weight_fresh m k v : m !! k = None -> map_weight (<[k := v]> m) = der_weight v + map_weight m.
Proof. intros E. unfold map_weight. by rewrite (map_to_list_insert m k v E). Qed.

Lemma map_weight_delete m k : map_weight (delete k m) <= map_weight m.
Proof.
  destruct (m !! k) as [v|] eqn:E; [|by rewrite delete_id].
  rewrite <- (insert_delete_id m k v E) at 2. rewrite map_weight_fresh; [lia | apply lookup_delete_eq].
Qed.

Lemma map_weight_insert m k v : map_weight (<[k := v]> m) <= der_weight v + map_weight m.
Proof.
  rewrite <- insert_delete_eq, map_weight_fresh by apply lookup_delete_eq.
  pose proof (map_weight_delete m k). lia.
Qed.

Lemma map_weight_elem m k v : m !! k = Some v -> der_weight v <= map_weight m.
Proof.
  intros E. rewrite <- (insert_delete_id m k v E), map_weight_fresh by apply lookup_delete_eq. lia.
Qed.

(** The weight that the operations put into the cache. *)
Definition inserted (ops : list cache_op) : nat :=
  sum_list_with (fun op => match op with OpInsert cert => der_weight cert | _ => 0 end) ops.

(** A cache of capacity [cap] that holds [m], which with [n] more is still
    within its capacity. *)
Definition has (cap : N) (n : nat) (m : gmap (list u8) UntrustedCert) (c : MemoryCertCache M) : Prop :=
  roomy cap weigher (mcc_certs c) m /\ keys_match m /\
  (32 <= w)%Z /\ (Z.of_nat (n + map_weight m) <= Z.of_N cap <= 5 * 1024 * 1024)%Z.

Lemma has_new cap n : (32 <= w)%Z -> (Z.of_nat n <= Z.of_N cap <= 5 * 1024 * 1024)%Z ->
  has cap n ∅ (MemoryCertCache_new debug w cap).
Proof.
  intros Hw Hn. split_and!; [apply roomy_build | done | done | | lia].
  unfold map_weight. rewrite map_to_list_empty. simpl. lia.
Qed.

Lemma has_insert cap n m c cert : has cap (der_weight cert + n) m c ->
  exists c', cache_insert cert c = Done tt c' /\ has cap n (apply_op m (OpInsert cert)) c'.
Proof.
  intros (Ro & K & Hw & Hc). set (m' := apply_op m (OpInsert cert)).
  assert (L : map_weight m' <= der_weight cert + map_weight m) by apply map_weight_insert.
  assert (F : fits cap weigher m').
  { exists der_weight. split; [|fold (map_weight m'); lia].
    intros k v E. apply weigher_plain; [done|]. apply map_weight_elem in E. lia. }
  eexists. split; [reflexivity|]. split_and!; [|by apply apply_op_keys | done | lia | lia].
  exact (roomy_insert cap weigher _ m (Dangerous_into_owned (as_dangerous_comparable (UntrustedCert_cert_id cert)))
    cert Ro F).
Qed.

Lemma has_get cap n m c id : has cap n m c ->
  exists c', cache_get id c = Done (m !! id_bytes id) c' /\ has cap n m c'.
Proof.
  intros (Ro & K & R). cbn. unfold MemoryCertCache_get.
  destruct (roomy_get cap weigher _ m (Dangerous_into_owned (as_dangerous_comparable id)) Ro) as (c' & -> & Ro').
  change (Dangerous_as_bytes _) with (id_bytes id).
  exists (mk_memory_cache c'). split; [|done]. destruct (m !! id_bytes id) as [v|] eqn:E; [|done].
  replace (Dangerous_eq _ _) with true; [done|]. symmetry. apply as_dangerous_eq_true. exact (K _ _ E).
Qed.

Lemma has_remove cap n m c id : has cap n m c ->
  exists c', cache_remove id c = Done tt c' /\ has cap n (apply_op m (OpRemove id)) c'.
Proof.
  intros (Ro & K & Hw & Hc). eexists. split; [reflexivity|].
  pose proof (map_weight_delete m (id_bytes id)).
  split_and!; [by apply roomy_invalidate | by apply (apply_op_keys m (OpRemove id)) | done | simpl; lia | lia].
Qed.

#[local] Arguments same_fingerprint : simpl never.

(** *** The control *)

(** The control's key for an identifier. *)
Definition control_key (bytes : list u8) : string := default "" (colon_string bytes).

#[local] Instance control_key_inj : Inj (=) (=) control_key.
Proof.
  assert (N : forall b l, control_key (b :: l) <> "").
  { intros b l E. unfold control_key in E. destruct (colon_string_total b l) as [s Hs].
    rewrite Hs in E. simpl in E. subst. apply colon_string_length in Hs. simpl in Hs. lia. }
  intros [|a l] [|b l'] E; [done | by symmetry in E; apply N in E | by apply N in E|].
  unfold control_key in E. destruct (colon_string_total a l) as [s Hs], (colon_string_total b l') as [s' Hs'].
  rewrite Hs, Hs' in E. simpl in E. subst. apply colon_string_parses in Hs, Hs'. congruence.
Qed.

Lemma hex_str_key id : cert_id_wf id -> hex_str id = Some (control_key (id_bytes id)).
Proof.
  intros W. destruct (CertId_as_hex_str_wf id W) as (s & Hs & E). unfold hex_str. rewrite E.
  unfold control_key. change (id_bytes id) with (cid_bytes id). by rewrite Hs.
Qed.

Lemma kmap_size (m : gmap (list u8) UntrustedCert) : size (kmap control_key m : gmap string UntrustedCert) = size m.
Proof.
  induction m as [|k v m E IH] using map_ind; [done|].
  rewrite (kmap_insert control_key), !map_size_insert_None; [by rewrite IH | done|].
  rewrite (lookup_kmap control_key). exact E.
Qed.

Definition op_wf (op : cache_op) : Prop :=
  match op with
  | OpInsert cert => cert_id_wf (UntrustedCert_cert_id cert)
  | OpGet id | OpRemove id => cert_id_wf id
  end.

(** The two maps agree, and the identifiers of the certificates are well formed. *)
Definition agree (n : nat) (m : gmap (list u8) UntrustedCert) (o : OpsWorld) : Prop :=
  has (5 * 1024 * 1024) n m (ow_cache o) /\ ow_control o = kmap control_key m /\
  map_Forall (fun _ v => cert_id_wf (UntrustedCert_cert_id v)) m.

Lemma on_cache_done {A} (p : prog (MemoryCertCache M) A) o a c :
  p (ow_cache o) = Done a c -> on_cache p o = Done a (mk_ops_world (ow_control o) c).
Proof. intros E. unfold on_cache. by rewrite E. Qed.

Lemma same_fingerprint_refl v : same_fingerprint v v = true.
Proof. destruct v; [|done]. by apply Fingerprint_eq_true. Qed.

Lemma prop_op_agrees op n m o : op_wf op -> agree (inserted [op] + n) m o ->
  exists o', prop_op op o = Done tt o' /\ agree n (apply_op m op) o'.
Proof.
  intros W (Hh & Hk & Hf). destruct op as [cert|id|id]; simpl in W; unfold prop_op.
  - rewrite (hex_str_key _ W). simpl in Hh. rewrite Nat.add_0_r in Hh.
    destruct (has_insert _ n m (ow_cache o) cert Hh) as (c & E & Hc).
    eexists. split; [exact (on_cache_done _ (mk_ops_world _ (ow_cache o)) _ _ E)|].
    split_and!; [done | simpl; by rewrite Hk, (kmap_insert control_key) | by apply map_Forall_insert_2].
  - destruct (has_get _ _ m (ow_cache o) id Hh) as (c & E & Hc). rewrite (hex_str_key _ W).
    exists (mk_ops_world (ow_control o) c). split; [|done].
    unfold of_panics, gets, mbind, prog_bind. rewrite (on_cache_done _ _ _ _ E).
    by rewrite Hk, (lookup_kmap control_key), same_fingerprint_refl.
  - destruct (has_get _ _ m (ow_cache o) id Hh) as (c & E & Hc).
    destruct (has_remove _ _ m c id Hc) as (c' & E' & Hc'). rewrite (hex_str_key _ W).
    exists (mk_ops_world (delete (control_key (id_bytes id)) (ow_control o)) c').
    split; [|split_and!; [done | simpl; by rewrite Hk, <- (kmap_delete control_key) | by apply map_Forall_delete]].
    rewrite (prog_bind_done _ _ _ _ _ (on_cache_done _ _ _ _ E)).
    rewrite (prog_bind_done _ _ _ _ _ (on_cache_done _ (mk_ops_world _ c) _ _ E')).
    unfold of_panics, gets, control_update, modify, mbind, prog_bind. simpl.
    rewrite Hk, (lookup_kmap control_key). by destruct (bool_decide _).
Qed.

Lemma prop_ops_agrees ops n m o : Forall op_wf ops -> agree (inserted ops + n) m o ->
  exists o', for_each prop_op ops o = Done tt o' /\ agree n (foldl apply_op m ops) o'.
Proof.
  revert m o. induction ops as [|op ops IH]; intros m o W A; simpl; [by exists o|].
  apply Forall_cons in W as [W Ws].
  destruct (prop_op_agrees op (inserted ops + n) m o W) as (o1 & E1 & A1).
  { replace (inserted [op] + (inserted ops + n)) with (inserted (op :: ops) + n); [done|].
    unfold inserted. simpl. lia. }
  destruct (IH _ o1 Ws A1) as (o2 & E2 & A2). exists o2. by rewrite (prog_bind_done _ _ _ _ _ E1).
Qed.

(** The entries that iterating over the cache gives are the control's. *)
Lemma entries_agree n m o e : agree n m o -> e ∈ moka_iter (mcc_certs (ow_cache o)) ->
  m !! id_bytes (UntrustedCert_cert_id e.2) = Some e.2 /\
  Dangerous_as_bytes e.1 = id_bytes (UntrustedCert_cert_id e.2).
Proof.
  intros ((Ro & K & _) & _) He.
  assert (Hm : (Dangerous_as_bytes e.1, e.2) ∈ map_to_list m).
  { rewrite <- (roomy_iter _ _ _ _ Ro). apply list_elem_of_fmap. by exists e. }
  apply elem_of_map_to_list in Hm. pose proof (K _ _ Hm) as Ek. simpl in Ek. by rewrite Ek.
Qed.

Lemma check_entry_ok n m o e : agree n m o -> e ∈ moka_iter (mcc_certs (ow_cache o)) ->
  check_entry e o = Done tt o.
Proof.
  intros A He. destruct (entries_agree n m o e A He) as [Hm Hk]. destruct A as (_ & Hc & Hf).
  unfold check_entry. replace (Dangerous_eq _ _) with true.
  - simpl. unfold assert, of_panics, gets, mbind, prog_bind. simpl. rewrite (hex_str_key _ (Hf _ _ Hm)). simpl.
    by rewrite Hc, (lookup_kmap control_key), Hm, same_fingerprint_refl.
  - symmetry. unfold Dangerous_eq. by apply bool_decide_eq_true.
Qed.

Lemma check_entries_ok n m o : agree n m o ->
  (entries ← gets (fun o => moka_iter (mcc_certs (ow_cache o)));
   control_len ← gets (fun o => size (ow_control o));
   assert (Nat.eqb control_len (length entries)) ;;
   for_each check_entry entries) o = Done tt o.
Proof.
  intros A. pose proof A as ((Ro & _) & Hc & _). unfold gets, mbind, prog_bind.
  replace (Nat.eqb _ _) with true; simpl.
  - destruct (for_each_ok (fun o' => o' = o) check_entry (moka_iter (mcc_certs (ow_cache o))) o)
      as (o' & E & ->); [|done | exact E].
    intros e o' He ->. exists o. by rewrite (check_entry_ok n m o e A He).
  - symmetry. apply Nat.eqb_eq. rewrite Hc, kmap_size, <- length_map_to_list, <- (roomy_iter _ _ _ _ Ro).
    by rewrite length_fmap.
Qed.

End CacheFacts.

(** ** Properties of the cache *)

Section CacheProperties.
Context `{X509Lib} {M : Type} `{!Moka M} `{!MokaRoomy M}.

(** C16. The certificate cache is a map: for every sequence of insertions, lookups
    and removals whose certificates together fit the five mebibytes of the test,
    each lookup returns the certificate that a [HashMap] keyed by the rendered
    identifier has, each removal finds an entry exactly when the [HashMap] does,
    and in the end the two have the same entries, each filed under its own
    identifier; none of the cache's own assertions fails. *)
Theorem cache_matches_map debug w ops (Hw : (32 <= w)%Z) (Hops : Forall op_wf ops)
  (Hfit : (Z.of_nat (inserted ops) <= 5 * 1024 * 1024)%Z) :
  exists o, prop_ops debug w ops = Done tt o /\ ow_control o = kmap control_key (history ops).
Proof.
  destruct (prop_ops_agrees debug w ops 0 ∅ (mk_ops_world ∅ (MemoryCertCache_new debug w (5 * 1024 * 1024))))
    as (o & E & A); [done | split_and!; [apply has_new; [done|]; simpl; lia | done | done]|].
  exists o. unfold prop_ops. rewrite (prog_bind_done _ _ _ _ _ E), (check_entries_ok debug w 0 _ o A).
  split; [done | apply A].
Qed.

End CacheProperties.

(** ** [store.rs] and [build_unverified.rs] *)

Section ChainTests.
Context `{Rcgen} `{AwsDigest} `{X509Lib} {R : Type} `{!AwsEcdsa R} `{!RcgenIssue R}.
Context {M : Type} `{!Moka M} (debug : bool) (w : Z).

(** [arbitrary_ordered_root_set]: the roots of the two authorities, in the order
    that the shuffle left them. *)
Definition arbitrary_ordered_root_set (ca1 ca2 : TestCA) (shuffled : bool) : RootSet :=
  RootSet_new (if shuffled then [TestCA_root_cert ca2; TestCA_root_cert ca1]
               else [TestCA_root_cert ca1; TestCA_root_cert ca2]).

(** A signature of one byte. *)
Definition test_signature {S} : prog S Signature :=
  r ← of_panics (Signature_try_from [x2a]);
  match r with Ok v => mret v | Err _ => panic end.

Definition test_prop_validate (roots : RootSet) (chain : TestChain) : exec (MemoryCertCache M) () :=
  let cache := MemoryCertCache_new debug w (1024 * 1024) in
  let store := TrustStore_new (RootSet_into_array roots) cache in
  (TrustStore_add (mk_untrusted ∘ id_cert <$> (tc_intermediates chain ++ [tc_leaf chain])%list) ;;
   signature ← test_signature;
   r ← TrustStore_validate (ts_roots store) (cert_cert_id (id_cert (tc_leaf chain))) signature [];
   match r with Ok _ => mret tt | Err _ => panic end) (ts_cache store).

(** [dropped] is what the mutator's [take_dropped] returns. *)
Definition test_prop_missing_local_certificate (roots : RootSet) (chain : TestChain)
  (dropped : option Identity) (drop_leaf : bool) : exec (MemoryCertCache M) () :=
  let cache := MemoryCertCache_new debug w (1024 * 1024) in
  let store := TrustStore_new (RootSet_into_array roots) cache in
  let maybe_leaf := if drop_leaf then [] else [tc_leaf chain] in
  (TrustStore_add (mk_untrusted ∘ id_cert <$> (tc_intermediates chain ++ maybe_leaf)%list) ;;
   signature ← test_signature;
   r ← TrustStore_validate (ts_roots store) (cert_cert_id (id_cert (tc_leaf chain))) signature [];
   match r with
   | Ok _ => panic
   | Err err =>
       '(want, got) ← (match drop_leaf, err, dropped with
                       | true, MissingLeafCert id, _ => mret (cert_cert_id (id_cert (tc_leaf chain)), id)
                       | false, ChainBuild (TrustStore.MissingIntermediate id), Some dropped =>
                           mret (cert_cert_id (id_cert dropped), IssuerCertId_as_cert_id id)
                       | _, _, _ => panic
                       end);
       assert (Dangerous_eq (as_dangerous_comparable want) (as_dangerous_comparable got))
   end) (ts_cache store).

(** [prop_missing_local_certificate]: a tenth of the runs drop the leaf. *)
Definition prop_missing_local_certificate (roots : RootSet) (rnd : N) (chain : TestChain)
  (dropped : option Identity) : exec (MemoryCertCache M) () :=
  test_prop_missing_local_certificate roots chain dropped (rnd `mod` 10 =? 0)%N.

(** The fingerprints of what was built and of what was issued agree pairwise,
    where both have an entry. *)
Fixpoint same_fingerprints (got : list UntrustedCert) (input : list Identity) : bool :=
  match got, input with
  | g :: got, i :: input =>
      Fingerprint_eq (UntrustedCert_fingerprint g) (cert_fingerprint (id_cert i)) && same_fingerprints got input
  | _, _ => true
  end.

Definition test_root_chain_root (ca : TestCA) : exec (MemoryCertCache M) () :=
  (got ← build_unverified_chain_for (RootSet_new [TestCA_root_cert ca]) (mk_untrusted (id_cert (ca_root ca)));
   match got with
   | Ok got => assert (bool_decide (UntrustedChain_as_slice got = []))
   | Err _ => panic
   end) (MemoryCertCache_new debug w (1024 * 1024)).

(** [prop_valid_chain_building]; [extra] is the random further intermediate. *)
Definition prop_valid_chain_building (roots : RootSet) (chain : TestChain) (extra : Identity) :
  exec (MemoryCertCache M) () :=
  (for_each (fun identity => cache_insert (mk_untrusted (id_cert identity))) (tc_intermediates chain) ;;
   cache_insert (mk_untrusted (id_cert extra)) ;;
   got ← build_unverified_chain_for roots (mk_untrusted (id_cert (tc_leaf chain)));
   match got with
   | Ok got =>
       assert (Nat.eqb (length (UntrustedChain_as_slice got)) (length (tc_intermediates chain))) ;;
       assert (same_fingerprints (UntrustedChain_as_slice got) (rev (tc_intermediates chain)))
   | Err _ => panic
   end) (MemoryCertCache_new debug w (1024 * 1024)).

Definition prop_missing_intermediate (roots : RootSet) (chain : TestChain) (dropped : Identity) :
  exec (MemoryCertCache M) () :=
  (for_each (fun identity => cache_insert (mk_untrusted (id_cert identity))) (tc_intermediates chain) ;;
   got ← build_unverified_chain_for roots (mk_untrusted (id_cert (tc_leaf chain)));
   match got with
   | Err (TrustStore.MissingIntermediate got) =>
       assert (Dangerous_eq (as_dangerous_comparable got)
                 (as_dangerous_comparable (cert_cert_id (id_cert dropped))))
   | _ => panic
   end) (MemoryCertCache_new debug w (1024 * 1024)).

Definition prop_spuriously_accepted_invalid_chains (roots : RootSet) (chain : TestChain) :
  exec (MemoryCertCache M) () :=
  (for_each (fun identity => cache_insert (mk_untrusted (id_cert identity))) (tc_intermediates chain) ;;
   got ← build_unverified_chain_for roots (mk_untrusted (id_cert (tc_leaf chain)));
   match got with Ok _ => mret tt | Err _ => panic end) (MemoryCertCache_new debug w (1024 * 1024)).

End ChainTests.

(** *** What a test puts into a cache with room *)

#[export] Instance roomy_stable `{X509Lib} {M : Type} `{!Moka M} `{!MokaRoomy M} :
  StableCache (MemoryCertCache M).
Proof.
  refine {| serves := fun c m => exists debug w cap n, has debug w cap n m c |}.
  intros c m id (debug & w & cap & n & Hh). destruct (has_get debug w cap n m c id Hh) as (c' & E & Hh').
  exists c'. split; [done|]. by exists debug, w, cap, n.
Defined.

Section ChainFacts.
Context `{RcgenLaws} `{AwsDigestLaws} `{X509Lib} {R : Type} `{!AwsEcdsa R} `{!AwsEcdsaLaws R}
  `{!RcgenIssue R} `{!RcgenIssueLaws}.
Context {M : Type} `{!Moka M} `{!MokaRoomy M} (debug : bool) (w : Z) (Hw : (32 <= w)%Z).

(** The certificates fit the mebibyte of the tests. *)
Definition light (l : list Identity) : Prop :=
  (Z.of_nat (sum_list_with (der_weight ∘ untrusted) l) <= 1024 * 1024)%Z.

#[export] Instance light_dec l : Decision (light l).
Proof. unfold light. apply _. Defined.

Definition contents (l : list Identity) : gmap (list u8) UntrustedCert :=
  history (OpInsert ∘ untrusted <$> l).

Lemma contents_snoc l i : contents (l ++ [i])%list = <[ski i := untrusted i]> (contents l).
Proof. unfold contents, history. by rewrite fmap_app, foldl_app. Qed.

Lemma contents_absent l id : id ∉ ski <$> l -> contents l !! id = None.
Proof.
  induction l as [|i l IH] using rev_ind; intros N; [done|].
  rewrite fmap_app, not_elem_of_app in N. destruct N as [N Ni]. rewrite contents_snoc.
  rewrite lookup_insert_ne; [auto|]. intros E. apply Ni. apply list_elem_of_singleton. congruence.
Qed.

Lemma contents_lookup l i : NoDup (ski <$> l) -> i ∈ l -> contents l !! ski i = Some (untrusted i).
Proof.
  induction l as [|j l IH] using rev_ind; intros N Hi; [by apply not_elem_of_nil in Hi|].
  rewrite fmap_app in N. apply NoDup_app in N as (N & D & _). rewrite contents_snoc.
  apply elem_of_app in Hi as [Hi|Hi%list_elem_of_singleton]; [|subst; apply lookup_insert_eq].
  rewrite lookup_insert_ne; [auto|]. intros E. apply (D (ski i)); [by apply list_elem_of_fmap_2|].
  rewrite <- E. left.
Qed.

Lemma add_has cap l n m (c : MemoryCertCache M) :
  has debug w cap (sum_list_with (der_weight ∘ untrusted) l + n) m c ->
  exists c', TrustStore_add (untrusted <$> l) c = Done tt c' /\
    has debug w cap n (foldl apply_op m (OpInsert ∘ untrusted <$> l)) c'.
Proof.
  revert m c. induction l as [|i l IH]; intros m c Hh; simpl; [by exists c|]. simpl in Hh.
  rewrite <- Nat.add_assoc in Hh. destruct (has_insert debug w cap _ m c _ Hh) as (c1 & E1 & Hc1).
  destruct (IH _ c1 Hc1) as (c2 & E2 & Hc2). exists c2. by rewrite (prog_bind_done _ _ _ _ _ E1).
Qed.

(** Filling a new cache. *)
Lemma filled l : light l -> exists c, TrustStore_add (untrusted <$> l) (MemoryCertCache_new debug w (1024 * 1024)) = Done tt c /\
  serves (MemoryCertCache M) c (contents l).
Proof.
  unfold light. intros L. destruct (add_has (1024 * 1024) l 0 ∅ (MemoryCertCache_new debug w (1024 * 1024))) as (c & E & Hc).
  { apply has_new; [done|]. lia. }
  exists c. split; [exact E|]. by exists debug, w, (1024 * 1024)%N, 0.
Qed.

Lemma for_each_add {C} `{!CertCache C} l :
  for_each (fun identity => cache_insert (mk_untrusted (id_cert identity))) l = TrustStore_add (untrusted <$> l).
Proof. induction l as [|i l IH]; [done|]. simpl. by rewrite IH. Qed.

(** The identifiers of the two roots and of the certificates are distinct. *)
Definition distinct (ca ca2 : TestCA) (l : list Identity) : Prop :=
  NoDup (ski <$> ca_root ca :: ca_root ca2 :: l).

Lemma distinct_list ca ca2 l : distinct ca ca2 l -> NoDup (ski <$> l).
Proof. unfold distinct. simpl. by intros [_ [_ N]%NoDup_cons]%NoDup_cons. Qed.

Lemma distinct_not_root ca ca2 l i shuffled : distinct ca ca2 l -> i ∈ l ->
  ~ is_root (arbitrary_ordered_root_set ca ca2 shuffled) (ski i).
Proof.
  unfold distinct. simpl. intros [N1 [N2 _]%NoDup_cons]%NoDup_cons Hi Ex.
  apply (list_elem_of_fmap_2 ski) in Hi.
  assert (E : ski (ca_root ca) = ski i \/ ski (ca_root ca2) = ski i).
  { unfold is_root, arbitrary_ordered_root_set in Ex.
    destruct shuffled; simpl in Ex; rewrite !Exists_cons, Exists_nil in Ex; unfold ski; simpl in *; tauto. }
  destruct E as [E|E]; [apply N1; rewrite E; by right | apply N2; by rewrite E].
Qed.

Lemma distinct_anchored ca ca2 l shuffled : distinct ca ca2 l ->
  anchored (arbitrary_ordered_root_set ca ca2 shuffled) (ca_root ca).
Proof.
  unfold distinct. simpl. intros [N _]%NoDup_cons. unfold anchored, RootSet_find, arbitrary_ordered_root_set.
  assert (E : forall i, Dangerous_eq (as_dangerous_comparable (cert_cert_id (id_cert i)))
    (as_dangerous_comparable (mk_issuer_cert_id (cert_cert_id (id_cert (ca_root ca))))) = bool_decide (ski i = ski (ca_root ca))) by done.
  destruct shuffled; simpl; rewrite !E.
  - rewrite bool_decide_eq_false_2; [by rewrite bool_decide_eq_true_2|]. intros E'. apply N. rewrite <- E'. left.
  - by rewrite bool_decide_eq_true_2.
Qed.

Lemma distinct_held ca ca2 l shuffled l' : distinct ca ca2 l' -> l ⊆ l' ->
  Forall (held (arbitrary_ordered_root_set ca ca2 shuffled) (contents l')) l.
Proof.
  intros D S. apply Forall_forall. intros i Hi. apply S in Hi. split.
  - apply contents_lookup; [by eapply distinct_list | done].
  - by eapply distinct_not_root.
Qed.

Lemma distinct_trusting ca ca2 chain shuffled l : distinct ca ca2 l -> tc_root chain = ca_root ca ->
  tc_intermediates chain ⊆ l -> trusting chain (arbitrary_ordered_root_set ca ca2 shuffled) (contents l).
Proof. intros D E S. split; [by apply distinct_held | rewrite E; by eapply distinct_anchored]. Qed.

Lemma signature_made {S} (s : S) : exists v, test_signature s = Done v s.
Proof. by eexists. Qed.

(** Validation of a leaf that is cached, by what the chain builder answers. *)
Lemma validate_cached leaf setup a rs (c : MemoryCertCache M) m signature payload :
  answers leaf setup a -> setup rs m -> serves (MemoryCertCache M) c m -> m !! ski leaf = Some (untrusted leaf) ->
  exists v c', a v /\ TrustStore_validate rs (cert_cert_id (id_cert leaf)) signature payload c =
    Done (match v with Ok _ => Ok tt | Err e => Err (ChainBuild e) end) c'.
Proof.
  intros A Hs Sv Hm. destruct (serves_get _ c m (cert_cert_id (id_cert leaf)) Sv) as (c1 & G & Sv1).
  change (id_bytes (cert_cert_id (id_cert leaf))) with (ski leaf) in G. rewrite Hm in G.
  destruct (A _ _ _ rs c1 m Sv1 Hs) as (v & c2 & E & Hv). exists v, c2. split; [done|].
  unfold TrustStore_validate. rewrite (prog_bind_done _ _ _ _ _ G). by rewrite (prog_bind_done _ _ _ _ _ E).
Qed.

End ChainFacts.

(** ** Properties of chains and of the store *)

Section ChainProperties.
Context `{RcgenLaws} `{AwsDigestLaws} `{X509Lib} {R : Type} `{!AwsEcdsa R} `{!AwsEcdsaLaws R}
  `{!RcgenIssue R} `{!RcgenIssueLaws}.
Context {M : Type} `{!Moka M} `{!MokaRoomy M} (debug : bool) (w : Z) (Hw : (32 <= w)%Z).
Context (fips : bool) (Keys : keys_work fips).

(** What is known of a chain as issued, of one that misses an intermediate, and
    of one that is accepted spuriously. *)
Lemma issued_valid ca n r : identity_ok (ca_root ca) -> n < 255 ->
  exists chain r', TestChain_build fips ca (N.of_nat n) ValidChain r = Done chain r' /\ issued_chain ca n chain.
Proof.
  intros Hca Hn. destruct (issues_as_asked_gentle ValidChain ltac:(by left)) as [G K].
  apply (chain_yields fips Keys ca n ValidChain (issued_chain ca n) G Hca Hn).
  intros c Ic. eapply yields_weaken; [by eapply K|]. by intros ? ->.
Qed.

Definition missing_setup (chain : TestChain) (dropped : Identity) (rs : RootSet)
  (cached : gmap (list u8) UntrustedCert) : Prop :=
  caching chain rs cached /\ cached !! ski dropped = None /\ ~ is_root rs (ski dropped).

Definition names_missing (dropped : Identity) (v : result UntrustedChain ChainBuildError) : Prop :=
  exists id, v = Err (TrustStore.MissingIntermediate id) /\ id_bytes id = ski dropped.

Lemma issued_missing ca n seed r : identity_ok (ca_root ca) -> 1 <= n <= 6 ->
  exists chain r' dropped,
    TestChain_build fips ca (N.of_nat n) (TestIssuer.MissingIntermediate seed) r = Done chain r' /\
    was_dropped ca n seed chain dropped /\
    answers (tc_leaf chain) (missing_setup chain dropped) (names_missing dropped).
Proof.
  intros Hca Hn.
  destruct (chain_yields fips Keys ca n (TestIssuer.MissingIntermediate seed) _
    ltac:(split; [intros index total; apply gentle_keep_i | apply gentle_keep_l]) Hca ltac:(lia)
    (fun c Ic => missing_yields ca n c seed Ic Hn) r) as (chain & r' & E & d & D & A).
  by exists chain, r', d.
Qed.

Lemma distinct_missing ca ca2 chain dropped shuffled l : distinct ca ca2 (dropped :: l) ->
  tc_intermediates chain ⊆ l ->
  missing_setup chain dropped (arbitrary_ordered_root_set ca ca2 shuffled) (contents l).
Proof.
  intros D S. assert (D' : distinct ca ca2 l).
  { unfold distinct in *. apply (sublist_NoDup _ _ D), fmap_sublist. by repeat constructor. }
  split_and!; [by apply distinct_held | | by eapply distinct_not_root; [|left]].
  apply contents_absent. apply distinct_list in D. by apply NoDup_cons in D as [N _].
Qed.

Lemma validate_test_passes chain ca ca2 n shuffled : issued_chain ca n chain -> n <= 6 ->
  let l := (tc_intermediates chain ++ [tc_leaf chain])%list in
  distinct ca ca2 l -> light l ->
  exists c, test_prop_validate (M:=M) debug w (arbitrary_ordered_root_set ca ca2 shuffled) chain = Done tt c.
Proof.
  intros (Er & _ & Ln & Lk) Hn l D L. destruct (filled debug w Hw l L) as (c & E & Sv).
  destruct (signature_made c) as [sg Sg].
  destruct (validate_cached (tc_leaf chain) _ _ (arbitrary_ordered_root_set ca ca2 shuffled) c (contents l) sg []
    (linked_answers chain Lk)) as (v & c' & Hv & V); [| done | |].
  - apply (distinct_trusting ca); [done | done|]. unfold l. by apply list_subseteq_app_l.
  - apply contents_lookup; [by eapply distinct_list|]. unfold l. apply elem_of_app. right. left.
  - exists c'. unfold test_prop_validate. cbv zeta.
    rewrite (prog_bind_done _ _ _ _ _ E), (prog_bind_done _ _ _ _ _ Sg).
    erewrite prog_bind_done by exact V. unfold found in Hv. rewrite decide_True in Hv by lia. by subst.
Qed.

(** The three ways in which the store's tests find out what is missing. *)
Lemma missing_leaf_passes chain ca ca2 dropped shuffled : 
  distinct ca ca2 (tc_intermediates chain ++ [tc_leaf chain])%list -> light (tc_intermediates chain) ->
  exists c, test_prop_missing_local_certificate (M:=M) debug w (arbitrary_ordered_root_set ca ca2 shuffled) chain
    dropped true = Done tt c.
Proof.
  intros D L. destruct (filled debug w Hw _ L) as (c & E & Sv). destruct (signature_made c) as [sg Sg].
  destruct (serves_get _ c _ (cert_cert_id (id_cert (tc_leaf chain))) Sv) as (c1 & G & _).
  assert (Ab : contents (tc_intermediates chain) !! ski (tc_leaf chain) = None).
  { apply contents_absent. apply distinct_list in D. rewrite fmap_app in D.
    apply NoDup_app in D as (_ & D & _). intros Hin. apply (D _ Hin). left. }
  change (id_bytes (cert_cert_id (id_cert (tc_leaf chain)))) with (ski (tc_leaf chain)) in G. rewrite Ab in G.
  exists c1. unfold test_prop_missing_local_certificate. cbv zeta. rewrite app_nil_r.
  rewrite (prog_bind_done _ _ _ _ _ E), (prog_bind_done _ _ _ _ _ Sg). unfold TrustStore_validate.
  erewrite prog_bind_done; [|erewrite prog_bind_done by exact G; reflexivity].
  unfold mbind, prog_bind, mret, prog_ret. cbv beta iota.
  by rewrite (proj2 (as_dangerous_eq_true _ _)).
Qed.

Lemma missing_local_passes chain ca ca2 dropped shuffled :
  answers (tc_leaf chain) (missing_setup chain dropped) (names_missing dropped) ->
  let l := (tc_intermediates chain ++ [tc_leaf chain])%list in
  distinct ca ca2 (dropped :: l) -> light l ->
  exists c, test_prop_missing_local_certificate (M:=M) debug w (arbitrary_ordered_root_set ca ca2 shuffled) chain
    (Some dropped) false = Done tt c.
Proof.
  intros A l D L. destruct (filled debug w Hw l L) as (c & E & Sv). destruct (signature_made c) as [sg Sg].
  destruct (validate_cached (tc_leaf chain) _ _ (arbitrary_ordered_root_set ca ca2 shuffled) c (contents l) sg [] A)
    as (v & c' & (id & -> & Eid) & V); [| done | |].
  - apply distinct_missing; [done|]. unfold l. by apply list_subseteq_app_l.
  - apply distinct_list, NoDup_cons in D as [_ D]. apply contents_lookup; [done|]. unfold l. apply elem_of_app. right. left.
  - exists c'. unfold test_prop_missing_local_certificate. cbv zeta.
    rewrite (prog_bind_done _ _ _ _ _ E), (prog_bind_done _ _ _ _ _ Sg).
    erewrite prog_bind_done by exact V. unfold mbind, prog_bind, mret, prog_ret. cbv beta iota.
    rewrite (proj2 (as_dangerous_eq_true _ _)); [done | by symmetry].
Qed.

(** *** The tests of chain building *)

(** A new cache filled with [l], and then a chain built for a leaf. *)
Lemma built_from leaf setup a rs l : answers leaf setup a -> setup rs (contents l) -> light l ->
  exists v c0 c, a v /\
    TrustStore_add (untrusted <$> l) (MemoryCertCache_new (M:=M) debug w (1024 * 1024)) = Done tt c0 /\
    build_unverified_chain_for rs (untrusted leaf) c0 = Done v c.
Proof.
  intros A Hs L. destruct (filled debug w Hw l L) as (c0 & E & Sv).
  destruct (A _ _ _ rs c0 _ Sv Hs) as (v & c & Eb & Hv). by exists v, c0, c.
Qed.

Lemma add_snoc l i (c : MemoryCertCache M) c' :
  TrustStore_add (untrusted <$> (l ++ [i])%list) c = Done tt c' ->
  exists c1, TrustStore_add (untrusted <$> l) c = Done tt c1 /\ cache_insert (untrusted i) c1 = Done tt c'.
Proof.
  revert c. induction l as [|j l IH]; intros c; simpl.
  - intros ([] & c1 & E1 & [= ->])%prog_bind_inv. by exists c.
  - intros ([] & c1 & E1 & E2)%prog_bind_inv. destruct (IH c1 E2) as (c2 & E3 & E4). exists c2.
    by rewrite (prog_bind_done _ _ _ _ _ E1).
Qed.

Lemma same_fingerprints_refl l : same_fingerprints (untrusted <$> l) l = true.
Proof.
  induction l as [|i l IH]; [done|]. apply andb_true_intro. split; [by apply Fingerprint_eq_true | exact IH].
Qed.

Lemma valid_building_passes chain ca ca2 n extra shuffled : issued_chain ca n chain -> n <= 6 ->
  let l := (tc_intermediates chain ++ [extra])%list in
  distinct ca ca2 l -> light l ->
  exists c, prop_valid_chain_building (M:=M) debug w (arbitrary_ordered_root_set ca ca2 shuffled) chain extra = Done tt c.
Proof.
  intros (Er & _ & Ln & Lk) Hn l D L.
  destruct (built_from (tc_leaf chain) _ _ (arbitrary_ordered_root_set ca ca2 shuffled) l (linked_answers chain Lk))
    as (v & c0 & c & Hv & E & B); [|done|].
  { apply (distinct_trusting ca); [done | done|]. unfold l. by apply list_subseteq_app_l. }
  apply add_snoc in E as (c1 & E1 & E2). exists c. unfold prop_valid_chain_building. rewrite for_each_add.
  rewrite (prog_bind_done _ _ _ _ _ E1). erewrite prog_bind_done by exact E2. erewrite prog_bind_done by exact B.
  unfold found in Hv. rewrite decide_True in Hv by lia. subst v. unfold UntrustedChain_as_slice. simpl chain_certs.
  rewrite length_rev, length_fmap, Nat.eqb_refl.
  assert (F : rev (untrusted <$> tc_intermediates chain) = untrusted <$> rev (tc_intermediates chain))
    by (symmetry; apply map_rev).
  by rewrite F, same_fingerprints_refl.
Qed.

Lemma missing_intermediate_passes chain ca ca2 dropped shuffled :
  answers (tc_leaf chain) (missing_setup chain dropped) (names_missing dropped) ->
  distinct ca ca2 (dropped :: tc_intermediates chain) -> light (tc_intermediates chain) ->
  exists c, prop_missing_intermediate (M:=M) debug w (arbitrary_ordered_root_set ca ca2 shuffled) chain dropped = Done tt c.
Proof.
  intros A D L.
  destruct (built_from (tc_leaf chain) _ _ (arbitrary_ordered_root_set ca ca2 shuffled) (tc_intermediates chain) A)
    as (v & c0 & c & (id & -> & Eid) & E & B); [by apply distinct_missing | done|].
  exists c. unfold prop_missing_intermediate. rewrite for_each_add, (prog_bind_done _ _ _ _ _ E).
  erewrite prog_bind_done by exact B. cbv beta iota. by rewrite (proj2 (as_dangerous_eq_true _ _)).
Qed.

Lemma spurious_passes chain ca ca2 n shuffled : walkable ca n chain -> n <= 6 ->
  distinct ca ca2 (tc_intermediates chain) -> light (tc_intermediates chain) ->
  exists c, prop_spuriously_accepted_invalid_chains (M:=M) debug w (arbitrary_ordered_root_set ca ca2 shuffled) chain = Done tt c.
Proof.
  intros (Er & Lk & Ln) Hn D L.
  destruct (built_from (tc_leaf chain) _ _ (arbitrary_ordered_root_set ca ca2 shuffled) (tc_intermediates chain)
    (linked_answers chain Lk)) as (v & c0 & c & Hv & E & B); [by apply (distinct_trusting ca) | done|].
  exists c. unfold prop_spuriously_accepted_invalid_chains. rewrite for_each_add, (prog_bind_done _ _ _ _ _ E).
  erewrite prog_bind_done by exact B. unfold found in Hv. rewrite decide_True in Hv by lia. by subst v.
Qed.

(** C17. The tests of the trust store pass, on the in-memory cache and for
    whatever chain is drawn: for every number of intermediates up to five, seed
    and order of the two roots, the issuer makes the chain, and if the
    identifiers involved are distinct and the certificates fit the cache's
    mebibyte, a stored chain validates, and one with a certificate missing is
    refused with exactly the missing certificate's identifier, the leaf's
    whenever the leaf is left out as well. *)
Theorem store_tests_pass ca ca2 n seed rnd shuffled r (Hca : identity_ok (ca_root ca)) (Hn : n <= 5) :
  (exists chain r', TestChain_build fips ca (N.of_nat n) ValidChain r = Done chain r' /\
    (distinct ca ca2 (tc_intermediates chain ++ [tc_leaf chain])%list ->
     light (tc_intermediates chain ++ [tc_leaf chain])%list ->
     exists c, test_prop_validate (M:=M) debug w (arbitrary_ordered_root_set ca ca2 shuffled) chain = Done tt c)) /\
  (1 <= n -> exists chain r' dropped,
    TestChain_build fips ca (N.of_nat n) (TestIssuer.MissingIntermediate seed) r = Done chain r' /\
    was_dropped ca n seed chain dropped /\
    (distinct ca ca2 (dropped :: tc_intermediates chain ++ [tc_leaf chain])%list ->
     light (tc_intermediates chain ++ [tc_leaf chain])%list ->
     exists c, prop_missing_local_certificate (M:=M) debug w (arbitrary_ordered_root_set ca ca2 shuffled) rnd chain
       (Some dropped) = Done tt c)).
Proof.
  split; [|intros Hn'].
  - destruct (issued_valid ca n r Hca ltac:(lia)) as (chain & r' & E & Ic). exists chain, r'. split; [done|].
    apply (validate_test_passes chain ca ca2 n shuffled Ic). lia.
  - destruct (issued_missing ca n seed r Hca ltac:(lia)) as (chain & r' & dropped & E & Wd & A).
    exists chain, r', dropped. split_and!; [done | done|]. intros D L. unfold prop_missing_local_certificate.
    destruct (N.eqb _ _); [|by apply missing_local_passes]. apply missing_leaf_passes.
    + unfold distinct in *. apply (sublist_NoDup _ _ D), fmap_sublist. by repeat constructor.
    + unfold light in *. rewrite sum_list_with_app in L. lia.
Qed.

(** The tests of chain building pass, on the in-memory cache: a root chains to
    itself; for every chain drawn and both orders of the roots, the chain that is
    built is the one issued, without the further intermediate that is cached; a
    missing intermediate is named; and every one of the invalid chains is
    accepted - given distinct identifiers and certificates that fit the cache. *)
Lemma building_tests_pass ca ca2 n seed m extra shuffled r (Hca : identity_ok (ca_root ca))
  (Hself : aki (ca_root ca) = ski (ca_root ca)) (Hm : m ∈ invalid_chain_spuriously_built fips seed) (Hn : n < 5) :
  let roots := arbitrary_ordered_root_set ca ca2 shuffled in
  (exists c, test_root_chain_root (M:=M) debug w ca = Done tt c) /\
  (exists chain r', TestChain_build fips ca (N.of_nat n) ValidChain r = Done chain r' /\
    (distinct ca ca2 (tc_intermediates chain ++ [extra])%list -> light (tc_intermediates chain ++ [extra])%list ->
     exists c, prop_valid_chain_building (M:=M) debug w roots chain extra = Done tt c)) /\
  (1 <= n -> exists chain r' dropped,
    TestChain_build fips ca (N.of_nat n) (TestIssuer.MissingIntermediate seed) r = Done chain r' /\
    was_dropped ca n seed chain dropped /\
    (distinct ca ca2 (dropped :: tc_intermediates chain) -> light (tc_intermediates chain) ->
     exists c, prop_missing_intermediate (M:=M) debug w roots chain dropped = Done tt c)) /\
  (2 <= n -> exists chain r', TestChain_build fips ca (N.of_nat n) m r = Done chain r' /\
    (distinct ca ca2 (tc_intermediates chain) -> light (tc_intermediates chain) ->
     exists c, prop_spuriously_accepted_invalid_chains (M:=M) debug w roots chain = Done tt c)).
Proof.
  intros roots. split_and!.
  - eexists. unfold test_root_chain_root, build_unverified_chain_for. simpl build_loop.
    rewrite (find_by_bytes _ _ (mk_issuer_cert_id (cert_cert_id (id_cert (ca_root ca)))) Hself).
    unfold RootSet_find. simpl. by rewrite (proj2 (as_dangerous_eq_true _ _)).
  - destruct (issued_valid ca n r Hca ltac:(lia)) as (chain & r' & E & Ic). exists chain, r'. split; [done|].
    apply (valid_building_passes chain ca ca2 n extra shuffled Ic). lia.
  - intros Hn'. destruct (issued_missing ca n seed r Hca ltac:(lia)) as (chain & r' & dropped & E & Wd & A).
    exists chain, r', dropped. split_and!; [done | done|]. by apply missing_intermediate_passes.
  - intros Hn'. destruct (chain_yields fips Keys ca n m (walkable ca n) (gentle_spurious fips seed m Hm) Hca ltac:(lia)
      (fun c Ic => spurious_walkable fips Keys ca n c seed m Hm Ic ltac:(lia)) r) as (chain & r' & E & W).
    exists chain, r'. split; [done|]. apply (spurious_passes chain ca ca2 n shuffled W). lia.
Qed.

End ChainProperties.

(** ** Concrete runs *)

Section GmapRoomy.
Context `{X509Lib}.

(** The cache that never evicts has room. *)
#[export] Instance gmap_roomy : MokaRoomy (gmap (list u8) UntrustedCert).
Proof.
  refine {|
    moka_iter m := (fun e => (Dangerous_from (mk_cert_id e.1 CachedStringRepr_default), e.2)) <$> map_to_list m;
    roomy _ _ c m := c = m
  |}; try done.
  - by intros cap weigh c m k v ->.
  - intros cap weigh c m k ->. by exists m.
  - by intros cap weigh c m k ->.
  - intros cap weigh c m ->. rewrite <- list_fmap_compose.
    rewrite <- (list_fmap_id (map_to_list m)) at 2. by rewrite (list_fmap_ext _ id) by (by intros i [k v] _).
Defined.

End GmapRoomy.

(** Two certificates, looked up, replaced and removed. *)
Definition toy_ops : list (@cache_op toy_lib) :=
  [OpInsert (toy_untrusted x01 x02); OpGet (toy_id x01); OpInsert (toy_untrusted x01 x03);
   OpGet (toy_id x01); OpGet (toy_id x07); OpInsert (toy_untrusted x04 x03); OpRemove (toy_id x01);
   OpRemove (toy_id x01)].

Lemma cache_matches_map_witness :
  size (history toy_ops) = 1 /\
  exists o, @prop_ops toy_lib _ _ gmap_roomy true 64 toy_ops = Done tt o /\
    ow_control o = kmap control_key (history toy_ops).
Proof.
  split; [vm_compute; reflexivity|]. apply (cache_matches_map true 64 toy_ops).
  - lia.
  - repeat constructor; try (vm_compute; lia); done.
  - vm_compute. discriminate.
Defined.

#[local] Existing Instances toy_keys toy_keys_laws toy_rcgen_types toy_issuing_lib toy_digest toy_digest_laws
  toy_issuer toy_issuer_laws.

(** Two authorities, and what is checked of a chain of the first. *)
Definition toy_cas : option (TestCA (R:=N) * TestCA (R:=N) * N) :=
  match (ca ← TestCA_new true; ca2 ← TestCA_new true; mret (ca, ca2)) 0%N with
  | Done (ca, ca2) r => Some (ca, ca2, r)
  | _ => None
  end.

Abbreviation toy_store := (gmap (list u8) UntrustedCert).

(** The condition on the drawn chain, decided. *)
Definition toy_fit (ca ca2 : TestCA (R:=N)) (l : list (Identity (R:=N))) : bool :=
  bool_decide (distinct ca ca2 l) && bool_decide (light l).

(** The certificate that the seed drops from a chain of three, with the leaf
    stored or not. *)
Definition toy_missing (rnd : N) : bool :=
  match toy_cas with
  | Some (ca, ca2, r) =>
      match (c ← TestChain_build true ca 3 ValidChain; MissingIntermediate_drop 4 c) r with
      | Done (chain, dropped) _ =>
          completed (prop_missing_local_certificate (M:=toy_store) true 64 (arbitrary_ordered_root_set ca ca2 true)
            rnd chain (Some dropped)) &&
          completed (prop_missing_intermediate (M:=toy_store) true 64 (arbitrary_ordered_root_set ca ca2 true)
            chain dropped)
      | _ => false
      end
  | None => false
  end.

Lemma toy_cas_ok : exists ca ca2 r, toy_cas = Some (ca, ca2, r) /\ identity_ok (ca_root ca) /\
  aki (ca_root ca) = ski (ca_root ca).
Proof.
  destruct (test_ca_yields true toy_keys_work 0%N) as (ca & r & E & I & A).
  destruct (test_ca_yields true toy_keys_work r) as (ca2 & r' & E' & _).
  exists ca, ca2, r'. split; [|done]. unfold toy_cas. rewrite (prog_bind_done _ _ _ _ _ E).
  by rewrite (prog_bind_done _ _ _ _ _ E').
Qed.

(** Three intermediates: the chain validates; what is missing is named. *)
Lemma store_tests_pass_witness :
  toy_missing 7 = true /\ toy_missing 30 = true /\
  exists ca ca2 r chain c, toy_cas = Some (ca, ca2, r) /\
    test_prop_validate (M:=toy_store) true 64 (arbitrary_ordered_root_set ca ca2 true) chain = Done tt c.
Proof.
  split; [vm_compute; reflexivity|]. split; [vm_compute; reflexivity|].
  destruct toy_cas_ok as (ca & ca2 & r & E & I & _).
  destruct (store_tests_pass (M:=toy_store) true 64 ltac:(lia) true toy_keys_work ca ca2 3 0 0 true r I ltac:(lia))
    as [(chain & r' & Eb & T) _].
  assert (F : match toy_cas with
              | Some (ca, ca2, r) => match TestChain_build true ca 3 ValidChain r with
                  | Done chain _ => toy_fit ca ca2 (tc_intermediates chain ++ [tc_leaf chain])
                  | _ => false
                  end
              | None => false
              end = true) by (vm_compute; reflexivity).
  rewrite E in F. change (N.of_nat 3) with 3%N in Eb. rewrite Eb in F. apply andb_prop in F as [Fd Fl].
  destruct (T (bool_decide_eq_true_1 _ Fd) (bool_decide_eq_true_1 _ Fl)) as [c Ec]. by exists ca, ca2, r, chain, c.
Defined.

(** The same chain is built, beside a further intermediate. *)
Lemma building_tests_pass_witness :
  exists ca ca2 r chain extra c, toy_cas = Some (ca, ca2, r) /\
    prop_valid_chain_building (M:=toy_store) true 64 (arbitrary_ordered_root_set ca ca2 false) chain extra = Done tt c.
Proof.
  destruct toy_cas_ok as (ca & ca2 & r & E & I & A).
  assert (F : match toy_cas with
              | Some (ca, ca2, r) => match TestChain_build true ca 3 ValidChain r with
                  | Done chain r' => match TestChain_build true ca 0 ValidChain r' with
                      | Done other _ => toy_fit ca ca2 (tc_intermediates chain ++ [tc_leaf other])
                      | _ => false
                      end
                  | _ => false
                  end
              | None => false
              end = true) by (vm_compute; reflexivity).
  rewrite E in F. destruct (TestChain_build true ca 3 ValidChain r) as [chain r'| |] eqn:Ec; [|done..].
  destruct (TestChain_build true ca 0 ValidChain r') as [other r''| |] eqn:Eo; [|done..].
  destruct (building_tests_pass (M:=toy_store) true 64 ltac:(lia) true toy_keys_work ca ca2 3 7 (ForgedLeaf true)
    (tc_leaf other) false r I A (list_elem_of_here _ _) ltac:(lia)) as (_ & (chain' & r3 & Eb & T) & _).
  change (N.of_nat 3) with 3%N in Eb. rewrite Ec in Eb. simplify_eq. apply andb_prop in F as [Fd Fl].
  destruct (T (bool_decide_eq_true_1 _ Fd) (bool_decide_eq_true_1 _ Fl)) as [c Et].
  by exists ca, ca2, r, chain', (tc_leaf other), c.
Defined.

(** [test_cert_cache_bounds], with [usize] of 32 and of 64 bits. *)
Lemma cert_cache_bounds_pass debug :
  test_cert_cache_bounds debug 32 = Some true /\ test_cert_cache_bounds debug 64 = Some true.
Proof. destruct debug; vm_compute; done. Qed.
