(* ===== verification/Schedules.v ===== *)
(** * Fair schedules

    Termination of threads that take steps in the order of a schedule, by a
    finite abstraction.  The states reachable in the abstraction are computed
    ([reachable]) and checked ([progresses]): a step that does anything raises a
    rank, and until the run has ended some thread can do something.  So a bounded
    number of rounds, in each of which every thread takes a step, reaches the end
    ([fair_ends]); and threads whose steps are those of the abstraction do the
    same ([fair_simulated]). *)

From stdpp Require Import base option list.
From Stdlib Require Import Lia.

Section Fair.
Context {T : Type}.

(** [k] rounds, in each of which every thread takes a step, in any order and any
    number of times. *)
Definition fair (k : nat) (schedule : list T) : Prop := exists rounds,
  schedule = concat rounds /\ length rounds = k /\ Forall (fun r => forall t, t ∈ r) rounds.

Lemma fair_replicate k (round : list T) : (forall t, t ∈ round) -> fair k (concat (replicate k round)).
Proof. intros All. exists (replicate k round). rewrite length_replicate. split_and!; by auto using Forall_replicate. Qed.

End Fair.

Section Graph.
Context {A T : Type} `{EqDecision A} (threads : list T) (all : forall t, t ∈ threads).
Context (next_at : A -> T -> A) (start : A) (rank : A -> nat) (bound : nat) (ended : A -> bool).

(** All states reached from [todo], exploring at most [n]. *)
Fixpoint explore (n : nat) (seen todo : list A) : list A :=
  match n, todo with
  | S n, a :: todo =>
      let new := List.filter (fun b => negb (bool_decide (b ∈ seen)))
        (List.nodup EqDecision0 (next_at a <$> threads)) in
      explore n (seen ++ new) (todo ++ new)
  | _, _ => seen
  end.

Definition reachable (n : nat) : list A := explore n [start] [start].

(** A step stays among the states and, if it does anything, raises the rank; as
    long as the run has not ended, some thread can do something. *)
Definition progresses (states : list A) : bool :=
  bool_decide (start ∈ states) &&
  forallb (fun a =>
    (rank a <? bound) &&
    forallb (fun t => let b := next_at a t in
      bool_decide (b ∈ states) && (bool_decide (b = a) || (rank a <? rank b))
      && implb (ended a) (ended b)) threads &&
    (ended a || existsb (fun t => negb (bool_decide (next_at a t = a))) threads)) states.

Context (states : list A) (P : progresses states = true).

Lemma progresses_start : start ∈ states.
Proof. pose proof P as S. apply andb_true_iff in S as [S _]. by apply bool_decide_eq_true in S. Qed.

Lemma progresses_at a : a ∈ states -> rank a < bound /\
  (forall t, next_at a t ∈ states /\ (next_at a t = a \/ rank a < rank (next_at a t)) /\
    (ended a = true -> ended (next_at a t) = true)) /\
  (ended a = true \/ exists t, next_at a t <> a).
Proof.
  intros Ha. pose proof P as F. apply andb_true_iff in F as [_ F]. rewrite forallb_forall in F.
  specialize (F a (proj1 (list_elem_of_In _ _) Ha)). rewrite !andb_true_iff in F.
  destruct F as [[L S] E]. rewrite forallb_forall in S. split; [by apply Nat.ltb_lt|]. split.
  - intros t. specialize (S t (proj1 (list_elem_of_In _ _) (all t))). simpl in S.
    rewrite !andb_true_iff, orb_true_iff, !bool_decide_eq_true, Nat.ltb_lt in S.
    destruct S as [[S1 S2] S3]. split_and!; [done | tauto|]. intros E'. by rewrite E' in S3.
  - apply orb_true_iff in E as [E|E]; [by left|]. right. apply existsb_exists in E as (u & _ & N).
    exists u. apply negb_true_iff, bool_decide_eq_false in N. done.
Qed.

Abbreviation runs_to a l := (foldl next_at a l).

Lemma run_states l a : a ∈ states ->
  runs_to a l ∈ states /\ rank a <= rank (runs_to a l) /\ (ended a = true -> ended (runs_to a l) = true).
Proof.
  revert a. induction l as [|t l IH]; intros a Ha; [done|]. simpl.
  destruct (progresses_at a Ha) as (_ & S & _). destruct (S t) as (Hb & Hr & He). destruct (IH _ Hb) as (Hc & Hr' & He').
  split_and!; [done | destruct Hr as [E|]; [rewrite E in *|]; lia | auto].
Qed.

(** A round in which every thread takes a step gets further. *)
Lemma run_round r a : a ∈ states -> (forall t, t ∈ r) ->
  ended (runs_to a r) = true \/ rank a < rank (runs_to a r).
Proof.
  intros Ha All. destruct (progresses_at a Ha) as (_ & S & [E|[t N]]).
  { left. by apply run_states. }
  right. specialize (All t). revert All. induction r as [|u r IH]; intros All; [by apply elem_of_nil in All|].
  simpl. destruct (S u) as (Hb & [Hr|Hr] & _).
  - rewrite Hr. apply IH. apply elem_of_cons in All as [->|]; done.
  - pose proof (run_states r _ Hb). lia.
Qed.

Lemma run_rounds rounds a : a ∈ states -> Forall (fun r => forall t : T, t ∈ r) rounds ->
  ended (runs_to a (concat rounds)) = true \/
  rank a + length rounds <= rank (runs_to a (concat rounds)).
Proof.
  intros Ha F. revert a Ha. induction F as [|r rounds All F IH]; intros a Ha; [right; simpl; lia|].
  simpl. rewrite foldl_app. destruct (run_states r a Ha) as (Hb & _ & _).
  destruct (run_round r a Ha All) as [E|L].
  - left. by apply run_states.
  - destruct (IH _ Hb) as [E|L']; [by left | right; lia].
Qed.

Lemma fair_ends schedule : fair bound schedule -> ended (runs_to start schedule) = true.
Proof.
  intros (rounds & -> & L & F). destruct (run_rounds rounds _ progresses_start F) as [E|G]; [done|].
  destruct (run_states (concat rounds) _ progresses_start) as (Hb & _).
  destruct (progresses_at _ Hb) as [B _]. lia.
Qed.

(** *** Threads that take the steps of the abstraction *)

Context {Z : Type} (step : Z -> T -> Z) (state_of : A -> Z).
Context (Sim : forall a t, a ∈ states -> step (state_of a) t = state_of (next_at a t)).

Lemma run_simulated schedule a : a ∈ states ->
  foldl step (state_of a) schedule = state_of (runs_to a schedule).
Proof.
  revert a. induction schedule as [|t schedule IH]; intros a Ha; [done|]. simpl.
  rewrite (Sim a t Ha). apply IH. by apply progresses_at.
Qed.

Lemma fair_simulated schedule : fair bound schedule -> exists a, a ∈ states /\
  foldl step (state_of start) schedule = state_of a /\ ended a = true.
Proof.
  intros F. exists (runs_to start schedule). split_and!.
  - apply run_states, progresses_start.
  - apply run_simulated, progresses_start.
  - by apply fair_ends.
Qed.

End Graph.

(** A step at known positions, by computation. *)
Tactic Notation "plays" constr(states) "by" tactic3(solve) :=
  match goal with
  | |- forall a t, a ∈ states -> _ =>
      let Ha := fresh "Ha" in
      intros a t Ha; match states with ?l => unfold l in Ha end;
      repeat (apply elem_of_cons in Ha as [->|Ha];
        [destruct t; match goal with
           | |- _ = _ ?n => let n' := eval vm_compute in n in
               replace n with n' by (vm_compute; reflexivity); solve
           end|]);
      by apply elem_of_nil in Ha
  end.
