(* ===== verification/ClientTests.v ===== *)
(** * The tests of the dispatch interconnect and of the shutdown signal

    The unit tests of [rc-x509-client/src/dispatch.rs] and
    [rc-x509-client/src/shutdown_signal.rs].  The former are programs over the two
    queues of [Dispatch], for any channels with the documented behaviour, and end
    with no assertion failed; so do the two property tests on error codes, for
    every pair of errors and every code.  In the latter two workers wait for the
    signal while the test goes on: whatever the schedule no assertion fails, and
    a fair schedule completes the test ([Schedules]). *)

From stdpp Require Import base option list strings.
From Stdlib Require Import NArith ZArith Lia.
From S2P Require Import Prelude Codec Mpsc Dispatch Ctx Symbolic Schedules.

(** ** [dispatch.rs] *)

Section DispatchTests.
Context `{ProtoTypes} `{Mpsc}.

(** The number of the variant. *)
Definition discriminant (e : DispatchError) : nat :=
  match e with
  | UnknownPayload => 0
  | NoDispatchHandler => 1
  | HandlerQueueFull => 2
  | DispatchRequestQueueFull => 3
  | DispatchClosed => 4
  | ReplyDeserialisation _ => 5
  | UnknownHostDispatchError => 6
  | HandlerExecTimeout => 7
  end.

(** [matches!(got, Err(..))], of the variant of [e]. *)
Definition is_error (e : DispatchError) {A} (got : result A DispatchError) : bool :=
  match got with Ok _ => false | Err e' => Nat.eqb (discriminant e') (discriminant e) end.

(** The reciprocal [From<v1::dispatch_response::DispatchError> for DispatchError] of
    the tests; [malformed] is the error of decoding a malformed buffer. *)
Definition DispatchError_from_v1 (malformed : DecodeError) (value : V1DispatchError) : DispatchError :=
  match value with
  | V1_Unspecified => UnknownHostDispatchError
  | V1_UnknownPayload => UnknownPayload
  | V1_NoDispatchHandler => NoDispatchHandler
  | V1_HandlerQueueFull => HandlerQueueFull
  | V1_DispatchQueueFull => DispatchRequestQueueFull
  | V1_Closed => DispatchClosed
  | V1_ReplyDeserialisation => ReplyDeserialisation malformed
  | V1_ClientReturnedUnknown => UnknownHostDispatchError
  | V1_HandlerExecTimeout => HandlerExecTimeout
  end.

#[export] Instance V1DispatchError_eq_dec : EqDecision V1DispatchError.
Proof. solve_decision. Defined.

(** The two property tests: whether their assertions hold. *)
Definition prop_dispatch_error_encoding_is_injective (a b : DispatchError) : bool :=
  let encoded_a := DispatchError_into_v1 a in
  let encoded_b := DispatchError_into_v1 b in
  if negb (Nat.eqb (discriminant a) (discriminant b)) then negb (bool_decide (encoded_a = encoded_b))
  else bool_decide (encoded_a = encoded_b).

Definition prop_dispatch_error_decode_encode_round_trips (malformed : DecodeError) (wire : V1DispatchError) : bool :=
  if bool_decide (wire = V1_Unspecified) then true
  else
    let decoded := DispatchError_from_v1 malformed wire in
    let re_encoded := DispatchError_into_v1 decoded in
    bool_decide (wire = re_encoded).

(** The test task is alone: nothing happens while it waits. *)
Context (fuel : nat).

Abbreviation test := (prog (Shared ()) ()).
Abbreviation dispatch := (DispatchPublisher_dispatch (E:=()) id fuel).
Abbreviation send_response := (DispatchResponder_send_response (E:=()) id fuel).

(** [next().await] on the two streams. *)
Definition awaited {A} (p : prog (Shared ()) (poll A)) : prog (Shared ()) A :=
  v ← p;
  match v with Ready a => mret a | Pending => fun s => Blocked s end.

Definition expect_some {A} (o : option A) : prog (Shared ()) A := of_panics o.

Definition is_ok_or_panic {A B} (r : result A B) : prog (Shared ()) A :=
  match r with Ok a => mret a | Err _ => panic end.

(** [drop] of the receiver that was taken, and of the stream. *)
Definition drop_recv (_rx : ResponseReceiver) : test := modify (fun s => set_resp (mpsc_drop_rx (sh_resp s)) s).
Definition drop_stream (_stream : DispatchStream) : test := modify (fun s => set_req (mpsc_drop_rx (sh_req s)) s).

Definition test_dispatch_delivered_to_stream (publisher : DispatchPublisher) (stream : DispatchStream)
  (_responder : DispatchResponder) : test :=
  let correlation_id := CorrelationId_new 42 in
  r ← dispatch publisher (mk_dispatch correlation_id (Payload_from [Byte.x01; Byte.x02; Byte.x03]));
  is_ok_or_panic r ;;
  got ← awaited (DispatchStream_poll_next stream);
  got ← expect_some got;
  assert (bool_decide (d_correlation_id got = correlation_id)) ;;
  assert (bool_decide (d_payload got = Payload_from [Byte.x01; Byte.x02; Byte.x03])).

Definition test_take_recv_stream_once (publisher : DispatchPublisher) (_stream : DispatchStream)
  (_responder : DispatchResponder) : test :=
  let '(first, publisher) := DispatchPublisher_take_recv_stream publisher in
  assert (bool_decide (is_Some first)) ;;
  let '(second, _) := DispatchPublisher_take_recv_stream publisher in
  assert (negb (bool_decide (is_Some second))).

Definition test_responder_delivers_to_recv_stream (publisher : DispatchPublisher) (_stream : DispatchStream)
  (responder : DispatchResponder) : test :=
  let '(recv, _) := DispatchPublisher_take_recv_stream publisher in
  recv ← expect_some recv;
  let correlation_id := CorrelationId_new 7 in
  r ← send_response responder (mk_dispatch_result correlation_id (Err UnknownPayload));
  is_ok_or_panic r ;;
  got ← awaited (response_poll_next recv);
  got ← expect_some got;
  assert (bool_decide (dr_correlation_id got = correlation_id)) ;;
  assert (is_error UnknownPayload (dr_result got)).

Definition test_send_response_after_recv_dropped (publisher : DispatchPublisher) (_stream : DispatchStream)
  (responder : DispatchResponder) : test :=
  let '(recv, _) := DispatchPublisher_take_recv_stream publisher in
  recv ← expect_some recv;
  drop_recv recv ;;
  got ← send_response responder (mk_dispatch_result (CorrelationId_new 1) (Err UnknownPayload));
  match got with Err mk_response_queue_closed => mret tt | Ok _ => panic end.

(** A refused request, and the error that the publisher reports itself. *)
Definition refused_and_reported (publisher : DispatchPublisher) (recv : ResponseReceiver) (d : Dispatch)
  (e : DispatchError) : test :=
  r ← dispatch publisher d;
  assert (is_error e r) ;;
  got ← awaited (response_poll_next recv);
  got ← expect_some got;
  assert (bool_decide (dr_correlation_id got = d_correlation_id d)) ;;
  assert (is_error e (dr_result got)).

Definition test_dispatch_after_stream_dropped_self_reports_error (publisher : DispatchPublisher)
  (stream : DispatchStream) (_responder : DispatchResponder) : test :=
  let '(recv, publisher) := DispatchPublisher_take_recv_stream publisher in
  recv ← expect_some recv;
  drop_stream stream ;;
  refused_and_reported publisher recv (mk_dispatch (CorrelationId_new 99) (Payload_from [Byte.x09])) DispatchClosed.

Definition u64_MAX : N := 2 ^ 64 - 1.

Definition test_dispatch_queue_full_self_reports_error (publisher : DispatchPublisher)
  (_stream : DispatchStream) (_responder : DispatchResponder) : test :=
  let '(recv, publisher) := DispatchPublisher_take_recv_stream publisher in
  recv ← expect_some recv;
  for_each (fun i =>
    r ← dispatch publisher (mk_dispatch (CorrelationId_new (N.of_nat i)) (Payload_from []));
    is_ok_or_panic r) (seq 0 DISPATCH_QUEUE_LEN) ;;
  refused_and_reported publisher recv (mk_dispatch (CorrelationId_new u64_MAX) (Payload_from []))
    DispatchRequestQueueFull.

Definition dispatch_tests : list (DispatchPublisher -> DispatchStream -> DispatchResponder -> test) :=
  [test_dispatch_delivered_to_stream; test_take_recv_stream_once; test_responder_delivers_to_recv_stream;
   test_send_response_after_recv_dropped; test_dispatch_after_stream_dropped_self_reports_error;
   test_dispatch_queue_full_self_reports_error].

(** Each test starts from an interconnect of its own. *)
Definition run_dispatch_test (t : DispatchPublisher -> DispatchStream -> DispatchResponder -> test) :
  exec (Shared ()) () :=
  let '((publisher, stream, responder), s) := new_dispatcher_interconnect tt in t publisher stream responder s.

End DispatchTests.

(** ** Runs of the tests on the views of the queues *)

Section DispatchRuns.
Context `{ProtoTypes} `{MpscLaws}.

Definition queues (s : Shared ()) : chan Dispatch * chan DispatchResult := (req_view s, resp_view s).

Abbreviation runs := (runs_on queues).

Lemma runs_dispatched fuel pub d req resp r req' resp' Q :
  publish d req resp = Some (r, (req', resp')) -> Q r (req', resp') ->
  runs (DispatchPublisher_dispatch id (S fuel) pub d) (req, resp) Q.
Proof.
  intros P HQ s [= <- <-]. destruct (dispatch_publish id fuel pub d s r req' resp' P) as (s' & E & <- & <- & _).
  by exists r, s'.
Qed.

Lemma runs_send_response fuel self x req resp r resp' (Q : _ -> _ -> Prop) :
  chan_poll_send x resp = (Ready r, resp') ->
  Q (match r with Ok _ => Ok tt | Err _ => Err mk_response_queue_closed end) (req, resp') ->
  runs (DispatchResponder_send_response id (S fuel) self x) (req, resp) Q.
Proof.
  intros P HQ s [= <- <-]. destruct (resp_send_ready id fuel x s r resp' P) as (s' & E & Eq & _ & <-).
  eexists _, s'. split; [unfold DispatchResponder_send_response; by rewrite (prog_bind_done _ _ _ _ _ E)|].
  unfold queues, req_view. by rewrite Eq.
Qed.

Lemma runs_next self req req' resp a Q : chan_poll_recv req = (Ready a, req') -> Q a (req', resp) ->
  runs (awaited (DispatchStream_poll_next self)) (req, resp) Q.
Proof.
  intros P HQ s [= <- <-]. unfold awaited, DispatchStream_poll_next, mbind, prog_bind.
  destruct (mpsc_poll_recv (sh_req s)) as [p c] eqn:E. apply mpsc_poll_recv_view in E. fold (req_view s) in E.
  rewrite P in E. simplify_eq. by eexists _, _.
Qed.

Lemma runs_response rx req resp resp' a Q : chan_poll_recv resp = (Ready a, resp') -> Q a (req, resp') ->
  runs (awaited (response_poll_next rx)) (req, resp) Q.
Proof.
  intros P HQ s [= <- <-]. unfold awaited, response_poll_next, mbind, prog_bind.
  destruct (mpsc_poll_recv (sh_resp s)) as [p c] eqn:E. apply mpsc_poll_recv_view in E. fold (resp_view s) in E.
  rewrite P in E. simplify_eq. by eexists _, _.
Qed.

Lemma runs_drop_recv rx req resp Q : Q tt (req, chan_drop_rx resp) -> runs (drop_recv rx) (req, resp) Q.
Proof. intros HQ s [= <- <-]. eexists tt, _. split; [done|]. unfold queues, resp_view. simpl. by rewrite view_drop_rx. Qed.

Lemma runs_drop_stream st req resp Q : Q tt (chan_drop_rx req, resp) -> runs (drop_stream st) (req, resp) Q.
Proof. intros HQ s [= <- <-]. eexists tt, _. split; [done|]. unfold queues, req_view. simpl. by rewrite view_drop_rx. Qed.

(** Filling the request queue. *)
Lemma runs_fill_requests fuel pub l q resp (Q : () -> _ -> Prop) : length q + length l <= DISPATCH_QUEUE_LEN ->
  Q tt (mk_chan (q ++ ((fun i => mk_dispatch (CorrelationId_new (N.of_nat i)) (Payload_from [])) <$> l))
    DISPATCH_QUEUE_LEN true 1, resp) ->
  runs (for_each (fun i =>
      r ← DispatchPublisher_dispatch id (S fuel) pub (mk_dispatch (CorrelationId_new (N.of_nat i)) (Payload_from []));
      is_ok_or_panic r) l) (mk_chan q DISPATCH_QUEUE_LEN true 1, resp) Q.
Proof.
  revert q. induction l as [|i l IH]; intros q L HQ; simpl in *; [rewrite app_nil_r in HQ; by apply runs_ret|].
  apply runs_bind, runs_bind. eapply runs_dispatched.
  { unfold publish. rewrite decide_False; [reflexivity|].
    intros [R|R]; [done|]. unfold chan_full in R. simpl in R. lia. }
  apply runs_ret. apply IH; [rewrite length_app; simpl; lia|]. by rewrite <- app_assoc.
Qed.

Lemma runs_refused fuel pub recv d e req : refuses req -> refusal req = e ->
  runs (refused_and_reported (S fuel) pub recv d e) (req, chan_new (DISPATCH_QUEUE_LEN + 1)) (fun _ _ => True).
Proof.
  intros R <-. unfold refused_and_reported. apply runs_bind. eapply runs_dispatched.
  { unfold publish. rewrite decide_True by done. reflexivity. }
  apply runs_bind, runs_assert; [apply Nat.eqb_refl|].
  apply runs_bind. eapply runs_response; [reflexivity|]. apply runs_bind. eapply runs_some; [reflexivity|].
  apply runs_bind, runs_assert; [by apply bool_decide_eq_true|]. apply runs_assert; [apply Nat.eqb_refl | done].
Qed.

(** From a new interconnect. *)
Lemma run_dispatch_test_ok t :
  (forall pub stream responder, dp_rx pub = Some response_rx ->
    runs (t pub stream responder) (chan_new DISPATCH_QUEUE_LEN, chan_new (DISPATCH_QUEUE_LEN + 1)) (fun _ _ => True)) ->
  exists s, run_dispatch_test t = Done tt s.
Proof.
  intros Rn. unfold run_dispatch_test, new_dispatcher_interconnect.
  edestruct (Rn (mk_publisher request_tx (Some response_rx) response_weak) (mk_stream request_rx)
    (mk_responder response_tx) eq_refl) as ([] & s & E & _); [|by exists s].
  unfold queues, req_view, resp_view. simpl. by rewrite !view_channel.
Qed.

Ltac runs_step := first
  [ eapply runs_some; [reflexivity|]
  | apply runs_assert; [by (first [apply bool_decide_eq_true | reflexivity])|]
  | eapply runs_dispatched; [reflexivity|]
  | eapply runs_send_response; [reflexivity|]
  | eapply runs_next; [reflexivity|]
  | eapply runs_response; [reflexivity|]
  | apply runs_drop_recv | apply runs_drop_stream | apply runs_ret ].

Lemma dispatch_tests_run fuel : Forall (fun t => forall pub stream responder, dp_rx pub = Some response_rx ->
  runs (t pub stream responder) (chan_new DISPATCH_QUEUE_LEN, chan_new (DISPATCH_QUEUE_LEN + 1)) (fun _ _ => True))
  (dispatch_tests (S fuel)).
Proof.
  repeat constructor; intros [tx ? errors] stream responder; simpl; intros ->.
  - unfold test_dispatch_delivered_to_stream. cbv zeta. by repeat (apply runs_bind; runs_step); runs_step.
  - unfold test_take_recv_stream_once. simpl. apply runs_bind. by repeat runs_step.
  - unfold test_responder_delivers_to_recv_stream. simpl. by repeat (apply runs_bind; runs_step); runs_step.
  - unfold test_send_response_after_recv_dropped. simpl. by repeat (apply runs_bind; runs_step); runs_step.
  - unfold test_dispatch_after_stream_dropped_self_reports_error. simpl.
    do 2 (apply runs_bind; runs_step). apply runs_refused; [by left | done].
  - unfold test_dispatch_queue_full_self_reports_error. cbn [DispatchPublisher_take_recv_stream dp_rx dp_tx dp_errors].
    apply runs_bind; runs_step. apply runs_bind. apply runs_fill_requests; [rewrite length_seq; simpl; lia|].
    apply runs_refused; [|done]. right. unfold chan_full. cbn [c_queue c_cap app]. by rewrite length_fmap, length_seq.
Qed.

End DispatchRuns.

Section DispatchTestProperties.
Context `{ProtoTypes} `{MpscLaws}.

(** The tests of the dispatch interconnect pass, over any channels with the
    documented behaviour: what is dispatched is delivered, what is answered comes
    back, refused requests are reported to the connection itself, also with the
    request queue filled to its 255 entries, and a responder finds out that the
    stream is gone.  The error codes distinguish every two kinds of error, and
    decoding then encoding is the identity on every code but the unspecified
    one. *)
Lemma dispatch_tests_pass fuel :
  Forall (fun t => exists s, run_dispatch_test t = Done tt s) (dispatch_tests (S fuel)) /\
  (forall a b, prop_dispatch_error_encoding_is_injective a b = true) /\
  (forall malformed wire, prop_dispatch_error_decode_encode_round_trips malformed wire = true).
Proof.
  split_and!.
  - eapply Forall_impl; [apply dispatch_tests_run|]. intros t. apply run_dispatch_test_ok.
  - by intros [] [].
  - by intros malformed [].
Qed.

End DispatchTestProperties.

(** ** [shutdown_signal.rs] *)

Section SignalTests.
Context `{TokenLib} `{Mpsc}.

(** The statements of the two tests and of their two workers. *)
Inductive signal_statement : Type :=
| Drop_tx
| Wait_for_shutdown
| Recv
| Sleep
| Assert_running
| Shutdown
| Join.

(** The handles that the tests make, and what each of the three tasks has still to
    do; a task has finished when that is nothing. *)
Record SignalRun : Type := mk_signal_run {
  sr_tokens : tokens;
  sr_signal : ShutdownSignal;
  sr_ctl : ShutdownCtl;
  sr_started : mpsc ();
  sr_a : list signal_statement;
  sr_b : list signal_statement;
  sr_test : list signal_statement;
  sr_failed : bool
}.

Inductive signal_task : Type := Worker_a | Worker_b | Test_task.

Definition set_tokens (t : tokens) (s : SignalRun) : SignalRun :=
  mk_signal_run t (sr_signal s) (sr_ctl s) (sr_started s) (sr_a s) (sr_b s) (sr_test s) (sr_failed s).
Definition set_started (c : mpsc ()) (s : SignalRun) : SignalRun :=
  mk_signal_run (sr_tokens s) (sr_signal s) (sr_ctl s) c (sr_a s) (sr_b s) (sr_test s) (sr_failed s).
Definition set_failed (b : bool) (s : SignalRun) : SignalRun :=
  mk_signal_run (sr_tokens s) (sr_signal s) (sr_ctl s) (sr_started s) (sr_a s) (sr_b s) (sr_test s) b.
Definition remaining (t : signal_task) (s : SignalRun) : list signal_statement :=
  match t with Worker_a => sr_a s | Worker_b => sr_b s | Test_task => sr_test s end.
Definition set_remaining (t : signal_task) (l : list signal_statement) (s : SignalRun) : SignalRun :=
  match t with
  | Worker_a => mk_signal_run (sr_tokens s) (sr_signal s) (sr_ctl s) (sr_started s) l (sr_b s) (sr_test s) (sr_failed s)
  | Worker_b => mk_signal_run (sr_tokens s) (sr_signal s) (sr_ctl s) (sr_started s) (sr_a s) l (sr_test s) (sr_failed s)
  | Test_task => mk_signal_run (sr_tokens s) (sr_signal s) (sr_ctl s) (sr_started s) (sr_a s) (sr_b s) l (sr_failed s)
  end.

Definition is_finished (l : list signal_statement) : bool := match l with [] => true | _ => false end.

(** [explicit]: the handle is used, by [shutdown_now]; else it is dropped. *)
Context (explicit : bool).

(** One statement: the state after it, and whether the task goes on. *)
Definition signal_statement_step (st : signal_statement) (s : SignalRun) : SignalRun * bool :=
  match st with
  | Drop_tx => (set_started (mpsc_drop_tx (sr_started s)) s, true)
  | Wait_for_shutdown =>
      (s, match ShutdownSignal_poll_shutdown (sr_signal s) (sr_tokens s) with Ready _ => true | Pending => false end)
  | Recv =>
      let '(p, c) := mpsc_poll_recv (sr_started s) in
      (set_started c s, match p with Ready _ => true | Pending => false end)
  | Sleep => (s, true)
  | Assert_running => (set_failed (sr_failed s || is_finished (sr_a s) || is_finished (sr_b s)) s, true)
  | Shutdown =>
      (set_tokens (if explicit then ShutdownCtl_shutdown_now (sr_ctl s) (sr_tokens s)
                   else ShutdownCtl_drop (sr_ctl s) (sr_tokens s)) s, true)
  | Join => (s, is_finished (sr_a s) && is_finished (sr_b s))
  end.

(** A task runs to its next [.await]: here, a statement. *)
Definition signal_step (s : SignalRun) (t : signal_task) : SignalRun :=
  match remaining t s with
  | [] => s
  | st :: rest =>
      let '(s', goes_on) := signal_statement_step st s in
      if goes_on then set_remaining t rest s' else s'
  end.

(** [test_explicit_shutdown] and [test_implicit_shutdown] once the workers are
    spawned: two senders for the start, one for each worker. *)
Definition signal_test (s : tokens) : SignalRun :=
  let '((signal, ctl), s) := ShutdownSignal_new s in
  mk_signal_run s signal ctl (mpsc_clone_tx (mpsc_channel 1))
    [Drop_tx; Wait_for_shutdown]
    [Drop_tx; Wait_for_shutdown; Wait_for_shutdown; Wait_for_shutdown; Wait_for_shutdown]
    [Recv; Sleep; Assert_running; Shutdown; Join] false.

(** All three tasks have finished. *)
Definition signal_tested (s : SignalRun) : bool :=
  is_finished (sr_test s) && is_finished (sr_a s) && is_finished (sr_b s).

(** [test_child_token]. *)
Definition test_child_token : prog tokens () := fun s =>
  let '((signal, shutdown), s) := ShutdownSignal_new s in
  let '(child_a, s) := ShutdownSignal_child_token signal s in
  let '(child_b, s) := ShutdownSignal_child_token signal s in
  (gets (token_cancelled child_a) ≫= (fun b => assert (negb b)) ;;
   gets (token_cancelled child_b) ≫= (fun b => assert (negb b)) ;;
   modify (token_cancel child_a) ;;
   gets (token_cancelled child_a) ≫= assert ;;
   gets (token_cancelled child_b) ≫= (fun b => assert (negb b)) ;;
   gets (token_cancelled (ss_token signal)) ≫= (fun b => assert (negb b)) ;;
   modify (ShutdownCtl_shutdown_now shutdown) ;;
   gets (token_cancelled child_b) ≫= assert ;;
   gets (token_cancelled (ss_token signal)) ≫= assert) s.

End SignalTests.

(** *** The tests with a flag for the token *)

(** One token, cancelled or not. *)
Definition flag_tokens : TokenLib := {|
  token := unit;
  tokens := bool;
  token_new _ := (tt, false);
  token_child _ s := (tt, s);
  token_cancel _ _ := true;
  token_cancelled _ s := s
|}.

Section Flags.
#[local] Existing Instances flag_tokens fifo_mpsc.

#[local] Instance signal_statement_eq_dec : EqDecision signal_statement.
Proof. solve_decision. Defined.
#[local] Instance flag_signal_eq_dec : EqDecision ShutdownSignal.
Proof. intros [[]] [[]]. by left. Defined.
#[local] Instance flag_ctl_eq_dec : EqDecision ShutdownCtl.
Proof. intros [[]] [[]]. by left. Defined.
#[local] Instance flag_started_eq_dec : EqDecision (chan ()).
Proof. solve_decision. Defined.
#[local] Instance flag_run_eq_dec : EqDecision SignalRun.
Proof.
  intros [t1 s1 c1 r1 a1 b1 p1 f1] [t2 s2 c2 r2 a2 b2 p2 f2].
  refine (cast_if (decide ((t1 : bool, s1, c1, (r1 : chan ()), a1, b1, p1, f1) = (t2 : bool, s2, c2, (r2 : chan ()), a2, b2, p2, f2))));
    abstract congruence.
Defined.

Definition signal_tasks : list signal_task := [Worker_a; Worker_b; Test_task].

Definition flag_start : SignalRun := signal_test (false : tokens).

(** The number of statements executed, of the twelve. *)
Definition executed (s : SignalRun) : nat := 12 - (length (sr_a s) + length (sr_b s) + length (sr_test s)).

Definition flag_states (explicit : bool) : list SignalRun :=
  reachable signal_tasks (signal_step explicit) flag_start 100.

Lemma flags_progress explicit :
  progresses signal_tasks (signal_step explicit) flag_start executed 13 signal_tested (flag_states explicit) = true /\
  forallb (fun s => negb (sr_failed s)) (flag_states explicit) = true.
Proof. destruct explicit; split; vm_compute; reflexivity. Qed.

Lemma signal_tasks_all t : t ∈ signal_tasks.
Proof. destruct t; repeat constructor. Qed.

End Flags.

(** *** Any tokens and channels look like these *)

Section SignalFacts.
Context `{TokenLaws} `{MpscLaws} (explicit : bool).

Abbreviation FlagRun := (@SignalRun flag_tokens fifo_mpsc).

Definition flag_of (s : SignalRun) : FlagRun :=
  @mk_signal_run flag_tokens fifo_mpsc (token_cancelled (ss_token (sr_signal s)) (sr_tokens s))
    (@mk_shutdown_signal flag_tokens tt) (@mk_shutdown_ctl flag_tokens tt) (mpsc_view (sr_started s))
    (sr_a s) (sr_b s) (sr_test s) (sr_failed s).

(** The two handles are of one token. *)
Definition one_token (s : SignalRun) : Prop :=
  sc_token (sr_ctl s) = ss_token (sr_signal s) /\ known (ss_token (sr_signal s)) (sr_tokens s).

(** Cancelled is cancelled, by the call and by the drop after it. *)
Lemma shutdown_cancels x s : known x s ->
  (token_cancelled x (token_cancel x s) = true /\ known x (token_cancel x s)) /\
  token_cancelled x (token_cancel x (token_cancel x s)) = true /\ known x (token_cancel x (token_cancel x s)).
Proof.
  assert (C : forall s, known x s -> token_cancelled x (token_cancel x s) = true /\ known x (token_cancel x s)).
  { intros s' K. destruct (token_cancel_law x s' K) as (Kn & Ca & _).
    rewrite (Ca x K), (below_self x s' K), orb_true_r. split; [done | by apply Kn]. }
  intros K. split; [by apply C|]. apply C. by apply C.
Qed.

Lemma statement_flag st s s' b : one_token s -> signal_statement_step explicit st s = (s', b) ->
  one_token s' /\ @signal_statement_step flag_tokens fifo_mpsc explicit st (flag_of s) = (flag_of s', b).
Proof.
  intros [Ec K] E. destruct st; cbn [signal_statement_step] in E |- *; simplify_eq; try done.
  - split; [done|]. unfold flag_of, set_started. simpl. by rewrite view_drop_tx.
  - destruct (mpsc_poll_recv (sr_started s)) as [p c] eqn:Er. simplify_eq. split; [done|].
    apply mpsc_poll_recv_view in Er. cbn [flag_of sr_started mpsc_poll_recv fifo_mpsc]. by rewrite Er.
  - destruct (shutdown_cancels _ _ K) as [[C1 K1] [C2 K2]].
    unfold one_token, flag_of, set_tokens, ShutdownCtl_shutdown_now, ShutdownCtl_drop. simpl. rewrite Ec.
    destruct explicit; [by rewrite C2 | by rewrite C1].
Qed.

Lemma step_flag s t : one_token s ->
  one_token (signal_step explicit s t) /\
  flag_of (signal_step explicit s t) = @signal_step flag_tokens fifo_mpsc explicit (flag_of s) t.
Proof.
  intros I. unfold signal_step. replace (remaining t (flag_of s)) with (remaining t s) by (by destruct t).
  destruct (remaining t s) as [|st rest]; [done|].
  destruct (signal_statement_step explicit st s) as [s' b] eqn:E.
  destruct (statement_flag st s s' b I E) as [I' ->]. destruct b; [|done]. by destruct t.
Qed.

Lemma run_flag schedule s : one_token s ->
  flag_of (foldl (signal_step explicit) s schedule) =
  foldl (@signal_step flag_tokens fifo_mpsc explicit) (flag_of s) schedule.
Proof.
  revert s. induction schedule as [|t schedule IH]; intros s I; [done|]. simpl.
  destruct (step_flag s t I) as [I' <-]. by apply IH.
Qed.

Lemma start_flag s : one_token (signal_test s) /\ flag_of (signal_test s) = flag_start.
Proof.
  unfold signal_test, ShutdownSignal_new. pose proof (token_new_law s) as L. destruct (token_new s) as [k s'].
  destruct L as (_ & K & Nc & _). split; [done|]. unfold flag_of. simpl.
  rewrite Nc, view_clone_tx, view_channel. reflexivity.
Qed.

Lemma child_token_passes s : exists s', test_child_token s = Done tt s'.
Proof.
  unfold test_child_token, ShutdownSignal_new, ShutdownSignal_child_token. pose proof (token_new_law s) as Ln.
  destruct (token_new s) as [t s1]. destruct Ln as (_ & Kt & Ct & _). cbn [ss_token].
  pose proof (token_child_law t s1 Kt) as La. destruct (token_child t s1) as [a s2].
  destruct La as (Na & Ka & Ca & Sa & _ & Ba). destruct (Sa t Kt) as [Kt2 Ct2].
  pose proof (token_child_law t s2 Kt2) as Lb. destruct (token_child t s2) as [b s3].
  destruct Lb as (Nb & Kb & Cb & Sb & Bb & Bk). destruct (Sb t Kt2) as [Kt3 Ct3], (Sb a Ka) as [Ka3 Ca3].
  assert (Ht : token_cancelled t s3 = false) by congruence.
  assert (Ha : token_cancelled a s3 = false) by congruence.
  assert (Hb : token_cancelled b s3 = false) by congruence.
  destruct (token_cancel_law a s3 Ka3) as (Kn & Cn & Bn).
  assert (Ea : token_cancelled a (token_cancel a s3) = true).
  { rewrite (Cn a Ka3), (below_self a s3 Ka3). apply orb_true_r. }
  assert (Eta : below s2 t a = false) by (by apply Ba).
  assert (Et : token_cancelled t (token_cancel a s3) = false).
  { by rewrite (Cn t Kt3), Ht, (Bb t a Kt2 Ka). }
  assert (Eb : token_cancelled b (token_cancel a s3) = false).
  { rewrite (Cn b Kb), Hb. destruct (Bk a Ka) as [_ ->]. by rewrite Eta. }
  set (s4 := token_cancel a s3) in *. assert (Kt4 : known t s4) by (by apply Kn).
  destruct (shutdown_cancels t s4 Kt4) as [[_ Kt5] [C6 _]].
  assert (Kb4 : known b s4) by (by apply Kn). destruct (token_cancel_law t s4 Kt4) as (Kn4 & Cn4 & _).
  destruct (token_cancel_law t (token_cancel t s4) Kt5) as (_ & Cn5 & _).
  assert (Eb6 : token_cancelled b (token_cancel t (token_cancel t s4)) = true).
  { rewrite Cn5 by (by apply Kn4). rewrite (Cn4 b Kb4), Bn. destruct (Bk t Kt2) as [_ ->].
    rewrite (below_self t s2 Kt2). by rewrite orb_true_r. }
  eexists. unfold gets, modify, ShutdownCtl_shutdown_now, ShutdownCtl_drop, mbind, prog_bind.
  rewrite Ha. simpl. rewrite Hb. simpl. fold s4. rewrite Ea. simpl. rewrite Eb. simpl. rewrite Et. simpl.
  rewrite Eb6. simpl. by rewrite C6.
Qed.

End SignalFacts.

Lemma is_finished_nil l : is_finished l = true -> l = [].
Proof. by destruct l. Qed.

Section SignalProperties.
Context `{TokenLaws} `{MpscLaws}.

(** C20. The tests of the shutdown signal pass, over any tokens and channels with
    the documented behaviour.  With two workers that wait for the signal, once and
    four times, no schedule of the three tasks makes an assertion fail, and in
    thirteen rounds every fair one completes the test, the workers included,
    whether the signal is given or its handle is dropped.  Cancelling a child
    token spares its sibling and the signal; the shutdown reaches both. *)
Theorem signal_tests_pass explicit s schedule :
  sr_failed (foldl (signal_step explicit) (signal_test s) schedule) = false /\
  (fair 13 schedule ->
    let final := foldl (signal_step explicit) (signal_test s) schedule in
    sr_a final = [] /\ sr_b final = [] /\ sr_test final = []) /\
  exists s', test_child_token s = Done tt s'.
Proof.
  destruct (start_flag s) as [I E]. destruct (flags_progress explicit) as [P F].
  pose proof (run_flag explicit schedule _ I) as R. rewrite E in R.
  destruct (run_states signal_tasks signal_tasks_all _ _ _ _ _ _ P schedule flag_start (progresses_start _ _ _ _ _ _ _ P))
    as (Hin & _). rewrite <- R in Hin. split_and!.
  - rewrite forallb_forall in F. apply list_elem_of_In in Hin. specialize (F _ Hin). by apply negb_true_iff in F.
  - intros Fs. pose proof (fair_ends signal_tasks signal_tasks_all _ _ _ _ _ _ P schedule Fs) as En.
    rewrite <- R in En. unfold signal_tested in En. rewrite !andb_true_iff in En.
    destruct En as [[Et Ea] Eb]. split_and!; by apply is_finished_nil.
  - apply child_token_passes.
Qed.

End SignalProperties.

(** The three tasks in turn. *)
Lemma signal_tests_pass_witness :
  let final := foldl (@signal_step toy_tokens fifo_mpsc true) (@signal_test toy_tokens fifo_mpsc [])
    (concat (replicate 13 signal_tasks)) in
  sr_a final = [] /\ sr_b final = [] /\ sr_test final = [].
Proof.
  destruct (@signal_tests_pass toy_tokens toy_token_laws fifo_mpsc fifo_mpsc_laws true []
    (concat (replicate 13 signal_tasks))) as (_ & F & _).
  apply F, fair_replicate, signal_tasks_all.
Defined.
