(* ===== verification/FuzzFfi.v ===== *)
(** * The fuzz targets of the FFI layer

    Models [rc-x509-ffi/fuzz/fuzz_targets/ffi_io.rs] and [dispatch.rs]: a host
    that drives one connection through the exported functions against an
    entrypoint of its own, which answers every message or hands dispatch requests
    to the host.  Five threads of control share the connection's channels - the
    host, the entrypoint, the task it spawns for the connection, and the two
    tasks of the FFI layer - and take steps in an order that a schedule fixes.
    [FuzzRuns] proves that each target completes, with every assertion holding,
    under every fair schedule and on every input. *)

From stdpp Require Import base option list strings.
From Stdlib Require Import Strings.Byte NArith ZArith Lia.
From S2P Require Import Prelude Utf8 Hash Certificate ConnectionId Codec Mpsc Dispatch Runtime Fsm Actor Ffi FfiTasks World System.

(** ** The host *)

(** What the callbacks have sent to the host's thread: the contents of the two
    [std::sync::mpsc] channels. *)
Record Captured : Type := mk_captured {
  cap_sent : list (list u8);
  cap_dispatched : list (N * list u8)
}.

(** [slice::from_raw_parts(data, length).to_vec()]. *)
Definition from_raw_parts (data : list u8) (length : N) : list u8 := take (N.to_nat length) data.

Definition do_send (data : list u8) (length : N) (h : Captured) : SendRet * Captured :=
  let got_data := from_raw_parts data length in
  (SendRet_Success, mk_captured (cap_sent h ++ [got_data]) (cap_dispatched h)).

(** The callback of [dispatch.rs], and that of [ffi_io.rs]. *)
Definition do_dispatch (correlation_id : N) (data : list u8) (length : N) (h : Captured) :
  DispatchRet * Captured :=
  let got_data := from_raw_parts data length in
  (DispatchRet_Success, mk_captured (cap_sent h) (cap_dispatched h ++ [(correlation_id, got_data)])).

Definition no_dispatch (_correlation_id : N) (_data : list u8) (_length : N) (h : Captured) :
  DispatchRet * Captured := (DispatchRet_Unknown, h).

(** The pointers of the callbacks and of their user data. *)
Definition DISPATCH_CB : pointer := 1%N.
Definition SEND_CB : pointer := 2%N.
Definition SEND_TX : pointer := 3%N.
Definition DISPATCH_TX : pointer := 4%N.

Definition ENDPOINT_HOSTNAME : string := "config.itsallbroken.com".

(** The statements of the host's thread. *)
Inductive statement : Type :=
| Conn_new (user_data : pointer)
| Conn_send_callback (user_data : pointer)
| Conn_connected (endpoint_hostname : string)
| Conn_recv (data : list u8)
| Await_dispatch (check : N -> list u8 -> bool)
| Conn_dispatch_result (correlation_id : N) (response : list u8)
| Await_send (check : list u8 -> bool)
| Conn_disconnected
| Conn_free
| Free
| Join_worker.

(** ** The entrypoint's task for the connection *)

Section Fuzz.
Context `{ProtoTypes} `{!Prost} `{Mpsc}.

(** [handle_conn], by the await it is at.  [Task_blocked]: the report of a
    request that was not taken waits for room in the response queue, which only
    this task could make. *)
Inductive conn_task : Type :=
| Task_none
| Task_spawned (io : IOHandle) (dispatch : DispatchPublisher)
| Task_recv (dispatch : DispatchPublisher)
| Task_dispatch (dispatch : DispatchPublisher) (request : Dispatch)
| Task_blocked
| Task_response (dispatch : DispatchPublisher)
| Task_send (dispatch : DispatchPublisher) (payload : ClientToServer)
| Task_panicked
| Task_done.

(** A [handle_conn]: what it takes of the publisher before its loop ([None] is a
    failed [expect]), what it does with a message, and after a request was taken. *)
Record Handler : Type := mk_handler {
  on_spawn : DispatchPublisher -> option DispatchPublisher;
  on_message : DispatchPublisher -> result ServerToClient DecodingError -> conn_task;
  on_dispatched : DispatchPublisher -> conn_task
}.

(** [ffi_io.rs]: every message is answered. *)
Definition echo_handler : Handler := {|
  on_spawn := Some;
  on_message dispatch _v := Task_send dispatch Pong;
  on_dispatched := Task_recv
|}.

Definition dispatch_message (dispatch : DispatchPublisher) (v : result ServerToClient DecodingError) :
  conn_task :=
  match v with
  | Ok (ServerDispatch correlation_id payload _) =>
      Task_dispatch dispatch (mk_dispatch correlation_id payload)
  | _ => Task_recv dispatch
  end.

(** [dispatch.rs]: requests are handed to the host, whose response is awaited. *)
Definition dispatch_handler : Handler := {|
  on_spawn dispatch :=
    let '(dispatch_responses, dispatch) := DispatchPublisher_take_recv_stream dispatch in
    _ ← dispatch_responses; Some dispatch;
  on_message := dispatch_message;
  on_dispatched := Task_response
|}.

(** The tests of connection.rs: responses are not read. *)
Definition dispatch_echo_handler : Handler := {|
  on_spawn := Some;
  on_message := dispatch_message;
  on_dispatched := Task_recv
|}.

(** The message sent for the host's response. *)
Definition forward_response (resp : DispatchResult) : ClientToServer :=
  DispatchResponse (dr_correlation_id resp)
    (match dr_result resp with
     | Ok payload => DR_Payload payload
     | Err _ => DR_Error (V1DispatchError_code V1_Unspecified)
     end).

(** ** All threads *)

Record Fuzz : Type := mk_fuzz {
  fz_sys : Sys;
  fz_conn : option FFIConnection;
  fz_io : bool;
  fz_dispatch : bool;
  fz_report : option DispatchResult;
  fz_captured : Captured;
  fz_senders : nat;
  fz_taken : nat;
  fz_returned : bool;
  fz_task : conn_task;
  fz_rest : list statement;
  fz_failed : bool
}.

Context (debug : bool) (dispatch_cb : N -> list u8 -> N -> Captured -> DispatchRet * Captured)
  (handler : Handler).

Definition with_sys (s : Sys) (z : Fuzz) : Fuzz :=
  mk_fuzz s (fz_conn z) (fz_io z) (fz_dispatch z) (fz_report z) (fz_captured z) (fz_senders z)
    (fz_taken z) (fz_returned z) (fz_task z) (fz_rest z) (fz_failed z).
Definition with_task (t : conn_task) (z : Fuzz) : Fuzz :=
  mk_fuzz (fz_sys z) (fz_conn z) (fz_io z) (fz_dispatch z) (fz_report z) (fz_captured z)
    (fz_senders z) (fz_taken z) (fz_returned z) t (fz_rest z) (fz_failed z).
Definition with_host (c : option FFIConnection) (live : bool) (senders : nat) (z : Fuzz) : Fuzz :=
  mk_fuzz (fz_sys z) c (fz_io z || live) (fz_dispatch z || live) (fz_report z) (fz_captured z)
    senders (fz_taken z) (fz_returned z) (fz_task z) (fz_rest z) (fz_failed z).
Definition with_captured (h : Captured) (z : Fuzz) : Fuzz :=
  mk_fuzz (fz_sys z) (fz_conn z) (fz_io z) (fz_dispatch z) (fz_report z) h (fz_senders z)
    (fz_taken z) (fz_returned z) (fz_task z) (fz_rest z) (fz_failed z).

(** The next statement; an assertion that fails ends the host's thread. *)
Definition next (rest : list statement) (z : Fuzz) : Fuzz :=
  mk_fuzz (fz_sys z) (fz_conn z) (fz_io z) (fz_dispatch z) (fz_report z) (fz_captured z)
    (fz_senders z) (fz_taken z) (fz_returned z) (fz_task z) rest (fz_failed z).
Definition fail (z : Fuzz) : Fuzz :=
  mk_fuzz (fz_sys z) (fz_conn z) (fz_io z) (fz_dispatch z) (fz_report z) (fz_captured z)
    (fz_senders z) (fz_taken z) (fz_returned z) (fz_task z) [] true.

(** A call, polled: it blocks, and is polled again, or returns. *)
Definition call {A} (p : prog Sys A) (rest : list statement) (k : A -> Fuzz -> Fuzz) (z : Fuzz) : Fuzz :=
  match p (fz_sys z) with
  | Done a s => k a (next rest (with_sys s z))
  | Blocked s => with_sys s z
  | Panic s => fail (with_sys s z)
  end.

(** The new connection has its own sender of the event stream. *)
Definition host_step (z : Fuzz) : Fuzz :=
  match fz_rest z with
  | [] => z
  | st :: rest =>
      match st with
      | Conn_new user_data => call (rc_conn_new (Some tt) DISPATCH_CB user_data) rest
          (fun c z => with_host (Some c) false (S (fz_senders z)) z) z
      | Conn_send_callback user_data =>
          call (rc_conn_send_callback debug (fz_conn z) SEND_CB user_data) rest
          (fun r z => with_host (Some (fst r)) false (fz_senders z) z) z
      | Conn_connected endpoint_hostname =>
          call (rc_conn_connected debug (fz_conn z)
              (Some (String.list_byte_of_string endpoint_hostname))) rest
          (fun r z => with_host (Some (fst r)) true (fz_senders z) z) z
      | Conn_recv data => call (rc_conn_recv debug id 1 (fz_conn z) (Some data)) rest
          (fun ret z => match ret with RecvRet_Success => z | RecvRet_InvalidState => fail z end) z
      | Await_dispatch check =>
          match cap_dispatched (fz_captured z) with
          | [] => z
          | (callback_id, callback_data) :: q =>
              let z := next rest (with_captured (mk_captured (cap_sent (fz_captured z)) q) z) in
              if check callback_id callback_data then z else fail z
          end
      | Conn_dispatch_result correlation_id response =>
          call (rc_conn_dispatch_result id 1 (fz_conn z) correlation_id (Some response)) rest
            (fun _ z => z) z
      | Await_send check =>
          match cap_sent (fz_captured z) with
          | [] => z
          | send_data :: q =>
              let z := next rest (with_captured (mk_captured q (cap_dispatched (fz_captured z))) z) in
              if check send_data then z else fail z
          end
      | Conn_disconnected =>
          call (rc_conn_disconnected debug (join_task (fz_io z)) (join_task (fz_dispatch z)) (fz_conn z))
            rest (fun r z => with_host (Some (fst r)) false (fz_senders z) z) z
      | Conn_free => call (rc_conn_free debug (fz_conn z)) rest
          (fun r z => with_host (fst r) false (pred (fz_senders z)) z) z
      | Free => next rest (with_host (fz_conn z) false (pred (fz_senders z)) z)
      | Join_worker => if fz_returned z then next rest z else z
      end
  end.

(** [conn_events.next().await]: a connection is handed to a task of its own; the
    stream ends when no sender is left, and the runtime then runs no task. *)
Definition entry_step (z : Fuzz) : Fuzz :=
  let consumed n returned s task := mk_fuzz s (fz_conn z) (fz_io z) (fz_dispatch z) (fz_report z)
    (fz_captured z) (fz_senders z) n returned task (fz_rest z) (fz_failed z) in
  if fz_returned z then z
  else match nth_error (fr_events (sh_rest (fz_sys z))) (fz_taken z) with
  | Some (Event_Connected io dispatch _hostname) =>
      consumed (S (fz_taken z)) false (fz_sys z) (Task_spawned io dispatch)
  | Some _ => consumed (S (fz_taken z)) false (fz_sys z) (fz_task z)
  | None =>
      if decide (fz_senders z = 0) then
        consumed (fz_taken z) true
          (set_rest (fun r => mk_rest (fr_events r) false (fr_lib2ffi r) (fr_ffi2lib r) (fr_io_stop r)
             (fr_dispatch_stop r) (fr_tasks r)) (fz_sys z)) (fz_task z)
      else z
  end.

(** The task's handles are dropped: the transport and the publisher. *)
Definition drop_handles (s : Sys) : Sys :=
  set_req (mpsc_drop_tx (sh_req s)) (set_resp (mpsc_drop_rx (sh_resp s))
    (set_rest (fun r => mk_rest (fr_events r) (fr_events_open r) (mpsc_drop_tx (fr_lib2ffi r))
      (mpsc_drop_rx (fr_ffi2lib r)) (fr_io_stop r) (fr_dispatch_stop r) (fr_tasks r)) s)).

Definition end_task (t : conn_task) (z : Fuzz) : Fuzz := with_task t (with_sys (drop_handles (fz_sys z)) z).

Definition set_lib2ffi (c : mpsc ClientToServer) : Sys -> Sys :=
  set_rest (fun r => mk_rest (fr_events r) (fr_events_open r) c (fr_ffi2lib r) (fr_io_stop r)
    (fr_dispatch_stop r) (fr_tasks r)).
Definition set_ffi2lib (c : mpsc (result ServerToClient DecodingError)) : Sys -> Sys :=
  set_rest (fun r => mk_rest (fr_events r) (fr_events_open r) (fr_lib2ffi r) c (fr_io_stop r)
    (fr_dispatch_stop r) (fr_tasks r)).

(** [handle_conn], up to its next await. *)
Definition task_step (z : Fuzz) : Fuzz :=
  if fz_returned z then z
  else match fz_task z with
  | Task_none | Task_blocked | Task_panicked | Task_done => z
  | Task_spawned io dispatch =>
      let '(recv, _) := IOHandle_take_recv_stream io in
      match recv, on_spawn handler dispatch with
      | true, Some dispatch => with_task (Task_recv dispatch) z
      | _, _ => end_task Task_panicked z
      end
  | Task_recv dispatch =>
      let '(p, c) := mpsc_poll_recv (fr_ffi2lib (sh_rest (fz_sys z))) in
      let z := with_sys (set_ffi2lib c (fz_sys z)) z in
      match p with
      | Ready (Some v) => with_task (on_message handler dispatch v) z
      | Ready None => end_task Task_done z
      | Pending => z
      end
  | Task_dispatch dispatch request =>
      match DispatchPublisher_dispatch id 1 dispatch request (fz_sys z) with
      | Done (Ok _) s => with_task (on_dispatched handler dispatch) (with_sys s z)
      | Done (Err _) s | Panic s => end_task Task_panicked (with_sys s z)
      | Blocked s => with_task Task_blocked (with_sys s z)
      end
  | Task_response dispatch =>
      let '(p, c) := mpsc_poll_recv (sh_resp (fz_sys z)) in
      let z := with_sys (set_resp c (fz_sys z)) z in
      match p with
      | Ready (Some resp) => with_task (Task_send dispatch (forward_response resp)) z
      | Ready None => end_task Task_panicked z
      | Pending => z
      end
  | Task_send dispatch payload =>
      let '(r, c) := IOHandle_send payload (fr_lib2ffi (sh_rest (fz_sys z))) in
      let z := with_sys (set_lib2ffi c (fz_sys z)) z in
      match r with Ok _ => with_task (Task_recv dispatch) z | Err _ => end_task Task_panicked z end
  end.

(** One iteration of the FFI layer's tasks, as in [System]. *)
Definition io_step (z : Fuzz) : Fuzz :=
  if fz_io z then
    let r := sh_rest (fz_sys z) in
    let e := io_task do_send id 1 (mk_io (fr_lib2ffi r) (fr_io_stop r) (fz_captured z) []) in
    mk_fuzz (set_lib2ffi (iw_lib2ffi (final e)) (fz_sys z)) (fz_conn z) (negb (completed e))
      (fz_dispatch z) (fz_report z) (iw_host (final e)) (fz_senders z) (fz_taken z) (fz_returned z)
      (fz_task z) (fz_rest z) (fz_failed z)
  else z.

Definition dispatcher_step (z : Fuzz) : Fuzz :=
  if fz_dispatch z then
    let s := fz_sys z in
    let d := mk_shared (sh_req s) (sh_resp s)
      (mk_dt (fr_dispatch_stop (sh_rest s)) (fz_captured z) [] []) in
    match dispatch_step dispatch_cb (fz_report z) d with
    | Done (live, pending) d =>
        mk_fuzz (mk_shared (sh_req d) (sh_resp d) (sh_rest s)) (fz_conn z) (fz_io z) live pending
          (dt_host (sh_rest d)) (fz_senders z) (fz_taken z) (fz_returned z) (fz_task z) (fz_rest z)
          (fz_failed z)
    | Panic _ | Blocked _ => z
    end
  else z.

Inductive thread : Type := Host | Entry | Task | Io | Dispatcher.

Definition step (z : Fuzz) (t : thread) : Fuzz :=
  match t with
  | Host => host_step z
  | Entry => entry_step z
  | Task => task_step z
  | Io => io_step z
  | Dispatcher => dispatcher_step z
  end.

Definition run_threads (z : Fuzz) (schedule : list thread) : Fuzz := foldl step z schedule.

(** A new context, with its sender of the event stream, and the host's thread. *)
Definition fuzz_start (statements : list statement) : Fuzz :=
  mk_fuzz (mk_shared (mpsc_channel 1) (mpsc_channel 1)
      (mk_rest [] true (mpsc_channel 1) (mpsc_channel 1) false false None))
    None false false None (mk_captured [] []) 1 0 false Task_none statements false.

(** The host's thread has run to its end. *)
Definition passed (z : Fuzz) : bool :=
  match fz_rest z with [] => negb (fz_failed z) | _ => false end.

End Fuzz.

(** ** The targets *)

Section Targets.
Context `{ProtoTypes} `{!Prost}.

Definition clean_up : list statement := [Conn_disconnected; Conn_free; Free; Join_worker].

(** [ffi_io.rs]: the answer must decode. *)
Definition is_client_to_server (send_data : list u8) : bool :=
  negb (bool_decide (send_data = [])) && is_ok (decode_c2s send_data).

Definition ffi_io_target (data : list u8) : list statement :=
  [Conn_new 0%N; Conn_send_callback SEND_TX; Conn_connected ENDPOINT_HOSTNAME; Conn_recv data] ++
  (if decide (data = []) then [] else [Await_send is_client_to_server]) ++ clean_up.

(** [dispatch.rs]: the bytes the server must get for the host's response. *)
Definition expected_response (correlation_id : N) (response : list u8) : list u8 :=
  ClientToServer_to_bytes (DispatchResponse (CorrelationId_new correlation_id)
    (match decode_response_payload response with
     | Ok payload => DR_Payload payload
     | Err _ => DR_Error (V1DispatchError_code V1_Unspecified)
     end)).

Definition dispatch_target (message fuzzed_response : list u8) : list statement :=
  let response := if decide (fuzzed_response = []) then [x00] else fuzzed_response in
  [Conn_new DISPATCH_TX; Conn_send_callback SEND_TX; Conn_connected ENDPOINT_HOSTNAME; Conn_recv message] ++
  match decode_s2c message with
  | Ok (Some (S2C_Dispatch server_sent_id _ encoded_dispatch_request)) =>
      [Await_dispatch (fun callback_id callback_data =>
         bool_decide (server_sent_id = callback_id) &&
         bool_decide (encoded_dispatch_request = callback_data));
       Conn_dispatch_result server_sent_id response;
       Await_send (fun sent => bool_decide (expected_response server_sent_id response = sent))]
  | _ => []
  end ++ clean_up.

(** [test_dispatch] of connection.rs, [encoded] being the message and
    [encoded_dispatch_request] the payload in it.  Its [do_send], which keeps
    nothing, is not called. *)
Definition TEST_ENDPOINT_HOSTNAME : string := "config.datadoghq.com".
Definition CORRELATION_ID : N := 42.

Definition ffi_test_dispatch (encoded encoded_dispatch_request : list u8) : list statement :=
  [Conn_new DISPATCH_TX; Conn_send_callback 0%N; Conn_connected TEST_ENDPOINT_HOSTNAME; Conn_recv encoded;
   Await_dispatch (fun correlation_id got_data =>
     bool_decide (encoded_dispatch_request = got_data) && bool_decide (correlation_id = CORRELATION_ID))]
  ++ clean_up.

End Targets.
