(* ===== verification/FuzzRuns.v ===== *)
(** * Runs of the FFI fuzz targets

    Proves that the targets of [FuzzFfi] complete.  First, the threads do over any
    channels what they do over the documented queues ([Abstraction]).  Then a
    state of a target is a position in a protocol - how far the host is, where the
    one message is, which tasks still run - together with the values that travel;
    the protocol has less than a hundred positions, computed on sample values, and
    every step of the threads, whatever the values, is a step of the protocol
    ([Plays]).  In the protocol, a step that does anything raises a rank below
    [rounds_needed], and until the host has ended some thread can do something, so
    thirty rounds of any fair schedule reach the end ([Schedules]). *)

From stdpp Require Import base option list strings.
From Stdlib Require Import Strings.Byte NArith ZArith Lia.
From S2P Require Import Prelude Utf8 Hash Certificate ConnectionId Codec Mpsc Dispatch Runtime Fsm Actor Ffi FfiTasks World System Schedules FuzzFfi.

(** ** Channels as queues

    The threads do the same over any implementation of the channels as over the
    documented queues. *)

Definition simulates {S S' A} (v : S -> S') (p : prog S A) (q : prog S' A) : Prop := forall s,
  q (v s) = match p s with
            | Done a s => Done a (v s) | Panic s => Panic (v s) | Blocked s => Blocked (v s)
            end.

Section Simulates.
Context {S S' : Type} (v : S -> S').

Lemma simulates_ret {A} (a : A) : simulates v (mret a) (mret a).
Proof. done. Qed.
Lemma simulates_panic {A} : simulates v (panic (A:=A)) panic.
Proof. done. Qed.
Lemma simulates_modify f f' : (forall s, f' (v s) = v (f s)) -> simulates v (modify f) (modify f').
Proof. intros E s. unfold modify. by rewrite E. Qed.
Lemma simulates_bind {A B} (p : prog S A) q (k : A -> prog S B) k' :
  simulates v p q -> (forall a, simulates v (k a) (k' a)) -> simulates v (p ≫= k) (q ≫= k').
Proof.
  intros P K s. unfold mbind, prog_bind. rewrite (P s). destruct (p s); [apply K | done..].
Qed.
End Simulates.
#[local] Hint Resolve simulates_ret simulates_panic simulates_bind : rc.

Section Abstraction.
Context `{ProtoTypes} `{!Prost} `{M : Mpsc} `{!MpscLaws}.
Abbreviation queues := fifo_mpsc.
#[local] Arguments chan_poll_recv : simpl never.
#[local] Arguments chan_poll_send : simpl never.
#[local] Arguments chan_try_send : simpl never.

Definition view_shared {A B} (f : A -> B) (s : Shared (H0:=M) A) : Shared (H0:=queues) B :=
  @mk_shared _ queues _ (mpsc_view (sh_req s)) (mpsc_view (sh_resp s)) (f (sh_rest s)).

Definition view_rest (r : @FfiRest _ M) : @FfiRest _ queues :=
  @mk_rest _ queues (fr_events r) (fr_events_open r) (mpsc_view (fr_lib2ffi r))
    (mpsc_view (fr_ffi2lib r)) (fr_io_stop r) (fr_dispatch_stop r) (fr_tasks r).

Abbreviation view_sys := (view_shared view_rest).

Lemma simulates_publish e : simulates view_sys (publish_event (H1:=M) e) (publish_event (H1:=queues) e).
Proof. intros s. unfold publish_event. simpl. by destruct (fr_events_open (sh_rest s)). Qed.

Lemma simulates_not_null {A} (o : option A) :
  simulates view_sys (assert_not_null (H1:=M) o) (assert_not_null (H1:=queues) o).
Proof. by destruct o. Qed.

Lemma simulates_invalid {A} debug (a : A) :
  simulates view_sys (invalid_state (H1:=M) debug a) (invalid_state (H1:=queues) debug a).
Proof. by destruct debug. Qed.

Lemma simulates_join live :
  simulates view_sys (join_task (H1:=M) live) (join_task (H1:=queues) live).
Proof. by destruct live. Qed.
#[local] Hint Resolve simulates_publish simulates_not_null simulates_invalid simulates_join : rc.

Lemma simulates_ffi2lib payload :
  simulates view_sys (ffi2lib_send (H1:=M) id 1 payload) (ffi2lib_send (H1:=queues) id 1 payload).
Proof.
  intros s. simpl. destruct (mpsc_poll_send payload (fr_ffi2lib (sh_rest s))) as [p c] eqn:E.
  apply mpsc_poll_send_view in E. rewrite E. by destruct p.
Qed.

Lemma simulates_resp_send {A B} (f : A -> B) x :
  simulates (view_shared f) (resp_send (H0:=M) id 1 x) (resp_send (H0:=queues) id 1 x).
Proof.
  intros s. simpl. destruct (mpsc_poll_send x (sh_resp s)) as [p c] eqn:E.
  apply mpsc_poll_send_view in E. rewrite E. by destruct p.
Qed.

Lemma simulates_new user_data : simulates view_sys (rc_conn_new (H1:=M) (Some tt) DISPATCH_CB user_data)
  (rc_conn_new (H1:=queues) (Some tt) DISPATCH_CB user_data).
Proof. apply simulates_bind; [done|]. intros _. by apply simulates_bind; eauto with rc. Qed.

Lemma simulates_callback debug c ud : simulates view_sys (rc_conn_send_callback (H1:=M) debug c SEND_CB ud)
  (rc_conn_send_callback (H1:=queues) debug c SEND_CB ud).
Proof.
  apply simulates_bind; [auto with rc|]. intros conn. unfold set_send_callback.
  rewrite !decide_False by done. destruct (fc_state conn); eauto with rc.
Qed.

Lemma view_open_link send ud s :
  open_link (H1:=queues) send ud (view_sys s) = view_sys (open_link (H1:=M) send ud s).
Proof.
  unfold open_link, view_shared, view_rest, set_resp. simpl. by rewrite view_clone_tx, !view_channel.
Qed.

Lemma simulates_connected debug c h : simulates view_sys (rc_conn_connected (H1:=M) debug c h)
  (rc_conn_connected (H1:=queues) debug c h).
Proof.
  apply simulates_bind; [auto with rc|]. intros conn. apply simulates_bind; [auto with rc|].
  intros bytes. apply simulates_bind; [auto with rc|]. intros name. unfold set_connected.
  destruct (fc_state conn); [eauto with rc| |eauto with rc..].
  apply simulates_bind; [|eauto with rc]. apply simulates_modify, view_open_link.
Qed.

Lemma simulates_recv debug c data : simulates view_sys (rc_conn_recv (H1:=M) debug id 1 c data)
  (rc_conn_recv (H1:=queues) debug id 1 c data).
Proof.
  apply simulates_bind; [auto with rc|]. intros conn. apply simulates_bind; [auto with rc|].
  intros payload. case_decide; [done|]. unfold recv_incoming.
  destruct (fc_state conn); eauto with rc. apply simulates_bind; [apply simulates_ffi2lib | done].
Qed.

Lemma simulates_result c i data : simulates view_sys (rc_conn_dispatch_result (H1:=M) id 1 c i data)
  (rc_conn_dispatch_result (H1:=queues) id 1 c i data).
Proof.
  apply simulates_bind; [auto with rc|]. intros conn. apply simulates_bind; [auto with rc|].
  intros payload. case_decide; [done|]. unfold handle_dispatch_result.
  destruct (fc_state conn); try done. apply simulates_bind; [|done].
  by apply simulates_bind; [apply simulates_resp_send|].
Qed.

Lemma simulates_disconnected debug io dt c :
  simulates view_sys (rc_conn_disconnected (H1:=M) debug (join_task io) (join_task dt) c)
    (rc_conn_disconnected (H1:=queues) debug (join_task io) (join_task dt) c).
Proof.
  apply simulates_bind; [auto with rc|]. intros conn. unfold set_disconnected.
  assert (J : forall live, simulates view_sys (expect_joined (H1:=M) (join_task live))
    (expect_joined (H1:=queues) (join_task live))) by by intros [].
  destruct (fc_state conn); [eauto with rc..| |eauto with rc].
  do 4 (apply simulates_bind; [first [by apply simulates_modify | apply J | apply simulates_publish]|intros _]).
  apply simulates_bind; [|done]. apply simulates_modify. intros s.
  unfold drop_link, view_shared, view_rest, set_resp. simpl. by rewrite !view_drop_tx.
Qed.

Lemma simulates_free debug c : simulates view_sys (rc_conn_free (H1:=M) debug c)
  (rc_conn_free (H1:=queues) debug c).
Proof.
  apply simulates_bind; [auto with rc|]. intros conn. apply simulates_bind; [|done].
  unfold FFIConnection_free. destruct (fc_state conn); eauto with rc.
Qed.

Lemma simulates_dispatch p d : simulates view_sys (DispatchPublisher_dispatch (H0:=M) id 1 p d)
  (DispatchPublisher_dispatch (H0:=queues) id 1 p d).
Proof.
  apply simulates_bind.
  { intros s. unfold req_try_send. simpl. destruct (mpsc_try_send d (sh_req s)) as [r c] eqn:E.
    apply mpsc_try_send_view in E. by rewrite E. }
  intros [[]|e]; [done|]. apply simulates_bind.
  { intros s. unfold resp_upgrade. simpl. destruct (mpsc_upgrade (sh_resp s)) as [c|] eqn:E;
      apply mpsc_upgrade_view in E; simpl in E; by rewrite <- E. }
  intros [tx|]; [|done]. apply simulates_bind; [apply simulates_resp_send|]. intros _.
  apply simulates_bind; [|done]. apply simulates_modify. intros s.
  unfold view_shared, set_resp. simpl. by rewrite view_drop_tx.
Qed.

Definition view_fuzz (z : @Fuzz _ M) : @Fuzz _ queues :=
  @mk_fuzz _ queues (view_sys (fz_sys z)) (fz_conn z) (fz_io z) (fz_dispatch z) (fz_report z)
    (fz_captured z) (fz_senders z) (fz_taken z) (fz_returned z) (fz_task z) (fz_rest z) (fz_failed z).

Lemma view_call {A} (p : prog (@Sys _ M) A) q rest k k' z : simulates view_sys p q ->
  (forall a z, k' a (view_fuzz z) = view_fuzz (k a z)) ->
  view_fuzz (call p rest k z) = call q rest k' (view_fuzz z).
Proof.
  intros P K. unfold call. simpl. rewrite (P (fz_sys z)).
  destruct (p (fz_sys z)) as [a s|s|s]; [|done..]. by rewrite <- K.
Qed.

Lemma view_host_step debug z :
  view_fuzz (host_step (H1:=M) debug z) = host_step (H1:=queues) debug (view_fuzz z).
Proof.
  unfold host_step. simpl. destruct (fz_rest z) as [|[] rest]; try done.
  - apply view_call; [apply simulates_new | done].
  - apply view_call; [apply simulates_callback | done].
  - apply view_call; [apply simulates_connected | done].
  - apply view_call; [apply simulates_recv | by intros []].
  - destruct (cap_dispatched (fz_captured z)) as [|[i d] q]; [done|]. by destruct (check i d).
  - apply view_call; [apply simulates_result | done].
  - destruct (cap_sent (fz_captured z)) as [|x q]; [done|]. by destruct (check x).
  - apply view_call; [apply simulates_disconnected | done].
  - apply view_call; [apply simulates_free | done].
  - by destruct (fz_returned z).
Qed.

Lemma view_entry_step z : view_fuzz (entry_step (H1:=M) z) = entry_step (H1:=queues) (view_fuzz z).
Proof.
  unfold entry_step. simpl. destruct (fz_returned z); [done|].
  destruct (nth_error _ _) as [[]|]; try done. by case_decide.
Qed.

Lemma view_end_task t z : view_fuzz (end_task (H1:=M) t z) = end_task (H1:=queues) t (view_fuzz z).
Proof.
  unfold end_task, drop_handles, view_fuzz, view_shared, view_rest. simpl.
  by rewrite !view_drop_tx, !view_drop_rx.
Qed.

Lemma view_task_step handler z :
  view_fuzz (task_step (H1:=M) handler z) = task_step (H1:=queues) handler (view_fuzz z).
Proof.
  unfold task_step. simpl. destruct (fz_returned z); [done|].
  destruct (fz_task z) as [|io p|p|p d| |p|p m| |]; try done.
  - destruct (io_rx io), (on_spawn handler p); try done; apply view_end_task.
  - destruct (mpsc_poll_recv (fr_ffi2lib (sh_rest (fz_sys z)))) as [r c] eqn:E.
    apply mpsc_poll_recv_view in E. rewrite E. destruct r as [[v|]|]; [done | apply view_end_task | done].
  - rewrite (simulates_dispatch p d (fz_sys z)).
    destruct (DispatchPublisher_dispatch id 1 p d (fz_sys z)) as [[[]|e] s|s|s]; try done; apply view_end_task.
  - destruct (mpsc_poll_recv (sh_resp (fz_sys z))) as [r c] eqn:E.
    apply mpsc_poll_recv_view in E. rewrite E. destruct r as [[v|]|]; [done | apply view_end_task | done].
  - unfold IOHandle_send. simpl.
    destruct (mpsc_try_send m (fr_lib2ffi (sh_rest (fz_sys z)))) as [r c] eqn:E.
    apply mpsc_try_send_view in E. rewrite E.
    destruct r as [[]|[]]; [done | apply view_end_task..].
Qed.

Lemma view_io_step z : view_fuzz (io_step (H1:=M) z) = io_step (H1:=queues) (view_fuzz z).
Proof.
  unfold io_step. simpl. destruct (fz_io z); [|done].
  unfold io_exit, io_poll_recv, modify, gets, mbind, prog_bind, id. simpl.
  destruct (fr_io_stop (sh_rest (fz_sys z))); simpl.
  { unfold view_fuzz, view_shared, view_rest. simpl. by rewrite view_drop_rx. }
  destruct (mpsc_poll_recv (fr_lib2ffi (sh_rest (fz_sys z)))) as [r c] eqn:E.
  apply mpsc_poll_recv_view in E. rewrite E. destruct r as [[v|]|]; [done | | done].
  unfold view_fuzz, view_shared, view_rest. simpl. by rewrite view_drop_rx.
Qed.

Lemma view_dispatcher_step cb z :
  view_fuzz (dispatcher_step (H1:=M) cb z) = dispatcher_step (H1:=queues) cb (view_fuzz z).
Proof.
  unfold dispatcher_step. simpl. destruct (fz_dispatch z); [|done].
  unfold dispatch_step, report_polls, dispatch_iteration, dt_exit, DispatchStream_poll_next, call_dispatch,
    modify, gets, mbind, prog_bind. simpl.
  destruct (fz_report z) as [x|]; simpl.
  - destruct (mpsc_poll_send x (sh_resp (fz_sys z))) as [r c] eqn:E. apply mpsc_poll_send_view in E.
    rewrite E. destruct r as [[[]|]|]; try done.
    unfold view_fuzz, view_shared, view_rest. simpl. by rewrite view_drop_rx, view_drop_tx.
  - destruct (fr_dispatch_stop (sh_rest (fz_sys z))); simpl.
    { unfold view_fuzz, view_shared, view_rest. simpl. by rewrite view_drop_rx, view_drop_tx. }
    destruct (mpsc_poll_recv (sh_req (fz_sys z))) as [r c] eqn:E. apply mpsc_poll_recv_view in E.
    rewrite E. destruct r as [[d|]|]; [by destruct (cb _ _ _ _) | | done].
    unfold view_fuzz, view_shared, view_rest. simpl. by rewrite view_drop_rx, view_drop_tx.
Qed.

Lemma view_run debug cb handler schedule z :
  view_fuzz (run_threads (H1:=M) debug cb handler z schedule) =
  run_threads (H1:=queues) debug cb handler (view_fuzz z) schedule.
Proof.
  revert z. induction schedule as [|t schedule IH]; intros z; [done|]. simpl. rewrite IH. f_equal.
  destruct t; [apply view_host_step | apply view_entry_step | apply view_task_step | apply view_io_step
    | apply view_dispatcher_step].
Qed.

Lemma view_start statements : view_fuzz (fuzz_start (H1:=M) statements) = fuzz_start (H1:=queues) statements.
Proof. unfold view_fuzz, fuzz_start, view_shared, view_rest. simpl. by rewrite !view_channel. Qed.
End Abstraction.

(** ** The protocol of a target

    What a state of the threads is, once the values that travel are left out:
    how far the host is, where the one message is, and which of the tasks are
    still running. *)

Inductive task_at : Type := At_none | At_spawned | At_recv | At_dispatch | At_response | At_send | At_done.

Record protocol : Type := mk_protocol {
  at_host : nat;
  at_stop : bool;
  at_io : bool;
  at_dispatcher : bool;
  at_taken : nat;
  at_returned : bool;
  at_task : task_at;
  at_in : bool;
  at_req : bool;
  at_captured : bool;
  at_resp : bool;
  at_out : bool;
  at_sent : bool
}.

#[local] Instance task_at_eq_dec : EqDecision task_at.
Proof. solve_decision. Defined.
#[local] Instance protocol_eq_dec : EqDecision protocol.
Proof. solve_decision. Defined.

Section Protocol.
Context `{ProtoTypes}.
#[local] Existing Instance fifo_mpsc.

(** The values of a target: the host's name, whether its task reads responses, its statements, and
    the message at each place. *)
Record travels : Type := mk_travels {
  tr_user_data : pointer;
  tr_send_data : pointer;
  tr_endpoint : string;
  tr_reads : bool;
  tr_script : list statement;
  tr_in : result ServerToClient DecodingError;
  tr_req : Dispatch;
  tr_captured : N * list u8;
  tr_resp : DispatchResult;
  tr_out : ClientToServer;
  tr_sent : list u8
}.

Context (x : travels).

(** The statements before the clean-up. *)
Definition last_call : nat := length (tr_script x) - 4.

Definition held {A} (b : bool) (a : A) : list A := if b then [a] else [].

Definition publisher_of (rx : bool) : DispatchPublisher :=
  mk_publisher request_tx (if rx then Some response_rx else None) response_weak.

Definition fz_connected : ConnectionEvent :=
  Event_Connected IOHandle_new (publisher_of true) (EndpointHostname_from (tr_endpoint x)).

Definition task_of (t : task_at) : conn_task :=
  match t with
  | At_none => Task_none
  | At_spawned => Task_spawned IOHandle_new (publisher_of true)
  | At_recv => Task_recv (publisher_of (negb (tr_reads x)))
  | At_dispatch => Task_dispatch (publisher_of (negb (tr_reads x))) (tr_req x)
  | At_response => Task_response (publisher_of (negb (tr_reads x)))
  | At_send => Task_send (publisher_of (negb (tr_reads x))) (tr_out x)
  | At_done => Task_done
  end.

Definition conn_of (h : nat) : option FFIConnection :=
  let c st := Some (mk_ffi_connection DISPATCH_CB (mk_dispatch_user_data (tr_user_data x)) st) in
  if h <=? 0 then None
  else if h <=? 1 then c Init
  else if h <=? 2 then c (Configured SEND_CB (mk_send_user_data (tr_send_data x)))
  else if h <=? last_call then c (Connected (mk_responder response_tx))
  else if h <=? S last_call then c Disconnected
  else None.

Definition sys_of (a : protocol) : Sys :=
  let h := at_host a in
  let over := match at_task a with At_done => true | _ => false end in
  let tx := if over then 0 else 1 in
  let closed := last_call <? h in
  let events := held (0 <? h) Event_Init ++ held (2 <? h) fz_connected ++ held closed Event_Disconnected
    ++ held (S last_call <? h) Event_Release in
  if h <=? 2 then
    mk_shared (mk_chan [] 1 true 1) (mk_chan [] 1 true 1)
      (mk_rest events (negb (at_returned a)) (mk_chan [] 1 true 1) (mk_chan [] 1 true 1) false false None)
  else
    mk_shared
      (mk_chan (held (at_req a) (tr_req x)) DISPATCH_QUEUE_LEN (at_dispatcher a) tx)
      (mk_chan (held (at_resp a) (tr_resp x)) (DISPATCH_QUEUE_LEN + 1) (negb over)
        ((if at_dispatcher a then 1 else 0) + (if closed then 0 else 1)))
      (mk_rest events (negb (at_returned a))
        (mk_chan (held (at_out a) (tr_out x)) QUEUE_BUFFER_LEN (at_io a) tx)
        (mk_chan (held (at_in a) (tr_in x)) QUEUE_BUFFER_LEN (negb over) (if closed then 0 else 1))
        (at_stop a) (at_stop a) (Some (SEND_CB, mk_send_user_data (tr_send_data x)))).

Definition fuzz_of (a : protocol) : Fuzz :=
  let h := at_host a in
  let live b := b && negb (h <=? 2) in
  mk_fuzz (sys_of a) (conn_of h) (live (at_io a)) (live (at_dispatcher a)) None
    (mk_captured (held (at_sent a) (tr_sent x)) (held (at_captured a) (tr_captured x)))
    (if h <=? 0 then 1 else if h <=? S last_call then 2 else if h <=? S (S last_call) then 1 else 0)
    (at_taken a) (at_returned a) (task_of (at_task a)) (drop h (tr_script x)) false.

(** Reading it off a state. *)
Definition protocol_of (z : Fuzz) : protocol :=
  let nonempty {A} (c : chan A) := match c_queue c with [] => false | _ => true end in
  let h := length (tr_script x) - length (fz_rest z) in
  let s := fz_sys z in
  let live b := (h <=? 2) || b in
  mk_protocol h (fr_io_stop (sh_rest s)) (live (fz_io z)) (live (fz_dispatch z)) (fz_taken z)
    (fz_returned z)
    (match fz_task z with
     | Task_none => At_none | Task_spawned _ _ => At_spawned | Task_recv _ => At_recv
     | Task_dispatch _ _ => At_dispatch | Task_response _ => At_response | Task_send _ _ => At_send
     | _ => At_done
     end)
    (nonempty (fr_ffi2lib (sh_rest s))) (nonempty (sh_req s))
    (match cap_dispatched (fz_captured z) with [] => false | _ => true end)
    (nonempty (sh_resp s)) (nonempty (fr_lib2ffi (sh_rest s)))
    (match cap_sent (fz_captured z) with [] => false | _ => true end).

End Protocol.

Definition protocol_start : protocol :=
  mk_protocol 0 false true true 0 false At_none false false false false false false.

(** *** Every fair schedule makes progress *)

Definition all_threads : list thread := [Host; Entry; Task; Io; Dispatcher].

Lemma threads_listed t : t ∈ all_threads.
Proof. destruct t; repeat constructor. Qed.

(** What has happened so far: the calls that returned, the events taken, the
    tasks that ended, and how far the message is. *)
Definition rank (a : protocol) : nat :=
  let count (b : bool) := if b then 1 else 0 in
  at_host a + count (at_stop a) + count (negb (at_io a)) + count (negb (at_dispatcher a))
  + at_taken a + count (at_returned a)
  + (match at_task a with At_none | At_spawned => 0 | At_done => 2 | _ => 1 end)
  + (if at_host a <? 4 then 0
     else if at_in a then 0
     else match at_task a with
          | At_dispatch => 1
          | At_response => if at_req a then 2 else 3
          | At_send => 4
          | _ => if at_out a || at_req a then 5 else 6
          end).

Definition rounds_needed : nat := 30.

(** The host's thread, of so many statements, has ended. *)
Definition ended_at (len : nat) (a : protocol) : bool := at_host a =? len.

(** At its end, nothing that a callback sent to the host is left unread. *)
Definition read_up (len : nat) (states : list protocol) : bool :=
  forallb (fun a => implb (ended_at len a) (negb (at_captured a) && negb (at_sent a))) states.

Abbreviation plan_progresses next_at len states :=
  (progresses all_threads next_at protocol_start rank rounds_needed (ended_at len) states).

(** The host's thread has run to its end without a failed assertion, and has
    read everything the callbacks were called with: it has been called exactly
    as often as its statements wait for a call. *)
Definition completes `{ProtoTypes} `{Mpsc} (z : Fuzz) : Prop :=
  passed z = true /\ fz_captured z = mk_captured [] [].

Section Simulation.
Context `{ProtoTypes} `{!Prost} (debug : bool)
  (cb : N -> list u8 -> N -> Captured -> DispatchRet * Captured)
  (handler : Handler).
Context (x : travels) (next_at : protocol -> thread -> protocol) (states : list protocol).
#[local] Existing Instance fifo_mpsc.

Lemma fair_passes (Sim : forall a t, a ∈ states ->
    step debug cb handler (fuzz_of x a) t = fuzz_of x (next_at a t))
  (P : plan_progresses next_at (length (tr_script x)) states = true /\
       read_up (length (tr_script x)) states = true) schedule :
  fair rounds_needed schedule ->
  completes (run_threads debug cb handler (fuzz_start (tr_script x)) schedule).
Proof.
  destruct P as [P U].
  intros F. change (fuzz_start (tr_script x)) with (fuzz_of x protocol_start).
  destruct (fair_simulated all_threads threads_listed next_at _ rank rounds_needed _ states P
    (step debug cb handler) (fuzz_of x) Sim schedule F) as (a & Ha & E & D).
  unfold run_threads. rewrite E. unfold read_up in U. rewrite forallb_forall in U.
  specialize (U a (proj1 (list_elem_of_In _ _) Ha)). rewrite D in U.
  apply andb_prop in U as [U1%negb_true_iff U2%negb_true_iff]. apply Nat.eqb_eq in D.
  unfold completes, passed, fuzz_of. simpl. by rewrite D, drop_all, U1, U2.
Qed.

End Simulation.

(** *** The protocols of the targets *)

Section Plans.
Context `{ProtoTypes} `{!Prost}.

Definition statements (user_data send_data : pointer) (endpoint : string) (message : list u8) (awaits : list statement) :
  list statement :=
  [Conn_new user_data; Conn_send_callback send_data; Conn_connected endpoint; Conn_recv message] ++ awaits ++ clean_up.

(** The bytes that a callback of the host reads. *)
Definition as_read (data : list u8) : list u8 := from_raw_parts data (len_u32 data).

(** A message [v] that makes the client send [m], the host awaiting it. *)
Definition travels_of (user_data send_data : pointer) (endpoint : string) (reads : bool) (message : list u8) (awaits : list statement)
  (v : result ServerToClient DecodingError) (d : Dispatch) (r : DispatchResult) (m : ClientToServer) :
  travels :=
  mk_travels user_data send_data endpoint reads (statements user_data send_data endpoint message awaits) v d
    (CorrelationId_get (d_correlation_id d), as_read (Payload_as_bytes (d_payload d))) r m
    (as_read (ClientToServer_to_bytes m)).

Definition result_of (correlation_id : N) (response : list u8) : DispatchResult :=
  mk_dispatch_result (CorrelationId_new correlation_id)
    (map_err ReplyDeserialisation (decode_response_payload response)).

End Plans.

(** Sample values, on which the steps of the protocols are computed. *)
Definition sample (reads : bool) (message : list u8) (awaits : list statement) : @travels toy_proto :=
  let r := @mk_dispatch_result toy_proto (CorrelationId_new 7) (Ok [x0a]) in
  @travels_of toy_proto toy_prost 0%N SEND_TX ENDPOINT_HOSTNAME reads message awaits
    (@ServerToClient_try_from toy_proto toy_prost message)
    (mk_dispatch (CorrelationId_new 7) (Payload_from [])) r (forward_response r).

Definition protocol_step (handler : @Handler toy_proto) (x : @travels toy_proto) (a : protocol) (t : thread) : protocol :=
  @protocol_of toy_proto x (@step toy_proto toy_prost fifo_mpsc false do_dispatch handler
    (@fuzz_of toy_proto x a) t).

Definition dispatch_awaits (check : N -> list u8 -> bool) (i : N) (response : list u8)
  (check_sent : list u8 -> bool) : list statement :=
  [Await_dispatch check; Conn_dispatch_result i response; Await_send check_sent].

Definition dispatch_protocol : protocol -> thread -> protocol :=
  protocol_step dispatch_handler
    (sample true [x04] (dispatch_awaits (fun _ _ => true) 7 [x0a] (fun _ => true))).
Definition echo_protocol : protocol -> thread -> protocol :=
  protocol_step echo_handler (sample false [x01] [Await_send (fun _ => true)]).
Definition ignored_protocol : protocol -> thread -> protocol :=
  protocol_step dispatch_handler (sample true [x01] []).
Definition empty_protocol : protocol -> thread -> protocol :=
  protocol_step dispatch_handler (sample true [] []).

Definition unanswered_protocol : protocol -> thread -> protocol :=
  protocol_step dispatch_echo_handler (sample false [x04] [Await_dispatch (fun _ _ => true)]).

Definition dispatch_states : list protocol := Eval vm_compute in
  reachable all_threads dispatch_protocol protocol_start 200.
Definition echo_states : list protocol := Eval vm_compute in
  reachable all_threads echo_protocol protocol_start 200.
Definition ignored_states : list protocol := Eval vm_compute in
  reachable all_threads ignored_protocol protocol_start 200.
Definition empty_states : list protocol := Eval vm_compute in
  reachable all_threads empty_protocol protocol_start 200.
Definition unanswered_states : list protocol := Eval vm_compute in
  reachable all_threads unanswered_protocol protocol_start 200.

Lemma dispatch_progresses : plan_progresses dispatch_protocol 11 dispatch_states = true /\ read_up 11 dispatch_states = true.
Proof. split; vm_compute; reflexivity. Qed.
Lemma echo_progresses : plan_progresses echo_protocol 9 echo_states = true /\ read_up 9 echo_states = true.
Proof. split; vm_compute; reflexivity. Qed.
Lemma ignored_progresses : plan_progresses ignored_protocol 8 ignored_states = true /\ read_up 8 ignored_states = true.
Proof. split; vm_compute; reflexivity. Qed.
Lemma empty_progresses : plan_progresses empty_protocol 8 empty_states = true /\ read_up 8 empty_states = true.
Proof. split; vm_compute; reflexivity. Qed.
Lemma unanswered_progresses : plan_progresses unanswered_protocol 9 unanswered_states = true /\ read_up 9 unanswered_states = true.
Proof. split; vm_compute; reflexivity. Qed.

Section Plays.
Context `{ProtoTypes} `{!Prost} (debug : bool) (user_data send_data : pointer).
#[local] Existing Instance fifo_mpsc.

Lemma empty_plays cb (reads : bool) v d r m : let x := travels_of user_data send_data ENDPOINT_HOSTNAME reads [] [] v d r m in
  forall a t, a ∈ empty_states ->
  step debug cb (if reads then dispatch_handler else echo_handler) (fuzz_of x a) t
    = fuzz_of x (empty_protocol a t).
Proof. intros x. destruct reads; plays empty_states by reflexivity. Qed.

Lemma ignored_plays cb b bs v d r m :
  ServerToClient_try_from (b :: bs) = v -> (forall p, dispatch_message p v = Task_recv p) ->
  let x := travels_of user_data send_data ENDPOINT_HOSTNAME true (b :: bs) [] v d r m in
  forall a t, a ∈ ignored_states ->
  step debug cb dispatch_handler (fuzz_of x a) t = fuzz_of x (ignored_protocol a t).
Proof.
  intros Hv Hm x. plays ignored_states by (first [reflexivity
    | cbv -[ServerToClient_try_from len_u32 from_raw_parts ClientToServer_to_bytes dispatch_message];
      rewrite ?Hv, ?Hm; reflexivity]).
Qed.

Lemma echo_plays cb b bs v d r check :
  ServerToClient_try_from (b :: bs) = v -> check (as_read (ClientToServer_to_bytes Pong)) = true ->
  let x := travels_of user_data send_data ENDPOINT_HOSTNAME false (b :: bs) [Await_send check] v d r Pong in
  forall a t, a ∈ echo_states ->
  step debug cb echo_handler (fuzz_of x a) t = fuzz_of x (echo_protocol a t).
Proof.
  intros Hv Hm x. plays echo_states by (first [reflexivity
    | cbv -[ServerToClient_try_from as_read len_u32 from_raw_parts ClientToServer_to_bytes]; rewrite ?Hv, ?Hm; reflexivity]).
Qed.

Lemma dispatch_plays b bs i req sig c cs check check_sent :
  let v := Ok (ServerDispatch (CorrelationId_new i) (Payload_from req) sig) in
  let r := result_of i (c :: cs) in
  ServerToClient_try_from (b :: bs) = v -> check i (as_read req) = true ->
  check_sent (as_read (ClientToServer_to_bytes (forward_response r))) = true ->
  let x := travels_of user_data send_data ENDPOINT_HOSTNAME true (b :: bs) (dispatch_awaits check i (c :: cs) check_sent) v
    (mk_dispatch (CorrelationId_new i) (Payload_from req)) r (forward_response r) in
  forall a t, a ∈ dispatch_states ->
  step debug do_dispatch dispatch_handler (fuzz_of x a) t = fuzz_of x (dispatch_protocol a t).
Proof.
  intros v r Hv Hc Hs x. plays dispatch_states by (first [reflexivity
    | cbv -[ServerToClient_try_from as_read len_u32 from_raw_parts ClientToServer_to_bytes forward_response
        result_of decode_response_payload v r]; rewrite ?Hv, ?Hc, ?Hs; reflexivity]).
Qed.

Lemma unanswered_plays b bs i req sig check r m :
  let v := Ok (ServerDispatch (CorrelationId_new i) (Payload_from req) sig) in
  ServerToClient_try_from (b :: bs) = v -> check i (as_read req) = true ->
  let x := travels_of user_data send_data TEST_ENDPOINT_HOSTNAME false (b :: bs) [Await_dispatch check] v
    (mk_dispatch (CorrelationId_new i) (Payload_from req)) r m in
  forall a t, a ∈ unanswered_states ->
  step debug do_dispatch dispatch_echo_handler (fuzz_of x a) t = fuzz_of x (unanswered_protocol a t).
Proof.
  intros v Hv Hc x. plays unanswered_states by (first [reflexivity
    | cbv -[ServerToClient_try_from as_read len_u32 from_raw_parts ClientToServer_to_bytes v];
      rewrite ?Hv, ?Hc; reflexivity]).
Qed.
End Plays.

(** ** Properties *)

(** An empty buffer is the encoding of a message without content. *)
Class ProstDefaults `{Prost} : Prop := {
  decode_s2c_empty : decode_s2c [] = Ok None;
  decode_c2s_empty : decode_c2s [] = Ok None
}.

(** The length argument of a callback can express the length of the data. *)
Definition fits_u32 (data : list u8) : Prop := (N.of_nat (length data) < 2 ^ 32)%N.

Lemma as_read_fits data : fits_u32 data -> as_read data = data.
Proof.
  intros F. unfold as_read, from_raw_parts, len_u32. rewrite N.mod_small by done.
  by rewrite Nat2N.id, take_ge.
Qed.

Section FuzzProperties.
Context `{ProtoTypes} `{!Prost} `{!ProstLaws} `{!ProstDefaults} `{MpscLaws}.

(** The channels' implementation makes no difference: run by any schedule over
    any channels that keep the documented laws, the five threads reach exactly the
    state they reach over plain bounded queues, in the channels' contents and in
    everything else. *)
Lemma threads_over_queues debug cb handler script schedule :
  view_fuzz (run_threads debug cb handler (fuzz_start script) schedule) =
  run_threads (H1:=fifo_mpsc) debug cb handler (fuzz_start script) schedule.
Proof. by rewrite view_run, view_start. Qed.

Lemma fair_on_queues debug cb handler script schedule :
  completes (run_threads (H1:=fifo_mpsc) debug cb handler (fuzz_start script) schedule) ->
  completes (run_threads debug cb handler (fuzz_start script) schedule).
Proof. intros P. rewrite <- view_start, <- view_run in P. exact P. Qed.

(** C14. The I/O fuzz target completes on every input, in debug and release builds
    and under every fair interleaving of the host, the entrypoint, its task and
    the two tasks of the connection, given that the encoding of a pong is shorter
    than 4 GiB: the host gets exactly the one answer it waits for - none for an
    empty input - which decodes as a message to the server, no call panics or
    fails, and disconnecting, releasing and freeing all return.  Thirty rounds are
    enough. *)
Theorem ffi_io_passes debug data schedule : fits_u32 (ClientToServer_to_bytes Pong) ->
  fair rounds_needed schedule ->
  completes (run_threads debug no_dispatch echo_handler (fuzz_start (ffi_io_target data)) schedule).
Proof.
  intros Fit F. apply fair_on_queues. set (d := mk_dispatch (CorrelationId_new 0) (Payload_from [])).
  set (r := result_of 0 []). destruct data as [|b bs].
  - refine (fair_passes _ _ _ (travels_of 0%N SEND_TX ENDPOINT_HOSTNAME false [] [] (Ok Ping) d r Pong) empty_protocol empty_states _ empty_progresses schedule F). apply (empty_plays _ _ _ _ false).
  - refine (fair_passes _ _ _ (travels_of 0%N SEND_TX ENDPOINT_HOSTNAME false (b :: bs) [Await_send is_client_to_server] _ d r Pong)
      echo_protocol echo_states _ echo_progresses schedule F).
    apply echo_plays; [done|]. rewrite as_read_fits by done. unfold is_client_to_server.
    unfold ClientToServer_to_bytes. rewrite decode_encode_c2s. rewrite bool_decide_false; [done|].
    intros E. pose proof (decode_encode_c2s (Some (c2s_to_wire Pong))) as D.
    by rewrite E, decode_c2s_empty in D.
Qed.

(** The payload handed to the host and the answer fit into a buffer. *)
Definition dispatch_fits (message response : list u8) : Prop :=
  match decode_s2c message with
  | Ok (Some (S2C_Dispatch i _ req)) => fits_u32 req /\ fits_u32 (expected_response i response)
  | _ => True
  end.

(** The response that the target uses. *)
Definition nonempty_response (fuzzed : list u8) : list u8 := if decide (fuzzed = []) then [x00] else fuzzed.

(** C13. The dispatch fuzz target completes, in debug and release builds and
    under every fair interleaving of the five threads, on every message and every
    response - if the message is a dispatch request, one whose payload and whose
    answer are shorter than 4 GiB, the length the callbacks can be told: a
    dispatch request reaches the host's callback once, with the server's
    correlation identifier and payload unchanged, and the host's response - or, if
    it does not decode, an unspecified error - is sent back once, under that
    identifier; on every other message neither callback is called; and
    disconnecting, releasing and freeing return.  Thirty rounds are enough. *)
Theorem dispatch_target_passes debug message fuzzed schedule :
  dispatch_fits message (nonempty_response fuzzed) -> fair rounds_needed schedule ->
  completes (run_threads debug do_dispatch dispatch_handler
    (fuzz_start (dispatch_target message fuzzed)) schedule).
Proof.
  intros Fit F. apply fair_on_queues. unfold dispatch_target. fold (nonempty_response fuzzed).
  unfold dispatch_fits in Fit. set (d := mk_dispatch (CorrelationId_new 0) (Payload_from [])).
  set (r := result_of 0 []). destruct message as [|b bs].
  { rewrite decode_s2c_empty. refine (fair_passes _ _ _ (travels_of DISPATCH_TX SEND_TX ENDPOINT_HOSTNAME true [] [] (Ok Ping) d r Pong)
      empty_protocol empty_states _ empty_progresses schedule F). apply (empty_plays _ _ _ _ true). }
  assert (Ignored : (forall p, dispatch_message p (ServerToClient_try_from (b :: bs)) = Task_recv p) ->
    completes (run_threads (H1:=fifo_mpsc) debug do_dispatch dispatch_handler
      (fuzz_start (statements DISPATCH_TX SEND_TX ENDPOINT_HOSTNAME (b :: bs) [])) schedule)).
  { intros Hm. refine (fair_passes _ _ _ (travels_of DISPATCH_TX SEND_TX ENDPOINT_HOSTNAME true (b :: bs) [] _ d r Pong)
      ignored_protocol ignored_states _ ignored_progresses schedule F). by apply ignored_plays. }
  unfold ServerToClient_try_from in Ignored.
  destruct (decode_s2c (b :: bs)) as [[[| |i sig req| |]|]|e] eqn:E; try (by apply Ignored).
  destruct Fit as [Fr Fe]. destruct (nonempty_response fuzzed) as [|c cs] eqn:R.
  { unfold nonempty_response in R. by case_decide. }
  refine (fair_passes _ _ _ (travels_of DISPATCH_TX SEND_TX ENDPOINT_HOSTNAME true (b :: bs) (dispatch_awaits _ i (c :: cs) _) _ _
    (result_of i (c :: cs)) _) dispatch_protocol dispatch_states _ dispatch_progresses schedule F).
  apply dispatch_plays.
  - unfold ServerToClient_try_from. by rewrite E.
  - rewrite as_read_fits by done. by rewrite !bool_decide_true.
  - assert (A : ClientToServer_to_bytes (forward_response (result_of i (c :: cs))) =
      expected_response i (c :: cs)).
    { unfold expected_response, forward_response, result_of. simpl.
      by destruct (decode_response_payload (c :: cs)). }
    rewrite A, as_read_fits by done. by rewrite bool_decide_true.
Qed.

(** The dispatch test of the FFI layer passes under every fair schedule, the
    message being one that decodes to the test's request. *)
Lemma ffi_test_dispatch_passes debug encoded signature encoded_dispatch_request schedule :
  decode_s2c encoded = Ok (Some (S2C_Dispatch CORRELATION_ID signature encoded_dispatch_request)) ->
  fits_u32 encoded_dispatch_request -> fair rounds_needed schedule ->
  completes (run_threads debug do_dispatch dispatch_echo_handler
    (fuzz_start (ffi_test_dispatch encoded encoded_dispatch_request)) schedule).
Proof.
  intros E Fit F. apply fair_on_queues. destruct encoded as [|b bs]; [by rewrite decode_s2c_empty in E|].
  refine (fair_passes _ _ _ (travels_of DISPATCH_TX 0%N TEST_ENDPOINT_HOSTNAME false (b :: bs)
    [Await_dispatch _] _ _ (result_of 0 []) Pong) unanswered_protocol unanswered_states _ unanswered_progresses schedule F).
  eapply unanswered_plays.
  - unfold ServerToClient_try_from. by rewrite E.
  - rewrite as_read_fits by done. by rewrite !bool_decide_true.
Qed.

End FuzzProperties.

(** ** Witnesses *)

Lemma toy_prost_defaults : @ProstDefaults toy_proto toy_prost.
Proof. split; reflexivity. Qed.

(** Every round in another order than the threads are listed in. *)
Definition toy_schedule : list thread := concat (replicate 30 [Dispatcher; Io; Task; Host; Entry]).

Lemma toy_schedule_fair : fair rounds_needed toy_schedule.
Proof. apply fair_replicate. intros t. destruct t; repeat constructor. Qed.

Lemma threads_over_queues_witness :
  @view_fuzz toy_proto fifo_mpsc fifo_mpsc_laws (@run_threads toy_proto toy_prost fifo_mpsc true
    no_dispatch echo_handler
    (fuzz_start (@ffi_io_target toy_proto toy_prost [x01])) toy_schedule) =
  @run_threads toy_proto toy_prost fifo_mpsc true no_dispatch echo_handler
    (fuzz_start (@ffi_io_target toy_proto toy_prost [x01])) toy_schedule.
Proof.
  apply (@threads_over_queues toy_proto toy_prost fifo_mpsc fifo_mpsc_laws true no_dispatch
    echo_handler (@ffi_io_target toy_proto toy_prost [x01]) toy_schedule).
Defined.

Lemma ffi_io_passes_witness :
  completes (@run_threads toy_proto toy_prost fifo_mpsc true no_dispatch echo_handler
    (fuzz_start (@ffi_io_target toy_proto toy_prost [x01])) toy_schedule).
Proof.
  apply (@ffi_io_passes toy_proto toy_prost toy_prost_laws toy_prost_defaults fifo_mpsc fifo_mpsc_laws
    true [x01] toy_schedule).
  - vm_compute. reflexivity.
  - exact toy_schedule_fair.
Defined.

Lemma dispatch_target_passes_witness :
  completes (@run_threads toy_proto toy_prost fifo_mpsc false do_dispatch dispatch_handler
    (fuzz_start (@dispatch_target toy_proto toy_prost [x04] [x0d])) toy_schedule).
Proof.
  apply (@dispatch_target_passes toy_proto toy_prost toy_prost_defaults fifo_mpsc
    fifo_mpsc_laws false [x04] [x0d] toy_schedule).
  - split; vm_compute; reflexivity.
  - exact toy_schedule_fair.
Defined.
