(* ===== verification/FfiTests.v ===== *)
(** * The unit tests of the FFI connection

    Models the tests of [rc-x509-ffi/src/connection.rs].  Two of them drive a
    connection against a mocked entrypoint that hands every event to the test,
    which then uses the handles of the connection itself: four threads of
    control - the test, the entrypoint and the two tasks of the FFI layer - take
    steps in the order of a schedule, and the theorem is that both complete with
    every assertion holding under every fair schedule ([Lifecycle]).  The others
    make calls that the connection's state does not allow, next to a library that
    may do anything else meanwhile ([InvalidCalls]). *)

From stdpp Require Import base option list strings.
From Stdlib Require Import Strings.Byte NArith ZArith Lia.
From S2P Require Import Prelude Utf8 Hash Certificate ConnectionId Codec Mpsc Dispatch Runtime Fsm Actor Ffi FfiTasks World System Schedules Symbolic FuzzFfi FuzzRuns.

(** ** The threads *)

Section Lifecycle.
Context `{ProtoTypes} `{!Prost} `{Mpsc}.

(** The statements of a test: calls as in the fuzz targets, and what the test
    does with the events and handles it is given. *)
Inductive test_statement : Type :=
| Ffi (st : statement)
| Ffi_dispatch_error (correlation_id : N) (error : DispatchHostError)
| Assert_state (check : FState -> bool)
| Await_event (check : ConnectionEvent -> bool)
| Await_connected
| Io_send (payload : ClientToServer) (check : result () ConnectionErr -> bool)
| Io_take_recv_stream
| Io_next (check : result ServerToClient DecodingError -> bool)
| Dispatch_take_recv_stream
| Dispatch_next (check : DispatchResult -> bool).

(** The connection and its tasks; the channel the entrypoint forwards events on,
    and an event that it waits to send; the handles the test was given. *)
Record TestRun : Type := mk_test_run {
  lf_fuzz : Fuzz;
  lf_conn_events : mpsc ConnectionEvent;
  lf_sending : option ConnectionEvent;
  lf_io : option IOHandle;
  lf_dispatch : option DispatchPublisher;
  lf_statements : list test_statement;
  lf_failed : bool
}.

Definition on_fuzz (z : Fuzz) (l : TestRun) : TestRun :=
  mk_test_run z (lf_conn_events l) (lf_sending l) (lf_io l) (lf_dispatch l) (lf_statements l) (lf_failed l).
Definition on_events (c : mpsc ConnectionEvent) (e : option ConnectionEvent) (l : TestRun) : TestRun :=
  mk_test_run (lf_fuzz l) c e (lf_io l) (lf_dispatch l) (lf_statements l) (lf_failed l).
Definition on_handles (io : option IOHandle) (d : option DispatchPublisher) (l : TestRun) : TestRun :=
  mk_test_run (lf_fuzz l) (lf_conn_events l) (lf_sending l) io d (lf_statements l) (lf_failed l).
Definition on_sys (s : Sys) (l : TestRun) : TestRun := on_fuzz (with_sys s (lf_fuzz l)) l.

(** The test goes on with [rest] if the assertion holds. *)
Definition proceed (ok : bool) (rest : list test_statement) (l : TestRun) : TestRun :=
  mk_test_run (lf_fuzz l) (lf_conn_events l) (lf_sending l) (lf_io l) (lf_dispatch l)
    (if ok then rest else []) (lf_failed l || negb ok).

Context (debug : bool) (dispatch_cb : N -> list u8 -> N -> Captured -> DispatchRet * Captured).

(** A call of an exported function, as the fuzz targets make it. *)
Definition ffi_call (st : statement) (rest : list test_statement) (l : TestRun) : TestRun :=
  let z := FuzzFfi.host_step debug (next [st] (lf_fuzz l)) in
  let l := on_fuzz (next [] z) l in
  match fz_rest z with [] => proceed (negb (fz_failed z)) rest l | _ => l end.

(** What was received, if anything was, is checked. *)
Definition received {A} (p : poll (option A)) (check : A -> bool) (rest : list test_statement)
  (l : TestRun) : TestRun :=
  match p with
  | Ready (Some a) => proceed (check a) rest l
  | Ready None => proceed false rest l
  | Pending => l
  end.

Definition test_step (l : TestRun) : TestRun :=
  let s := fz_sys (lf_fuzz l) in
  match lf_statements l with
  | [] => l
  | st :: rest =>
      match st with
      | Ffi st => ffi_call st rest l
      | Ffi_dispatch_error correlation_id error =>
          match rc_conn_dispatch_error id 1 (fz_conn (lf_fuzz l)) correlation_id error s with
          | Done _ s => proceed true rest (on_sys s l)
          | Blocked s => on_sys s l
          | Panic s => proceed false rest (on_sys s l)
          end
      | Assert_state check =>
          proceed (match fz_conn (lf_fuzz l) with Some c => check (fc_state c) | None => false end) rest l
      | Await_event check =>
          let '(p, c) := mpsc_poll_recv (lf_conn_events l) in
          received p check rest (on_events c (lf_sending l) l)
      | Await_connected =>
          let '(p, c) := mpsc_poll_recv (lf_conn_events l) in
          let l := on_events c (lf_sending l) l in
          match p with
          | Ready (Some (Event_Connected io dispatch _hostname)) =>
              proceed true rest (on_handles (Some io) (Some dispatch) l)
          | Ready _ => proceed false rest l
          | Pending => l
          end
      | Io_send payload check =>
          let '(r, c) := IOHandle_send payload (fr_lib2ffi (sh_rest s)) in
          proceed (check r) rest (on_sys (set_lib2ffi c s) l)
      | Io_take_recv_stream =>
          match IOHandle_take_recv_stream <$> lf_io l with
          | Some (recv, io) => proceed recv rest (on_handles (Some io) (lf_dispatch l) l)
          | None => proceed false rest l
          end
      | Io_next check =>
          let '(p, c) := mpsc_poll_recv (fr_ffi2lib (sh_rest s)) in
          received p check rest (on_sys (set_ffi2lib c s) l)
      | Dispatch_take_recv_stream =>
          match DispatchPublisher_take_recv_stream <$> lf_dispatch l with
          | Some (recv, d) =>
              proceed (match recv with Some _ => true | None => false end) rest (on_handles (lf_io l) (Some d) l)
          | None => proceed false rest l
          end
      | Dispatch_next check =>
          let '(p, c) := mpsc_poll_recv (sh_resp s) in
          received p check rest (on_sys (set_resp c s) l)
      end
  end.

(** [self.events.send(v).await], polled. *)
Definition forward (e : ConnectionEvent) (l : TestRun) : TestRun :=
  let '(p, c) := mpsc_poll_send e (lf_conn_events l) in
  on_events c (match p with Ready _ => None | Pending => Some e end) l.

(** [Entrypoint::entrypoint], up to its next await.  When it returns, it drops
    the sender of the test's channel and the stream of events. *)
Definition Entrypoint_step (l : TestRun) : TestRun :=
  let z := lf_fuzz l in
  let consumed n returned s := mk_fuzz s (fz_conn z) (fz_io z) (fz_dispatch z) (fz_report z)
    (fz_captured z) (fz_senders z) n returned (fz_task z) (fz_rest z) (fz_failed z) in
  if fz_returned z then l
  else match lf_sending l with
  | Some e => forward e l
  | None =>
      match nth_error (fr_events (sh_rest (fz_sys z))) (fz_taken z) with
      | Some e => forward e (on_fuzz (consumed (S (fz_taken z)) false (fz_sys z)) l)
      | None =>
          if decide (fz_senders z = 0) then
            on_events (mpsc_drop_tx (lf_conn_events l)) None
              (on_fuzz (consumed (fz_taken z) true
                 (set_rest (fun r => mk_rest (fr_events r) false (fr_lib2ffi r) (fr_ffi2lib r)
                    (fr_io_stop r) (fr_dispatch_stop r) (fr_tasks r)) (fz_sys z))) l)
          else l
      end
  end.

Inductive test_thread : Type := Test | Entrypoint | IoTask | DispatchTask.

Definition life_step (l : TestRun) (t : test_thread) : TestRun :=
  match t with
  | Test => test_step l
  | Entrypoint => Entrypoint_step l
  | IoTask => on_fuzz (io_step (lf_fuzz l)) l
  | DispatchTask => on_fuzz (dispatcher_step dispatch_cb (lf_fuzz l)) l
  end.

Definition run_test (l : TestRun) (schedule : list test_thread) : TestRun := foldl life_step l schedule.

(** [Ctx::new(Entrypoint { events: tx })]. *)
Definition test_start (script : list test_statement) : TestRun :=
  mk_test_run (fuzz_start []) (mpsc_channel 100) None None None script false.

Definition test_passed (l : TestRun) : bool :=
  match lf_statements l with [] => negb (lf_failed l) | _ => false end.

(** ** The tests *)

Definition is_init (s : FState) : bool := match s with Init => true | _ => false end.
Definition event_init (e : ConnectionEvent) : bool := match e with Event_Init => true | _ => false end.
Definition event_disconnected (e : ConnectionEvent) : bool :=
  match e with Event_Disconnected => true | _ => false end.
Definition event_release (e : ConnectionEvent) : bool := match e with Event_Release => true | _ => false end.

(** [ctx.shutdown()]: the context's sender is dropped and the worker joined. *)
Definition ctx_shutdown : list test_statement := [Ffi Free; Ffi Join_worker].

(** [assert_eq!(got, Bytes::from(ClientToServer::Pong))]. *)
Definition is_pong (got : list u8) : bool := bool_decide (got = ClientToServer_to_bytes Pong).

(** [data] is the encoding of a ping.  The callback of this test frees the
    channel it is given, and is called once. *)
Definition test_connection_lifecycle (data : list u8) : list test_statement :=
  [Ffi (Conn_new 0%N); Assert_state is_init; Await_event event_init;
   Ffi (Conn_send_callback SEND_TX); Ffi (Conn_connected TEST_ENDPOINT_HOSTNAME); Await_connected;
   Io_send Pong is_ok;
   Ffi (Await_send is_pong); Ffi (Conn_recv data); Io_take_recv_stream;
   Io_next (fun got => match got with Ok Ping => true | _ => false end);
   Ffi Conn_disconnected; Await_event event_disconnected;
   Io_send Pong (fun r => match r with Err ConnectionErr_Closed => true | _ => false end);
   Ffi Conn_free; Await_event event_release] ++ ctx_shutdown.

Definition test_dispatch_error : list test_statement :=
  [Ffi (Conn_new 0%N); Await_event (fun _ => true);
   Ffi (Conn_send_callback 0%N); Ffi (Conn_connected TEST_ENDPOINT_HOSTNAME); Await_connected;
   Dispatch_take_recv_stream; Ffi_dispatch_error CORRELATION_ID DispatchHostError_HandlerExecTimeout;
   Dispatch_next (fun got => bool_decide (CorrelationId_get (dr_correlation_id got) = CORRELATION_ID)
     && match dr_result got with Err HandlerExecTimeout => true | _ => false end);
   Ffi Conn_disconnected; Ffi Conn_free; Await_event event_disconnected; Await_event event_release]
  ++ ctx_shutdown.

End Lifecycle.

(** ** Channels as queues *)

Section TestAbstraction.
Context `{ProtoTypes} `{!Prost} `{M : Mpsc} `{!MpscLaws}.
Abbreviation queues := fifo_mpsc.

Definition view_run (l : @TestRun _ M) : @TestRun _ queues :=
  @mk_test_run _ queues (view_fuzz (lf_fuzz l)) (mpsc_view (lf_conn_events l)) (lf_sending l) (lf_io l)
    (lf_dispatch l) (lf_statements l) (lf_failed l).

Lemma view_received {A} (p : poll (option A)) check rest l :
  view_run (received p check rest l) = received p check rest (view_run l).
Proof. by destruct p as [[a|]|]. Qed.

Lemma view_ffi_call debug st rest l :
  view_run (ffi_call (H1:=M) debug st rest l) = ffi_call (H1:=queues) debug st rest (view_run l).
Proof.
  unfold ffi_call. cbn [lf_fuzz view_run].
  change (next [st] (view_fuzz (lf_fuzz l))) with (view_fuzz (next [st] (lf_fuzz l))).
  rewrite <- view_host_step. simpl. by destruct (fz_rest (FuzzFfi.host_step debug _)).
Qed.

Lemma simulates_dispatch_error c i e : simulates (view_shared view_rest)
  (rc_conn_dispatch_error (H1:=M) id 1 c i e) (rc_conn_dispatch_error (H1:=queues) id 1 c i e).
Proof.
  apply simulates_bind; [by destruct c|]. intros conn. unfold handle_dispatch_result.
  destruct (fc_state conn); try done. apply simulates_bind; [|done].
  by apply simulates_bind; [apply simulates_resp_send|].
Qed.

Lemma view_test_step debug l :
  view_run (test_step (H1:=M) debug l) = test_step (H1:=queues) debug (view_run l).
Proof.
  unfold test_step. simpl. destruct (lf_statements l) as [|[] rest]; try done.
  - apply view_ffi_call.
  - rewrite (simulates_dispatch_error _ _ _ (fz_sys (lf_fuzz l))).
    by destruct (rc_conn_dispatch_error _ _ _ _ _ (fz_sys (lf_fuzz l))).
  - destruct (mpsc_poll_recv (lf_conn_events l)) as [p c] eqn:E. apply mpsc_poll_recv_view in E.
    rewrite E. apply view_received.
  - destruct (mpsc_poll_recv (lf_conn_events l)) as [p c] eqn:E. apply mpsc_poll_recv_view in E.
    rewrite E. by destruct p as [[[]|]|].
  - unfold IOHandle_send. simpl.
    destruct (mpsc_try_send payload (fr_lib2ffi (sh_rest (fz_sys (lf_fuzz l))))) as [r c] eqn:E.
    apply mpsc_try_send_view in E. by rewrite E.
  - by destruct (lf_io l).
  - destruct (mpsc_poll_recv (fr_ffi2lib _)) as [p c] eqn:E. apply mpsc_poll_recv_view in E.
    rewrite E. apply view_received.
  - by destruct (lf_dispatch l).
  - destruct (mpsc_poll_recv (sh_resp _)) as [p c] eqn:E. apply mpsc_poll_recv_view in E.
    rewrite E. apply view_received.
Qed.

Lemma view_forward e l : view_run (forward (H1:=M) e l) = forward (H1:=queues) e (view_run l).
Proof.
  unfold forward. simpl. destruct (mpsc_poll_send e (lf_conn_events l)) as [p c] eqn:E.
  apply mpsc_poll_send_view in E. by rewrite E.
Qed.

Lemma view_entrypoint_step l :
  view_run (Entrypoint_step (H1:=M) l) = Entrypoint_step (H1:=queues) (view_run l).
Proof.
  unfold Entrypoint_step. simpl. destruct (fz_returned (lf_fuzz l)); [done|].
  destruct (lf_sending l); [apply view_forward|]. destruct (nth_error _ _); [apply view_forward|].
  case_decide; [|done]. unfold view_run, on_events. simpl. by rewrite view_drop_tx.
Qed.

Lemma view_run_test debug cb schedule l :
  view_run (run_test (H1:=M) debug cb l schedule) = run_test (H1:=queues) debug cb (view_run l) schedule.
Proof.
  revert l. induction schedule as [|t schedule IH]; intros l; [done|]. simpl. rewrite IH. f_equal.
  destruct t; [apply view_test_step | apply view_entrypoint_step | |];
    unfold life_step, on_fuzz, view_run; simpl; f_equal; [apply view_io_step | apply view_dispatcher_step].
Qed.

(** The channels' implementation makes no difference to a test. *)
Lemma test_on_queues debug cb script schedule :
  view_run (run_test (H1:=M) debug cb (test_start script) schedule) =
  run_test (H1:=queues) debug cb (test_start script) schedule.
Proof. rewrite view_run_test. unfold test_start, view_run. simpl. by rewrite view_start, view_channel. Qed.

End TestAbstraction.

(** ** Positions

    A state of a test is how far the test is, which events were forwarded, which
    tasks have ended, and where the message is that the test sends. *)

Record position : Type := mk_position {
  p_at : nat;
  p_stop : bool;
  p_io : bool;
  p_dispatch : bool;
  p_taken : nat;
  p_returned : bool;
  p_out : bool;
  p_sent : bool
}.

#[local] Instance position_eq_dec : EqDecision position.
Proof. solve_decision. Defined.

(** Which statement of a test does what: creates, configures, connects,
    disconnects and frees the connection; takes the streams; sends, and takes,
    the message and the response; drops the context's sender; awaits events. *)
Record plan : Type := mk_plan {
  i_new : nat; i_configured : nat; i_connected : nat; i_disconnected : nat; i_freed : nat;
  i_handles : nat; i_io_stream : nat; i_dispatch_stream : nat;
  i_recv : nat; i_next : nat; i_error : nat; i_response : nat;
  i_shutdown : nat; i_awaits : list nat
}.

Section Positions.
Context `{ProtoTypes} (i : plan) (script : list test_statement) (send_data : pointer) (sent : list u8)
  (incoming : result ServerToClient DecodingError) (response : DispatchResult).
#[local] Existing Instance fifo_mpsc.

(** The statement [k] is done, or not yet, before statement [h]. *)
Definition past (k h : nat) : bool := k <? h.
Definition between (k k' h : nat) : bool := past k h && negb (past k' h).

Definition test_connected : ConnectionEvent :=
  Event_Connected IOHandle_new (publisher_of true) (EndpointHostname_from TEST_ENDPOINT_HOSTNAME).

Definition test_events (h : nat) : list ConnectionEvent :=
  held (past (i_new i) h) Event_Init ++ held (past (i_connected i) h) test_connected
  ++ held (past (i_disconnected i) h) Event_Disconnected ++ held (past (i_freed i) h) Event_Release.

Definition test_conn (h : nat) : option FFIConnection :=
  let c st := Some (mk_ffi_connection DISPATCH_CB (mk_dispatch_user_data 0%N) st) in
  if between (i_new i) (i_configured i) h then c Init
  else if between (i_configured i) (i_connected i) h then
    c (Configured SEND_CB (mk_send_user_data send_data))
  else if between (i_connected i) (i_disconnected i) h then c (Connected (mk_responder response_tx))
  else if between (i_disconnected i) (i_freed i) h then c Disconnected
  else None.

Definition test_sys (a : position) : Sys :=
  let h := p_at a in
  let closed := past (i_disconnected i) h in
  let open := negb (p_returned a) in
  if past (i_connected i) h then
    mk_shared (mk_chan [] DISPATCH_QUEUE_LEN (p_dispatch a) 1)
      (mk_chan (held (between (i_error i) (i_response i) h) response) (DISPATCH_QUEUE_LEN + 1) true
        ((if p_dispatch a then 1 else 0) + (if closed then 0 else 1)))
      (mk_rest (test_events h) open
        (mk_chan (held (p_out a) Pong) QUEUE_BUFFER_LEN (p_io a) 1)
        (mk_chan (held (between (i_recv i) (i_next i) h) incoming) QUEUE_BUFFER_LEN true
          (if closed then 0 else 1))
        (p_stop a) (p_stop a) (Some (SEND_CB, mk_send_user_data send_data)))
  else
    mk_shared (mk_chan [] 1 true 1) (mk_chan [] 1 true 1)
      (mk_rest (test_events h) open (mk_chan [] 1 true 1) (mk_chan [] 1 true 1) false false None).

Definition run_of (a : position) : TestRun :=
  let h := p_at a in
  let live b := b && past (i_connected i) h in
  let taken := length (List.filter (fun k => past k h) (i_awaits i)) in
  mk_test_run
    (mk_fuzz (test_sys a) (test_conn h) (live (p_io a)) (live (p_dispatch a)) None
      (mk_captured (held (p_sent a) sent) [])
      ((if past (i_shutdown i) h then 0 else 1) + (if between (i_new i) (i_freed i) h then 1 else 0))
      (p_taken a) (p_returned a) Task_none [] false)
    (mk_chan (drop taken (take (p_taken a) (test_events h))) 100 true (if p_returned a then 0 else 1))
    None
    (if past (i_handles i) h then Some (mk_io_handle (negb (past (i_io_stream i) h))) else None)
    (if past (i_handles i) h then Some (publisher_of (negb (past (i_dispatch_stream i) h))) else None)
    (drop h script) false.

(** Reading it off a state. *)
Definition position_of (l : TestRun) : position :=
  let z := lf_fuzz l in
  let h := length script - length (lf_statements l) in
  let live b := negb (past (i_connected i) h) || b in
  mk_position h (fr_io_stop (sh_rest (fz_sys z))) (live (fz_io z)) (live (fz_dispatch z)) (fz_taken z)
    (fz_returned z)
    (match c_queue (fr_lib2ffi (sh_rest (fz_sys z))) with [] => false | _ => true end)
    (match cap_sent (fz_captured z) with [] => false | _ => true end).

End Positions.

Definition position_start : position := mk_position 0 false true true 0 false false false.

Definition test_threads : list test_thread := [Test; Entrypoint; IoTask; DispatchTask].
Lemma test_threads_listed t : t ∈ test_threads.
Proof. destruct t; repeat constructor. Qed.

(** What has happened so far. *)
Definition test_rank (a : position) : nat :=
  let count (b : bool) := if b then 1 else 0 in
  p_at a + count (p_stop a) + count (negb (p_io a)) + count (negb (p_dispatch a)) + p_taken a
  + count (p_returned a) + count (past 6 (p_at a) && negb (p_out a)).

Definition test_rounds : nat := 30.
Definition test_ended (len : nat) (a : position) : bool := p_at a =? len.

(** *** The two tests *)

Definition never : nat := 99.
Definition lifecycle_plan : plan := mk_plan 0 3 4 11 14 5 9 never 8 10 never never 16 [2; 5; 12; 15].
Definition error_plan : plan := mk_plan 0 2 3 8 9 4 never 5 never never 6 7 12 [1; 4; 10; 11].

(** The steps, computed on sample values. *)
Definition test_position_step (i : plan) (script : list test_statement) (send_data : pointer)
  (a : position) (t : test_thread) : position :=
  let r := mk_dispatch_result (CorrelationId_new CORRELATION_ID) (Err HandlerExecTimeout) in
  @position_of toy_proto i script (@life_step toy_proto toy_prost fifo_mpsc false no_dispatch
    (@run_of toy_proto i script send_data (@ClientToServer_to_bytes toy_proto toy_prost Pong) (Ok Ping) r a) t).

Definition lifecycle_step : position -> test_thread -> position :=
  test_position_step lifecycle_plan (@test_connection_lifecycle toy_proto toy_prost [x01]) SEND_TX.
Definition error_step : position -> test_thread -> position :=
  test_position_step error_plan (@test_dispatch_error toy_proto) 0%N.

Definition lifecycle_positions : list position := Eval vm_compute in
  reachable test_threads lifecycle_step position_start 300.
Definition error_positions : list position := Eval vm_compute in
  reachable test_threads error_step position_start 300.

Abbreviation test_progresses step len positions :=
  (progresses test_threads step position_start test_rank test_rounds (test_ended len) positions).

Lemma lifecycle_progresses : test_progresses lifecycle_step 18 lifecycle_positions = true.
Proof. vm_compute. reflexivity. Qed.
Lemma error_progresses : test_progresses error_step 14 error_positions = true.
Proof. vm_compute. reflexivity. Qed.

Section TestPlays.
Context `{ProtoTypes} `{!Prost} (debug : bool).
#[local] Existing Instance fifo_mpsc.

Lemma lifecycle_plays b bs r :
  ServerToClient_try_from (b :: bs) = Ok Ping ->
  is_pong (as_read (ClientToServer_to_bytes Pong)) = true ->
  let run := run_of lifecycle_plan (test_connection_lifecycle (b :: bs)) SEND_TX
    (as_read (ClientToServer_to_bytes Pong)) (Ok Ping) r in
  forall a t, a ∈ lifecycle_positions ->
  life_step debug no_dispatch (run a) t = run (lifecycle_step a t).
Proof.
  intros Hv Hs run. plays lifecycle_positions by (first [reflexivity
    | cbv -[ServerToClient_try_from as_read len_u32 from_raw_parts ClientToServer_to_bytes is_pong];
      rewrite ?Hv, ?Hs; reflexivity]).
Qed.

Lemma error_plays sent incoming : 
  let run := run_of error_plan test_dispatch_error 0%N sent incoming
    (mk_dispatch_result (CorrelationId_new CORRELATION_ID) (Err HandlerExecTimeout)) in
  forall a t, a ∈ error_positions ->
  life_step debug no_dispatch (run a) t = run (error_step a t).
Proof. intros run. plays error_positions by reflexivity. Qed.
End TestPlays.

Lemma script_passes `{ProtoTypes} `{!Prost} `{MpscLaws} debug i script ud sent incoming r next_at positions len
  (P : test_progresses next_at len positions = true) (Len : length script = len)
  (Sim : forall a t, a ∈ positions -> life_step (H1:=fifo_mpsc) debug no_dispatch
    (run_of i script ud sent incoming r a) t = run_of i script ud sent incoming r (next_at a t))
  (Start : run_of i script ud sent incoming r position_start = test_start (H1:=fifo_mpsc) script)
  schedule :
  let run := run_test debug no_dispatch (test_start script) schedule in
  lf_failed run = false /\ (fair test_rounds schedule -> test_passed run = true).
Proof.
  intros run. assert (E : view_run run = run_of i script ud sent incoming r (foldl next_at position_start schedule)).
  { unfold run. rewrite test_on_queues, <- Start.
    apply (run_simulated _ test_threads_listed _ _ _ _ _ _ P _ _ Sim).
    exact (progresses_start _ _ _ _ _ _ _ P). }
  split; [exact (f_equal lf_failed E)|]. intros F.
  pose proof (fair_ends _ test_threads_listed _ _ _ _ _ _ P schedule F) as D. apply Nat.eqb_eq in D.
  change (test_passed (view_run run) = true). rewrite E. unfold test_passed, run_of. simpl.
  by rewrite D, <- Len, drop_all.
Qed.

(** ** Calls in the wrong state

    The connection is driven by itself; the library, which consumes its events,
    may do anything else between two calls, and [join_io] and [join_dispatch]
    wait for the tasks.  Creating and freeing the context is in [Ctx]. *)

Section InvalidCalls.
Context `{ProtoTypes} `{!Prost} `{Mpsc}.
Context (debug : bool) (library : nat -> Sys -> Sys) (fuel : nat)
  (join_io join_dispatch : prog Sys (result () ())).

Definition meanwhile (k : nat) : prog Sys () := modify (library k).

(** [std::panic::catch_unwind]. *)
Definition catch_unwind {A} (p : prog Sys A) : prog Sys (result A ()) := fun s =>
  match p s with
  | Done a s => Done (Ok a) s
  | Panic s => Done (Err tt) s
  | Blocked s => Blocked s
  end.

(** A debug build panicked, a release build returned what [check] accepts. *)
Definition assert_refused {A} (check : A -> bool) (result : result A ()) : prog Sys () :=
  assert (match result with Ok a => negb debug && check a | Err _ => debug end).

Definition is_invalid_state (r : ConnRet) : bool :=
  match r with ConnRet_InvalidState => true | ConnRet_Success => false end.

(** The connection after a call that may have panicked: no state is left half
    changed. *)
Definition conn_after {A} (conn : FFIConnection) (r : result (FFIConnection * A) ()) : FFIConnection :=
  match r with Ok (conn, _) => conn | Err _ => conn end.

(** The tests' callbacks. *)
Definition noop_dispatch : pointer := 1%N.
Definition noop_send : pointer := 2%N.

Definition new_connection : prog Sys FFIConnection :=
  conn ← rc_conn_new (Some tt) noop_dispatch 0%N; meanwhile 0 ;; mret conn.

Definition free_connection (conn : FFIConnection) : prog Sys () :=
  _ ← rc_conn_free debug (Some conn); meanwhile 9.

(** [rc_conn_send_callback] and [rc_conn_connected]. *)
Definition connect (conn : FFIConnection) : prog Sys FFIConnection :=
  '(conn, _) ← rc_conn_send_callback debug (Some conn) noop_send 0%N;
  meanwhile 1 ;;
  '(conn, _) ← rc_conn_connected debug (Some conn)
    (Some (String.list_byte_of_string TEST_ENDPOINT_HOSTNAME));
  meanwhile 2 ;; mret conn.

Definition test_connection_init_free : prog Sys () :=
  conn ← new_connection;
  assert (is_init (fc_state conn)) ;;
  '(conn, _) ← rc_conn_send_callback debug (Some conn) noop_send 0%N;
  assert (match fc_state conn with Configured _ _ => true | _ => false end) ;;
  free_connection conn.

Definition test_set_connected_invalid_state : prog Sys () :=
  conn ← new_connection;
  result ← catch_unwind (set_connected debug conn (EndpointHostname_from TEST_ENDPOINT_HOSTNAME));
  assert_refused (fun r => is_invalid_state (snd r)) result ;;
  let conn := conn_after conn result in
  assert (is_init (fc_state conn)) ;;
  free_connection conn.

Definition test_set_disconnected_invalid_state : prog Sys () :=
  conn ← new_connection;
  result ← catch_unwind (set_disconnected debug join_io join_dispatch conn);
  assert_refused (fun r => is_invalid_state (snd r)) result ;;
  let conn := conn_after conn result in
  assert (is_init (fc_state conn)) ;;
  free_connection conn.

Definition test_recv_incoming_invalid_state : prog Sys () :=
  conn ← new_connection;
  result ← catch_unwind (recv_incoming debug (library 3) fuel conn (Ok Ping));
  assert_refused (fun r => match r with RecvRet_InvalidState => true | _ => false end) result ;;
  free_connection conn.

Definition test_set_send_callback_invalid_state_disconnected : prog Sys () :=
  conn ← new_connection;
  conn ← connect conn;
  '(conn, _) ← rc_conn_disconnected debug join_io join_dispatch (Some conn);
  meanwhile 3 ;;
  result ← catch_unwind (set_send_callback debug conn noop_send (mk_send_user_data 0%N));
  assert_refused (fun r => is_invalid_state (snd r)) result ;;
  let conn := conn_after conn result in
  assert (match fc_state conn with Disconnected => true | _ => false end) ;;
  free_connection conn.

(** A refused [free] gives the connection back, and can be tried again. *)
Definition test_free_invalid_state_connected : prog Sys () :=
  conn ← new_connection;
  conn ← connect conn;
  result ← catch_unwind (FFIConnection_free debug conn);
  if debug then assert (match result with Err _ => true | Ok _ => false end)
  else match result with
  | Ok (Err (conn, ret)) =>
      assert (is_invalid_state ret) ;;
      meanwhile 3 ;;
      '(conn, ret) ← set_disconnected debug join_io join_dispatch conn;
      assert (negb (is_invalid_state ret)) ;;
      meanwhile 4 ;;
      r ← FFIConnection_free debug conn;
      assert (is_ok r)
  | _ => panic
  end.

Definition state_tests : list (prog Sys ()) :=
  [test_connection_init_free; test_set_connected_invalid_state; test_set_disconnected_invalid_state;
   test_recv_incoming_invalid_state; test_set_send_callback_invalid_state_disconnected;
   test_free_invalid_state_connected].

End InvalidCalls.

Section InvalidRuns.
Context `{ProtoTypes} `{!Prost} `{Mpsc}.
Context (debug : bool) (library : nat -> Sys -> Sys) (fuel : nat)
  (join_io join_dispatch : prog Sys (result () ())).

(** The library consumes the event stream; the tasks are signalled to stop. *)
Definition watched (s : Sys) : bool * bool :=
  (fr_events_open (sh_rest s), fr_io_stop (sh_rest s) && fr_dispatch_stop (sh_rest s)).

(** A task that is signalled to stop ends. *)
Definition ends_stopped (join : prog Sys (result () ())) : Prop :=
  runs_on watched join (true, true) (fun r v => r = Ok tt /\ v = (true, true)).

Context (Lib : forall k s, events_open s -> events_open (library k s))
  (Io : ends_stopped join_io) (Dispatch : ends_stopped join_dispatch).

(** Completes with the stream still open. *)
Definition completes {A} (p : prog Sys A) (Q : A -> Prop) : Prop :=
  forall b, runs_on watched p (true, b) (fun a v => fst v = true /\ Q a).

Lemma completes_ret {A} (a : A) (Q : A -> Prop) : Q a -> completes (mret a) Q.
Proof. intros HQ b. by apply runs_ret. Qed.

Lemma completes_bind {A B} (p : prog Sys A) (k : A -> prog Sys B) P Q :
  completes p P -> (forall a, P a -> completes (k a) Q) -> completes (p ≫= k) Q.
Proof.
  intros Hp Hk b. apply runs_bind. eapply runs_weaken; [apply Hp|].
  intros a [o b'] [E HP]. simpl in E. subst o. by apply Hk.
Qed.

Lemma completes_not_null {A} (a : A) : completes (assert_not_null (Some a)) (fun x => x = a).
Proof. by apply completes_ret. Qed.

Lemma completes_assert b : b = true -> completes (assert b) (fun _ => True).
Proof. intros ->. by apply completes_ret. Qed.

Lemma completes_publish e : completes (publish_event e) (fun _ => True).
Proof.
  intros b s E. injection E as O _. exists tt. unfold publish_event. rewrite O. eexists. split; [done|].
  simpl. by rewrite O.
Qed.

Lemma completes_meanwhile k : completes (meanwhile library k) (fun _ => True).
Proof.
  intros b s E. injection E as O _. exists tt, (library k s). split; [done|]. split; [|done].
  by apply (Lib k s).
Qed.

Lemma completes_modify f : (forall s, fr_events_open (sh_rest (f s)) = fr_events_open (sh_rest s)) ->
  completes (modify f) (fun _ => True).
Proof. intros F b s E. injection E as O _. exists tt, (f s). split; [done|]. simpl. by rewrite F. Qed.

(** A refused call, caught. *)
Lemma completes_refused {A} (p : prog Sys A) (a : A) :
  (forall s, p s = refused debug s a) ->
  completes (catch_unwind p) (fun r => r = if debug then Err tt else Ok a).
Proof.
  intros P b s E. injection E as O _. unfold catch_unwind. rewrite P. unfold refused.
  destruct debug; eexists _, s; (split; [reflexivity|]); simpl; by rewrite O.
Qed.

Lemma completes_new : completes (new_connection library) (fun c => fc_state c = Init).
Proof.
  apply completes_bind with (P := fun c => fc_state c = Init); [|intros c Hc; eapply completes_bind;
    [apply completes_meanwhile | intros _ _; by apply completes_ret]].
  eapply completes_bind; [apply completes_not_null|]. intros _ _.
  unfold FFIConnection_new. rewrite decide_False by done.
  eapply completes_bind; [apply completes_publish|]. intros _ _. by apply completes_ret.
Qed.

Lemma completes_released c : (forall r, fc_state c <> Connected r) ->
  completes (FFIConnection_free debug c) (fun r => r = Ok tt).
Proof.
  intros N. unfold FFIConnection_free. destruct (fc_state c) as [| |r|] eqn:E; [| |by destruct (N r)|];
    (eapply completes_bind; [apply completes_publish | intros _ _; by apply completes_ret]).
Qed.

Lemma completes_free c : (forall r, fc_state c <> Connected r) ->
  completes (free_connection debug library c) (fun _ => True).
Proof.
  intros N. apply completes_bind with (P := fun _ => True); [|intros _ _; apply completes_meanwhile].
  eapply completes_bind; [apply completes_not_null|]. intros c' ->.
  eapply completes_bind; [by apply completes_released|]. intros r _. by apply completes_ret.
Qed.

Lemma completes_callback c : fc_state c = Init ->
  completes (rc_conn_send_callback debug (Some c) noop_send 0%N)
    (fun r => exists send ud, fc_state (fst r) = Configured send ud).
Proof.
  intros E. eapply completes_bind; [apply completes_not_null|]. intros c' ->.
  unfold set_send_callback. rewrite decide_False by done. rewrite E.
  apply completes_ret. by do 2 eexists.
Qed.

Lemma completes_connect c : fc_state c = Init ->
  completes (connect debug library c) (fun c => exists r, fc_state c = Connected r).
Proof.
  intros E. eapply completes_bind; [by apply completes_callback|]. intros [c1 r1] (send & ud & E1).
  eapply completes_bind; [apply completes_meanwhile|]. intros _ _.
  apply completes_bind with (P := fun x => exists r, fc_state (fst x) = Connected r);
    [|intros [c2 r2] E2; eapply completes_bind;
    [apply completes_meanwhile | intros _ _; apply completes_ret; exact E2]].
  do 3 (eapply completes_bind; [apply completes_not_null|]; intros ? ->).
  simpl in E1. unfold set_connected. rewrite E1.
  eapply completes_bind; [by apply completes_modify|]. intros _ _.
  eapply completes_bind; [apply completes_publish|]. intros _ _. apply completes_ret. by eexists.
Qed.

Lemma completes_disconnected c r : fc_state c = Connected r ->
  completes (set_disconnected debug join_io join_dispatch c)
    (fun r => fc_state (fst r) = Disconnected /\ snd r = ConnRet_Success).
Proof.
  intros E b. unfold set_disconnected. rewrite E.
  apply runs_bind. eapply (runs_modify _ (fun v => (fst v, true))).
  { intros s. unfold watched. simpl. done. }
  assert (J : forall join, ends_stopped join ->
    runs_on watched (expect_joined join) (true, true) (fun _ v => v = (true, true))).
  { intros join J. apply runs_bind. eapply runs_weaken; [exact J|]. intros a v [-> ->]. by apply runs_ret. }
  apply runs_bind. eapply runs_weaken; [apply (J _ Io)|]. intros [] v ->.
  apply runs_bind. eapply runs_weaken; [apply (J _ Dispatch)|]. intros [] v ->.
  refine (completes_bind _ _ _ _ (completes_publish _) _ true). intros _ _.
  eapply completes_bind; [by apply completes_modify|]. intros _ _. by apply completes_ret.
Qed.

(** What a caught refusal means to a test: its assertion holds, and the
    connection is as it was. *)
Lemma completes_unchanged (p : prog Sys (FFIConnection * ConnRet)) c (ok : FState -> bool) :
  (forall s, p s = refused debug s (c, ConnRet_InvalidState)) -> ok (fc_state c) = true ->
  (forall r, fc_state c <> Connected r) ->
  completes (result ← catch_unwind p;
    assert_refused debug (fun r => is_invalid_state (snd r)) result ;;
    let conn := conn_after c result in
    assert (ok (fc_state conn)) ;;
    free_connection debug library conn) (fun _ => True).
Proof.
  intros P Ok N. eapply completes_bind; [by apply completes_refused|]. intros r ->.
  replace (conn_after c _) with c by by destruct debug.
  eapply completes_bind; [apply completes_assert; by destruct debug|]. intros _ _.
  eapply completes_bind; [by apply completes_assert|]. intros _ _. by apply completes_free.
Qed.

Lemma completes_refused_free :
  completes (test_free_invalid_state_connected debug library join_io join_dispatch) (fun _ => True).
Proof.
  eapply completes_bind; [apply completes_new|]. intros c0 E0.
  eapply completes_bind; [by apply completes_connect|]. intros c1 [r1 E1].
  eapply completes_bind.
  { apply (completes_refused _ (Err (c1, ConnRet_InvalidState))). intros s.
    unfold FFIConnection_free, invalid_state, refused. rewrite E1. by destruct debug. }
  intros res ->. set (d := debug). destruct d eqn:D; [by apply completes_assert|].
  eapply completes_bind; [by apply completes_assert|]. intros _ _.
  eapply completes_bind; [apply completes_meanwhile|]. intros _ _. subst d. rewrite <- D.
  eapply completes_bind; [by eapply completes_disconnected|]. intros [c2 r2] [E2 R2].
  simpl in E2, R2. subst r2. eapply completes_bind; [by apply completes_assert|]. intros _ _.
  eapply completes_bind; [apply completes_meanwhile|]. intros _ _.
  eapply completes_bind; [apply completes_released; by rewrite E2|]. intros x ->.
  by apply completes_assert.
Qed.

End InvalidRuns.

(** ** Properties *)

Section FfiTestProperties.
Context `{ProtoTypes} `{!Prost} `{!ProstDefaults} `{MpscLaws}.

(** C15. The tests against a mocked entrypoint pass: under every interleaving of the
    test, the entrypoint and the connection's two tasks no assertion fails, and
    every fair one completes both tests within thirty rounds.  So the lifecycle
    events arrive in their order; what the library sends reaches the callback, and
    what the host receives reaches the library; a reported error arrives under its
    correlation identifier; and after [rc_conn_disconnected] has returned, sending
    fails because the I/O task has ended. *)
Theorem connection_tests_pass debug data schedule :
  decode_s2c data = Ok (Some S2C_Ping) -> fits_u32 (ClientToServer_to_bytes Pong) ->
  let lifecycle := run_test debug no_dispatch (test_start (test_connection_lifecycle data)) schedule in
  let error := run_test debug no_dispatch (test_start test_dispatch_error) schedule in
  lf_failed lifecycle = false /\ lf_failed error = false /\
  (fair test_rounds schedule -> test_passed lifecycle = true /\ test_passed error = true).
Proof.
  intros E Fit. destruct data as [|b bs]; [by rewrite decode_s2c_empty in E|].
  assert (Hv : ServerToClient_try_from (b :: bs) = Ok Ping)
    by (unfold ServerToClient_try_from; by rewrite E).
  assert (Hs : is_pong (as_read (ClientToServer_to_bytes Pong)) = true)
    by (rewrite as_read_fits by done; by apply bool_decide_true).
  set (r := mk_dispatch_result (CorrelationId_new CORRELATION_ID) (Err HandlerExecTimeout)).
  pose proof (lifecycle_plays debug b bs r Hv Hs) as L. cbv zeta in L.
  pose proof (error_plays debug [] (Ok Ping)) as R. cbv zeta in R.
  destruct (script_passes debug lifecycle_plan (test_connection_lifecycle (b :: bs)) _ _ _ _ _ _ _
    lifecycle_progresses eq_refl L eq_refl schedule) as [A1 A2].
  destruct (script_passes debug error_plan test_dispatch_error _ _ _ _ _ _ _
    error_progresses eq_refl R eq_refl schedule) as [B1 B2]. auto.
Qed.

(** The tests of calls that the state of the connection does not allow pass, in
    debug and release builds, whatever the library does between the calls: such a
    call panics in a debug build and is refused in a release build, in either case
    with the connection as it was, so that it can still be freed - and one that is
    not freed because it is connected can be disconnected and freed. *)
Lemma state_tests_pass debug library fuel join_io join_dispatch test s
  (Lib : forall k s, events_open s -> events_open (library k s))
  (Io : ends_stopped join_io) (Dispatch : ends_stopped join_dispatch)
  (Test : test ∈ state_tests debug library fuel join_io join_dispatch) (Open : events_open s) :
  exists s', test s = Done tt s'.
Proof.
  assert (C : completes test (fun _ => True)).
  { repeat (apply elem_of_cons in Test as [->|Test]); [..|by apply elem_of_nil in Test].
    all: try by apply completes_refused_free.
    all: eapply completes_bind; [by apply completes_new|]; intros c E.
    - eapply completes_bind; [apply completes_assert; by rewrite E|]. intros _ _.
      eapply completes_bind; [by apply completes_callback|]. intros [c' r] (send & ud & E'). simpl in E'.
      eapply completes_bind; [apply completes_assert; by rewrite E'|]. intros _ _.
      apply completes_free; [done | by rewrite E'].
    - apply completes_unchanged; [done | | by rewrite E | by rewrite E]. intros s0.
      unfold set_connected, refused, invalid_state. rewrite E. by destruct debug.
    - apply completes_unchanged; [done | | by rewrite E | by rewrite E]. intros s0.
      unfold set_disconnected, refused, invalid_state. rewrite E. by destruct debug.
    - eapply completes_bind; [apply (completes_refused debug _ RecvRet_InvalidState); intros s0;
        unfold recv_incoming, refused, invalid_state; rewrite E; by destruct debug|]. intros r ->.
      eapply completes_bind; [apply completes_assert; by destruct debug|]. intros _ _.
      apply completes_free; [done | by rewrite E].
    - eapply completes_bind; [by apply completes_connect|]. intros c1 [r1 E1].
      eapply completes_bind; [eapply completes_bind; [apply completes_not_null|]; intros c2 ->;
        by eapply completes_disconnected|]. intros [c2 r2] [E2 _]. simpl in E2.
      eapply completes_bind; [by apply completes_meanwhile|]. intros _ _.
      apply (completes_unchanged debug library Lib _ c2
        (fun st => match st with Disconnected => true | _ => false end)); [| by rewrite E2 | by rewrite E2].
      intros s0. unfold set_send_callback, refused, invalid_state. rewrite decide_False by done.
      rewrite E2. by destruct debug. }
  destruct (C _ s (f_equal2 pair Open eq_refl)) as ([] & s' & E & _). by exists s'.
Qed.

End FfiTestProperties.

(** *** Witnesses *)

Definition toy_rounds : list test_thread := concat (replicate 30 [DispatchTask; Entrypoint; IoTask; Test]).

Lemma connection_tests_pass_witness :
  test_passed (@run_test toy_proto toy_prost fifo_mpsc true no_dispatch
    (test_start (@test_connection_lifecycle toy_proto toy_prost [x01])) toy_rounds) = true /\
  test_passed (@run_test toy_proto toy_prost fifo_mpsc true no_dispatch
    (test_start (@test_dispatch_error toy_proto)) toy_rounds) = true.
Proof.
  apply (@connection_tests_pass toy_proto toy_prost toy_prost_defaults fifo_mpsc fifo_mpsc_laws true [x01]
    toy_rounds).
  - reflexivity.
  - vm_compute. reflexivity.
  - apply fair_replicate. intros t. destruct t; repeat constructor.
Defined.

Lemma state_tests_pass_witness :
  exists s', @test_free_invalid_state_connected toy_proto fifo_mpsc false (fun _ s => s) toy_join toy_join
    toy_sys = Done tt s'.
Proof.
  apply (@state_tests_pass toy_proto fifo_mpsc false (fun _ s => s) 1 toy_join toy_join
    (@test_free_invalid_state_connected toy_proto fifo_mpsc false (fun _ s => s) toy_join toy_join) toy_sys).
  - intros k s Hs. exact Hs.
  - intros s E. exists (Ok tt), s. split; [reflexivity|]. split; [reflexivity | exact E].
  - intros s E. exists (Ok tt), s. split; [reflexivity|]. split; [reflexivity | exact E].
  - do 5 right. left.
  - reflexivity.
Defined.
