(* ===== verification/ActorTests.v ===== *)
(** * The unit tests of the connection actor and of retried sends

    Models the tests of [rc-x509-client/src/connection/handler/actor.rs] and of
    [handler/delegate/retry.rs], over the mocked transport of [mocks/io.rs].  They
    run on a current-thread runtime: what the test does before its first await
    happens before the spawned actor runs, and whenever the actor waits the test
    goes on, by its script, until it waits itself.  A test passes when nothing
    panics, no assertion fails and nothing is waited for that cannot come. *)

From stdpp Require Import base option list strings.
From Stdlib Require Import Strings.Byte NArith ZArith Lia.
From S2P Require Import Prelude Signature CertId Hash Certificate TrustStore Verifier ConnectionId Codec Mpsc Dispatch Runtime Fsm Actor Ffi World Symbolic DelegateTests.

Section ActorTests.
Context `{ProtoTypes} `{!EqDecision DispatchResponsePayload} `{AwsDigest} `{UuidLib} `{Mpsc} {R : Type} `{!Rng R}.

(** What a test does while the actor waits: receives a message of the client, or
    sends the client a dispatch result. *)
Inductive actor_statement : Type :=
| Server_recv (check : ClientToServer -> bool)
| Send_response (v : DispatchResult).

(** The test's end of the transport and its script.  [mh_sleeps]: how often a
    retry may sleep before the test cancels. *)
Record MockHost : Type := mk_mock_host {
  mh_to_client : mpsc (result ServerToClient DecodingError);
  mh_from_server : bool;
  mh_script : list actor_statement;
  mh_failed : bool;
  mh_sleeps : option nat
}.

Definition MockWorld : Type := World (R:=R) (Host:=MockHost).

Definition mock (w : MockWorld) : MockHost := cr_host (sh_rest w).
Definition set_mock (f : MockHost -> MockHost) : MockWorld -> MockWorld :=
  upd (fun t => mk_conn_rest (cr_out t) (cr_stopped t) (cr_runtime t) (cr_metrics t) (cr_rng t)
    (f (cr_host t)) (cr_sent t) (cr_queued t)).
Definition set_out (c : mpsc ClientToServer) : MockWorld -> MockWorld :=
  upd (fun t => mk_conn_rest c (cr_stopped t) (cr_runtime t) (cr_metrics t) (cr_rng t) (cr_host t)
    (cr_sent t) (cr_queued t)).
Definition with_script (l : list actor_statement) (failed : bool) : MockWorld -> MockWorld :=
  set_mock (fun h => mk_mock_host (mh_to_client h) (mh_from_server h) l (mh_failed h || failed) (mh_sleeps h)).

(** [stop.cancel()]. *)
Definition cancel : MockWorld -> MockWorld :=
  upd (fun t => mk_conn_rest (cr_out t) true (cr_runtime t) (cr_metrics t) (cr_rng t) (cr_host t)
    (cr_sent t) (cr_queued t)).

(** The test goes on until it waits, or its script is done. *)
Fixpoint run_script (l : list actor_statement) (w : MockWorld) : MockWorld :=
  match l with
  | [] => with_script [] false w
  | Server_recv check :: rest =>
      let '(p, c) := mpsc_poll_recv (cr_out (sh_rest w)) in
      let w := set_out c w in
      match p with
      | Ready (Some m) => if check m then run_script rest w else with_script [] true w
      | Ready None => with_script [] true w
      | Pending => with_script l false w
      end
  | Send_response v :: rest =>
      let '(p, c) := mpsc_poll_send v (sh_resp w) in
      let w := set_resp c w in
      match p with
      | Ready (Ok _) => run_script rest w
      | Ready (Err _) => with_script [] true w
      | Pending => with_script l false w
      end
  end.

(** While a retry sleeps, the time passes, until the test cancels. *)
Definition sleep_passes (w : MockWorld) : MockWorld :=
  let set n := set_mock (fun h => mk_mock_host (mh_to_client h) (mh_from_server h) (mh_script h)
    (mh_failed h) n) in
  match mh_sleeps (mock w) with
  | None => w
  | Some 0 => cancel (set None w)
  | Some (S n) => set (Some n) w
  end.

#[local] Instance mock_conn : ConnEnv MockWorld := {|
  CancellationToken := unit;
  MetricsRef := unit;
  env_send m w := let '(r, c) := MockIO_send m (cr_out (sh_rest w)) in Done r (set_out c w);
  env_stop_or_sleep _ := world_stop_or_sleep sleep_passes;
  env_dispatch := world_dispatch id 1;
  env_rng := world_rng;
  env_metrics _ w := cr_metrics (sh_rest w)
|}.

(** [MockIO::take_recv_stream]. *)
Definition MockIO_take_recv_stream : prog MockWorld (option ()) := fun w =>
  Done (if mh_from_server (mock w) then Some tt else None)
    (set_mock (fun h => mk_mock_host (mh_to_client h) false (mh_script h) (mh_failed h) (mh_sleeps h)) w).

Definition MockIO_poll_next : prog MockWorld (poll (option (result ServerToClient DecodingError))) :=
  fun w =>
  let '(p, c) := mpsc_poll_recv (mh_to_client (mock w)) in
  Done p (set_mock (fun h => mk_mock_host c (mh_from_server h) (mh_script h) (mh_failed h) (mh_sleeps h)) w).

(** A test whose script is done returns, and the runtime drops the actor. *)
#[local] Instance mock_actor : ActorEnv MockWorld := {|
  Incoming := unit;
  actor_stopped _ w := cr_stopped (sh_rest w);
  env_take_recv_stream := MockIO_take_recv_stream;
  env_poll_incoming _ := MockIO_poll_next;
  env_poll_response := response_poll_next;
  env_suspend w :=
    match mh_script (mock w) with [] => Blocked w | l => Done tt (run_script l w) end;
  env_now w := Done 0%N w;
  env_update_metrics _ f := modify (upd (fun t => mk_conn_rest (cr_out t) (cr_stopped t) (cr_runtime t)
    (f (cr_metrics t)) (cr_rng t) (cr_host t) (cr_sent t) (cr_queued t)))
|}.

(** Attempts allowed to each [retry_send], and polls to the actor. *)
Context (fuel n : nat).

Abbreviation Actor := (ConnectionActor (W:=MockWorld) (V:=MockVerifier)).

(** The set-up of every test. *)
Definition new_world (version : BuildVersion) (rng : R) (script : list actor_statement)
  (sleeps : option nat) : DispatchPublisher * MockWorld :=
  let '(to_client, to_server) := new_io_pair in
  let '((publisher, _, _), w) := new_dispatcher_interconnect
    (mk_conn_rest to_server false test_runtime (InstanceMetrics_default version) rng
      (mk_mock_host to_client true script false sleeps) [] []) in
  (publisher, w).

Definition new_actor (publisher : DispatchPublisher) : panics Actor :=
  let '(dispatch_stream, publisher) := DispatchPublisher_take_recv_stream publisher in
  dispatch_stream ← dispatch_stream;
  Some (ConnectionActor_new tt (MessageDelegate_new tt tt publisher
    (AppInfo_new (AppName_from "test") (AppVersion_from "0.0.0")) MockVerifier_default) dispatch_stream tt).

(** What is dropped with the actor: its transport, the publisher, the stream. *)
Definition drop_actor (w : MockWorld) : MockWorld :=
  set_out (mpsc_drop_tx (cr_out (sh_rest w)))
    (set_mock (fun h => mk_mock_host (mpsc_drop_rx (mh_to_client h)) (mh_from_server h) (mh_script h)
       (mh_failed h) (mh_sleeps h))
      (set_req (mpsc_drop_tx (sh_req w)) (set_resp (mpsc_drop_rx (sh_resp w)) w))).

(** [task.await]. *)
Definition join (actor : Actor) : prog MockWorld () :=
  ConnectionActor_run fuel n actor ;; modify drop_actor.

(** [drop(server)], [drop(dispatch_responder)]. *)
Definition drop_server (w : MockWorld) : MockWorld :=
  set_out (mpsc_drop_rx (cr_out (sh_rest w)))
    (set_mock (fun h => mk_mock_host (mpsc_drop_tx (mh_to_client h)) (mh_from_server h) (mh_script h)
       (mh_failed h) (mh_sleeps h)) w).
Definition drop_responder (w : MockWorld) : MockWorld := set_resp (mpsc_drop_tx (sh_resp w)) w.

(** [server.send(v).await.expect(..)], with room in the channel. *)
Definition server_send (v : result ServerToClient DecodingError) : prog MockWorld () := fun w =>
  let '(p, c) := mpsc_poll_send v (mh_to_client (mock w)) in
  let w := set_mock (fun h => mk_mock_host c (mh_from_server h) (mh_script h) (mh_failed h) (mh_sleeps h)) w in
  match p with Ready (Ok _) => Done tt w | Ready (Err _) | Pending => Panic w end.

(** [server.recv().await], when nothing else runs. *)
Definition server_recv : prog MockWorld (option ClientToServer) := fun w =>
  let '(p, c) := mpsc_poll_recv (cr_out (sh_rest w)) in
  match p with Ready m => Done m (set_out c w) | Pending => Panic (set_out c w) end.

(** ** The tests *)

Context (publisher : DispatchPublisher).

Definition test_graceful_stop_signal : prog MockWorld () :=
  actor ← of_panics (new_actor publisher); modify cancel ;; join actor.
Definition test_graceful_stop_io : prog MockWorld () :=
  actor ← of_panics (new_actor publisher); modify drop_server ;; join actor.
Definition test_graceful_stop_dispatch_response_stream : prog MockWorld () :=
  actor ← of_panics (new_actor publisher); modify drop_responder ;; join actor.

Definition is_hello (m : ClientToServer) : bool := match m with Hello _ => true | _ => false end.

(** The test stages one message, a ping. *)
Definition test_race_shutdown_with_server_message (staged : result ServerToClient DecodingError) :
  prog MockWorld () :=
  actor ← of_panics (new_actor publisher);
  modify cancel ;;
  server_send staged ;;
  join actor ;;
  got ← server_recv;
  assert (match got with None => true | Some m => is_hello m end) ;;
  got ← server_recv;
  assert (match got with None => true | Some _ => false end).

(** The assertion on the response to [v]. *)
Definition is_response_to (v : DispatchResult) (m : ClientToServer) : bool :=
  match m with
  | DispatchResponse got_id result =>
      bool_decide (got_id = dr_correlation_id v) &&
      match dr_result v, result with
      | Ok payload, DR_Payload got => bool_decide (payload = got)
      | Err err, DR_Error got => bool_decide (V1DispatchError_code (DispatchError_into_v1 err) = got)
      | _, _ => false
      end
  | _ => false
  end.

Definition dispatch_response_script (v : DispatchResult) : list actor_statement :=
  [Server_recv is_hello; Send_response v; Server_recv (is_response_to v)].

Definition prop_dispatch_response_forwards_any_result : prog MockWorld () :=
  actor ← of_panics (new_actor publisher); ConnectionActor_run fuel n actor.

(** *** [retry_send] *)

Definition test_retry_send_success : prog MockWorld () :=
  retry_send fuel Pong tt ;;
  got ← server_recv;
  assert (match got with Some Pong => true | _ => false end).

Definition test_retry_send_aborts_on_closed_connection : prog MockWorld () :=
  modify drop_server ;; retry_send fuel Pong tt.

(** Sends until the channel is full. *)
Fixpoint fill (k : nat) : prog MockWorld () :=
  match k with
  | 0 => panic
  | S k => r ← env_send Pong; match r with Ok _ => fill k | Err _ => mret tt end
  end.

Definition test_retry_send_retries_until_stopped : prog MockWorld () :=
  fill 11 ;; retry_send fuel Pong tt.

End ActorTests.

(** ** Symbolic execution *)

Section ActorRuns.
Context `{ProtoTypes} `{!EqDecision DispatchResponsePayload} `{AwsDigest} `{UuidLib} `{MpscLaws}
  {R : Type} `{!Rng R}.
Abbreviation MW := (MockWorld (R:=R)).
#[local] Existing Instance mock_conn.
#[local] Existing Instance mock_actor.

Record mview : Type := mk_mview {
  v_resp : chan DispatchResult;
  v_out : chan ClientToServer;
  v_in : chan (result ServerToClient DecodingError);
  v_stopped : bool;
  v_from : bool;
  v_script : list actor_statement;
  v_failed : bool;
  v_sleeps : option nat;
  v_time : bool
}.

Definition mock_view (w : MW) : mview :=
  mk_mview (mpsc_view (sh_resp w)) (mpsc_view (cr_out (sh_rest w))) (mpsc_view (mh_to_client (mock w)))
    (cr_stopped (sh_rest w)) (mh_from_server (mock w)) (mh_script (mock w)) (mh_failed (mock w))
    (mh_sleeps (mock w)) (rt_time (cr_runtime (sh_rest w))).

Definition put_out (c : chan ClientToServer) (v : mview) : mview :=
  mk_mview (v_resp v) c (v_in v) (v_stopped v) (v_from v) (v_script v) (v_failed v) (v_sleeps v) (v_time v).
Definition put_in (c : chan (result ServerToClient DecodingError)) (v : mview) : mview :=
  mk_mview (v_resp v) (v_out v) c (v_stopped v) (v_from v) (v_script v) (v_failed v) (v_sleeps v) (v_time v).
Definition put_resp (c : chan DispatchResult) (v : mview) : mview :=
  mk_mview c (v_out v) (v_in v) (v_stopped v) (v_from v) (v_script v) (v_failed v) (v_sleeps v) (v_time v).
Definition put_script (l : list actor_statement) (b : bool) (v : mview) : mview :=
  mk_mview (v_resp v) (v_out v) (v_in v) (v_stopped v) (v_from v) l (v_failed v || b) (v_sleeps v) (v_time v).
Definition stop (v : mview) : mview :=
  mk_mview (v_resp v) (v_out v) (v_in v) true (v_from v) (v_script v) (v_failed v) (v_sleeps v) (v_time v).
Definition take_stream (v : mview) : mview :=
  mk_mview (v_resp v) (v_out v) (v_in v) (v_stopped v) false (v_script v) (v_failed v) (v_sleeps v) (v_time v).
Definition put_sleeps (n : option nat) (v : mview) : mview :=
  mk_mview (v_resp v) (v_out v) (v_in v) (v_stopped v) (v_from v) (v_script v) (v_failed v) n (v_time v).

Abbreviation runs := (runs_on mock_view).

Lemma mock_send m w r c : chan_try_send m (v_out (mock_view w)) = (r, c) ->
  exists w', env_send m w = Done (map_err (fun e => match e with
      | TrySend_Closed => ConnectionErr_Closed | TrySend_Full => ConnectionErr_QueueFull end) r) w' /\
    mock_view w' = put_out c (mock_view w).
Proof.
  intros E. cbn [env_send mock_conn]. unfold MockIO_send.
  destruct (mpsc_try_send m (cr_out (sh_rest w))) as [x c'] eqn:P. apply mpsc_try_send_view in P.
  cbn [v_out mock_view] in E. rewrite E in P. injection P as -> ->.
  destruct x as [[]|[]]; by eexists.
Qed.

Lemma runs_retry_sent fuel m tok v (Q : () -> mview -> Prop) :
  c_rx (v_out v) = true -> ~ chan_full (v_out v) -> Q tt (put_out (chan_push m (v_out v)) v) ->
  runs (retry_send (S fuel) m tok) v Q.
Proof.
  intros Rx F HQ w <-. destruct (mock_send m w (Ok tt) (chan_push m (v_out (mock_view w)))) as (w' & E & V).
  { unfold chan_try_send. by rewrite Rx, decide_False. }
  exists tt, w'. cbn [retry_send]. rewrite (prog_bind_done _ _ _ _ _ E), V. done.
Qed.

Lemma runs_retry_closed fuel m tok v (Q : () -> mview -> Prop) :
  c_rx (v_out v) = false -> Q tt v -> runs (retry_send (S fuel) m tok) v Q.
Proof.
  intros Rx HQ w <-. destruct (mock_send m w (Err TrySend_Closed) (v_out (mock_view w))) as (w' & E & V).
  { unfold chan_try_send. by rewrite Rx. }
  exists tt, w'. cbn [retry_send]. rewrite (prog_bind_done _ _ _ _ _ E), V. done.
Qed.

(** The client's hello is sent if the server is there. *)
Definition greeted (h : ClientToServer) (v : mview) : mview :=
  if c_rx (v_out v) then put_out (chan_push h (v_out v)) v else v.

Context (Works : entropy (R:=R)).

Lemma runs_mock_nonce v (Q : IdNonce -> mview -> Prop) :
  (forall bs, Q (mk_nonce bs) v) -> runs IdNonce_default v Q.
Proof.
  intros HQ w <-. unfold IdNonce_default, rand_fill at 1. cbn [env_rng mock_conn]. unfold world_rng.
  destruct (Works (cr_rng (sh_rest w))) as (bs & r' & E & L & NZ). rewrite E, decide_False by done.
  eexists _, _. split; [reflexivity|]. apply HQ.
Qed.

Lemma runs_mock_hello fuel publisher info v
  (Q : MessageDelegate (W:=MW) (V:=MockVerifier) -> mview -> Prop) : ~ chan_full (v_out v) ->
  (forall d h, Q d (greeted (Hello h) v)) ->
  runs (MessageDelegate_send_hello (S fuel) (MessageDelegate_new tt tt publisher info MockVerifier_default)) v Q.
Proof.
  intros F K. apply runs_bind, runs_bind, runs_bind, runs_mock_nonce. intros bs.
  apply runs_bind, runs_gets_any. intros m. apply runs_ret, runs_bind. cbn [snd].
  match goal with |- context [Hello ?h] => specialize (fun d => K d h) as Kh end. unfold greeted in Kh.
  destruct (c_rx (v_out v)) eqn:Rx.
  - apply runs_retry_sent; [done..|]. apply runs_ret, runs_ret, Kh.
  - apply runs_retry_closed; [done|]. apply runs_ret, runs_ret, Kh.
Qed.

Lemma runs_poll_response rx v (Q : poll (option DispatchResult) -> mview -> Prop) :
  (let '(p, c) := chan_poll_recv (v_resp v) in Q p (put_resp c v)) -> runs (env_poll_response rx) v Q.
Proof.
  intros HQ w <-. cbn [env_poll_response mock_actor]. unfold response_poll_next.
  destruct (mpsc_poll_recv (sh_resp w)) as [p c] eqn:E. apply mpsc_poll_recv_view in E.
  cbn [v_resp mock_view] in HQ. rewrite E in HQ. by eexists _, _.
Qed.

Lemma runs_poll_incoming inc v (Q : poll (option (result ServerToClient DecodingError)) -> mview -> Prop) :
  (let '(p, c) := chan_poll_recv (v_in v) in Q p (put_in c v)) -> runs (env_poll_incoming inc) v Q.
Proof.
  intros HQ w <-. cbn [env_poll_incoming mock_actor]. unfold MockIO_poll_next.
  destruct (mpsc_poll_recv (mh_to_client (mock w))) as [p c] eqn:E. apply mpsc_poll_recv_view in E.
  cbn [v_in mock_view] in HQ. rewrite E in HQ. by eexists _, _.
Qed.

Lemma runs_take_stream v (Q : option () -> mview -> Prop) : v_from v = true ->
  Q (Some tt) (take_stream v) -> runs env_take_recv_stream v Q.
Proof.
  intros Fr HQ w <-. cbn [env_take_recv_stream mock_actor]. unfold MockIO_take_recv_stream.
  cbn [v_from mock_view] in Fr. rewrite Fr. by eexists _, _.
Qed.

Abbreviation Self := (ConnectionActor (W:=MW) (V:=MockVerifier)).

(** From every state that looks like [v], [p] does not panic: it completes, or
    waits for ever, with [Q]. *)
Definition ends (p : prog MW ()) (v : mview) (Q : bool -> mview -> Prop) : Prop := forall w,
  mock_view w = v ->
  match p w with
  | Done _ w' => Q true (mock_view w')
  | Blocked w' => Q false (mock_view w')
  | Panic _ => False
  end.

Lemma ends_weaken (p : prog MW ()) v (P Q : bool -> mview -> Prop) :
  ends p v P -> (forall b v', P b v' -> Q b v') -> ends p v Q.
Proof. intros E K w V. specialize (E w V). destruct (p w); auto. Qed.

Lemma ends_ret v (Q : bool -> mview -> Prop) : Q true v -> ends (mret tt) v Q.
Proof. by intros HQ w <-. Qed.

Lemma ends_bind {A} (p : prog MW A) (k : A -> prog MW ()) v Q :
  runs p v (fun a v' => ends (k a) v' Q) -> ends (p ≫= k) v Q.
Proof.
  intros P w E. destruct (P w E) as (a & w' & Ep & K). rewrite (prog_bind_done _ _ _ _ _ Ep).
  by apply K.
Qed.

Lemma ends_then (p k : prog MW ()) v (Q : bool -> mview -> Prop) :
  ends p v (fun b v' => if b then ends k v' Q else Q false v') -> ends (p ;; k) v Q.
Proof.
  intros P w E. specialize (P w E). unfold mbind, prog_bind. destruct (p w) as [[] w'|w'|w']; try done.
  by apply P.
Qed.

Lemma ends_runs (p : prog MW ()) v (Q : mview -> Prop) :
  ends p v (fun b v' => b = true /\ Q v') -> runs p v (fun _ v' => Q v').
Proof.
  intros E w V. specialize (E w V). destruct (p w) as [[] w'|w'|w']; [|done|by destruct E].
  exists tt, w'. by destruct E.
Qed.

(** The actor starts: it takes its streams, sends the hello, and its loop runs;
    at the end only the metrics are updated. *)
Lemma ends_actor fuel n publisher (actor : Self) v (Q : bool -> mview -> Prop) :
  new_actor publisher = Some actor -> v_from v = true -> ~ chan_full (v_out v) ->
  (forall (self : Self) h, ends (actor_loop (S fuel) n response_rx tt self)
     (greeted (Hello h) (take_stream v)) Q) ->
  ends (ConnectionActor_run (S fuel) n actor) v Q.
Proof.
  intros E Fr F K. unfold new_actor in E.
  destruct (DispatchPublisher_take_recv_stream publisher) as [[[]|] p]; [|done]. injection E as <-.
  apply ends_bind. intros w <-. exists 0%N, w. split; [done|].
  apply ends_then, ends_bind. eapply runs_some; [reflexivity|].
  apply ends_bind, runs_take_stream; [done|]. apply ends_bind. eapply runs_some; [reflexivity|].
  apply ends_bind, runs_mock_hello; [done|]. intros d h w1 E1.
  match goal with |- context [actor_loop _ _ _ _ ?self w1] => specialize (K self h w1 E1) end.
  destruct (actor_loop _ _ _ _ _ w1) as [[] w2|w2|w2]; [|done|done].
  intros w' E'. simpl. by rewrite <- E' in K.
Qed.

(** One turn of the loop: stopped; a response; the response queue closed; the
    message stream ended; nothing to do, and the test goes on. *)
Lemma ends_turn fuel n (self : Self) v (Q : bool -> mview -> Prop) :
  (if v_stopped v then Q true v
   else let '(p, c) := chan_poll_recv (v_resp v) in
     let v := put_resp c v in
     match p with
     | Ready (Some x) => runs (dispatch_response (S fuel) self x) v
         (fun _ v => ends (actor_loop (S fuel) n response_rx tt self) v Q)
     | Ready None => Q true v
     | Pending =>
         let '(p, c) := chan_poll_recv (v_in v) in
         let v := put_in c v in
         match p with
         | Ready (Some m) => runs (server_message (S fuel) self m) v
             (fun self v => ends (actor_loop (S fuel) n response_rx tt self) v Q)
         | Ready None => Q true v
         | Pending => ends (env_suspend ;; actor_loop (S fuel) n response_rx tt self) v Q
         end
     end) ->
  ends (actor_loop (S fuel) (S n) response_rx tt self) v Q.
Proof.
  intros K. apply ends_bind, (runs_gets _ v_stopped); [done|].
  destruct (v_stopped v); [by apply ends_ret|]. apply ends_bind, runs_poll_response.
  destruct (chan_poll_recv (v_resp v)) as [[[x|]|] c]; [by apply ends_bind | by apply ends_ret|].
  apply ends_bind, runs_poll_incoming. cbv zeta in K.
  destruct (chan_poll_recv (v_in (put_resp c v))) as [[[m|]|] c'];
    [by apply ends_bind | by apply ends_ret | done].
Qed.

(** The test's script, on a view. *)
Fixpoint script_view (l : list actor_statement) (v : mview) : mview :=
  match l with
  | [] => put_script [] false v
  | Server_recv check :: rest =>
      let '(p, c) := chan_poll_recv (v_out v) in
      let v := put_out c v in
      match p with
      | Ready (Some m) => if check m then script_view rest v else put_script [] true v
      | Ready None => put_script [] true v
      | Pending => put_script l false v
      end
  | Send_response x :: rest =>
      let '(p, c) := chan_poll_send x (v_resp v) in
      let v := put_resp c v in
      match p with
      | Ready (Ok _) => script_view rest v
      | Ready (Err _) => put_script [] true v
      | Pending => put_script l false v
      end
  end.

Lemma view_script l w : mock_view (run_script l w) = script_view l (mock_view w).
Proof.
  revert w. induction l as [|[check|x] l IH]; intros w; [done|..]; simpl.
  - destruct (mpsc_poll_recv (cr_out (sh_rest w))) as [p c] eqn:E. apply mpsc_poll_recv_view in E.
    rewrite E. destruct p as [[m|]|]; try done. destruct (check m); [apply IH | done].
  - destruct (mpsc_poll_send x (sh_resp w)) as [p c] eqn:E. apply mpsc_poll_send_view in E.
    rewrite E. destruct p as [[[]|]|]; done.
Qed.

Lemma ends_suspend (k : prog MW ()) v (Q : bool -> mview -> Prop) :
  match v_script v with
  | [] => Q false v
  | l => ends k (script_view l v) Q
  end -> ends (env_suspend ;; k) v Q.
Proof.
  intros K w <-. unfold mbind, prog_bind. cbn [env_suspend mock_actor v_script mock_view] in *.
  destruct (mh_script (mock w)) as [|st l]; [done|]. apply K. by rewrite view_script.
Qed.

(** A full queue: the send is retried until the test cancels, after [k] more
    sleeps, and the message is not queued. *)
Lemma ends_retry_full fuel k m tok v : c_rx (v_out v) = true -> chan_full (v_out v) ->
  v_stopped v = false -> v_sleeps v = Some k -> v_time v = true ->
  ends (retry_send fuel m tok) v (fun b v' => b = (k <? fuel) /\ v_out v' = v_out v).
Proof.
  intros Rx F. revert k v Rx F. induction fuel as [|fuel IH]; intros k v Rx F St Sl Ti.
  { intros w <-. simpl. split; [by rewrite (proj2 (Nat.ltb_ge k 0)) by lia | done]. }
  intros w <-. destruct (mock_send m w (Err TrySend_Full) (v_out (mock_view w))) as (w1 & E & V).
  { unfold chan_try_send. by rewrite Rx, decide_True. }
  cbn [retry_send]. rewrite (prog_bind_done _ _ _ _ _ E). cbn [map_err].
  assert (V1 : mock_view w1 = mock_view w) by (rewrite V; reflexivity). rewrite <- V1 in *. clear w E V V1.
  unfold mbind, prog_bind. cbn [env_stop_or_sleep mock_conn]. unfold world_stop_or_sleep.
  cbn [v_stopped v_sleeps v_time mock_view] in St, Sl, Ti. rewrite Ti, St. unfold sleep_passes. rewrite Sl.
  destruct k as [|k]; [by split|]. simpl. rewrite St.
  match goal with |- match retry_send _ _ _ ?w2 with _ => _ end => specialize (IH k (mock_view w2)) end.
  exact (IH Rx F St eq_refl Ti _ eq_refl).
Qed.

(** The channel is filled until a send fails. *)
Lemma runs_fill k v (Q : () -> mview -> Prop) : c_rx (v_out v) = true ->
  c_cap (v_out v) - length (c_queue (v_out v)) < k ->
  length (c_queue (v_out v)) <= c_cap (v_out v) ->
  (forall l, length (c_queue (v_out v) ++ l) = c_cap (v_out v) ->
     Q tt (put_out (mk_chan (c_queue (v_out v) ++ l) (c_cap (v_out v)) true (c_tx (v_out v))) v)) ->
  runs (fill k) v Q.
Proof.
  revert v. induction k as [|k IH]; intros v Rx L C K; [lia|]. apply runs_bind. intros w <-.
  destruct (decide (chan_full (v_out (mock_view w)))) as [F|F].
  - destruct (mock_send Pong w (Err TrySend_Full) (v_out (mock_view w))) as (w1 & E & V).
    { unfold chan_try_send. by rewrite Rx, decide_True. }
    eexists _, w1. split; [exact E|]. apply runs_ret. rewrite V. specialize (K []). rewrite app_nil_r in K.
    rewrite <- Rx in K. destruct (v_out (mock_view w)) eqn:Ev. unfold chan_full in F. simpl in *. apply K. lia.
  - destruct (mock_send Pong w (Ok tt) (chan_push Pong (v_out (mock_view w)))) as (w1 & E & V).
    { unfold chan_try_send. by rewrite Rx, decide_False. }
    eexists _, w1. split; [exact E|]. rewrite V.
    apply IH; cbn [v_out put_out chan_push c_queue c_cap c_rx c_tx]; [done | | |].
    1,2: rewrite length_app; unfold chan_full in F; cbn [length]; lia.
    intros l Fl. rewrite <- app_assoc in *. by apply (K (Pong :: l)).
Qed.

(** *** The initial state, and the tests' own operations *)

Definition view_start (script : list actor_statement) (sleeps : option nat) : mview :=
  mk_mview (chan_new (DISPATCH_QUEUE_LEN + 1)) (chan_new 10) (chan_new 10) false true script false sleeps true.

Definition close_server (v : mview) : mview :=
  put_out (chan_drop_rx (v_out v)) (put_in (chan_drop_tx (v_in v)) v).

Lemma view_new version rng script sleeps :
  mock_view (snd (new_world version rng script sleeps)) = view_start script sleeps.
Proof. unfold mock_view, view_start. simpl. by rewrite !view_channel. Qed.

Lemma view_cancel (w : MW) : mock_view (cancel w) = stop (mock_view w).
Proof. done. Qed.
Lemma view_drop_server (w : MW) : mock_view (drop_server w) = close_server (mock_view w).
Proof. unfold mock_view, close_server. simpl. by rewrite view_drop_rx, view_drop_tx. Qed.
Lemma view_drop_responder (w : MW) :
  mock_view (drop_responder w) = put_resp (chan_drop_tx (v_resp (mock_view w))) (mock_view w).
Proof. unfold mock_view, put_resp. simpl. by rewrite view_drop_tx. Qed.
Lemma view_drop_actor (w : MW) : mock_view (drop_actor w) =
  put_out (chan_drop_tx (v_out (mock_view w))) (put_in (chan_drop_rx (v_in (mock_view w)))
    (put_resp (chan_drop_rx (v_resp (mock_view w))) (mock_view w))).
Proof. unfold mock_view, put_out, put_in, put_resp. simpl. by rewrite view_drop_tx, !view_drop_rx. Qed.

Lemma runs_server_recv v (Q : option ClientToServer -> mview -> Prop) :
  (let '(p, c) := chan_poll_recv (v_out v) in
   match p with Ready m => Q m (put_out c v) | Pending => False end) -> runs server_recv v Q.
Proof.
  intros K w <-. unfold server_recv. destruct (mpsc_poll_recv (cr_out (sh_rest w))) as [p c] eqn:E.
  apply mpsc_poll_recv_view in E. cbn [v_out mock_view] in K. rewrite E in K.
  destruct p as [m|]; [by eexists _, _ | done].
Qed.

Lemma runs_server_send x v (Q : () -> mview -> Prop) : c_rx (v_in v) = true -> ~ chan_full (v_in v) ->
  Q tt (put_in (chan_push x (v_in v)) v) -> runs (server_send x) v Q.
Proof.
  intros Rx F K w <-. unfold server_send.
  destruct (mpsc_poll_send x (mh_to_client (mock w))) as [p c] eqn:E. apply mpsc_poll_send_view in E.
  unfold chan_poll_send in E. cbn [v_in mock_view] in Rx, F, K. rewrite Rx, decide_False in E by done.
  injection E as <- E. exists tt. eexists. split; [reflexivity|]. by rewrite E in K.
Qed.

(** What is dropped with the actor. *)
Definition released (v : mview) : mview :=
  put_out (chan_drop_tx (v_out v)) (put_in (chan_drop_rx (v_in v)) (put_resp (chan_drop_rx (v_resp v)) v)).

(** The task is joined, and what it held is dropped. *)
Lemma runs_join fuel n publisher (actor : Self) v (Q : () -> mview -> Prop) :
  new_actor publisher = Some actor -> v_from v = true -> ~ chan_full (v_out v) ->
  (forall (self : Self) h, ends (actor_loop (S fuel) n response_rx tt self) (greeted (Hello h) (take_stream v))
     (fun b v => b = true /\ Q tt (released v))) ->
  runs (join (S fuel) n actor) v Q.
Proof.
  intros E Fr F K. apply runs_bind. eapply runs_weaken.
  { apply (ends_runs _ _ (fun v => Q tt (released v))). by eapply ends_actor. }
  intros [] v' HQ. by apply (runs_modify _ released _ _ view_drop_actor).
Qed.

End ActorRuns.

(** ** Properties *)

Section ActorTestProperties.
Context `{ProtoTypes} `{!EqDecision DispatchResponsePayload} `{AwsDigest} `{UuidLib} `{MpscLaws}
  {R : Type} `{!Rng R}.
#[local] Existing Instance mock_conn.
#[local] Existing Instance mock_actor.

(** The test completes, from the set-up of the mocks. *)
Definition passes (version : BuildVersion) (rng : R) (test : DispatchPublisher -> prog (MockWorld (R:=R)) ()) : Prop :=
  let '(publisher, w) := new_world version rng [] None in exists w', test publisher w = Done tt w'.

#[local] Arguments actor_loop : simpl never.
#[local] Arguments env_suspend : simpl never.
#[local] Arguments dispatch_response : simpl never.
#[local] Arguments is_response_to : simpl never.

Lemma response_matches v : is_response_to v (response_message v) = true.
Proof.
  unfold is_response_to, response_message. rewrite bool_decide_true by done.
  destruct (dr_result v); by rewrite bool_decide_true.
Qed.

(** The publisher of [new_world]. *)
Definition mock_publisher : DispatchPublisher := mk_publisher request_tx (Some response_rx) response_weak.

Lemma new_world_publisher version (rng : R) script sleeps :
  new_world version rng script sleeps = (mock_publisher, snd (new_world version rng script sleeps)).
Proof. reflexivity. Qed.

Lemma passes_start version (rng : R) (test : DispatchPublisher -> prog (MockWorld (R:=R)) ()) :
  runs_on mock_view (test mock_publisher) (view_start [] None) (fun _ _ => True) -> passes version rng test.
Proof.
  intros P. unfold passes. rewrite new_world_publisher.
  destruct (P _ (view_new version rng [] None)) as ([] & w' & E & _). by exists w'.
Qed.

Ltac spawns :=
  apply passes_start, runs_bind; eapply runs_some; [reflexivity|]; apply runs_bind.
Ltac joins :=
  apply runs_join with (publisher := mock_publisher); [assumption | reflexivity | reflexivity | vm_compute; lia |];
  intros self h; apply ends_turn.

(** The views at the actor's turns in the test of a dispatch result: what is left
    of the script, sent and queued. *)
Definition seen (script : list actor_statement) (out : list ClientToServer) (resp : list DispatchResult) : mview :=
  mk_mview (mk_chan resp (DISPATCH_QUEUE_LEN + 1) true 1) (mk_chan out 10 true 1) (chan_new 10)
    false false script false None true.

Definition script_done (b : bool) (v : mview) : Prop := b = false /\ v_script v = [] /\ v_failed v = false.

Lemma turn_done fuel n (self : ConnectionActor (W:=MockWorld (R:=R)) (V:=MockVerifier)) :
  ends (actor_loop (S fuel) (S n) response_rx tt self) (seen [] [] []) script_done.
Proof. apply ends_turn, ends_suspend. by split. Qed.

Lemma turn_checks fuel n (self : ConnectionActor (W:=MockWorld (R:=R)) (V:=MockVerifier)) v :
  ends (actor_loop (S fuel) (S (S n)) response_rx tt self)
    (seen [Server_recv (is_response_to v)] [response_message v] []) script_done.
Proof.
  apply ends_turn, ends_suspend. cbn [v_script put_in put_resp seen script_view v_out chan_poll_recv c_queue].
  rewrite response_matches. apply turn_done.
Qed.

Lemma turn_responds fuel n (self : ConnectionActor (W:=MockWorld (R:=R)) (V:=MockVerifier)) v :
  ends (actor_loop (S fuel) (S (S (S n))) response_rx tt self)
    (seen [Server_recv (is_response_to v)] [] [v]) script_done.
Proof.
  apply ends_turn, runs_retry_sent; [reflexivity | unfold chan_full; simpl; lia | apply turn_checks].
Qed.

Lemma response_script_ends fuel n v : entropy (R:=R) ->
  ends (prop_dispatch_response_forwards_any_result (S fuel) (4 + n) mock_publisher)
    (view_start (dispatch_response_script v) None) script_done.
Proof.
  intros Works. apply ends_bind. eapply runs_some; [reflexivity|].
  apply ends_actor with (publisher := mock_publisher); [assumption | reflexivity | reflexivity | vm_compute; lia |].
  intros self h. change (greeted _ _) with (seen (dispatch_response_script v) [Hello h] []).
  apply ends_turn, ends_suspend, turn_responds.
Qed.

(** C19. The tests of the actor pass, whatever a generator that works - one that
    never fails and never returns sixteen zero bytes - yields: asked to stop, or
    with the transport or the responder gone, it returns; a stop signal wins
    over whatever message was staged with it, nothing but the hello being sent
    before the transport is dropped; and every dispatch result the application
    gives reaches the server under its correlation identifier, as its payload or
    as the code of its error.  Four polls are enough. *)
Theorem actor_tests_pass fuel n version (rng : R) staged v (Works : entropy (R:=R)) (Hn : 4 <= n) :
  passes version rng (test_graceful_stop_signal (S fuel) n) /\
  passes version rng (test_graceful_stop_io (S fuel) n) /\
  passes version rng (test_graceful_stop_dispatch_response_stream (S fuel) n) /\
  passes version rng (fun p => test_race_shutdown_with_server_message (S fuel) n p staged) /\
  (let '(publisher, w) := new_world version rng (dispatch_response_script v) None in
   exists w', prop_dispatch_response_forwards_any_result (S fuel) n publisher w = Blocked w' /\
     mh_script (mock w') = [] /\ mh_failed (mock w') = false).
Proof.
  destruct n as [|[|[|[|n]]]]; [lia..|]. split_and!.
  - spawns. apply (runs_modify _ stop _ _ view_cancel). by joins.
  - spawns. apply (runs_modify _ close_server _ _ view_drop_server). by joins.
  - spawns. apply (runs_modify _ (fun v => put_resp (chan_drop_tx (v_resp v)) v) _ _ view_drop_responder).
    by joins.
  - spawns. apply (runs_modify _ stop _ _ view_cancel).
    apply runs_bind, runs_server_send; [done | vm_compute; lia |]. apply runs_bind. joins.
    simpl. split; [done|]. apply runs_bind, runs_server_recv. simpl.
    apply runs_bind, runs_ret, runs_bind, runs_server_recv. by apply runs_ret.
  - rewrite new_world_publisher.
    pose proof (response_script_ends fuel n v Works _ (view_new version rng _ None)) as E.
    destruct (prop_dispatch_response_forwards_any_result _ _ _ _) as [[] w'|w'|w']; [by destruct E | done|].
    destruct E as (_ & Es & Ef). by exists w'.
Qed.

(** The tests of [retry_send] pass: a send with room is not repeated, a closed
    transport ends it, and a full one is retried for exactly as long as the test
    does not cancel, here after [k] sleeps, and leaves the queue as it was. *)
Lemma retry_tests_pass fuel k version (rng : R) :
  passes version rng (fun _ => test_retry_send_success (S fuel)) /\
  passes version rng (fun _ => test_retry_send_aborts_on_closed_connection (S fuel)) /\
  let w := snd (new_world version rng [] (Some k)) in
  exists w', test_retry_send_retries_until_stopped fuel w =
      (if k <? fuel then Done tt w' else Blocked w') /\
    length (c_queue (mpsc_view (cr_out (sh_rest w')))) = 10.
Proof.
  split_and!.
  - apply passes_start, runs_bind, runs_retry_sent; [reflexivity | vm_compute; lia |].
    apply runs_bind, runs_server_recv. by apply runs_ret.
  - apply passes_start, runs_bind, (runs_modify _ close_server _ _ view_drop_server). by apply runs_retry_closed.
  - intros w. assert (E : ends (test_retry_send_retries_until_stopped fuel) (view_start [] (Some k))
      (fun b v => b = (k <? fuel) /\ length (c_queue (v_out v)) = 10)).
    { apply ends_bind, runs_fill; [done | vm_compute; lia | vm_compute; lia |]. intros l L.
      eapply ends_weaken; [apply (ends_retry_full fuel k); try done; unfold chan_full; simpl in *; lia|].
      by intros b v [-> ->]. }
    specialize (E w (view_new version rng [] (Some k))).
    destruct (test_retry_send_retries_until_stopped fuel w) as [[] w'|w'|w']; [| done |];
      destruct E as [<- L]; by exists w'.
Qed.

End ActorTestProperties.

(** *** Witness *)

Definition toy_payload_eq : EqDecision (@DispatchResponsePayload toy_proto) :=
  list_eq_dec (A:=u8).

(** A ping raced with the stop signal, and an error result. *)
Definition toy_result : @DispatchResult toy_proto := mk_dispatch_result (CorrelationId_new 7) (Err UnknownPayload).

Lemma actor_tests_pass_witness :
  @passes toy_proto fifo_mpsc () toy_version ()
    (fun p => @test_race_shutdown_with_server_message toy_proto toy_digest toy_uuid fifo_mpsc () toy_fixed_rng
      1 4 p (Ok Ping)) /\
  let '(publisher, w) := @new_world toy_proto fifo_mpsc () toy_version ()
    (@dispatch_response_script toy_proto toy_payload_eq toy_result) None in
  exists w', @prop_dispatch_response_forwards_any_result toy_proto toy_digest toy_uuid fifo_mpsc () toy_fixed_rng
      1 4 publisher w = Blocked w' /\ mh_script (mock w') = [] /\ mh_failed (mock w') = false.
Proof.
  destruct (@actor_tests_pass toy_proto toy_payload_eq toy_digest toy_uuid fifo_mpsc fifo_mpsc_laws () toy_fixed_rng
    0 4 toy_version () (Ok Ping) toy_result toy_entropy (le_n 4)) as (_ & _ & _ & A & B).
  split; [exact A | exact B].
Defined.
